(* ===== verification/_CoqProject ===== *)
-Q . S2P
Prelude.v
KernelApi.v
CharDev.v
Gmem.v
Gfifo.v
GfifoConc.v
Lifecycle.v
GenericAccess.v
Watchdog.v
KString.v
Firmware.v
Memloader.v
Led.v
LedBind.v
Logbuffer.v
Bpf.v
Netrelay.v
SmallDrivers.v
Libc.v
MemUtil.v
MemTools.v
Smemcap.v
Limitfs.v
Calamares.v
TestPrograms.v
RelayLog.v
GmemFiles.v
Platform.v
RelaySystem.v
