(* ===== verification/Prelude.v ===== *)
(** * Verification of the linux_device_driver repository: root file and prelude

    The repository is a set of Linux kernel modules: two families of character
    drivers (a global memory, gmem; a global fifo, gfifo), a register access
    layer, a watchdog driver, a firmware loader with a client that loads memory,
    led, logbuffer, uio, netlink and interrupt drivers, and the user-space tools and
    test programs of test_suite.  This library models the handlers of those modules
    and the programs as functions on explicit state and proves what they promise.

    ** How the program is modelled

    - C integers are [Z] at their width, with the conversions written out ([u32],
      [s64], ...).  The models are for an LP64 kernel; the 32-bit variants of the
      64-bit register accesses are modelled besides.  Where the code relies on
      signed arithmetic that cannot wrap, an overflow is undefined ([add_int]).
    - C arrays are lists of bytes; a load or store outside is [None], which a
      handler turns into [Undef] of the [run] monad.  [Block] is a task that sleeps
      for ever on a lock.  A theorem that says [= Done _] therefore says: the
      handler returns, makes no access outside its objects, and does not hang.
    - Kernel services the sources only call (user access, memcpy, fasync, timers,
      workqueues, ioremap, kobjects, device tree) are classes of operations with
      laws, or inputs that say what the kernel answered; the laws have instances,
      so that the theorems apply to concrete runs (the lemmas whose name ends in
      [_witness]).  Of [memcpy] only what is documented is used: a copy whose ranges do
      not overlap moves the bytes, and of any other only the size of the result is known.
    - A program of test_suite is a function of what its system calls answer (a list
      of answers where it calls in a loop); without an answer it waits.

    ** Files

    - Prelude (this file): integers, arrays, the [run] monad, tactics, hints.
    - KernelApi: [UserAccess], [Memcpy] and [FasyncApi] with their laws and
      instances; device-tree properties.
    - CharDev: [struct file] and the [llseek] every character driver has
      (gmem_llseek, gfifo_llseek).
    - Gmem: gmem/gmem.c, gmem_n/gmem_n.c, gmem_mutex/gmem_mutex.c; the abstract
      device is an array with a position.
    - Gfifo: the six fifo drivers (gfifo, gfifo_nonblock, gfifo_async,
      gfifo_platform, gfifo_misc, gfifo_misc_n) as instances of one set of handlers
      over a configuration; the abstract device is a bounded byte queue
      ([FifoSpec]), the interface [FifoDriver].
    - GfifoConc: the same read, write and ioctl as program points of any number of
      tasks, with mutex, wait queues, task states and signals, as a step relation.
    - Lifecycle: module init and exit, probe and remove of the character drivers
      against a kernel of resources.
    - GenericAccess: generic/generic_access.c and generic/dev_common.h: masked
      register accesses over an [IoBus], with hooks and locks.
    - Watchdog: watchdog/watchdog.c over GenericAccess: commands, timer, workqueue,
      probe and remove, and the race of the timer handler with the commands of any
      number of tasks.
    - KString: [sprintf], [simple_strtol] and C strings of the kernel library.
    - Firmware: memloader/firmware.c and .h: the load state machine over callbacks
      ([CallbacksOk] is the contract of firmware.h), attributes, configuration.
    - Memloader: memloader/memloader_core.c as a client of Firmware.
    - Led: led/led_support.c and the brightness functions of led/led_dev.c, direct
      and through the workqueue; LedBind: parsing, probe and remove of led/led_dev.c.
    - Logbuffer: logbuffer/logbuffer.c: the header, the mapping, the line reader.
    - Bpf: the filter machine and the two filter programs of test_suite/netrelay;
      Netrelay: relay.c, dhcp_filter.c, eoe_filter.c: buffers, packet edits, the
      forwarding loop, interfaces, command line.
    - SmallDrivers: uio/uio.c, netlink/netlink.c, simple_interrupt/simple_interrup.c.
    - Libc: number parsing and printing of the C library, and the loop that moves a
      whole block with partial reads or writes ([transfer]).
    - MemUtil: test_suite/memutil; MemTools: asciidump.c, clearmem.c,
      dump_memory_to_file.c; Smemcap: smemcap.c with a reference tar reader.
    - Limitfs: limitfs.c over an interface of system calls ([FsApi], [FsLaws]).
    - Calamares: calamares_bin.c: copying, terminal settings and signals, pid file.
    - TestPrograms: gfifo_poll.c, gfifo_poll_n.c, gfifo_signal.c and netlink.c as
      clients of the driver models, file_reader.c.
    - RelayLog: the log function of relay.c and the packet dumps of the two relays.
    - GmemFiles: the method tables of the gmem drivers behind system calls on open files;
      [Implements] is what a driver promises, the client theorem is proved against it.
    - Platform: the three platform fifo drivers on the platform bus, a step relation.
    - RelaySystem: the start of the relay, the filter on its socket and the forwarding
      thread put together.

    ** What the theorems show

    - Functional refinement: gmem reads and writes are positioned accesses of an
      array; each fifo driver is a bounded queue (of a read that leaves more than it
      delivers, and so moves the rest with an overlapping [memcpy], only the length of
      the rest is promised); the watchdog commands implement an abstract watchdog on
      hardware that may ignore a write; a memory load copies exactly a prefix of the
      file, all of it unless another thread stopped the load or a block was refused;
      register writes are what later reads return; LED requests set a panel of lamps,
      directly or, where calls do not overlap, through the workqueue; the relay sends
      every packet of a length it can edit once, edited as its relay promises.
    - Concurrency: mutual exclusion, no lost wake-up, and linearizability of the
      fifo under every schedule; the watchdog timer obeys starts and stops of any number
      of tasks, as long as a start does not overlap a stop; a load returns with its lock free whatever other
      threads store.
    - Resources: module load and probe are all or nothing, and exit or remove undoes
      them, where the code does so.
    - Round trips and bounds: write then read, show and store of attributes, seeks,
      the progress percentage, VLAN edits, saving and loading memory regions, the
      archive of smemcap read by a tar reader, the memory dump read back.
    - Tools: limitfs keeps its books under writes; calamares leaves the terminal as it
      found it when SIGCONT only reaches it stopped, and copies every byte.
    - Drivers and clients together: what the test programs report of a device is what
      its driver holds; the SIGIO program prints the lines sent one at a time; the
      netlink program and driver exchange their messages.
    - Whole systems: any sequence of system calls on the gmem drivers gives what files on
      arrays give; the platform fifo drivers keep their resources in order whatever the
      bus does; the relay sends on exactly the packets its filter describes, which keeps
      the EoE relay inside its buffer; the DHCP filter is the tcpdump program of its
      comment behind a VLAN tag, without IPv6.
    - Where the code does not do what it means to, the theorem states what it does:
      the mutex a faulting gmem_mutex write keeps, the overlapping memcpy of
      gfifo_read, the truncated seek offset, ignored cdev_add errors, leaked probe
      objects, the 64-bit read of 32-bit kernels that is always 0, the watchdog's
      dead workqueue and stale flag, firmware loads that fail and report success,
      page loads that repeat the first block, LED requests lost between overlapping
      calls, watchdog starts lost to an overlapping stop, register writes that differ
      from the header file, the log header whose end wraps, the entry limitfs counts twice, the
      terminal settings lost on SIGCONT, the epoll that asks for no event, the row the
      DHCP packet dump leaves out.

    ** Bounds and fuel

    The write loop of a load has one unit of fuel per byte of the file: every turn
    writes at least one byte ([write_loop_rule]).  The page loop has one per byte of
    the call plus one per page ([page_loop_all]).  [udigits] has 64, enough for 64
    bits in base 2.  The chunk loop of the logbuffer has the size of the region over
    the size of a chunk, plus two; a filter program jumps only forward, so its length
    is enough ([bpf_run]); the worker of the LEDs has the length of its queue; the
    dump of a memory range has its length; a path of limitfs grows with every level,
    so MAX_PATH levels are enough ([__get_dir_size]); the tar reader any number not
    below that of the members.  Loops over answers are structural.  A fuel that ran out
    would be [Block], which the theorems exclude.

    ** Not modelled

    Messages and debug output (printk, dev_dbg, the verbose and usage texts of the
    tools; the packet dumps of the relay are modelled), delays, module parameters read
    only by messages, the tables that register methods where they carry no logic, and generic/kernel_compat.h, macros that choose
    between kernel versions at compile time. *)

From stdpp Require Export base tactics list list_numbers gmap sets strings.
From Stdlib Require Export ZArith Lia.

#[global] Open Scope Z_scope.

(** ** C integers

    All models are for an LP64 kernel: [int] has 32 bits, [long], pointers,
    [size_t] and [loff_t] have 64.  A conversion to a [w]-bit unsigned type is a
    reduction modulo [2^w]; a conversion to a signed type is the two's complement
    value of that residue. *)
Definition uwrap (w x : Z) : Z := x mod 2 ^ w.
Definition u8 : Z → Z := uwrap 8.
Definition u16 : Z → Z := uwrap 16.
Definition u32 : Z → Z := uwrap 32.
Definition u64 : Z → Z := uwrap 64.

Definition swrap (w x : Z) : Z :=
  let r := uwrap w x in if r <? 2 ^ (w - 1) then r else r - 2 ^ w.
Definition s8 : Z → Z := swrap 8.
Definition s32 : Z → Z := swrap 32.
Definition s64 : Z → Z := swrap 64.

(** Values of [enum]-like error numbers of [errno.h] used by the sources; the
    kernel returns them negated. *)
Definition EIO : Z := 5.
Definition EAGAIN : Z := 11.
Definition ENOMEM : Z := 12.
Definition EFAULT : Z := 14.
Definition EBUSY : Z := 16.
Definition ENODEV : Z := 19.
Definition EINVAL : Z := 22.
Definition ERESTARTSYS : Z := 512.

(** ** Byte arrays

    A C array is a list of its bytes.  Loads and stores name the range they
    touch and are [None] when the range leaves the array: a handler that returns
    [Some _] made only in-bounds accesses. *)
Definition load_bytes (m : list Z) (off n : Z) : option (list Z) :=
  if (0 <=? off) && (0 <=? n) && (off + n <=? Z.of_nat (length m))
  then Some (take (Z.to_nat n) (drop (Z.to_nat off) m)) else None.

Definition splice (m : list Z) (off : nat) (bs : list Z) : list Z :=
  take off m ++ bs ++ drop (off + length bs) m.

Definition store_bytes (m : list Z) (off : Z) (bs : list Z) : option (list Z) :=
  if (0 <=? off) && (off + Z.of_nat (length bs) <=? Z.of_nat (length m))
  then Some (splice m (Z.to_nat off) bs) else None.

(** ** Running a handler

    [Done a]: the handler returned [a].  [Block]: the calling task sleeps in the
    handler (on a mutex or a wait queue) and control did not come back.
    [Undef]: the handler made an access outside an object. *)
Inductive run (A : Type) : Type :=
| Done (a : A)
| Block
| Undef.
Arguments Done {A} a.
Arguments Block {A}.
Arguments Undef {A}.

#[global] Instance run_ret : MRet run := λ A a, Done a.
#[global] Instance run_bind : MBind run := λ A B f m,
  match m with Done a => f a | Block => Block | Undef => Undef end.

Definition access {A} (o : option A) : run A :=
  match o with Some a => Done a | None => Undef end.

(** Signed [int] arithmetic: an overflow is undefined. *)
Definition add_int (a b : Z) : run Z :=
  if (- 2147483648 <=? a + b) && (a + b <? 2147483648) then Done (a + b) else Undef.
Definition mul_int (a b : Z) : run Z :=
  if (- 2147483648 <=? a * b) && (a * b <? 2147483648) then Done (a * b) else Undef.

(** A sequence that returned: so did its first part. *)
Lemma bind_Done {A B} (m : run A) (f : A → run B) b :
  m ≫= f = Done b → ∃ a, m = Done a ∧ f a = Done b.
Proof. destruct m; simpl; [eauto|done..]. Qed.

(** [memset(m, 0, sizeof m)] on a whole array. *)
Definition zeros (n : nat) : list Z := replicate n 0.

(** ** Tactics *)

(** Turn every decided boolean comparison of the context and the goal into the
    proposition it stands for. *)
Ltac bool_to_prop :=
  repeat match goal with
  | H : (_ && _)%bool = true |- _ => apply andb_prop in H; destruct H
  | H : (_ && _)%bool = false |- _ => apply andb_false_iff in H
  | H : (_ || _)%bool = true |- _ => apply orb_true_iff in H
  | H : (_ || _)%bool = false |- _ => apply orb_false_iff in H; destruct H
  | H : negb _ = true |- _ => apply negb_true_iff in H
  | H : negb _ = false |- _ => apply negb_false_iff in H
  | H : (_ =? _) = true |- _ => apply Z.eqb_eq in H
  | H : (_ =? _) = false |- _ => apply Z.eqb_neq in H
  | H : (_ <? _) = true |- _ => apply Z.ltb_lt in H
  | H : (_ <? _) = false |- _ => apply Z.ltb_ge in H
  | H : (_ <=? _) = true |- _ => apply Z.leb_le in H
  | H : (_ <=? _) = false |- _ => apply Z.leb_gt in H
  end.

(** Split on the first [if] of the goal, keeping the decided condition. *)
Ltac split_if :=
  match goal with
  | |- context [if ?b then _ else _] =>
      lazymatch type of b with
      | bool => let E := fresh "E" in destruct b eqn:E
      | _ => let E := fresh "E" in destruct b as [E | E]
      end
  end; bool_to_prop.

Ltac split_if_in H :=
  match type of H with
  | context [if ?b then _ else _] =>
      lazymatch type of b with
      | bool => let E := fresh "E" in destruct b eqn:E
      | _ => let E := fresh "E" in destruct b as [E | E]
      end
  end; bool_to_prop.

(** Decide the condition of the first [if] of the goal by arithmetic. *)
Ltac if_true :=
  match goal with
  | |- context [if ?b then _ else _] =>
      let E := fresh in assert (b = true) as E by (bool_to_prop; lia || done); rewrite E; clear E
  end.
Ltac if_false :=
  match goal with
  | |- context [if ?b then _ else _] =>
      let E := fresh in assert (b = false) as E by (bool_to_prop; lia || done); rewrite E; clear E
  end.

Create HintDb driver discriminated.

(** ** Lemmas on C integers *)
Lemma uwrap_range w x : 0 <= w → 0 <= uwrap w x < 2 ^ w.
Proof. intros. apply Z.mod_pos_bound. lia. Qed.

Lemma uwrap_id w x : 0 <= x < 2 ^ w → uwrap w x = x.
Proof. apply Z.mod_small. Qed.

Lemma u8_range x : 0 <= u8 x < 256.
Proof. apply (uwrap_range 8). lia. Qed.
Lemma u32_range x : 0 <= u32 x < 4294967296.
Proof. apply (uwrap_range 32). lia. Qed.
Lemma u64_range x : 0 <= u64 x < 18446744073709551616.
Proof. apply (uwrap_range 64). lia. Qed.
Lemma u8_id x : 0 <= x < 256 → u8 x = x.
Proof. apply (uwrap_id 8). Qed.
Lemma u32_id x : 0 <= x < 4294967296 → u32 x = x.
Proof. apply (uwrap_id 32). Qed.
Lemma u64_id x : 0 <= x < 18446744073709551616 → u64 x = x.
Proof. apply (uwrap_id 64). Qed.

Lemma swrap_id w x : 0 < w → - 2 ^ (w - 1) <= x < 2 ^ (w - 1) → swrap w x = x.
Proof.
  intros Hw Hx. unfold swrap, uwrap.
  assert (2 ^ w = 2 * 2 ^ (w - 1)) as Hp.
  { rewrite <- Z.pow_succ_r by lia. f_equal. lia. }
  destruct (Z_lt_le_dec x 0).
  - rewrite <- (Z_mod_plus_full x 1 (2 ^ w)), Z.mod_small by lia.
    if_false. lia.
  - rewrite Z.mod_small by lia. if_true. done.
Qed.

Lemma s32_id x : - 2147483648 <= x < 2147483648 → s32 x = x.
Proof. apply (swrap_id 32). lia. Qed.
Lemma s64_id x : - 9223372036854775808 <= x < 9223372036854775808 → s64 x = x.
Proof. apply (swrap_id 64). lia. Qed.

Lemma add_int_done a b : - 2147483648 <= a + b < 2147483648 → add_int a b = Done (a + b).
Proof. intros. unfold add_int. by if_true. Qed.

(** ** Lemmas on byte arrays *)
Section Arrays.
Implicit Types (m bs : list Z) (off n : Z).

Lemma load_bytes_Some m off n bs :
  load_bytes m off n = Some bs ↔
  0 <= off ∧ 0 <= n ∧ off + n <= Z.of_nat (length m) ∧
  bs = take (Z.to_nat n) (drop (Z.to_nat off) m).
Proof.
  unfold load_bytes. split.
  - intros H. split_if_in H; simplify_eq; intuition lia.
  - intros (?&?&?&->). if_true. done.
Qed.

Lemma store_bytes_Some m off bs m' :
  store_bytes m off bs = Some m' ↔
  0 <= off ∧ off + Z.of_nat (length bs) <= Z.of_nat (length m) ∧
  m' = splice m (Z.to_nat off) bs.
Proof.
  unfold store_bytes. split.
  - intros H. split_if_in H; simplify_eq; intuition lia.
  - intros (?&?&->). if_true. done.
Qed.

Lemma length_splice m i bs :
  (i + length bs <= length m)%nat → length (splice m i bs) = length m.
Proof.
  intros. unfold splice. rewrite !length_app, length_take, length_drop. lia.
Qed.

Lemma take_splice m i bs : (i <= length m)%nat → take i (splice m i bs) = take i m.
Proof.
  intros. unfold splice. rewrite take_app_le by (rewrite length_take; lia).
  rewrite take_take. f_equal. lia.
Qed.

Lemma take_add_splice m i bs :
  (i <= length m)%nat → take (i + length bs) (splice m i bs) = take i m ++ bs.
Proof.
  intros. unfold splice. rewrite app_assoc.
  rewrite take_app_le by (rewrite length_app, length_take; lia).
  apply take_ge. rewrite length_app, length_take. lia.
Qed.

Lemma drop_splice m i bs :
  (i <= length m)%nat → drop i (splice m i bs) = bs ++ drop (i + length bs) m.
Proof.
  intros. unfold splice. rewrite drop_app_ge by (rewrite length_take; lia).
  rewrite length_take. replace (i - i `min` length m)%nat with 0%nat by lia. done.
Qed.

Lemma load_store_same m off bs m' :
  store_bytes m off bs = Some m' →
  load_bytes m' off (Z.of_nat (length bs)) = Some bs.
Proof.
  intros (?&?&->)%store_bytes_Some. apply load_bytes_Some.
  rewrite length_splice by lia. repeat split; try lia.
  rewrite drop_splice by lia. rewrite Nat2Z.id. by rewrite take_app_length.
Qed.

Lemma load_bytes_length m off n bs :
  load_bytes m off n = Some bs → Z.of_nat (length bs) = n.
Proof.
  intros (?&?&?&->)%load_bytes_Some. rewrite length_take, length_drop. lia.
Qed.

Lemma store_bytes_length m off bs m' :
  store_bytes m off bs = Some m' → length m' = length m.
Proof. intros (?&?&->)%store_bytes_Some. apply length_splice. lia. Qed.

(** In-bounds accesses are defined. *)
Lemma load_bytes_in m off n :
  0 <= off → 0 <= n → off + n <= Z.of_nat (length m) →
  load_bytes m off n = Some (take (Z.to_nat n) (drop (Z.to_nat off) m)).
Proof. intros. by apply load_bytes_Some. Qed.

Lemma store_bytes_in m off bs :
  0 <= off → off + Z.of_nat (length bs) <= Z.of_nat (length m) →
  store_bytes m off bs = Some (splice m (Z.to_nat off) bs).
Proof. intros. by apply store_bytes_Some. Qed.

(** A load names a middle part of the array; a store inside the part leaves the
    rest. *)
Lemma load_bytes_split m off n bs :
  load_bytes m off n = Some bs →
  ∃ pre post, m = pre ++ bs ++ post ∧ off = Z.of_nat (length pre) ∧ n = Z.of_nat (length bs).
Proof.
  intros H. pose proof (load_bytes_length _ _ _ _ H). apply load_bytes_Some in H as (?&?&?&Hb).
  exists (take (Z.to_nat off) m), (drop (Z.to_nat n) (drop (Z.to_nat off) m)).
  split; [by rewrite Hb, take_drop, take_drop|]. rewrite length_take. lia.
Qed.

Lemma load_bytes_middle pre bs post :
  load_bytes (pre ++ bs ++ post) (Z.of_nat (length pre)) (Z.of_nat (length bs)) = Some bs.
Proof.
  apply load_bytes_Some. rewrite !length_app, !Nat2Z.id, drop_app_length, take_app_length. split_and!; lia || done.
Qed.

Lemma load_bytes_sub m off n bs i j :
  load_bytes m off n = Some bs → 0 <= i → 0 <= j → i + j <= n → load_bytes m (off + i) j = load_bytes bs i j.
Proof.
  intros H Hi Hj Hn. pose proof (load_bytes_length _ _ _ _ H) as Hl. apply load_bytes_Some in H as (?&?&?&Hb).
  rewrite (load_bytes_in bs) by lia. apply load_bytes_Some. split_and!; try lia.
  rewrite Hb, skipn_firstn_comm, drop_drop, take_take. f_equal; [lia|]. f_equal. lia.
Qed.

Lemma splice_middle pre l post i bs :
  (i + length bs <= length l)%nat →
  splice (pre ++ l ++ post) (length pre + i) bs = pre ++ splice l i bs ++ post.
Proof.
  intros Hi. unfold splice. rewrite take_app_add', (take_app_le l) by lia.
  replace (length pre + i + length bs)%nat with (length pre + (i + length bs))%nat by lia.
  rewrite drop_app_add', (drop_app_le l) by lia. by rewrite <- !app_assoc.
Qed.

Lemma store_bytes_sub m off n l i bs :
  load_bytes m off n = Some l → 0 <= i → i + Z.of_nat (length bs) <= n →
  ∃ m', store_bytes m (off + i) bs = Some m' ∧ length m' = length m ∧
    load_bytes m' off n = Some (splice l (Z.to_nat i) bs).
Proof.
  intros (pre & post & -> & -> & ->)%load_bytes_split Hi Hn.
  eexists. split; [apply store_bytes_in; rewrite ?length_app; lia|].
  replace (Z.to_nat (Z.of_nat (length pre) + i)) with (length pre + Z.to_nat i)%nat by lia.
  rewrite splice_middle by lia. pose proof (length_splice l (Z.to_nat i) bs ltac:(lia)) as Hs.
  split; [by rewrite !length_app, Hs|]. rewrite <- Hs. apply load_bytes_middle.
Qed.
End Arrays.

Lemma length_zeros n : length (zeros n) = n.
Proof. apply length_replicate. Qed.

#[export] Hint Resolve load_bytes_length store_bytes_length length_splice
  length_zeros u32_range u64_range u8_range : driver.
