(* ===== verification/KernelApi.v ===== *)
(** * Kernel services the drivers are clients of

    The drivers of [src/] call code that is not part of the repository: the
    user-access functions, the architecture's [memcpy] and the [fasync]
    machinery.  Each is an interface here: a class of operations, a class of the
    laws the kernel documents for them, and a concrete instance that shows the
    laws can hold and lets handlers be evaluated. *)

From S2P Require Import Prelude.

(** ** User memory: [copy_to_user], [copy_from_user], [get_user] *)
Class UserAccess := {
  umem : Type;
  (** the bytes of the user range [[a, a + n)], when all of it is accessible *)
  ubytes : umem → Z → Z → option (list Z);
  (** [copy_to_user(a, bs, length bs)]: memory afterwards, bytes not copied *)
  copy_to_user : umem → Z → list Z → umem * Z;
  (** [copy_from_user(dst, a, n)]: the [n] bytes [dst] holds afterwards (what
      could not be copied is padded with zeros), bytes not copied *)
  copy_from_user : umem → Z → Z → list Z * Z;
}.

Class UserAccessOk (UA : UserAccess) := {
  cfu_length u a n : 0 <= n → Z.of_nat (length (copy_from_user u a n).1) = n;
  cfu_left u a n : 0 <= n → 0 <= (copy_from_user u a n).2 <= n;
  cfu_ok u a n : 0 <= n → (copy_from_user u a n).2 = 0 →
    ubytes u a n = Some (copy_from_user u a n).1;
  cfu_accessible u a n bs : 0 <= n → ubytes u a n = Some bs →
    copy_from_user u a n = (bs, 0);
  ctu_left u a bs : 0 <= (copy_to_user u a bs).2 <= Z.of_nat (length bs);
  ctu_ok u a bs : (copy_to_user u a bs).2 = 0 →
    ubytes (copy_to_user u a bs).1 a (Z.of_nat (length bs)) = Some bs;
}.

(** A user address space as a finite map from accessible addresses to bytes. *)
Module FlatUser.
Fixpoint grab (u : gmap Z Z) (a : Z) (n : nat) : list Z :=
  match n with
  | O => []
  | S n' => match u !! a with
            | Some b => b :: grab u (a + 1) n'
            | None => []
            end
  end.

Fixpoint put (u : gmap Z Z) (a : Z) (bs : list Z) : gmap Z Z * Z :=
  match bs with
  | [] => (u, 0)
  | b :: bs' => match u !! a with
                | Some _ => put (<[a := b]> u) (a + 1) bs'
                | None => (u, Z.of_nat (length bs))
                end
  end.

Definition flat_ubytes (u : gmap Z Z) (a n : Z) : option (list Z) :=
  let p := grab u a (Z.to_nat n) in
  if Z.of_nat (length p) =? n then Some p else None.

Definition flat_cfu (u : gmap Z Z) (a n : Z) : list Z * Z :=
  let p := grab u a (Z.to_nat n) in
  let left := n - Z.of_nat (length p) in (p ++ zeros (Z.to_nat left), left).

#[export] Instance flat_user : UserAccess := {|
  umem := gmap Z Z; ubytes := flat_ubytes;
  copy_to_user := put; copy_from_user := flat_cfu |}.

Lemma grab_length u a n : (length (grab u a n) <= n)%nat.
Proof.
  revert a. induction n as [|n IH]; intros a; simpl; [lia|].
  destruct (u !! a); simpl; [|lia]. specialize (IH (a + 1)). lia.
Qed.

Lemma grab_insert_lt u a b a' n : a < a' → grab (<[a := b]> u) a' n = grab u a' n.
Proof.
  revert a'. induction n as [|n IH]; intros a' Ha; [done|]. simpl.
  rewrite lookup_insert_ne by lia. by rewrite IH by lia.
Qed.

Lemma put_range u a bs : 0 <= (put u a bs).2 <= Z.of_nat (length bs).
Proof.
  revert u a. induction bs as [|b bs IH]; intros u a; cbn [put length]; [simpl; lia|].
  destruct (u !! a); simpl; [|lia]. specialize (IH (<[a:=b]> u) (a + 1)). lia.
Qed.

Lemma put_lookup_lt u a bs a' : a' < a → (put u a bs).1 !! a' = u !! a'.
Proof.
  revert u a. induction bs as [|b bs IH]; intros u a Ha; [done|]. simpl.
  destruct (u !! a); [|done]. rewrite IH by lia. by rewrite lookup_insert_ne by lia.
Qed.

Lemma put_grab u a bs :
  (put u a bs).2 = 0 → grab (put u a bs).1 a (length bs) = bs.
Proof.
  revert u a. induction bs as [|b bs IH]; intros u a; cbn [put length]; [done|].
  destruct (u !! a); simpl; [|lia]. intros H.
  rewrite put_lookup_lt, lookup_insert_eq by lia. by rewrite IH.
Qed.

#[export] Instance flat_user_ok : UserAccessOk flat_user.
Proof.
  split; simpl; unfold flat_cfu, flat_ubytes; simpl.
  - intros u a n Hn. pose proof (grab_length u a (Z.to_nat n)).
    rewrite length_app, length_zeros. lia.
  - intros u a n Hn. pose proof (grab_length u a (Z.to_nat n)). lia.
  - intros u a n Hn H. if_true. rewrite H. by rewrite app_nil_r.
  - intros u a n bs Hn H. split_if_in H; simplify_eq.
    rewrite E, Z.sub_diag. simpl. by rewrite app_nil_r.
  - apply put_range.
  - intros u a bs H. rewrite Nat2Z.id, put_grab by done. if_true. done.
Qed.

(** An address space for evaluations: a user buffer of four bytes at 100 and
    one at 200. *)
Definition demo_user : gmap Z Z :=
  list_to_map (zip (seqZ 100 4 ++ seqZ 200 4) [1; 2; 3; 4; 0; 0; 0; 0]).
End FlatUser.

(** ** [memcpy] inside one array

    [memcpy m dst src n] is what the destination, the [n] bytes at [m + dst], holds
    after [memcpy(m + dst, m + src, n)].  The C standard and the kernel document which
    bytes these are for disjoint ranges only ([memmove] is the function for
    overlapping ones): of an overlapping call nothing is assumed but that the
    destination holds [n] bytes of some value. *)
Class Memcpy := memcpy : list Z → nat → nat → nat → list Z.

Class MemcpyDoc (M : Memcpy) := {
  memcpy_length m dst src n : (dst + n <= length m)%nat → (src + n <= length m)%nat →
    length (memcpy m dst src n) = n;
  memcpy_disjoint m dst src n : (dst + n <= length m)%nat → (src + n <= length m)%nat →
    (dst + n <= src ∨ src + n <= dst)%nat → memcpy m dst src n = take n (drop src m);
}.

Module MemcpyImpl.
(** Byte after byte, lowest address first. *)
Fixpoint copy_up (n : nat) (m : list Z) (dst src : nat) : list Z :=
  match n with
  | O => m
  | S n' => match m !! src with
            | Some b => copy_up n' (<[dst := b]> m) (S dst) (S src)
            | None => m
            end
  end.

(** Byte after byte, highest address first. *)
Fixpoint copy_down (n : nat) (m : list Z) (dst src : nat) : list Z :=
  match n with
  | O => m
  | S n' => match m !! (src + n')%nat with
            | Some b => copy_down n' (<[(dst + n')%nat := b]> m) dst src
            | None => m
            end
  end.

Definition up : Memcpy := λ m dst src n, take n (drop dst (copy_up n m dst src)).
Definition down : Memcpy := λ m dst src n, take n (drop dst (copy_down n m dst src)).

Lemma length_copy_up n m dst src : length (copy_up n m dst src) = length m.
Proof.
  revert m dst src. induction n as [|n IH]; intros m dst src; [done|]. simpl.
  destruct (m !! src); [|done]. by rewrite IH, length_insert.
Qed.

Lemma length_copy_down n m dst src : length (copy_down n m dst src) = length m.
Proof.
  revert m. induction n as [|n IH]; intros m; [done|]. simpl.
  destruct (m !! _); [|done]. by rewrite IH, length_insert.
Qed.

(** What an upward copy leaves at index [j], for a move towards lower
    addresses or between disjoint ranges. *)
Lemma lookup_copy_up n m dst src j :
  (dst + n <= length m)%nat → (src + n <= length m)%nat →
  (dst <= src ∨ src + n <= dst)%nat →
  copy_up n m dst src !! j =
    if decide (dst <= j < dst + n)%nat then m !! (src + (j - dst))%nat else m !! j.
Proof.
  revert m dst src. induction n as [|n IH]; intros m dst src H1 H2 H3; simpl.
  { case_decide; [lia|done]. }
  destruct (lookup_lt_is_Some_2 m src) as [b Hb]; [lia|]. rewrite Hb.
  rewrite IH by (rewrite ?length_insert; lia).
  repeat case_decide; try lia.
  - rewrite list_lookup_insert_ne by lia. f_equal. lia.
  - assert (j = dst) as -> by lia. rewrite list_lookup_insert_eq by lia.
    rewrite Nat.sub_diag, Nat.add_0_r. done.
  - by rewrite list_lookup_insert_ne by lia.
Qed.

Lemma lookup_copy_down n m dst src j :
  (dst + n <= length m)%nat → (src + n <= length m)%nat →
  (dst + n <= src ∨ src + n <= dst)%nat →
  copy_down n m dst src !! j =
    if decide (dst <= j < dst + n)%nat then m !! (src + (j - dst))%nat else m !! j.
Proof.
  revert m. induction n as [|n IH]; intros m H1 H2 H3; simpl.
  { case_decide; [lia|done]. }
  destruct (lookup_lt_is_Some_2 m (src + n)%nat) as [b Hb]; [lia|]. rewrite Hb.
  rewrite IH by (rewrite ?length_insert; lia).
  repeat case_decide; try lia.
  - rewrite list_lookup_insert_ne by lia. done.
  - assert (j = dst + n)%nat as -> by lia. rewrite list_lookup_insert_eq by lia.
    rewrite <- Hb. f_equal. lia.
  - by rewrite list_lookup_insert_ne by lia.
Qed.

(** The destination of an array that holds the moved bytes. *)
Lemma moved_bytes (m m' : list Z) dst src n :
  length m' = length m → (dst + n <= length m)%nat → (src + n <= length m)%nat →
  (∀ j, m' !! j = if decide (dst <= j < dst + n)%nat then m !! (src + (j - dst))%nat else m !! j) →
  take n (drop dst m') = take n (drop src m).
Proof.
  intros Hl Hd Hs Hm. apply list_eq. intros j. destruct (decide (j < n)%nat).
  - rewrite !lookup_take_lt, !lookup_drop, Hm by lia. case_decide; [|lia]. f_equal. lia.
  - rewrite !lookup_take_ge by lia. done.
Qed.

#[export] Instance up_doc : MemcpyDoc up.
Proof.
  split; intros m dst src n; unfold memcpy, up.
  - intros. rewrite length_take, length_drop, length_copy_up. lia.
  - intros. apply (moved_bytes m); [apply length_copy_up|lia|lia|]. intros j. apply lookup_copy_up; lia.
Qed.

#[export] Instance down_doc : MemcpyDoc down.
Proof.
  split; intros m dst src n; unfold memcpy, down.
  - intros. rewrite length_take, length_drop, length_copy_down. lia.
  - intros. apply (moved_bytes m); [apply length_copy_down|lia|lia|]. intros j. apply lookup_copy_down; lia.
Qed.
End MemcpyImpl.

(** ** Asynchronous notification: [fasync_helper], [kill_fasync]

    [fasync_helper filp on q] registers or removes the open file [filp] on a
    driver's queue: the queue afterwards and the return value (negative when the
    registration could not be allocated). *)
Class FasyncApi := fasync_helper : nat → bool → gset nat → gset nat * Z.

Class FasyncOk (F : FasyncApi) := {
  fasync_off filp q : (fasync_helper filp false q).1 = q ∖ {[filp]};
  fasync_on filp q : 0 <= (fasync_helper filp true q).2 →
    (fasync_helper filp true q).1 = {[filp]} ∪ q;
  fasync_fail filp q : (fasync_helper filp true q).2 < 0 →
    (fasync_helper filp true q).1 = q;
}.

(** The [band] argument of [kill_fasync]. *)
Inductive band := POLL_IN | POLL_OUT.

(** A [SIGIO] sent to the owner of an open file. *)
Record sigio := { sig_file : nat; sig_band : band }.

Definition kill_fasync (q : gset nat) (b : band) : list sigio :=
  (λ f, {| sig_file := f; sig_band := b |}) <$> elements q.

Module FasyncImpl.
#[export] Instance set_fasync : FasyncApi := λ filp on q,
  if on then ({[filp]} ∪ q, if decide (filp ∈ q) then 0 else 1)
  else (q ∖ {[filp]}, if decide (filp ∈ q) then 1 else 0).

#[export] Instance set_fasync_ok : FasyncOk set_fasync.
Proof.
  split; intros filp q; unfold fasync_helper, set_fasync; simpl; [done|done|].
  case_decide; lia.
Qed.
End FasyncImpl.

(** ** The device tree: a node is what [of_get_property] answers for it *)
Record of_node := { of_prop : string → option (list Z) }.

(** [be32_to_cpup], [be64_to_cpup]: the value of big-endian bytes *)
Definition be_value (l : list Z) : Z := foldl (λ a b, a * 256 + b) 0 l.
Definition of_be32 (l : list Z) : run Z := bs ← access (load_bytes l 0 4); mret (be_value bs).
Definition of_be64 (l : list Z) : run Z := bs ← access (load_bytes l 0 8); mret (be_value bs).

(** ** Physical memory

    A map from the addresses that were written to bytes; the others read as 0. *)

(** [memcpy] to a mapping of the physical range from [a]. *)
Fixpoint put_phys (a : Z) (bs : list Z) (m : gmap Z Z) : gmap Z Z :=
  match bs with [] => m | b :: bs' => put_phys (a + 1) bs' (<[a := b]> m) end.

(** The [n] bytes from [a]. *)
Definition phys_bytes (m : gmap Z Z) (a : Z) (n : nat) : list Z :=
  (λ i, default 0 (m !! (a + Z.of_nat i))) <$> seq 0 n.

Lemma put_phys_app a l1 l2 m :
  put_phys a (l1 ++ l2) m = put_phys (a + Z.of_nat (length l1)) l2 (put_phys a l1 m).
Proof.
  revert a m. induction l1 as [|b l1 IH]; intros a m; simpl.
  - f_equal. lia.
  - rewrite IH. f_equal. lia.
Qed.

Lemma put_phys_lookup a bs m x :
  put_phys a bs m !! x =
    if decide (a <= x < a + Z.of_nat (length bs)) then bs !! Z.to_nat (x - a) else m !! x.
Proof.
  revert a m. induction bs as [|b bs IH]; intros a m; simpl.
  - by rewrite decide_False by lia.
  - rewrite IH. destruct (decide (x = a)) as [->|Hne].
    + rewrite decide_False, decide_True, Z.sub_diag by lia. by rewrite lookup_insert_eq.
    + rewrite lookup_insert_ne by done. destruct (decide (a + 1 <= x < _)).
      * rewrite decide_True by lia. replace (x - a) with (Z.succ (x - (a + 1))) by lia.
        by rewrite Z2Nat.inj_succ by lia.
      * by rewrite decide_False by lia.
Qed.

(** The next [k] bytes after the first [n]. *)
Lemma put_phys_next base bs m n k :
  0 <= n → 0 <= k → n + k <= Z.of_nat (length bs) →
  put_phys (base + n) (take (Z.to_nat k) (drop (Z.to_nat n) bs)) (put_phys base (take (Z.to_nat n) bs) m) =
    put_phys base (take (Z.to_nat (n + k)) bs) m.
Proof.
  intros. rewrite Z2Nat.inj_add by lia. rewrite <- take_take_drop, put_phys_app, length_take.
  do 2 f_equal. lia.
Qed.

Lemma length_phys_bytes m a n : length (phys_bytes m a n) = n.
Proof. unfold phys_bytes. by rewrite length_fmap, length_seq. Qed.

Lemma phys_bytes_lookup m a n i : (i < n)%nat → phys_bytes m a n !! i = Some (default 0 (m !! (a + Z.of_nat i))).
Proof. intros Hi. unfold phys_bytes. by rewrite list_lookup_fmap, lookup_seq_lt. Qed.

Lemma phys_bytes_sub m a n i j :
  (i + j <= n)%nat → take j (drop i (phys_bytes m a n)) = phys_bytes m (a + Z.of_nat i) j.
Proof.
  intros H. apply list_eq_same_length with j; rewrite ?length_take, ?length_drop, ?length_phys_bytes; [lia..|].
  intros k x y Hk. rewrite lookup_take_lt, lookup_drop, !phys_bytes_lookup by lia.
  replace (a + Z.of_nat (i + k)) with (a + Z.of_nat i + Z.of_nat k) by lia. congruence.
Qed.

(** What was put is what is there. *)
Lemma phys_bytes_put a bs m : phys_bytes (put_phys a bs m) a (length bs) = bs.
Proof.
  apply list_eq_same_length with (length bs); rewrite ?length_phys_bytes; [done..|].
  intros k x y Hk. rewrite phys_bytes_lookup, put_phys_lookup, decide_True by lia.
  replace (Z.to_nat (a + Z.of_nat k - a)) with k by lia. intros Hx Hy. rewrite Hy in Hx. simpl in Hx. congruence.
Qed.

Lemma phys_bytes_app m a i j : phys_bytes m a (i + j) = phys_bytes m a i ++ phys_bytes m (a + Z.of_nat i) j.
Proof.
  rewrite <- (phys_bytes_sub m a (i + j) i j) by lia. rewrite <- (take_drop i (phys_bytes m a (i + j))) at 1.
  f_equal; [|rewrite take_ge; [done|rewrite length_drop, length_phys_bytes; lia]].
  rewrite <- (drop_0 (phys_bytes m a (i + j))), phys_bytes_sub by lia. by rewrite Z.add_0_r.
Qed.
