(* ===== verification/CharDev.v ===== *)
(** * Open files and seeking in the character drivers

    [struct file] as far as the handlers use it, the [llseek] method that every
    gmem and gfifo driver carries, and the contract of a seek. *)

From S2P Require Import Prelude.

(** [filp]: the position, the open flags, and the device [private_data] points
    to, as an index into the driver's array of devices. *)
Record file := { f_pos : Z; f_flags : Z; private_data : nat }.

Definition set_pos (p : Z) (f : file) : file :=
  {| f_pos := p; f_flags := f_flags f; private_data := private_data f |}.

Definition O_NONBLOCK : Z := 2048.
Definition nonblocking (f : file) : bool := negb (Z.land (f_flags f) O_NONBLOCK =? 0).

(** The drivers differ only in the bound: [GMEM_SIZE] or [GFIFO_SIZE].  The
    addition [filp->f_pos + offset] is a 64-bit signed one. *)
Definition llseek (bound : Z) (f : file) (offset orig : Z) : file * Z :=
  if orig =? 0 then
    if offset <? 0 then (f, - EINVAL)
    else if bound <? u32 offset then (f, - EINVAL)
    else (set_pos (u32 offset) f, u32 offset)
  else if orig =? 1 then
    if bound <? s64 (f_pos f + offset) then (f, - EINVAL)
    else if s64 (f_pos f + offset) <? 0 then (f, - EINVAL)
    else (set_pos (s64 (f_pos f + offset)) f, s64 (f_pos f + offset))
  else (f, - EINVAL).

(** What a position-based device promises: the position stays inside it. *)
Definition pos_ok (bound : Z) (f : file) : Prop := 0 <= f_pos f <= bound.

(** The abstract seek: the target position computed in unbounded integers. *)
Definition seek_target (f : file) (offset orig : Z) : option Z :=
  if orig =? 0 then Some offset else if orig =? 1 then Some (f_pos f + offset) else None.

Definition spec_llseek (bound : Z) (f : file) (offset orig : Z) : file * Z :=
  match seek_target f offset orig with
  | Some t => if (0 <=? t) && (t <=? bound) then (set_pos t f, t) else (f, - EINVAL)
  | None => (f, - EINVAL)
  end.

Lemma llseek_preserves bound f offset orig :
  pos_ok bound f → pos_ok bound (llseek bound f offset orig).1.
Proof.
  intros H. unfold llseek, pos_ok in *. pose proof (u32_range offset).
  repeat split_if; simpl; try done; lia.
Qed.

Lemma llseek_private bound f offset orig :
  private_data (llseek bound f offset orig).1 = private_data f.
Proof. unfold llseek. by repeat split_if. Qed.

Lemma s64_range x : - 9223372036854775808 <= s64 x < 9223372036854775808.
Proof. unfold s64, swrap. pose proof (uwrap_range 64 x). destruct (_ <? _) eqn:E; bool_to_prop; lia. Qed.

(** The relative seek is exact: the 64-bit wrap-around lands on a negative
    position, which is refused. *)
Lemma s64_add_nonneg a b :
  0 <= a <= 4611686018427387904 →
  - 9223372036854775808 <= b < 9223372036854775808 →
  s64 (a + b) = a + b ∨ (s64 (a + b) < 0 ∧ 9223372036854775808 <= a + b).
Proof.
  intros Ha Hb. destruct (Z_lt_le_dec (a + b) 9223372036854775808).
  - left. apply s64_id. lia.
  - right. unfold s64, swrap, uwrap. rewrite Z.mod_small by lia. if_false. lia.
Qed.

(** For offsets below [2^32] the code is the abstract seek. *)
Lemma llseek_small bound f offset orig :
  0 <= bound < 4294967296 → pos_ok bound f →
  - 9223372036854775808 <= offset < 4294967296 →
  llseek bound f offset orig = spec_llseek bound f offset orig.
Proof.
  intros Hb Hf Ho. unfold llseek, spec_llseek, seek_target, pos_ok in *.
  split_if; [|split_if].
  - split_if; [if_false; done|]. rewrite u32_id by lia.
    split_if; [if_false; done|]. if_true. done.
  - destruct (s64_add_nonneg (f_pos f) offset) as [-> | [? ?]]; [lia|lia| |].
    + split_if; [if_false; done|]. split_if; [if_false; done|]. if_true. done.
    + if_false. if_true. if_false. done.
  - done.
Qed.

(** The offset an absolute seek looks at: its low 32 bits, once it is not
    negative. *)
Definition seek_offset (offset orig : Z) : Z :=
  if (orig =? 0) && (0 <=? offset) then offset mod 4294967296 else offset.

(** For every 64-bit offset the code is the abstract seek to that offset. *)
Lemma llseek_exact bound f offset orig :
  0 <= bound < 4294967296 → pos_ok bound f →
  - 9223372036854775808 <= offset < 9223372036854775808 →
  llseek bound f offset orig = spec_llseek bound f (seek_offset offset orig) orig.
Proof.
  intros Hb Hf Ho. unfold llseek, spec_llseek, seek_target, seek_offset, pos_ok in *.
  split_if; [|split_if]; simpl.
  - split_if; [if_false; if_false; done|]. rewrite (proj2 (Z.leb_le 0 offset)) by lia.
    unfold u32, uwrap. change (2 ^ 32) with 4294967296.
    pose proof (Z.mod_pos_bound offset 4294967296 ltac:(lia)).
    split_if; [if_false; done|]. if_true. done.
  - destruct (s64_add_nonneg (f_pos f) offset) as [-> | [? ?]]; [lia|lia| |].
    + split_if; [if_false; done|]. split_if; [if_false; done|]. if_true. done.
    + if_false. if_true. if_false. done.
  - done.
Qed.

#[export] Hint Resolve llseek_preserves : driver.

(** [llseek], as every gmem and gfifo driver has it, never moves the position
    outside [[0, bound]], whatever offset and origin it is given, wrap-around of
    the 64-bit sum included; and for offsets below [2^32] it is exactly the
    abstract seek, which accepts a target inside the device and refuses any
    other with [-EINVAL]. *)
Theorem llseek_refines_spec bound f offset orig :
  0 <= bound < 4294967296 → pos_ok bound f →
  pos_ok bound (llseek bound f offset orig).1 ∧
  (- 9223372036854775808 <= offset < 4294967296 →
   llseek bound f offset orig = spec_llseek bound f offset orig).
Proof. auto using llseek_preserves, llseek_small. Qed.

Lemma llseek_refines_spec_witness :
  let f := {| f_pos := 4000; f_flags := 0; private_data := 0 |} in
  llseek 4096 f 96 1 = (set_pos 4096 f, 4096) ∧ llseek 4096 f 97 1 = (f, - EINVAL).
Proof.
  intros f. split.
  - rewrite (proj2 (llseek_refines_spec 4096 f 96 1 ltac:(lia) ltac:(unfold pos_ok; simpl; lia)))
      by lia. reflexivity.
  - rewrite (proj2 (llseek_refines_spec 4096 f 97 1 ltac:(lia) ltac:(unfold pos_ok; simpl; lia)))
      by lia. reflexivity.
Defined.

(** The bound check of an absolute seek is made on the low 32 bits of the
    offset: an offset of [2^32 + k] with [k] inside the device is accepted and
    silently moves the file to [k], where the abstract seek refuses it. *)
Theorem llseek_truncates_offset bound f k :
  0 <= k <= bound → bound < 4294967296 →
  llseek bound f (4294967296 + k) 0 = (set_pos k f, k) ∧
  spec_llseek bound f (4294967296 + k) 0 = (f, - EINVAL).
Proof.
  intros Hk Hb. unfold llseek, spec_llseek, seek_target. simpl.
  assert (u32 (4294967296 + k) = k) as ->.
  { unfold u32, uwrap. change (2 ^ 32) with 4294967296.
    rewrite Z.add_mod, Z.mod_same, Z.add_0_l, Z.mod_mod, Z.mod_small by lia. done. }
  if_false. if_false. if_false. done.
Qed.

Lemma llseek_truncates_offset_witness :
  let f := {| f_pos := 0; f_flags := 0; private_data := 0 |} in
  llseek 256 f 4294967306 0 = (set_pos 10 f, 10).
Proof. intros f. apply (llseek_truncates_offset 256 f 10); lia. Defined.
