(* ===== verification/Gmem.v ===== *)
(** * The global-memory drivers: gmem, gmem_n, gmem_mutex

    A device is an array of [GMEM_SIZE] bytes read and written at the file
    position.  [gmem] has one device, [gmem_n] an array of sixteen with the file
    bound to one of them at open, [gmem_mutex] one device behind a mutex. *)

From S2P Require Import Prelude KernelApi CharDev.

Definition GMEM_SIZE : Z := 4096.
Definition MEM_CLEAR : Z := 1.
Definition DEVICE_NUM : nat := 16.

Record gmem_dev := { mem : list Z }.

Definition gmem_ok (d : gmem_dev) : Prop := Z.of_nat (length (mem d)) = GMEM_SIZE.

(** The device as [kzalloc] leaves it. *)
Definition gmem_zeroed : gmem_dev := {| mem := zeros (Z.to_nat GMEM_SIZE) |}.

(** [count > GMEM_SIZE - p ? GMEM_SIZE - p : count], the subtraction in
    [unsigned long], the result in [unsigned int]. *)
Definition clip (room count : Z) : Z := if room <? count then u32 room else count.

(** ** One device *)
Section Device.
Context {UA : UserAccess}.

Definition gmem_ioctl (d : gmem_dev) (cmd : Z) : gmem_dev * Z :=
  if cmd =? MEM_CLEAR then (gmem_zeroed, 0) else (d, - EINVAL).

(** Result: return value, user memory, [*ppos]. *)
Definition gmem_read (d : gmem_dev) (u : umem) (buf size ppos : Z) : run (Z * umem * Z) :=
  let p := u64 ppos in
  let count := u32 size in
  if GMEM_SIZE <=? p then Done (0, u, ppos)
  else
    let count := clip (u64 (GMEM_SIZE - p)) count in
    bs ← access (load_bytes (mem d) p count);
    let '(u', rest) := copy_to_user u buf bs in
    if negb (rest =? 0) then Done (- EFAULT, u', ppos)
    else Done (count, u', s64 (ppos + count)).

(** Result: return value, device, [*ppos]. *)
Definition gmem_write (d : gmem_dev) (u : umem) (buf size ppos : Z) : run (Z * gmem_dev * Z) :=
  let p := u64 ppos in
  let count := u32 size in
  if GMEM_SIZE <=? p then Done (0, d, ppos)
  else
    let count := clip (u64 (GMEM_SIZE - p)) count in
    let '(bs, rest) := copy_from_user u buf count in
    m ← access (store_bytes (mem d) p bs);
    if negb (rest =? 0) then Done (- EFAULT, {| mem := m |}, ppos)
    else Done (count, {| mem := m |}, s64 (ppos + count)).

Definition gmem_llseek : file → Z → Z → file * Z := llseek GMEM_SIZE.

(** [gmem_open] binds the file to the only device, [gmem_devp]. *)
Definition gmem_open (f : file) : file * Z :=
  ({| f_pos := f_pos f; f_flags := f_flags f; private_data := 0 |}, 0).

Definition gmem_release (f : file) : Z := 0.

(** ** gmem_n: sixteen devices *)

(** [container_of(inode->i_cdev, struct gmem_dev, cdev)] is the device whose
    [cdev] the inode names, here by its index. *)
Definition gmem_n_open (i_cdev : nat) (f : file) : file * Z :=
  ({| f_pos := f_pos f; f_flags := f_flags f; private_data := i_cdev |}, 0).

Definition gmem_n_read (devs : list gmem_dev) (f : file) (u : umem) (buf size ppos : Z)
    : run (Z * umem * Z) :=
  d ← access (devs !! private_data f); gmem_read d u buf size ppos.

Definition gmem_n_write (devs : list gmem_dev) (f : file) (u : umem) (buf size ppos : Z)
    : run (Z * list gmem_dev * Z) :=
  d ← access (devs !! private_data f);
  '(ret, d', pos) ← gmem_write d u buf size ppos;
  Done (ret, <[private_data f := d']> devs, pos).

Definition gmem_n_ioctl (devs : list gmem_dev) (f : file) (cmd : Z)
    : run (Z * list gmem_dev) :=
  d ← access (devs !! private_data f);
  let '(d', ret) := gmem_ioctl d cmd in
  Done (ret, <[private_data f := d']> devs).

Definition gmem_n_llseek : file → Z → Z → file * Z := llseek GMEM_SIZE.
Definition gmem_n_release (f : file) : Z := 0.

(** ** gmem_mutex: one device behind a mutex *)

Record gmem_mutex_dev := { gm_dev : gmem_dev; gm_locked : bool }.

(** [mutex_lock]: the caller sleeps while the mutex is held. *)
Definition mutex_lock (d : gmem_mutex_dev) : run gmem_mutex_dev :=
  if gm_locked d then Block else Done {| gm_dev := gm_dev d; gm_locked := true |}.
Definition mutex_unlock (d : gmem_mutex_dev) : gmem_mutex_dev :=
  {| gm_dev := gm_dev d; gm_locked := false |}.

Definition gmem_mutex_ioctl (d : gmem_mutex_dev) (cmd : Z) : run (Z * gmem_mutex_dev) :=
  if cmd =? MEM_CLEAR then
    d ← mutex_lock d;
    let d := {| gm_dev := gmem_zeroed; gm_locked := gm_locked d |} in
    Done (0, mutex_unlock d)
  else Done (- EINVAL, d).

Definition gmem_mutex_read (d : gmem_mutex_dev) (u : umem) (buf size ppos : Z)
    : run (Z * gmem_mutex_dev * umem * Z) :=
  let p := u64 ppos in
  let count := u32 size in
  if GMEM_SIZE <=? p then Done (0, d, u, ppos)
  else
    let count := clip (u64 (GMEM_SIZE - p)) count in
    d ← mutex_lock d;
    bs ← access (load_bytes (mem (gm_dev d)) p count);
    let '(u', rest) := copy_to_user u buf bs in
    let '(ret, pos) := if negb (rest =? 0) then (- EFAULT, ppos)
                       else (count, s64 (ppos + count)) in
    Done (ret, mutex_unlock d, u', pos).

(** The [-EFAULT] return is taken with the mutex still held. *)
Definition gmem_mutex_write (d : gmem_mutex_dev) (u : umem) (buf size ppos : Z)
    : run (Z * gmem_mutex_dev * Z) :=
  let p := u64 ppos in
  let count := u32 size in
  if GMEM_SIZE <=? p then Done (0, d, ppos)
  else
    let count := clip (u64 (GMEM_SIZE - p)) count in
    d ← mutex_lock d;
    let '(bs, rest) := copy_from_user u buf count in
    m ← access (store_bytes (mem (gm_dev d)) p bs);
    let d := {| gm_dev := {| mem := m |}; gm_locked := gm_locked d |} in
    if negb (rest =? 0) then Done (- EFAULT, d, ppos)
    else Done (count, mutex_unlock d, s64 (ppos + count)).

Definition gmem_mutex_open (f : file) : file * Z :=
  ({| f_pos := f_pos f; f_flags := f_flags f; private_data := 0 |}, 0).
Definition gmem_mutex_release (f : file) : Z := 0.
Definition gmem_mutex_llseek : file → Z → Z → file * Z := llseek GMEM_SIZE.
End Device.

(** ** Specification: positioned reads and writes of a fixed-size array *)
Definition spec_pread (m : list Z) (p n : Z) : list Z :=
  take (Z.to_nat n) (drop (Z.to_nat p) m).

Definition spec_pwrite (m : list Z) (p : Z) (bs : list Z) : list Z :=
  splice m (Z.to_nat p) (take (length m - Z.to_nat p) bs).

(** The number of bytes a transfer of [size] at [p] may move. *)
Definition span (p size : Z) : Z := Z.min size (GMEM_SIZE - p).

(** A whole read and a whole write of the specification, in unbounded integers:
    nothing at or past the end; otherwise the bytes that fit, the position moved
    by their number, and [-EFAULT] with the position kept on a user fault. *)
Definition spec_read `{UserAccess} (d : gmem_dev) (u : umem) (buf size p : Z) : Z * umem * Z :=
  if GMEM_SIZE <=? p then (0, u, p)
  else
    let '(u', rest) := copy_to_user u buf (spec_pread (mem d) p size) in
    if rest =? 0 then (span p size, u', p + span p size) else (- EFAULT, u', p).

Definition spec_write `{UserAccess} (d : gmem_dev) (u : umem) (buf size p : Z)
    : Z * gmem_dev * Z :=
  if GMEM_SIZE <=? p then (0, d, p)
  else
    let '(bs, rest) := copy_from_user u buf (span p size) in
    let d' := {| mem := spec_pwrite (mem d) p bs |} in
    if rest =? 0 then (span p size, d', p + span p size) else (- EFAULT, d', p).

Section Spec.
Context {UA : UserAccess} {UAok : UserAccessOk UA}.
Implicit Types (d : gmem_dev) (u : umem).

Lemma clip_min room count : 0 <= room < 4294967296 → clip room count = Z.min count room.
Proof. intros. unfold clip. split_if; [rewrite u32_id by lia; lia | lia]. Qed.

Lemma gmem_count p size :
  0 <= p < GMEM_SIZE → 0 <= size < 4294967296 →
  clip (u64 (GMEM_SIZE - p)) (u32 size) = span p size.
Proof.
  unfold GMEM_SIZE, span. intros. rewrite u64_id, u32_id, clip_min by lia. done.
Qed.

Lemma gmem_read_in d u buf size ppos :
  gmem_ok d → 0 <= ppos < GMEM_SIZE → 0 <= size < 4294967296 →
  gmem_read d u buf size ppos =
    (let bs := spec_pread (mem d) ppos (span ppos size) in
     let '(u', rest) := copy_to_user u buf bs in
     Done (if rest =? 0 then (span ppos size, u', ppos + span ppos size)
           else (- EFAULT, u', ppos))).
Proof.
  intros Hd Hp Hs. unfold gmem_read, gmem_ok, spec_pread in *.
  assert (0 <= span ppos size <= GMEM_SIZE - ppos) by (unfold span; lia).
  rewrite (u64_id ppos) by (unfold GMEM_SIZE in *; lia). if_false.
  rewrite gmem_count by lia.
  rewrite load_bytes_in by lia. simpl.
  destruct (copy_to_user _ _ _) as [u' rest]. destruct (rest =? 0); simpl; [|done].
  rewrite s64_id by (unfold GMEM_SIZE in *; lia). done.
Qed.

Lemma gmem_write_in d u buf size ppos :
  gmem_ok d → 0 <= ppos < GMEM_SIZE → 0 <= size < 4294967296 →
  gmem_write d u buf size ppos =
    (let '(bs, rest) := copy_from_user u buf (span ppos size) in
     let d' := {| mem := splice (mem d) (Z.to_nat ppos) bs |} in
     Done (if rest =? 0 then (span ppos size, d', ppos + span ppos size)
           else (- EFAULT, d', ppos))).
Proof.
  intros Hd Hp Hs. unfold gmem_write, gmem_ok in *.
  assert (0 <= span ppos size <= GMEM_SIZE - ppos) by (unfold span; lia).
  rewrite (u64_id ppos) by (unfold GMEM_SIZE in *; lia). if_false.
  rewrite gmem_count by lia.
  pose proof (cfu_length u buf (span ppos size)) as Hl.
  destruct (copy_from_user _ _ _) as [bs rest]. simpl in Hl.
  rewrite store_bytes_in by lia. simpl. destruct (rest =? 0); simpl; [|done].
  rewrite s64_id by (unfold GMEM_SIZE in *; lia). done.
Qed.

(** Asking for more than fits is the same as asking for what fits. *)
Lemma spec_pread_span d p size :
  gmem_ok d → 0 <= p → spec_pread (mem d) p (span p size) = spec_pread (mem d) p size.
Proof.
  unfold gmem_ok, spec_pread, span. intros Hd Hp.
  destruct (Z.min_spec size (GMEM_SIZE - p)) as [[_ ->]|[? ->]]; [done|].
  rewrite !take_ge; [done|rewrite length_drop; lia..].
Qed.

Lemma spec_pwrite_fits d p bs :
  gmem_ok d → 0 <= p → Z.of_nat (length bs) <= GMEM_SIZE - p →
  spec_pwrite (mem d) p bs = splice (mem d) (Z.to_nat p) bs.
Proof.
  unfold gmem_ok, spec_pwrite. intros. rewrite (take_ge bs) by lia. done.
Qed.

Lemma gmem_write_ok d u buf size ppos ret d' pos :
  gmem_ok d → gmem_write d u buf size ppos = Done (ret, d', pos) → gmem_ok d'.
Proof.
  unfold gmem_write, gmem_ok. intros Hd H. split_if_in H; [by simplify_eq|].
  destruct (copy_from_user _ _ _) as [bs rest].
  destruct (store_bytes _ _ _) as [m|] eqn:Em; simpl in H; [|done].
  apply store_bytes_length in Em.
  split_if_in H; simplify_eq; simpl; lia.
Qed.
End Spec.

(** ** Theorems *)
Section Theorems.
Context {UA : UserAccess} {UAok : UserAccessOk UA}.
Implicit Types (d : gmem_dev) (u : umem).

(** Reads and writes at every position. *)
Lemma gmem_array d u buf size ppos :
  gmem_ok d → 0 <= size < 4294967296 → 0 <= ppos < 9223372036854775808 →
  gmem_read d u buf size ppos = Done (spec_read d u buf size ppos) ∧
  gmem_write d u buf size ppos = Done (spec_write d u buf size ppos).
Proof.
  intros Hd Hs Hp. unfold spec_read, spec_write. destruct (GMEM_SIZE <=? ppos) eqn:E.
  { unfold gmem_read, gmem_write. rewrite u64_id, E by lia. done. }
  bool_to_prop. rewrite gmem_read_in, gmem_write_in by (done || lia).
  rewrite spec_pread_span by (done || lia). cbv zeta.
  assert (0 <= span ppos size <= GMEM_SIZE - ppos) as Hsp by (unfold span; lia).
  pose proof (cfu_length u buf (span ppos size) (proj1 Hsp)) as Hl.
  destruct (copy_to_user _ _ _) as [u' r1], (copy_from_user _ _ _) as [bs r2].
  simpl in Hl. rewrite spec_pwrite_fits by (done || lia).
  split; by repeat split_if.
Qed.

(** C4: [gmem_read] and [gmem_write] refine positioned reads and writes of a
    [GMEM_SIZE]-byte array at every non-negative position and for every size
    the system call layer passes: no access leaves the array, a transfer at or
    past the end moves nothing and returns 0, otherwise exactly the bytes that
    fit are moved and the position advances by their number, and a user fault
    gives [-EFAULT] with the position unchanged. *)
Theorem gmem_refines_array d u buf size ppos :
  gmem_ok d → 0 <= size < 4294967296 → 0 <= ppos < 9223372036854775808 →
  gmem_read d u buf size ppos = Done (spec_read d u buf size ppos) ∧
  gmem_write d u buf size ppos = Done (spec_write d u buf size ppos).
Proof. apply gmem_array. Qed.

(** Data written through [gmem_write] is what a later [gmem_read] of the
    same size at the same position delivers to user space, whatever buffer it
    is read into; the two calls return the same count. *)
Theorem gmem_write_read_roundtrip d u v wbuf rbuf size ppos d' u' n m q q' :
  gmem_ok d → 0 <= size < 4294967296 → 0 <= ppos < GMEM_SIZE →
  gmem_write d u wbuf size ppos = Done (n, d', q) → 0 <= n →
  gmem_read d' v rbuf size ppos = Done (m, u', q') → 0 <= m →
  m = n ∧ q' = q ∧ n = span ppos size ∧ ubytes u' rbuf m = ubytes u wbuf n.
Proof.
  intros Hd Hs Hp HW Hn HR Hm.
  pose proof (gmem_write_ok _ _ _ _ _ _ _ _ Hd HW) as Hd'.
  rewrite gmem_write_in in HW by done. rewrite gmem_read_in in HR by done.
  assert (0 <= span ppos size <= GMEM_SIZE - ppos) as Hsp by (unfold span; lia).
  pose proof (cfu_length u wbuf (span ppos size) (proj1 Hsp)) as Hl.
  pose proof (cfu_ok u wbuf (span ppos size) (proj1 Hsp)) as Hok.
  destruct (copy_from_user _ _ _) as [bs r1]. simpl in *.
  pose proof (ctu_ok v rbuf (spec_pread (mem d') ppos (span ppos size))) as Hc.
  destruct (copy_to_user _ _ _) as [w r2]. simpl in *.
  split_if_in HW; [|by simplify_eq]. split_if_in HR; [|by simplify_eq].
  subst r1 r2. simplify_eq. rewrite Hok by done.
  assert (spec_pread (splice (mem d) (Z.to_nat ppos) bs) ppos (span ppos size) = bs) as Hbs.
  { unfold spec_pread, gmem_ok in *. rewrite drop_splice by lia.
    rewrite <- Hl, Nat2Z.id. apply take_app_length. }
  simpl in Hc. rewrite Hbs, Hl in Hc. auto.
Qed.

(** The sixteen devices of gmem_n are separate: a write or a clear through
    a file changes only the device the file was bound to when it was opened,
    so what any other open file reads is unaffected. *)
Theorem gmem_n_isolation devs i j f g u buf size ppos :
  i ≠ j →
  let f := (gmem_n_open i f).1 in
  let g := (gmem_n_open j g).1 in
  (∀ ret devs' q, gmem_n_write devs f u buf size ppos = Done (ret, devs', q) →
     ∀ v b s p, gmem_n_read devs' g v b s p = gmem_n_read devs g v b s p) ∧
  (∀ cmd ret devs', gmem_n_ioctl devs f cmd = Done (ret, devs') →
     ∀ v b s p, gmem_n_read devs' g v b s p = gmem_n_read devs g v b s p).
Proof.
  intros Hij f' g'. subst f' g'. unfold gmem_n_read, gmem_n_write, gmem_n_ioctl. simpl.
  split.
  - intros ret devs' q H. destruct (devs !! i) as [d|]; simpl in H; [|done].
    destruct (gmem_write _ _ _ _ _) as [[[r d'] q']| |]; simpl in H; simplify_eq.
    intros. by rewrite list_lookup_insert_ne.
  - intros cmd ret devs' H. destruct (devs !! i) as [d|]; simpl in H; [|done].
    destruct (gmem_ioctl d cmd) as [d' r]. simplify_eq.
    intros. by rewrite list_lookup_insert_ne.
Qed.

(** C40: gmem_mutex loses its mutex on a faulting write: when [copy_from_user]
    cannot copy everything the handler returns [-EFAULT] with the mutex held,
    and from then on every read and write inside the device and every clear
    sleeps for ever. *)
Theorem gmem_mutex_write_fault_deadlocks (d : gmem_mutex_dev) u buf size ppos :
  gmem_ok (gm_dev d) → gm_locked d = false →
  0 <= size < 4294967296 → 0 <= ppos < GMEM_SIZE →
  (copy_from_user u buf (span ppos size)).2 ≠ 0 →
  ∃ d' : gmem_mutex_dev, gmem_mutex_write d u buf size ppos = Done (- EFAULT, d', ppos) ∧
    gm_locked d' = true ∧
    (∀ v b s p, 0 <= p < GMEM_SIZE → gmem_mutex_read d' v b s p = Block) ∧
    (∀ v b s p, 0 <= p < GMEM_SIZE → gmem_mutex_write d' v b s p = Block) ∧
    gmem_mutex_ioctl d' MEM_CLEAR = Block.
Proof.
  intros Hd Hl Hs Hp Hf. unfold gmem_ok in Hd.
  assert (0 <= span ppos size <= GMEM_SIZE - ppos) as Hsp by (unfold span; lia).
  pose proof (cfu_length u buf (span ppos size) (proj1 Hsp)) as Hlen.
  unfold gmem_mutex_write at 1. rewrite (u64_id ppos) by (unfold GMEM_SIZE in *; lia).
  if_false. rewrite gmem_count by done. unfold mutex_lock at 1. rewrite Hl. simpl.
  destruct (copy_from_user _ _ _) as [bs r]. simpl in *.
  rewrite store_bytes_in by lia. simpl.
  replace (r =? 0) with false by (symmetry; by apply Z.eqb_neq). simpl.
  eexists. split; [done|]. split; [done|]. split_and!; [| |done];
    intros v b s p Hp'; unfold gmem_mutex_read, gmem_mutex_write;
    rewrite (u64_id p) by (unfold GMEM_SIZE in *; lia); if_false; done.
Qed.
End Theorems.

(** ** Evaluation on a concrete user address space *)
Import FlatUser.

Definition demo_written : gmem_dev :=
  {| mem := splice (mem gmem_zeroed) 8 [1; 2; 3; 4] |}.

Lemma gmem_refines_array_witness :
  gmem_read (UA := FlatUser.flat_user) gmem_zeroed demo_user 200 4 4094 =
    Done (spec_read (H := FlatUser.flat_user) gmem_zeroed demo_user 200 4 4094) ∧
  (spec_read (H := FlatUser.flat_user) gmem_zeroed demo_user 200 4 4094).1.1 = 2.
Proof.
  split; [|vm_compute; reflexivity].
  apply (λ A B C, proj1 (gmem_refines_array (UA := FlatUser.flat_user) gmem_zeroed demo_user 200 4 4094 A B C));
    [vm_compute; reflexivity | lia | lia].
Defined.

Lemma gmem_write_read_roundtrip_witness :
  ∃ u', gmem_read (UA := FlatUser.flat_user) demo_written demo_user 200 4 8 = Done (4, u', 12)
    ∧ ubytes (UserAccess := FlatUser.flat_user) u' 200 4 = Some [1; 2; 3; 4].
Proof.
  eexists. split; [vm_compute; reflexivity|].
  transitivity (ubytes (UserAccess := FlatUser.flat_user) demo_user 100 4);
    [|vm_compute; reflexivity].
  apply (gmem_write_read_roundtrip (UA := FlatUser.flat_user) gmem_zeroed demo_user demo_user
    100 200 4 8 demo_written _ 4 4 12 12);
    [vm_compute; reflexivity | lia | unfold GMEM_SIZE; lia | vm_compute; reflexivity | lia
    | vm_compute; reflexivity | lia].
Defined.

Lemma gmem_n_isolation_witness :
  let f := {| f_pos := 0; f_flags := 0; private_data := 0 |} in
  let f3 := (gmem_n_open 3 f).1 in
  let devs := replicate DEVICE_NUM gmem_zeroed in
  gmem_n_write (UA := FlatUser.flat_user) devs f3 demo_user 100 4 8
    = Done (4, <[3%nat := demo_written]> devs, 12) ∧
  gmem_n_read (UA := FlatUser.flat_user) (<[3%nat := demo_written]> devs)
    (gmem_n_open 5 f).1 demo_user 200 4 8
  = gmem_n_read (UA := FlatUser.flat_user) devs (gmem_n_open 5 f).1 demo_user 200 4 8.
Proof.
  intros f f3 devs.
  assert (gmem_n_write (UA := FlatUser.flat_user) devs f3 demo_user 100 4 8
    = Done (4, <[3%nat := demo_written]> devs, 12)) as W by (vm_compute; reflexivity).
  split; [exact W|].
  apply (proj1 (gmem_n_isolation (UA := FlatUser.flat_user) devs 3 5 f f demo_user 100 4 8
    ltac:(lia)) _ _ _ W).
Defined.

Lemma gmem_mutex_write_fault_deadlocks_witness :
  let d := {| gm_dev := gmem_zeroed; gm_locked := false |} in
  ∃ d', gmem_mutex_write (UA := FlatUser.flat_user) d demo_user 102 8 0 = Done (- EFAULT, d', 0) ∧
    gmem_mutex_ioctl d' MEM_CLEAR = Block.
Proof.
  intros d.
  destruct (gmem_mutex_write_fault_deadlocks (UA := FlatUser.flat_user) d demo_user 102 8 0)
    as (d' & H & _ & _ & _ & B);
    [vm_compute; reflexivity | reflexivity | lia | unfold GMEM_SIZE; lia
    | vm_compute; discriminate |].
  exists d'. split; [exact H | exact B].
Defined.
