(* ===== verification/Gfifo.v ===== *)
(** * The global-fifo drivers

    Six drivers keep a byte queue in an array: gfifo, gfifo_nonblock,
    gfifo_async, gfifo_platform, gfifo_misc and gfifo_misc_n.  Their handlers are
    the same code with a different size, with or without [fasync] notification;
    the handlers are written once over a configuration and each driver is an
    instance with the method table it registers.  This file has the handlers run
    by one task; their interleaving is in GfifoConc. *)

From S2P Require Import Prelude KernelApi CharDev.

Record gfifo_cfg := { GFIFO_SIZE : Z; has_fasync : bool }.

(** The data part of [struct gfifo_dev]; the mutex and the wait queues are in the
    concurrent model. *)
Record gfifo_dev := { mem : list Z; cur_len : Z; async_queue : gset nat }.

(** What a handler does to other tasks: wake-ups and signals, in order. *)
Inductive kevent := WakeReaders | WakeWriters | Sigio (s : sigio).

Definition MEM_CLEAR : Z := 1.
Definition POLLIN : Z := 1.
Definition POLLOUT : Z := 4.
Definition POLLRDNORM : Z := 64.
Definition POLLWRNORM : Z := 256.

Definition gfifo_zeroed (cfg : gfifo_cfg) : gfifo_dev :=
  {| mem := zeros (Z.to_nat (GFIFO_SIZE cfg)); cur_len := 0; async_queue := ∅ |}.

Section Handlers.
Context {UA : UserAccess} {MC : Memcpy} {FA : FasyncApi}.
Variable cfg : gfifo_cfg.
Implicit Types (d : gfifo_dev) (u : umem).

(** [if (dev->async_queue) kill_fasync(&dev->async_queue, SIGIO, band)] *)
Definition notify d (b : band) : list kevent :=
  if has_fasync cfg then Sigio <$> kill_fasync (async_queue d) b else [].

(** [memcpy(dev->mem, dev->mem + count, n)], both ranges inside the array: it fills the
    first [n] bytes. *)
Definition shift_down (m : list Z) (count n : Z) : option (list Z) :=
  if (0 <=? count) && (0 <=? n) && (count + n <=? Z.of_nat (length m))
  then Some (splice m 0 (memcpy m 0 (Z.to_nat count) (Z.to_nat n))) else None.

(** The critical section of [gfifo_read] after the wait loop. *)
Definition read_copy d u (buf size : Z) : run (Z * gfifo_dev * umem * list kevent) :=
  let count := u32 size in
  let count := if cur_len d <? count then u32 (cur_len d) else count in
  bs ← access (load_bytes (mem d) 0 count);
  let '(u', rest) := copy_to_user u buf bs in
  if negb (rest =? 0) then Done (- EFAULT, d, u', [])
  else
    m ← access (shift_down (mem d) count (u64 (cur_len d - count)));
    Done (count,
          {| mem := m; cur_len := u64 (cur_len d - count); async_queue := async_queue d |},
          u', WakeWriters :: notify d POLL_OUT).

(** The critical section of [gfifo_write] after the wait loop. *)
Definition write_copy d u (buf size : Z) : run (Z * gfifo_dev * list kevent) :=
  let count := u32 size in
  let room := u64 (GFIFO_SIZE cfg - cur_len d) in
  let count := if room <? count then u32 room else count in
  let '(bs, rest) := copy_from_user u buf count in
  m ← access (store_bytes (mem d) (cur_len d) bs);
  if negb (rest =? 0)
  then Done (- EFAULT,
             {| mem := m; cur_len := cur_len d; async_queue := async_queue d |}, [])
  else Done (count,
             {| mem := m; cur_len := u64 (cur_len d + count); async_queue := async_queue d |},
             WakeReaders :: notify d POLL_IN).

(** The whole handlers, called by one task with the mutex free: the wait loop
    sleeps when there is nothing to do, unless the file is [O_NONBLOCK]. *)
Definition read d (nb : bool) u (buf size : Z) : run (Z * gfifo_dev * umem * list kevent) :=
  if cur_len d =? 0 then (if nb then Done (- EAGAIN, d, u, []) else Block)
  else read_copy d u buf size.

Definition write d (nb : bool) u (buf size : Z) : run (Z * gfifo_dev * list kevent) :=
  if cur_len d =? GFIFO_SIZE cfg then (if nb then Done (- EAGAIN, d, []) else Block)
  else write_copy d u buf size.

(** [MEM_CLEAR] zeroes the bytes and leaves [cur_len] alone. *)
Definition ioctl d (cmd : Z) : gfifo_dev * Z :=
  if cmd =? MEM_CLEAR
  then ({| mem := zeros (Z.to_nat (GFIFO_SIZE cfg)); cur_len := cur_len d;
           async_queue := async_queue d |}, 0)
  else (d, - EINVAL).

Definition poll d : Z :=
  let mask := 0 in
  let mask := if negb (cur_len d =? 0) then Z.lor mask (Z.lor POLLIN POLLRDNORM) else mask in
  if negb (cur_len d =? GFIFO_SIZE cfg) then Z.lor mask (Z.lor POLLOUT POLLWRNORM) else mask.

Definition fasync d (filp : nat) (mode : bool) : gfifo_dev * Z :=
  let '(q, ret) := fasync_helper filp mode (async_queue d) in
  ({| mem := mem d; cur_len := cur_len d; async_queue := q |}, ret).

(** [gfifo_release] drops the file from the queue; without [fasync] it is
    empty. *)
Definition release d (filp : nat) : gfifo_dev * Z :=
  if has_fasync cfg then ((fasync d filp false).1, 0) else (d, 0).
End Handlers.

(** ** Abstract specification: a bounded byte queue *)
Module FifoSpec.
Section FifoSpec.
Context {UA : UserAccess}.
Implicit Types (q : list Z) (u : umem).

(** The queue [q'] that the first [n] bytes of [q] were taken from: the rest of [q], when
    no more is left than was taken.  A longer rest overlaps its destination when it is
    moved to the front of the array, and then only its length is known. *)
Definition taken (n : nat) q q' : Prop :=
  length q' = length (drop n q) ∧ ((length (drop n q) <= n)%nat → q' = drop n q).

Definition fifo_read q (nb : bool) u (buf size : Z) (res : run (Z * list Z * umem)) : Prop :=
  match q with
  | [] => res = if nb then Done (- EAGAIN, [], u) else Block
  | _ =>
      let n := Z.to_nat size in
      let '(u', rest) := copy_to_user u buf (take n q) in
      if rest =? 0 then ∃ q', res = Done (Z.of_nat (length (take n q)), q', u') ∧ taken n q q'
      else res = Done (- EFAULT, q, u')
  end.

Definition fifo_write (cap : Z) q (nb : bool) u (buf size : Z) : run (Z * list Z) :=
  let room := cap - Z.of_nat (length q) in
  if room =? 0 then (if nb then Done (- EAGAIN, q) else Block)
  else
    let n := Z.min size room in
    let '(bs, rest) := copy_from_user u buf n in
    if rest =? 0 then Done (n, q ++ bs) else Done (- EFAULT, q).

Definition fifo_clear q : list Z := replicate (length q) 0.
End FifoSpec.
End FifoSpec.
Import FifoSpec.

(** The queue a device holds, and its representation invariant. *)
Definition queue (d : gfifo_dev) : list Z := take (Z.to_nat (cur_len d)) (mem d).

Definition cfg_ok (cfg : gfifo_cfg) : Prop := 0 < GFIFO_SIZE cfg < 4294967296.

Definition gfifo_ok (cfg : gfifo_cfg) (d : gfifo_dev) : Prop :=
  Z.of_nat (length (mem d)) = GFIFO_SIZE cfg ∧ 0 <= cur_len d <= GFIFO_SIZE cfg.

Section Refinement.
Context {UA : UserAccess} {UAok : UserAccessOk UA}.
Context {MC : Memcpy} {MD : MemcpyDoc MC} {FA : FasyncApi} {FAok : FasyncOk FA}.
Variable cfg : gfifo_cfg.
Hypothesis Hcfg : cfg_ok cfg.
Implicit Types (d : gfifo_dev) (u : umem).

Lemma length_queue d : gfifo_ok cfg d → Z.of_nat (length (queue d)) = cur_len d.
Proof. intros [? ?]. unfold queue. rewrite length_take. lia. Qed.

Lemma gfifo_zeroed_ok : gfifo_ok cfg (gfifo_zeroed cfg).
Proof. destruct Hcfg. split; simpl; [rewrite length_zeros; lia | lia]. Qed.

Lemma queue_nil d : gfifo_ok cfg d → queue d = [] ↔ cur_len d = 0.
Proof.
  intros H. pose proof (length_queue d H). rewrite <- length_zero_iff_nil. lia.
Qed.

(** The bytes left after moving the tail down over the first [n]. *)
Lemma shift_down_queue d n :
  gfifo_ok cfg d → 0 <= n <= cur_len d →
  ∃ m, shift_down (mem d) n (cur_len d - n) = Some m ∧
    length m = length (mem d) ∧ taken (Z.to_nat n) (queue d) (take (Z.to_nat (cur_len d - n)) m).
Proof.
  intros [Hl Hc] Hn. unfold shift_down. if_true. eexists. split; [done|].
  assert (length (memcpy (mem d) 0 (Z.to_nat n) (Z.to_nat (cur_len d - n))) = Z.to_nat (cur_len d - n)) as Hb
    by (apply memcpy_length; lia).
  assert (length (drop (Z.to_nat n) (queue d)) = Z.to_nat (cur_len d - n)) as Hq
    by (unfold queue; rewrite length_drop, length_take; lia).
  split; [rewrite length_splice; lia|].
  assert (∀ m : list Z, take (Z.to_nat (cur_len d - n)) (splice m 0 (memcpy (mem d) 0 (Z.to_nat n) (Z.to_nat (cur_len d - n)))) =
    memcpy (mem d) 0 (Z.to_nat n) (Z.to_nat (cur_len d - n))) as -> by (intros m; unfold splice; simpl; by apply take_app_length').
  split; [lia|]. intros Hle. rewrite memcpy_disjoint by lia. unfold queue. rewrite take_drop_commute. do 2 f_equal. lia.
Qed.

(** *** Each critical section, on every branch *)

Lemma read_copy_spec d u buf size :
  gfifo_ok cfg d → 0 <= size < 4294967296 →
  let bs := take (Z.to_nat size) (queue d) in
  let n := Z.min size (cur_len d) in
  match copy_to_user u buf bs with
  | (u', rest) =>
    if rest =? 0 then
      ∃ d', read_copy cfg d u buf size
              = Done (n, d', u', WakeWriters :: notify cfg d POLL_OUT) ∧
        gfifo_ok cfg d' ∧ taken (Z.to_nat size) (queue d) (queue d') ∧
        cur_len d' = cur_len d - n ∧ async_queue d' = async_queue d
    else read_copy cfg d u buf size = Done (- EFAULT, d, u', [])
  end.
Proof.
  intros Hd Hs bs n. pose proof Hd as [Hl Hc]. destruct Hcfg as [_ Hcfg'].
  assert ((if cur_len d <? u32 size then u32 (cur_len d) else u32 size) = n) as Hn.
  { rewrite !u32_id by lia. unfold n. split_if; lia. }
  assert (load_bytes (mem d) 0 n = Some bs) as Hload.
  { rewrite load_bytes_in by lia. unfold bs, queue. rewrite take_take. do 2 f_equal. lia. }
  unfold read_copy. rewrite Hn, Hload. simpl.
  destruct (copy_to_user u buf bs) as [u' rest]. destruct (rest =? 0); simpl; [|done].
  rewrite u64_id by lia.
  destruct (shift_down_queue d n) as (m & -> & Hm & Hq); [done|lia|].
  eexists. split; [done|]. unfold gfifo_ok. simpl. split_and!; [lia..| |done|done].
  change (taken (Z.to_nat size) (queue d) (take (Z.to_nat (cur_len d - n)) m)).
  destruct (Z.min_spec size (cur_len d)) as [[_ Hmin]|[? Hmin]]; unfold n in *; rewrite Hmin in *; [done|].
  destruct Hq as [Hq _]. pose proof (length_queue d Hd). unfold taken. rewrite !drop_ge in * by lia.
  apply nil_length_inv in Hq. by rewrite Hq.
Qed.

Lemma write_copy_spec d u buf size :
  gfifo_ok cfg d → 0 <= size < 4294967296 →
  let n := Z.min size (GFIFO_SIZE cfg - cur_len d) in
  match copy_from_user u buf n with
  | (bs, rest) =>
    ∃ d', gfifo_ok cfg d' ∧ async_queue d' = async_queue d ∧
      if rest =? 0 then
        write_copy cfg d u buf size
          = Done (n, d', WakeReaders :: notify cfg d POLL_IN) ∧
        queue d' = queue d ++ bs ∧ cur_len d' = cur_len d + n
      else write_copy cfg d u buf size = Done (- EFAULT, d', []) ∧
        queue d' = queue d ∧ cur_len d' = cur_len d
  end.
Proof.
  intros [Hl Hc] Hs n. destruct Hcfg as [_ Hcfg'].
  assert ((if u64 (GFIFO_SIZE cfg - cur_len d) <? u32 size
           then u32 (u64 (GFIFO_SIZE cfg - cur_len d)) else u32 size) = n) as Hn.
  { rewrite (u64_id (GFIFO_SIZE cfg - cur_len d)), !u32_id by lia. unfold n. split_if; lia. }
  assert (0 <= n) as Hn0 by lia.
  pose proof (cfu_length u buf n Hn0) as Hlen.
  unfold write_copy. rewrite Hn. destruct (copy_from_user u buf n) as [bs rest]. simpl in Hlen.
  rewrite store_bytes_in by lia. simpl.
  assert (length (splice (mem d) (Z.to_nat (cur_len d)) bs) = length (mem d))
    by (apply length_splice; lia).
  eexists {| mem := splice (mem d) (Z.to_nat (cur_len d)) bs;
             cur_len := if rest =? 0 then cur_len d + n else cur_len d;
             async_queue := async_queue d |}.
  unfold gfifo_ok, queue. simpl. destruct (rest =? 0); simpl.
  - rewrite u64_id by lia. split_and!; [lia..|done|done| |done].
    replace (Z.to_nat (cur_len d + n)) with (Z.to_nat (cur_len d) + length bs)%nat by lia.
    apply take_add_splice. lia.
  - split_and!; [lia..|done|done| |done]. apply take_splice. lia.
Qed.

(** *** The handlers refine the queue *)

Definition abs_read (r : run (Z * gfifo_dev * umem * list kevent)) : run (Z * list Z * umem) :=
  '(n, d, u, _) ← r; Done (n, queue d, u).
Definition abs_write (r : run (Z * gfifo_dev * list kevent)) : run (Z * list Z) :=
  '(n, d, _) ← r; Done (n, queue d).

Lemma read_refines d nb u buf size :
  gfifo_ok cfg d → 0 <= size < 4294967296 →
  fifo_read (queue d) nb u buf size (abs_read (read cfg d nb u buf size)).
Proof.
  intros Hd Hs. unfold read, fifo_read. pose proof (queue_nil d Hd) as Hnil.
  pose proof (length_queue d Hd) as Hlen.
  destruct (Z.eqb_spec (cur_len d) 0) as [E|E].
  { apply Hnil in E. rewrite E. destruct nb; simpl; [by rewrite E | done]. }
  destruct (queue d) as [|b q'] eqn:Hq; [tauto|].
  pose proof (read_copy_spec d u buf size Hd Hs) as Hr. rewrite Hq in Hr. cbv zeta in *.
  destruct (copy_to_user _ _ _) as [u' rest]. destruct (rest =? 0).
  - destruct Hr as (d' & -> & _ & Hq' & _ & _). exists (queue d'). split; [|done]. cbn [abs_read mbind run_bind].
    rewrite length_take. do 3 f_equal. lia.
  - rewrite Hr. simpl. by rewrite Hq.
Qed.

Lemma write_refines d nb u buf size :
  gfifo_ok cfg d → 0 <= size < 4294967296 →
  abs_write (write cfg d nb u buf size) = fifo_write (GFIFO_SIZE cfg) (queue d) nb u buf size.
Proof.
  intros Hd Hs. unfold write, fifo_write. rewrite length_queue by done.
  destruct (Z.eqb_spec (cur_len d) (GFIFO_SIZE cfg)) as [E|E].
  { if_true. by destruct nb. }
  if_false. pose proof (write_copy_spec d u buf size Hd Hs) as Hw. cbv zeta in *.
  destruct (copy_from_user _ _ _) as [bs rest]. destruct (rest =? 0).
  - destruct Hw as (d' & _ & _ & -> & Hq & _). simpl. by rewrite Hq.
  - destruct Hw as (d' & _ & _ & -> & Hq & _). simpl. by rewrite Hq.
Qed.

Lemma read_ok d nb u buf size n d' u' ev :
  gfifo_ok cfg d → 0 <= size < 4294967296 →
  read cfg d nb u buf size = Done (n, d', u', ev) → gfifo_ok cfg d'.
Proof.
  intros Hd Hs. unfold read. pose proof (read_copy_spec d u buf size Hd Hs) as Hr.
  cbv zeta in Hr. destruct (cur_len d =? 0); [by destruct nb; intros; simplify_eq|].
  destruct (copy_to_user _ _ _) as [v rest]. destruct (rest =? 0).
  - destruct Hr as (? & -> & ? & _). intros; by simplify_eq.
  - rewrite Hr. intros; by simplify_eq.
Qed.

Lemma write_ok d nb u buf size n d' ev :
  gfifo_ok cfg d → 0 <= size < 4294967296 →
  write cfg d nb u buf size = Done (n, d', ev) → gfifo_ok cfg d'.
Proof.
  intros Hd Hs. unfold write. pose proof (write_copy_spec d u buf size Hd Hs) as Hw.
  cbv zeta in Hw.
  destruct (cur_len d =? GFIFO_SIZE cfg); [by destruct nb; intros; simplify_eq|].
  destruct (copy_from_user _ _ _) as [bs rest], Hw as (? & ? & _ & Hw).
  destruct (rest =? 0), Hw as [-> _]; intros; by simplify_eq.
Qed.

Lemma clear_refines d :
  gfifo_ok cfg d →
  gfifo_ok cfg (ioctl cfg d MEM_CLEAR).1 ∧
  queue (ioctl cfg d MEM_CLEAR).1 = fifo_clear (queue d).
Proof.
  intros Hd. pose proof (length_queue d Hd). destruct Hd as [Hl Hc].
  unfold gfifo_ok, fifo_clear. simpl. unfold queue at 1. simpl. unfold zeros.
  split; [rewrite length_replicate; lia|]. rewrite take_replicate. f_equal. lia.
Qed.

(** A readiness bit is set exactly when the operation would not have to wait. *)
Lemma poll_exact d :
  gfifo_ok cfg d →
  (Z.testbit (poll cfg d) 0 = true ↔ queue d ≠ []) ∧
  (Z.testbit (poll cfg d) 2 = true ↔ Z.of_nat (length (queue d)) < GFIFO_SIZE cfg).
Proof.
  intros Hd. rewrite length_queue, queue_nil by done. destruct Hd as [_ Hc].
  unfold poll. destruct (Z.eqb_spec (cur_len d) 0), (Z.eqb_spec (cur_len d) (GFIFO_SIZE cfg));
    cbn; split; split; intros; try done; try lia.
Qed.
End Refinement.

(** ** The six drivers *)

(** [struct file_operations] as the gfifo drivers fill it. *)
Record file_operations `{UserAccess} := {
  fo_llseek : file → Z → Z → file * Z;
  fo_read : gfifo_dev → bool → umem → Z → Z → run (Z * gfifo_dev * umem * list kevent);
  fo_write : gfifo_dev → bool → umem → Z → Z → run (Z * gfifo_dev * list kevent);
  fo_ioctl : gfifo_dev → Z → gfifo_dev * Z;
  fo_poll : option (gfifo_dev → Z);
  fo_fasync : option (gfifo_dev → nat → bool → gfifo_dev * Z);
  fo_release : gfifo_dev → nat → gfifo_dev * Z;
}.

Section Drivers.
Context {UA : UserAccess} {MC : Memcpy} {FA : FasyncApi}.

(** *** gfifo/gfifo.c *)
Definition gfifo_config : gfifo_cfg := {| GFIFO_SIZE := 4096; has_fasync := false |}.
Definition gfifo_read := read gfifo_config.
Definition gfifo_write := write gfifo_config.
Definition gfifo_ioctl := ioctl gfifo_config.
Definition gfifo_llseek := llseek (GFIFO_SIZE gfifo_config).
Definition gfifo_release := release gfifo_config.
Definition gfifo_fops : file_operations := {|
  fo_llseek := gfifo_llseek; fo_read := gfifo_read; fo_write := gfifo_write;
  fo_ioctl := gfifo_ioctl; fo_poll := None;
  fo_fasync := None; fo_release := gfifo_release |}.

(** *** gfifo_nonblock/gfifo_nonblock.c *)
Definition gfifo_nonblock_config : gfifo_cfg := {| GFIFO_SIZE := 256; has_fasync := false |}.
Definition gfifo_nonblock_read := read gfifo_nonblock_config.
Definition gfifo_nonblock_write := write gfifo_nonblock_config.
Definition gfifo_nonblock_ioctl := ioctl gfifo_nonblock_config.
Definition gfifo_nonblock_llseek := llseek (GFIFO_SIZE gfifo_nonblock_config).
Definition gfifo_nonblock_poll := poll gfifo_nonblock_config.
Definition gfifo_nonblock_release := release gfifo_nonblock_config.
Definition gfifo_nonblock_fops : file_operations := {|
  fo_llseek := gfifo_nonblock_llseek; fo_read := gfifo_nonblock_read; fo_write := gfifo_nonblock_write;
  fo_ioctl := gfifo_nonblock_ioctl; fo_poll := Some gfifo_nonblock_poll;
  fo_fasync := None; fo_release := gfifo_nonblock_release |}.

(** *** gfifo_async/gfifo_async.c *)
Definition gfifo_async_config : gfifo_cfg := {| GFIFO_SIZE := 256; has_fasync := true |}.
Definition gfifo_async_read := read gfifo_async_config.
Definition gfifo_async_write := write gfifo_async_config.
Definition gfifo_async_ioctl := ioctl gfifo_async_config.
Definition gfifo_async_llseek := llseek (GFIFO_SIZE gfifo_async_config).
Definition gfifo_async_poll := poll gfifo_async_config.
Definition gfifo_async_fasync := fasync.
Definition gfifo_async_release := release gfifo_async_config.
Definition gfifo_async_fops : file_operations := {|
  fo_llseek := gfifo_async_llseek; fo_read := gfifo_async_read; fo_write := gfifo_async_write;
  fo_ioctl := gfifo_async_ioctl; fo_poll := Some gfifo_async_poll;
  fo_fasync := Some gfifo_async_fasync; fo_release := gfifo_async_release |}.

(** *** gfifo_platform/gfifo_platform_driver.c *)
Definition gfifo_platform_config : gfifo_cfg := {| GFIFO_SIZE := 256; has_fasync := true |}.
Definition gfifo_platform_read := read gfifo_platform_config.
Definition gfifo_platform_write := write gfifo_platform_config.
Definition gfifo_platform_ioctl := ioctl gfifo_platform_config.
Definition gfifo_platform_llseek := llseek (GFIFO_SIZE gfifo_platform_config).
Definition gfifo_platform_poll := poll gfifo_platform_config.
Definition gfifo_platform_fasync := fasync.
Definition gfifo_platform_release := release gfifo_platform_config.
Definition gfifo_platform_fops : file_operations := {|
  fo_llseek := gfifo_platform_llseek; fo_read := gfifo_platform_read; fo_write := gfifo_platform_write;
  fo_ioctl := gfifo_platform_ioctl; fo_poll := Some gfifo_platform_poll;
  fo_fasync := Some gfifo_platform_fasync; fo_release := gfifo_platform_release |}.

(** *** gfifo_misc/gfifo_misc.c *)
Definition gfifo_misc_config : gfifo_cfg := {| GFIFO_SIZE := 256; has_fasync := true |}.
Definition gfifo_misc_read := read gfifo_misc_config.
Definition gfifo_misc_write := write gfifo_misc_config.
Definition gfifo_misc_ioctl := ioctl gfifo_misc_config.
Definition gfifo_misc_llseek := llseek (GFIFO_SIZE gfifo_misc_config).
Definition gfifo_misc_poll := poll gfifo_misc_config.
Definition gfifo_misc_fasync := fasync.
Definition gfifo_misc_release := release gfifo_misc_config.
Definition gfifo_misc_fops : file_operations := {|
  fo_llseek := gfifo_misc_llseek; fo_read := gfifo_misc_read; fo_write := gfifo_misc_write;
  fo_ioctl := gfifo_misc_ioctl; fo_poll := Some gfifo_misc_poll;
  fo_fasync := Some gfifo_misc_fasync; fo_release := gfifo_misc_release |}.

(** *** gfifo_misc_n/gfifo_misc_n.c *)
Definition gfifo_misc_n_config : gfifo_cfg := {| GFIFO_SIZE := 256; has_fasync := true |}.
Definition gfifo_misc_n_read := read gfifo_misc_n_config.
Definition gfifo_misc_n_write := write gfifo_misc_n_config.
Definition gfifo_misc_n_ioctl := ioctl gfifo_misc_n_config.
Definition gfifo_misc_n_llseek := llseek (GFIFO_SIZE gfifo_misc_n_config).
Definition gfifo_misc_n_poll := poll gfifo_misc_n_config.
Definition gfifo_misc_n_fasync := fasync.
Definition gfifo_misc_n_release := release gfifo_misc_n_config.
Definition gfifo_misc_n_fops : file_operations := {|
  fo_llseek := gfifo_misc_n_llseek; fo_read := gfifo_misc_n_read; fo_write := gfifo_misc_n_write;
  fo_ioctl := gfifo_misc_n_ioctl; fo_poll := Some gfifo_misc_n_poll;
  fo_fasync := Some gfifo_misc_n_fasync; fo_release := gfifo_misc_n_release |}.

Definition gfifo_drivers : list (gfifo_cfg * file_operations) :=
  [(gfifo_config, gfifo_fops); (gfifo_nonblock_config, gfifo_nonblock_fops);
   (gfifo_async_config, gfifo_async_fops); (gfifo_platform_config, gfifo_platform_fops);
   (gfifo_misc_config, gfifo_misc_fops); (gfifo_misc_n_config, gfifo_misc_n_fops)].
End Drivers.

(** The contract of a queue driver of size [cap]: its methods keep the
    representation invariant and act on the queue as the specification does. *)
Class FifoDriver `{UserAccess} (cfg : gfifo_cfg) (o : file_operations) : Prop := {
  fd_read d nb u buf size : gfifo_ok cfg d → 0 <= size < 4294967296 →
    fifo_read (queue d) nb u buf size (abs_read (fo_read o d nb u buf size)) ∧
    ∀ n d' u' ev, fo_read o d nb u buf size = Done (n, d', u', ev) → gfifo_ok cfg d';
  fd_write d nb u buf size : gfifo_ok cfg d → 0 <= size < 4294967296 →
    abs_write (fo_write o d nb u buf size)
      = fifo_write (GFIFO_SIZE cfg) (queue d) nb u buf size ∧
    ∀ n d' ev, fo_write o d nb u buf size = Done (n, d', ev) → gfifo_ok cfg d';
  fd_clear d : gfifo_ok cfg d →
    gfifo_ok cfg (fo_ioctl o d MEM_CLEAR).1 ∧
    queue (fo_ioctl o d MEM_CLEAR).1 = fifo_clear (queue d) ∧
    (fo_ioctl o d MEM_CLEAR).2 = 0;
  fd_ioctl_other d cmd : cmd ≠ MEM_CLEAR → fo_ioctl o d cmd = (d, - EINVAL);
  fd_poll d p : gfifo_ok cfg d → fo_poll o = Some p →
    (Z.testbit (p d) 0 = true ↔ queue d ≠ []) ∧
    (Z.testbit (p d) 2 = true ↔ Z.of_nat (length (queue d)) < GFIFO_SIZE cfg);
  fd_release d filp : queue (fo_release o d filp).1 = queue d;
}.

Section Theorems.
Context {UA : UserAccess} {UAok : UserAccessOk UA}.
Context {MC : Memcpy} {FA : FasyncApi} {FAok : FasyncOk FA}.

Lemma ioctl_other cfg d cmd : cmd ≠ MEM_CLEAR → ioctl cfg d cmd = (d, - EINVAL).
Proof. intros. unfold ioctl. if_false. done. Qed.

Lemma release_queue cfg d filp : queue (release cfg d filp).1 = queue d.
Proof.
  unfold release, fasync, queue. destruct (has_fasync cfg); [|done].
  by destruct (fasync_helper _ _ _).
Qed.

Lemma fifo_driver_of `{!MemcpyDoc MC} cfg o p :
  cfg_ok cfg →
  fo_read o = read cfg → fo_write o = write cfg → fo_ioctl o = ioctl cfg →
  fo_poll o = p → (p = None ∨ p = Some (poll cfg)) → fo_release o = release cfg →
  FifoDriver cfg o.
Proof.
  intros Hc Hr Hw Hi Hp Hp' Hrel. split; intros *; rewrite ?Hr, ?Hw, ?Hi, ?Hp, ?Hrel.
  - eauto using read_refines, read_ok.
  - eauto using write_refines, write_ok.
  - intros Hd. destruct (clear_refines cfg d Hd). done.
  - apply ioctl_other.
  - intros Hd E. destruct Hp' as [->| ->]; simplify_eq. by apply poll_exact.
  - apply release_queue.
Qed.

(** C1: each of the six gfifo drivers implements a bounded byte queue, as far as the
    documented contract of [memcpy] goes.  From any device that satisfies the
    representation invariant every method of the driver's table keeps the invariant,
    makes no access outside the array, and acts on the queue as the abstract queue
    does, errors included: an empty queue makes a read sleep or return [-EAGAIN] and a
    full one a write, a read delivers the oldest bytes, a write appends the bytes that
    fit, a user fault changes no queue content, [poll] reports readable and writable
    exactly when a read or a write would not wait.  A read removes exactly the bytes it
    delivered when it leaves no more than it was asked for; when it leaves more, the
    [memcpy] that moves the rest overlaps, and only the length of the rest is
    promised. *)
Theorem gfifo_drivers_refine_queue `{!MemcpyDoc MC} :
  Forall (λ p, cfg_ok p.1 ∧ FifoDriver p.1 p.2) gfifo_drivers.
Proof.
  repeat (apply Forall_cons_2; [|]); [..|apply Forall_nil_2]; split;
    (split; simpl; lia) || (eapply fifo_driver_of; [split; simpl; lia|done..| |done]; auto).
Qed.

Lemma elem_of_notify cfg d b f b' :
  has_fasync cfg = true →
  Sigio {| sig_file := f; sig_band := b' |} ∈ notify cfg d b ↔ f ∈ async_queue d ∧ b' = b.
Proof.
  intros Ha. unfold notify, kill_fasync. rewrite Ha, <- list_fmap_compose.
  rewrite list_elem_of_fmap. setoid_rewrite elem_of_elements. split.
  - intros (g & E & ?). simpl in E. by simplify_eq.
  - intros [? ->]. by exists f.
Qed.

Lemma release_async cfg d filp :
  has_fasync cfg = true →
  async_queue (release cfg d filp).1 = async_queue d ∖ {[filp]}.
Proof.
  intros Ha. unfold release, fasync. rewrite Ha. rewrite <- fasync_off.
  by destruct (fasync_helper _ _ _).
Qed.

Lemma release_ok cfg d filp : gfifo_ok cfg d → gfifo_ok cfg (release cfg d filp).1.
Proof.
  unfold release, fasync, gfifo_ok. destruct (has_fasync cfg); [|done].
  by destruct (fasync_helper _ _ _).
Qed.

(** In the drivers with asynchronous notification a successful write sends
    [SIGIO] with [POLL_IN], and a successful read [SIGIO] with [POLL_OUT], to
    exactly the open files registered on the device; in particular a file that
    was released is never signalled again. *)
Theorem gfifo_signals_registered `{!MemcpyDoc MC} cfg d filp nb u buf size :
  cfg_ok cfg → has_fasync cfg = true → gfifo_ok cfg d → 0 <= size < 4294967296 →
  let d0 := (release cfg d filp).1 in
  (∀ n d' ev, write cfg d0 nb u buf size = Done (n, d', ev) → 0 <= n →
     ∀ f b, Sigio {| sig_file := f; sig_band := b |} ∈ ev ↔
            f ∈ async_queue d ∧ f ≠ filp ∧ b = POLL_IN) ∧
  (∀ n d' u' ev, read cfg d0 nb u buf size = Done (n, d', u', ev) → 0 <= n →
     ∀ f b, Sigio {| sig_file := f; sig_band := b |} ∈ ev ↔
            f ∈ async_queue d ∧ f ≠ filp ∧ b = POLL_OUT).
Proof.
  intros Hc Ha Hd Hs d0. pose proof (release_ok cfg d filp Hd) as Hd0. fold d0 in Hd0.
  assert (∀ f b b' w, (∀ s, w ≠ Sigio s) →
    Sigio {| sig_file := f; sig_band := b' |} ∈ w :: notify cfg d0 b ↔
    f ∈ async_queue d ∧ f ≠ filp ∧ b' = b) as Hn.
  { intros f b b' w Hw. rewrite elem_of_cons, elem_of_notify by done.
    unfold d0. rewrite release_async by done. specialize (Hw {| sig_file := f; sig_band := b' |}).
    rewrite elem_of_difference, not_elem_of_singleton. split.
    - intros [E|[[? ?] ?]]; [by destruct Hw | done].
    - intros (? & ? & ?). by right. }
  clearbody d0. split.
  - intros n d' ev. unfold write. pose proof (write_copy_spec cfg Hc d0 u buf size Hd0 Hs) as Hw.
    cbv zeta in Hw. destruct (cur_len d0 =? GFIFO_SIZE cfg);
      [destruct nb; intros; simplify_eq; unfold EAGAIN in *; lia|].
    destruct (copy_from_user _ _ _) as [bs rest], Hw as (? & _ & _ & Hw).
    destruct (rest =? 0), Hw as [-> _]; intros ? ?; simplify_eq; [intros; by apply Hn|].
    unfold EFAULT in *. lia.
  - intros n d' u' ev. unfold read. pose proof (read_copy_spec cfg Hc d0 u buf size Hd0 Hs) as Hr.
    cbv zeta in Hr. destruct (cur_len d0 =? 0);
      [destruct nb; intros; simplify_eq; unfold EAGAIN in *; lia|].
    destruct (copy_to_user _ _ _) as [v rest]. destruct (rest =? 0).
    + destruct Hr as (? & -> & _). intros ? ?; simplify_eq. intros; by apply Hn.
    + rewrite Hr. intros ? ?; simplify_eq. unfold EFAULT in *. lia.
Qed.
End Theorems.

(** ** Evaluation on concrete devices *)
Import FlatUser MemcpyImpl FasyncImpl.

(** The 256-byte device holding [1; 2; 3], with files 7 and 9 registered. *)
Definition demo_dev : gfifo_dev :=
  {| mem := [1; 2; 3] ++ zeros 253; cur_len := 3; async_queue := {[7%nat; 9%nat]} |}.

(** The shift of [gfifo_read] relies on more than [memcpy] promises.  The
    source and destination of [memcpy(dev->mem, dev->mem + count, cur_len - count)]
    overlap whenever less than half of the queue is read; a [memcpy] that keeps
    its documented contract but copies from the highest byte down loses data
    there: reading one byte of the queue [1; 2; 3] leaves [3; 3]. *)
Theorem gfifo_read_overlapping_memcpy :
  MemcpyDoc MemcpyImpl.down ∧
  ∃ d' u' ev,
    gfifo_nonblock_read (MC := MemcpyImpl.down) demo_dev true demo_user 200 1
      = Done (1, d', u', ev) ∧
    queue demo_dev = [1; 2; 3] ∧ queue d' = [3; 3].
Proof. split; [exact MemcpyImpl.down_doc|]. do 3 eexists. repeat split; vm_compute; reflexivity. Qed.

Lemma gfifo_drivers_refine_queue_witness :
  FifoDriver (H := flat_user) gfifo_nonblock_config
    (gfifo_nonblock_fops (MC := MemcpyImpl.up) (FA := FasyncImpl.set_fasync)) ∧
  abs_read (gfifo_nonblock_read (MC := MemcpyImpl.up) demo_dev true demo_user 200 1)
    = Done (1, [2; 3], <[200 := 1]> demo_user).
Proof.
  pose proof (gfifo_drivers_refine_queue (UA := flat_user) (MC := MemcpyImpl.up)
    (FA := FasyncImpl.set_fasync)) as H.
  split; [|vm_compute; reflexivity].
  apply Forall_cons_1 in H as [_ H]. apply Forall_cons_1 in H as [H _]. apply H.
Defined.

Lemma gfifo_signals_registered_witness :
  ∃ d' u' ev,
    gfifo_async_read (MC := MemcpyImpl.up)
      (gfifo_async_release (FA := FasyncImpl.set_fasync) demo_dev 7).1 true demo_user 200 2
      = Done (2, d', u', ev) ∧
    Sigio {| sig_file := 9; sig_band := POLL_OUT |} ∈ ev ∧
    Sigio {| sig_file := 7; sig_band := POLL_OUT |} ∉ ev.
Proof.
  do 3 eexists. split; [vm_compute; reflexivity|].
  epose proof (proj2 (gfifo_signals_registered (UA := flat_user) (MC := MemcpyImpl.up)
    (FA := FasyncImpl.set_fasync) gfifo_async_config demo_dev 7 true demo_user 200 2
    ltac:(split; simpl; lia) ltac:(reflexivity) ltac:(split; simpl; lia) ltac:(lia)) 2 _ _ _
    ltac:(vm_compute; reflexivity) ltac:(lia)) as H.
  split; rewrite H; simpl; [|tauto].
  split; [by apply (bool_decide_unpack _)|]. split; [lia|reflexivity].
Defined.
