(* ===== verification/GfifoConc.v ===== *)
(** * Interleaved readers and writers of a gfifo device

    Any number of tasks are inside [gfifo_read], [gfifo_write] or [gfifo_ioctl]
    of one device.  A task is at a program point of its handler; one step runs it
    from that point to the next.  Between two steps of a task any other task may
    step, a signal may arrive, a new call may start and user memory may change.
    The copy between the wait loop and the unlock is one step: it runs under the
    device mutex, and the state it touches is only touched under that mutex.

    The mutex, the two wait queues and the task states are explicit, so the
    sleep of the drivers' wait loops (set the state, drop the mutex, [schedule])
    and the wake-ups are those of the code. *)

From S2P Require Import Prelude KernelApi CharDev Gfifo.
Import FifoSpec.

Inductive op :=
| OpRead (buf size : Z) (nb : bool)
| OpWrite (buf size : Z) (nb : bool)
| OpIoctl (cmd : Z).

(** Program points, with the line of gfifo/gfifo.c they stand before (read /
    write). *)
Inductive point :=
| PLock        (* 66/119 mutex_lock *)
| PEnqueue     (* 67/120 add_wait_queue *)
| PTest        (* 69/122 the loop condition and O_NONBLOCK *)
| PSetState    (* 74/127 __set_current_state(TASK_INTERRUPTIBLE) *)
| PUnlock      (* 75/128 mutex_unlock inside the loop *)
| PSchedule    (* 76/129 schedule *)
| PSignal      (* 77/130 signal_pending *)
| PRelock      (* 81/134 mutex_lock inside the loop *)
| PCopy        (* 90/143 the copy; 49 the memset of the ioctl *)
| POut         (* 105/158 mutex_unlock; 50 in the ioctl *)
| POut2        (* 107/160 remove_wait_queue, TASK_RUNNING *)
| PReturn.     (* the return value is final *)

Inductive task_state := TASK_RUNNING | TASK_INTERRUPTIBLE.

#[global] Instance point_eq_dec : EqDecision point.
Proof. solve_decision. Defined.
#[global] Instance task_state_eq_dec : EqDecision task_state.
Proof. solve_decision. Defined.

Record task := { t_op : op; t_at : point; t_state : task_state; t_sig : bool; t_ret : Z }.

(** Ghost log of the operations that changed the queue, oldest first: the bytes a read
    delivered and the number of bytes it left, the bytes a write took. *)
Inductive fifo_event := EvRead (t : nat) (bs : list Z) (n : nat) | EvWrite (t : nat) (bs : list Z)
  | EvClear (t : nat).

Record sys `{UserAccess} := {
  dev : gfifo_dev;
  mutex : option nat;
  r_wait : gset nat;
  w_wait : gset nat;
  tasks : gmap nat task;
  user : umem;
  log : list fifo_event;
}.

Definition goto (p : point) (t : task) : task :=
  {| t_op := t_op t; t_at := p; t_state := t_state t; t_sig := t_sig t; t_ret := t_ret t |}.
Definition set_state (st : task_state) (t : task) : task :=
  {| t_op := t_op t; t_at := t_at t; t_state := st; t_sig := t_sig t; t_ret := t_ret t |}.
Definition set_ret (r : Z) (t : task) : task :=
  {| t_op := t_op t; t_at := t_at t; t_state := t_state t; t_sig := t_sig t; t_ret := r |}.
Definition set_sig (t : task) : task :=
  {| t_op := t_op t; t_at := t_at t; t_state := t_state t; t_sig := true; t_ret := t_ret t |}.

Section Steps.
Context {UA : UserAccess} {MC : Memcpy} {FA : FasyncApi}.
Variable cfg : gfifo_cfg.
Implicit Types (s : sys) (t : nat) (th : task).

Definition upd s t th (m : option nat) : sys :=
  {| dev := dev s; mutex := m; r_wait := r_wait s; w_wait := w_wait s;
     tasks := <[t := th]> (tasks s); user := user s; log := log s |}.

Definition set_wait s (r w : gset nat) : sys :=
  {| dev := dev s; mutex := mutex s; r_wait := r; w_wait := w;
     tasks := tasks s; user := user s; log := log s |}.

(** [wake_up_interruptible(&q)]: every task on the queue that sleeps
    interruptibly becomes runnable. *)
Definition wake (q : gset nat) (ts : gmap nat task) : gmap nat task :=
  map_imap (λ t th, Some (if decide (t ∈ q) then set_state TASK_RUNNING th else th)) ts.

Definition woken (ev : list kevent) s (ts : gmap nat task) : gmap nat task :=
  match ev with
  | WakeReaders :: _ => wake (r_wait s) ts
  | WakeWriters :: _ => wake (w_wait s) ts
  | _ => ts
  end.

Definition must_wait (o : op) (d : gfifo_dev) : bool :=
  match o with
  | OpRead _ _ _ => cur_len d =? 0
  | OpWrite _ _ _ => cur_len d =? GFIFO_SIZE cfg
  | OpIoctl _ => false
  end.

Definition op_nonblock (o : op) : bool :=
  match o with OpRead _ _ nb | OpWrite _ _ nb => nb | OpIoctl _ => false end.

Definition is_read (o : op) : bool := match o with OpRead _ _ _ => true | _ => false end.
Definition is_write (o : op) : bool := match o with OpWrite _ _ _ => true | _ => false end.

(** The step at [PCopy].  What a read delivered is what the buffer of its caller holds
    after the copy; what a write took is what the buffer held before. *)
Definition exec_copy s t th : option sys :=
  match t_op th with
  | OpRead buf size _ =>
      match read_copy cfg (dev s) (user s) buf size with
      | Done (r, d', u', ev) =>
          Some {| dev := d'; mutex := mutex s; r_wait := r_wait s; w_wait := w_wait s;
                  tasks := woken ev s (<[t := goto POut (set_ret r th)]> (tasks s));
                  user := u';
                  log := if r <? 0 then log s
                         else log s ++ [EvRead t (default [] (ubytes u' buf r)) (length (queue d'))] |}
      | _ => None
      end
  | OpWrite buf size _ =>
      match write_copy cfg (dev s) (user s) buf size with
      | Done (r, d', ev) =>
          Some {| dev := d'; mutex := mutex s; r_wait := r_wait s; w_wait := w_wait s;
                  tasks := woken ev s (<[t := goto POut (set_ret r th)]> (tasks s));
                  user := user s;
                  log := if r <? 0 then log s
                         else log s ++ [EvWrite t (default [] (ubytes (user s) buf r))] |}
      | _ => None
      end
  | OpIoctl cmd =>
      Some {| dev := (ioctl cfg (dev s) cmd).1; mutex := mutex s; r_wait := r_wait s;
              w_wait := w_wait s; tasks := <[t := goto POut (set_ret 0 th)]> (tasks s);
              user := user s; log := log s ++ [EvClear t] |}
  end.

(** One step of task [t], when it can move: it cannot while it waits for the
    mutex, or sleeps in [schedule] with no signal pending. *)
Definition exec s t : option sys :=
  match tasks s !! t with
  | None => None
  | Some th =>
      match t_at th with
      | PLock =>
          match mutex s with
          | Some _ => None
          | None => Some (upd s t (goto (match t_op th with OpIoctl _ => PCopy | _ => PEnqueue end)
                                        th) (Some t))
          end
      | PEnqueue =>
          let s' := upd s t (goto PTest th) (mutex s) in
          Some (match t_op th with
                | OpRead _ _ _ => set_wait s' ({[t]} ∪ r_wait s) (w_wait s)
                | _ => set_wait s' (r_wait s) ({[t]} ∪ w_wait s)
                end)
      | PTest =>
          Some (upd s t
            (if must_wait (t_op th) (dev s) then
               if op_nonblock (t_op th) then goto POut (set_ret (- EAGAIN) th)
               else goto PSetState th
             else goto PCopy th) (mutex s))
      | PSetState => Some (upd s t (goto PUnlock (set_state TASK_INTERRUPTIBLE th)) (mutex s))
      | PUnlock => Some (upd s t (goto PSchedule th) None)
      | PSchedule =>
          if bool_decide (t_state th = TASK_RUNNING) || t_sig th
          then Some (upd s t (goto PSignal (set_state TASK_RUNNING th)) (mutex s))
          else None
      | PSignal =>
          Some (upd s t (if t_sig th then goto POut2 (set_ret (- ERESTARTSYS) th)
                         else goto PRelock th) (mutex s))
      | PRelock =>
          match mutex s with
          | Some _ => None
          | None => Some (upd s t (goto PTest th) (Some t))
          end
      | PCopy => exec_copy s t th
      | POut => Some (upd s t (goto (match t_op th with OpIoctl _ => PReturn | _ => POut2 end)
                                    th) None)
      | POut2 =>
          let s' := upd s t (goto PReturn (set_state TASK_RUNNING th)) (mutex s) in
          Some (match t_op th with
                | OpRead _ _ _ => set_wait s' (r_wait s ∖ {[t]}) (w_wait s)
                | _ => set_wait s' (r_wait s) (w_wait s ∖ {[t]})
                end)
      | PReturn => None
      end
  end.

(** A call enters its handler; an [ioctl] with another command than
    [MEM_CLEAR] returns at once. *)
Definition call (o : op) : task :=
  let ret0 := {| t_op := o; t_at := PLock; t_state := TASK_RUNNING; t_sig := false; t_ret := 0 |} in
  match o with
  | OpIoctl cmd => if cmd =? MEM_CLEAR then ret0 else goto PReturn (set_ret (- EINVAL) ret0)
  | _ => ret0
  end.

Definition op_ok (o : op) : Prop :=
  match o with
  | OpRead _ size _ | OpWrite _ size _ => 0 <= size < 4294967296
  | OpIoctl _ => True
  end.

(** The task-table edits of the environment. *)
Definition set_tasks s (ts : gmap nat task) : sys :=
  {| dev := dev s; mutex := mutex s; r_wait := r_wait s; w_wait := w_wait s;
     tasks := ts; user := user s; log := log s |}.
Definition set_user s (u : umem) : sys :=
  {| dev := dev s; mutex := mutex s; r_wait := r_wait s; w_wait := w_wait s;
     tasks := tasks s; user := u; log := log s |}.

Inductive step : sys → sys → Prop :=
| step_task s t s' : exec s t = Some s' → step s s'
| step_call s t o : tasks s !! t = None → op_ok o →
    step s (set_tasks s (<[t := call o]> (tasks s)))
| step_return s t th : tasks s !! t = Some th → t_at th = PReturn →
    step s (set_tasks s (delete t (tasks s)))
| step_signal s t th : tasks s !! t = Some th →
    step s (set_tasks s (<[t := set_state TASK_RUNNING (set_sig th)]> (tasks s)))
| step_user s u : step s (set_user s u).

Definition init (u : umem) : sys :=
  {| dev := gfifo_zeroed cfg; mutex := None; r_wait := ∅; w_wait := ∅;
     tasks := ∅; user := u; log := [] |}.

Definition reachable s : Prop := ∃ u, rtc step (init u) s.
End Steps.

(** ** The invariant *)

(** Points at which the task holds the mutex, is on its wait queue, is between
    setting its state and leaving [schedule], is inside the body of the wait
    loop. *)
Definition holds (p : point) : bool :=
  match p with PEnqueue | PTest | PSetState | PUnlock | PCopy | POut => true | _ => false end.
Definition queued (p : point) : bool :=
  match p with PLock | PEnqueue | PReturn => false | _ => true end.
Definition sleeping (p : point) : bool :=
  match p with PUnlock | PSchedule => true | _ => false end.
Definition in_loop (p : point) : bool :=
  match p with PSetState | PUnlock | PSchedule | PSignal | PRelock => true | _ => false end.

Definition ioctl_ok (th : task) : Prop :=
  match t_op th with
  | OpIoctl cmd =>
      match t_at th with
      | PLock | PCopy | POut => cmd = MEM_CLEAR
      | PReturn => True
      | _ => False
      end
  | _ => True
  end.

(** What is true of one task, given the device and whether the task holds the
    mutex and sits on the two queues. *)
Record task_ok (cfg : gfifo_cfg) (d : gfifo_dev) (hold inr inw : bool) (th : task) : Prop := {
  tk_op : op_ok (t_op th);
  tk_hold : hold = holds (t_at th);
  tk_r : inr = is_read (t_op th) && queued (t_at th);
  tk_w : inw = is_write (t_op th) && queued (t_at th);
  tk_state : t_state th = TASK_INTERRUPTIBLE →
    sleeping (t_at th) = true ∧ must_wait cfg (t_op th) d = true;
  tk_copy : t_at th = PCopy → must_wait cfg (t_op th) d = false;
  tk_set : t_at th = PSetState → must_wait cfg (t_op th) d = true;
  tk_loop : in_loop (t_at th) = true → op_nonblock (t_op th) = false;
  tk_ioctl : ioctl_ok th;
}.

(** The histories a bounded queue allows and the queue they end in: a read delivers the
    oldest bytes and leaves the others, of which only the number is known when more
    are left than were delivered ([taken]). *)
Inductive fifo_run (cap : Z) : list fifo_event → list Z → Prop :=
| run_nil : fifo_run cap [] []
| run_read l q t bs q' : fifo_run cap l (bs ++ q) → taken (length bs) (bs ++ q) q' →
    fifo_run cap (l ++ [EvRead t bs (length q')]) q'
| run_write l q t bs : fifo_run cap l q → Z.of_nat (length (q ++ bs)) <= cap →
    fifo_run cap (l ++ [EvWrite t bs]) (q ++ bs)
| run_clear l q t : fifo_run cap l q → fifo_run cap (l ++ [EvClear t]) (fifo_clear q).

Section Invariant.
Context {UA : UserAccess} {UAok : UserAccessOk UA}.
Context {MC : Memcpy} {MD : MemcpyDoc MC} {FA : FasyncApi}.
Variable cfg : gfifo_cfg.
Hypothesis Hcfg : cfg_ok cfg.
Implicit Types (s : sys) (t : nat) (th : task).

Definition holder s t : bool := bool_decide (mutex s = Some t).
Definition on_r s t : bool := bool_decide (t ∈ r_wait s).
Definition on_w s t : bool := bool_decide (t ∈ w_wait s).

Record Inv s : Prop := {
  inv_dev : gfifo_ok cfg (dev s);
  inv_task t th : tasks s !! t = Some th →
    task_ok cfg (dev s) (holder s t) (on_r s t) (on_w s t) th;
  inv_none t : tasks s !! t = None →
    holder s t = false ∧ on_r s t = false ∧ on_w s t = false;
  inv_log : fifo_run (GFIFO_SIZE cfg) (log s) (queue (dev s));
}.

Lemma inv_init u : Inv (init cfg u).
Proof.
  split; simpl.
  - by apply gfifo_zeroed_ok.
  - intros t th H. by rewrite lookup_empty in H.
  - intros t _. unfold holder, on_r, on_w. simpl. rewrite !bool_decide_eq_false_2 by set_solver.
    done.
  - unfold queue. simpl. constructor.
Qed.

(** Steps that leave the device alone: only task [t] changes. *)
Lemma inv_local s s' t th' :
  Inv s → is_Some (tasks s !! t) →
  dev s' = dev s → log s' = log s → tasks s' = <[t := th']> (tasks s) →
  (∀ t', t' ≠ t → holder s' t' = holder s t' ∧ on_r s' t' = on_r s t' ∧ on_w s' t' = on_w s t') →
  task_ok cfg (dev s) (holder s' t) (on_r s' t) (on_w s' t) th' →
  Inv s'.
Proof.
  intros [I1 I2 I3 I4] Ht Hd Hl Hts Hoth Hok. split; rewrite ?Hd, ?Hl; [done| | |done].
  - intros t' u. rewrite Hts. destruct (decide (t' = t)) as [->|Hne].
    + rewrite lookup_insert_eq. intros; by simplify_eq.
    + rewrite lookup_insert_ne by done. destruct (Hoth t' Hne) as (-> & -> & ->). apply I2.
  - intros t'. rewrite Hts. intros [Hn Hne]%lookup_insert_None.
    destruct (Hoth t') as (-> & -> & ->); [done|]. by apply I3.
Qed.

(** How an edit of the mutex by task [t] may change it. *)
Definition mutex_move s t (m : option nat) : Prop :=
  m = mutex s ∨ (m = None ∧ holder s t = true) ∨ (m = Some t ∧ mutex s = None).

Lemma holder_move s t m t' :
  t' ≠ t → mutex_move s t m → bool_decide (m = Some t') = holder s t'.
Proof.
  intros Hne H. unfold holder. apply bool_decide_ext.
  destruct H as [->|[[-> H]|[-> ->]]]; [done| |split; intros; simplify_eq].
  apply bool_decide_eq_true_1 in H. rewrite H. split; intros; simplify_eq.
Qed.

Lemma inv_upd s t th th' m :
  Inv s → tasks s !! t = Some th → mutex_move s t m →
  task_ok cfg (dev s) (bool_decide (m = Some t)) (on_r s t) (on_w s t) th' →
  Inv (upd s t th' m).
Proof.
  intros I Ht Hm Hok. eapply (inv_local s _ t); [done|by eexists|done..| |exact Hok].
  intros t' Hne. split; [|done]. by apply holder_move with t.
Qed.

Lemma inv_upd_wait s t th th' r w :
  Inv s → tasks s !! t = Some th →
  r ∖ {[t]} = r_wait s ∖ {[t]} → w ∖ {[t]} = w_wait s ∖ {[t]} →
  task_ok cfg (dev s) (holder s t) (bool_decide (t ∈ r)) (bool_decide (t ∈ w)) th' →
  Inv (set_wait (upd s t th' (mutex s)) r w).
Proof.
  intros I Ht Hr Hw Hok. eapply (inv_local s _ t); [done|by eexists|done..| |exact Hok].
  intros t' Hne. unfold on_r, on_w. simpl.
  split; [done|]. clear - Hr Hw Hne. split; apply bool_decide_ext; set_solver.
Qed.

Lemma task_running d h a b th :
  task_ok cfg d h a b th → sleeping (t_at th) = false → t_state th = TASK_RUNNING.
Proof.
  intros K E. destruct (t_state th) eqn:Es; [done|].
  destruct (tk_state _ _ _ _ _ _ K Es) as [? _]. congruence.
Qed.

Lemma in_union_self (X : gset nat) t : bool_decide (t ∈ {[t]} ∪ X) = true.
Proof. apply bool_decide_eq_true_2. set_solver. Qed.
Lemma in_diff_self (X : gset nat) t : bool_decide (t ∈ X ∖ {[t]}) = false.
Proof. apply bool_decide_eq_false_2. set_solver. Qed.
Lemma union_diff_self (X : gset nat) t : ({[t]} ∪ X) ∖ {[t]} = X ∖ {[t]}.
Proof. set_solver. Qed.
Lemma diff_diff_self (X : gset nat) t : X ∖ {[t]} ∖ {[t]} = X ∖ {[t]}.
Proof. set_solver. Qed.

(** The steps of [exec] other than the copy. *)
Lemma inv_exec_local s t s' th :
  Inv s → tasks s !! t = Some th → t_at th ≠ PCopy → exec cfg s t = Some s' → Inv s'.
Proof.
  intros I Hth Hnc. unfold exec. rewrite Hth.
  pose proof (inv_task s I t th Hth) as K. pose proof (task_running _ _ _ _ _ K) as Hrun.
  destruct th as [o p st sg r]. destruct K as [K1 K2 K3 K4 K5 K6 K7 K8 K9].
  unfold ioctl_ok in K9. simpl in *.
  destruct p; simpl in *; try done; try (rewrite Hrun in * by done; clear K5); clear Hrun.
  - (* PLock *) destruct (mutex s) eqn:Em; [done|]. intros; simplify_eq.
    eapply inv_upd; [done..|by right; right|]. rewrite bool_decide_eq_true_2, K3, K4 by done.
    by destruct o; split.
  - (* PEnqueue *) intros; simplify_eq. destruct o; simpl in *; [..|done].
    + eapply inv_upd_wait; [done..|apply union_diff_self|done|].
      unfold on_w in K4. rewrite in_union_self, K2, K4. by split.
    + eapply inv_upd_wait; [done..|apply union_diff_self|].
      unfold on_r in K3. rewrite in_union_self, K2, K3. by split.
  - (* PTest *) intros; simplify_eq. eapply inv_upd; [done..|by left|].
    unfold holder in K2. rewrite K2, K3, K4.
    destruct (must_wait _ _ _) eqn:Ew; [destruct (op_nonblock o) eqn:En|];
      destruct o; simpl in *; by split.
  - (* PSetState *) intros; simplify_eq. eapply inv_upd; [done..|by left|].
    unfold holder in K2. rewrite K2, K3, K4. split; simpl; auto. by destruct o.
  - (* PUnlock *) intros; simplify_eq. eapply inv_upd; [done..|by right; left|].
    rewrite bool_decide_eq_false_2, K3, K4 by done. by split.
  - (* PSchedule *) split_if; [|done]. intros; simplify_eq. eapply inv_upd; [done..|by left|].
    unfold holder in K2. rewrite K2, K3, K4. by split.
  - (* PSignal *) intros; simplify_eq. eapply inv_upd; [done..|by left|].
    unfold holder in K2. rewrite K2, K3, K4. destruct sg, o; by split.
  - (* PRelock *) destruct (mutex s) eqn:Em; [done|]. intros; simplify_eq.
    eapply inv_upd; [done..|by right; right|].
    rewrite bool_decide_eq_true_2, K3, K4 by done. destruct o; by split.
  - (* POut *) intros; simplify_eq. eapply inv_upd; [done..|by right; left|].
    rewrite bool_decide_eq_false_2, K3, K4 by done. destruct o; by split.
  - (* POut2 *) intros; simplify_eq. destruct o; simpl in *; [..|done].
    + eapply inv_upd_wait; [done..|apply diff_diff_self|done|].
      unfold on_w in K4. rewrite in_diff_self, K2, K4. by split.
    + eapply inv_upd_wait; [done..|apply diff_diff_self|].
      unfold on_r in K3. rewrite in_diff_self, K2, K3. by split.
Qed.

Lemma lookup_wake (q : gset nat) ts t :
  wake q ts !! t = (λ th, if decide (t ∈ q) then set_state TASK_RUNNING th else th) <$> ts !! t.
Proof. unfold wake. rewrite map_lookup_imap. by destruct (ts !! t). Qed.

Lemma lookup_woken ev s ts t :
  woken ev s ts !! t =
    (λ th, if decide (t ∈ match ev with
                          | WakeReaders :: _ => r_wait s
                          | WakeWriters :: _ => w_wait s
                          | _ => ∅
                          end) then set_state TASK_RUNNING th else th) <$> ts !! t.
Proof.
  destruct ev as [|[| |] ev]; simpl; rewrite ?lookup_wake; try done;
    destruct (ts !! t); simpl; [rewrite decide_False by set_solver|..]; done.
Qed.

(** A step at [PCopy]: the device changes, the tasks on the queue [q] wake; it
    keeps the invariant if every task that keeps sleeping still has to. *)
Lemma inv_copy s s' t th r (q : gset nat) :
  Inv s → tasks s !! t = Some th → t_at th = PCopy →
  mutex s' = mutex s → r_wait s' = r_wait s → w_wait s' = w_wait s →
  (∀ t', tasks s' !! t' = (λ th, if decide (t' ∈ q) then set_state TASK_RUNNING th else th)
           <$> <[t := goto POut (set_ret r th)]> (tasks s) !! t') →
  gfifo_ok cfg (dev s') → fifo_run (GFIFO_SIZE cfg) (log s') (queue (dev s')) →
  (∀ t' th', tasks s !! t' = Some th' → t_state th' = TASK_INTERRUPTIBLE →
     must_wait cfg (t_op th') (dev s') = true ∨ t' ∈ q) →
  Inv s'.
Proof.
  intros I Hth Hat Hm Hr Hw Hts Hd Hl Hsleep.
  pose proof (inv_task s I t th Hth) as K.
  assert (holder s t = true) as Hh by (rewrite (tk_hold _ _ _ _ _ _ K), Hat; done).
  split; [done| | |done]; unfold holder, on_r, on_w in *; rewrite ?Hm, ?Hr, ?Hw.
  - intros t' th'. rewrite Hts. destruct (decide (t' = t)) as [->|Hne].
    + rewrite lookup_insert_eq. simpl. intros [= <-]. rewrite Hh.
      pose proof (task_running _ _ _ _ _ K) as Hrun. rewrite Hat in Hrun.
      destruct K as [K1 K2 K3 K4 K5 K6 K7 K8 K9]. unfold holder, on_r, on_w in *.
      rewrite K3, K4. destruct th as [o p st sg r0]; simpl in *. subst p.
      rewrite Hrun in * by done. unfold ioctl_ok in K9.
      destruct (decide (t ∈ q)), o; by split.
    + rewrite lookup_insert_ne by done. destruct (tasks s !! t') as [th0|] eqn:E; [|done].
      simpl. intros [= <-]. specialize (Hsleep t' th0 E).
      destruct (inv_task s I t' th0 E) as [K1 K2 K3 K4 K5 K6 K7 K8 K9].
      unfold holder, on_r, on_w in *.
      assert (holds (t_at th0) = false) as Hnh.
      { rewrite <- K2. apply bool_decide_eq_true_1 in Hh. rewrite Hh.
        apply bool_decide_eq_false_2. congruence. }
      destruct (decide (t' ∈ q)); split; simpl; try done;
        try (intros Ec; rewrite Ec in Hnh; done).
      intros Es. destruct (K5 Es), (Hsleep Es); done.
  - intros t'. rewrite Hts. rewrite fmap_None, lookup_insert_None. intros [Hn _].
    by apply (inv_none s I).
Qed.

(** A task asleep on the other side's condition is on that side's queue. *)
Lemma asleep_reader s t th :
  Inv s → tasks s !! t = Some th → t_state th = TASK_INTERRUPTIBLE →
  (is_read (t_op th) = true ∧ t ∈ r_wait s) ∨ (is_write (t_op th) = true ∧ t ∈ w_wait s).
Proof.
  intros I Hth Hs. destruct (inv_task s I t th Hth) as [K1 K2 K3 K4 K5 K6 K7 K8 K9].
  destruct (K5 Hs) as [Hsl Hw]. unfold on_r, on_w in *.
  assert (queued (t_at th) = true) as Hq by (destruct (t_at th); done).
  rewrite Hq in *. destruct (t_op th); simpl in *; [left|right|done];
    (split; [done|]); by eapply bool_decide_eq_true_1.
Qed.

Lemma taken_take n (q q' : list Z) : taken n q q' → taken (length (take n q)) q q'.
Proof.
  intros [H1 H2]. destruct (decide (n <= length q)%nat); [by rewrite length_take, Nat.min_l|].
  rewrite take_ge by lia. unfold taken in *. rewrite !drop_ge in * by lia. apply nil_length_inv in H1. by subst.
Qed.

(** The copy step of each call. *)
Lemma inv_copy_read s t th s' buf size nb :
  Inv s → tasks s !! t = Some th → t_at th = PCopy → t_op th = OpRead buf size nb →
  exec_copy cfg s t th = Some s' → Inv s'.
Proof.
  intros I Hth Hat Eop. pose proof (inv_task s I t th Hth) as K.
  pose proof (tk_copy _ _ _ _ _ _ K Hat) as Hnw. pose proof (tk_op _ _ _ _ _ _ K) as Hop.
  pose proof (inv_dev s I) as Hd. pose proof (inv_log s I) as Hlog.
  assert (0 <= cur_len (dev s) <= GFIFO_SIZE cfg) as Hcl by apply Hd.
  clear K. unfold exec_copy. rewrite Eop in *. simpl in *.
  pose proof (read_copy_spec cfg Hcfg (dev s) (user s) buf size Hd Hop) as Hr. cbv zeta in Hr.
  pose proof (ctu_ok (user s) buf (take (Z.to_nat size) (queue (dev s)))) as Hdel.
  destruct (copy_to_user _ _ _) as [u' rest]. cbn [fst snd] in Hdel. destruct (rest =? 0) eqn:Hz.
  - destruct Hr as (d' & -> & Hd' & Hq & Hc & _). intros [= <-].
    eapply (inv_copy s _ t th _ (w_wait s)); try done.
    + intros t'. apply lookup_wake.
    + simpl. if_false. pose proof (length_queue cfg (dev s) Hd).
      assert (ubytes u' buf (Z.min size (cur_len (dev s))) = Some (take (Z.to_nat size) (queue (dev s)))) as ->.
      { rewrite <- Hdel by lia. f_equal. rewrite length_take. lia. }
      apply (run_read _ _ (drop (Z.to_nat size) (queue (dev s))) t (take (Z.to_nat size) (queue (dev s)))); rewrite take_drop; [done|by apply taken_take].
    + intros t' th' H' Hs'. destruct (asleep_reader s t' th' I H' Hs') as [[Hrd _]|[_ ?]];
        [|by right].
      destruct (inv_task s I t' th' H') as [_ _ _ _ K5 _ _ _ _]. destruct (K5 Hs') as [_ Hw'].
      destruct (t_op th'); simpl in *; congruence.
  - rewrite Hr. intros [= <-]. eapply (inv_copy s _ t th _ ∅); try done.
    + intros t'. simpl. apply (lookup_woken [] s).
    + intros t' th' H' Hs'. left. simpl.
      by destruct (tk_state _ _ _ _ _ _ (inv_task s I t' th' H') Hs').
Qed.

Lemma inv_copy_write s t th s' buf size nb :
  Inv s → tasks s !! t = Some th → t_at th = PCopy → t_op th = OpWrite buf size nb →
  exec_copy cfg s t th = Some s' → Inv s'.
Proof.
  intros I Hth Hat Eop. pose proof (inv_task s I t th Hth) as K.
  pose proof (tk_copy _ _ _ _ _ _ K Hat) as Hnw. pose proof (tk_op _ _ _ _ _ _ K) as Hop.
  pose proof (inv_dev s I) as Hd. pose proof (inv_log s I) as Hlog.
  assert (0 <= cur_len (dev s) <= GFIFO_SIZE cfg) as Hcl by apply Hd.
  clear K. unfold exec_copy. rewrite Eop in *. simpl in *.
  pose proof (write_copy_spec cfg Hcfg (dev s) (user s) buf size Hd Hop) as Hw. cbv zeta in Hw.
  set (n := Z.min size (GFIFO_SIZE cfg - cur_len (dev s))) in *.
  assert (0 <= n) as Hn by lia.
  pose proof (cfu_length (user s) buf n Hn) as Hlen. pose proof (cfu_ok (user s) buf n Hn) as Hgot.
  destruct (copy_from_user (user s) buf n) as [bs rest]. cbn [fst snd] in Hlen, Hgot.
  destruct Hw as (d' & Hd' & _ & Hw). destruct (rest =? 0) eqn:Hz.
  - destruct Hw as (-> & Hq & Hc). intros [= <-].
    eapply (inv_copy s _ t th _ (r_wait s)); try done.
    + intros t'. apply lookup_wake.
    + simpl. if_false. rewrite Hgot, Hq by lia. simpl. apply run_write; [done|].
      rewrite length_app. pose proof (length_queue cfg (dev s) Hd). simpl in Hlen. unfold n in Hlen. lia.
    + intros t' th' H' Hs'. destruct (asleep_reader s t' th' I H' Hs') as [[_ ?]|[Hwr _]];
        [by right|].
      destruct (inv_task s I t' th' H') as [_ _ _ _ K5 _ _ _ _]. destruct (K5 Hs') as [_ Hw'].
      destruct (t_op th'); simpl in *; congruence.
  - destruct Hw as (-> & Hq & Hc). intros [= <-].
    eapply (inv_copy s _ t th _ ∅); try done.
    + intros t'. simpl. apply (lookup_woken [] s).
    + simpl. by rewrite Hq.
    + intros t' th' H' Hs'. left. simpl.
      destruct (tk_state _ _ _ _ _ _ (inv_task s I t' th' H') Hs') as [_ Hw'].
      destruct (t_op th'); simpl in *; by rewrite ?Hc.
Qed.

Lemma inv_copy_ioctl s t th s' cmd :
  Inv s → tasks s !! t = Some th → t_at th = PCopy → t_op th = OpIoctl cmd →
  exec_copy cfg s t th = Some s' → Inv s'.
Proof.
  intros I Hth Hat Eop. pose proof (inv_task s I t th Hth) as K.
  pose proof (tk_copy _ _ _ _ _ _ K Hat) as Hnw. pose proof (tk_op _ _ _ _ _ _ K) as Hop.
  pose proof (inv_dev s I) as Hd. pose proof (inv_log s I) as Hlog.
  assert (0 <= cur_len (dev s) <= GFIFO_SIZE cfg) as Hcl by apply Hd.
  pose proof (tk_ioctl _ _ _ _ _ _ K) as Hio. unfold ioctl_ok in Hio. rewrite Hat in Hio.
  clear K. unfold exec_copy. rewrite Eop in *. simpl in *.
  subst cmd. intros [= <-]. destruct (clear_refines cfg (dev s) Hd) as [Hd' Hq].
  eapply (inv_copy s _ t th _ ∅); try done.
  - intros t'. simpl. apply (lookup_woken [] s).
  - simpl. simpl in Hq. rewrite Hq. by apply run_clear.
  - intros t' th' H' Hs'. left. simpl.
    destruct (tk_state _ _ _ _ _ _ (inv_task s I t' th' H') Hs') as [_ Hw'].
    by destruct (t_op th').
Qed.

Lemma inv_exec_copy s t th s' :
  Inv s → tasks s !! t = Some th → t_at th = PCopy → exec_copy cfg s t th = Some s' → Inv s'.
Proof.
  intros I Hth Hat. destruct (t_op th) eqn:Eop;
    [by eapply inv_copy_read|by eapply inv_copy_write|by eapply inv_copy_ioctl].
Qed.

Lemma inv_step s s' : Inv s → step cfg s s' → Inv s'.
Proof.
  intros I. destruct 1 as [s t s' He|s t o Hn Ho|s t th Hth Hat|s t th Hth|s u].
  - unfold exec in He. destruct (tasks s !! t) as [th|] eqn:Hth; [|done].
    destruct (decide (t_at th = PCopy)) as [Hc|Hc].
    + rewrite Hc in He. eauto using inv_exec_copy.
    + eapply inv_exec_local; [done..|]. unfold exec. by rewrite Hth.
  - destruct (inv_none s I t Hn) as (Hh & Hr & Hw).
    split; simpl; [apply I| | |apply I].
    + intros t' th'. unfold holder, on_r, on_w in *. simpl.
      destruct (decide (t' = t)) as [->|Hne].
      * rewrite lookup_insert_eq. intros [= <-]. rewrite Hh, Hr, Hw.
        destruct o as [| |cmd]; simpl in *; [by split..|]. unfold call.
        destruct (Z.eqb_spec cmd MEM_CLEAR); by split.
      * rewrite lookup_insert_ne by done. apply (inv_task s I).
    + intros t' [Ht' _]%lookup_insert_None. by apply (inv_none s I).
  - destruct (inv_task s I t th Hth) as [K1 K2 K3 K4 K5 K6 K7 K8 K9].
    rewrite Hat, andb_false_r in *. split; simpl; [apply I| | |apply I].
    + intros t' th' [_ Ht']%lookup_delete_Some. by apply (inv_task s I).
    + intros t' [<-|Ht']%lookup_delete_None; [done|]. by apply (inv_none s I).
  - destruct (inv_task s I t th Hth) as [K1 K2 K3 K4 K5 K6 K7 K8 K9].
    eapply (inv_local s _ t); [done|by eexists|done..|]. by split.
  - by destruct I.
Qed.

Lemma inv_reachable s : reachable cfg s → Inv s.
Proof.
  intros [u Hr]. remember (init cfg u) as s0 eqn:E.
  assert (Inv s0) as I by (subst; apply inv_init). clear E.
  induction Hr; [done|]. eauto using inv_step.
Qed.

(** *** Progress *)

(** The task that holds the mutex is never stuck; its copy makes no access
    outside the device. *)
Lemma holder_steps s t : Inv s → mutex s = Some t → is_Some (exec cfg s t).
Proof.
  intros I Hm. unfold exec.
  destruct (tasks s !! t) as [th|] eqn:Hth.
  2:{ destruct (inv_none s I t Hth) as [Hh _]. by apply bool_decide_eq_false_1 in Hh. }
  pose proof (inv_task s I t th Hth) as K.
  assert (holds (t_at th) = true) as Hh.
  { rewrite <- (tk_hold _ _ _ _ _ _ K). by apply bool_decide_eq_true_2. }
  destruct (t_at th) eqn:Hat; try done; try by eexists.
  unfold exec_copy. pose proof (tk_op _ _ _ _ _ _ K) as Hop. pose proof (inv_dev s I) as Hd.
  destruct (t_op th) as [buf size nb|buf size nb|cmd]; simpl in Hop; [| |by eexists].
  - pose proof (read_copy_spec cfg Hcfg (dev s) (user s) buf size Hd Hop) as Hr. cbv zeta in Hr.
    destruct (copy_to_user _ _ _) as [u' rest], (rest =? 0);
      [destruct Hr as (? & -> & _) | rewrite Hr]; by eexists.
  - pose proof (write_copy_spec cfg Hcfg (dev s) (user s) buf size Hd Hop) as Hw. cbv zeta in Hw.
    destruct (copy_from_user _ _ _) as [bs rest], Hw as (? & _ & _ & Hw).
    destruct (rest =? 0), Hw as [-> _]; by eexists.
Qed.

(** A task that has not returned moves, or waits for a mutex whose holder
    moves, or sleeps because its condition does not hold. *)
Lemma task_progress s t th :
  Inv s → tasks s !! t = Some th → t_at th ≠ PReturn →
  is_Some (exec cfg s t) ∨
  (∃ t', mutex s = Some t' ∧ is_Some (exec cfg s t')) ∨
  (t_at th = PSchedule ∧ t_sig th = false ∧ op_nonblock (t_op th) = false ∧
   must_wait cfg (t_op th) (dev s) = true).
Proof.
  intros I Hth Hnr. pose proof (inv_task s I t th Hth) as K.
  destruct (holds (t_at th)) eqn:Hh.
  { left. apply holder_steps; [done|]. rewrite <- (tk_hold _ _ _ _ _ _ K) in Hh.
    by apply bool_decide_eq_true_1 in Hh. }
  unfold exec at 1. rewrite Hth.
  assert (∀ A, (∃ t', mutex s = Some t') → A ∨
    (∃ t', mutex s = Some t' ∧ is_Some (exec cfg s t')) ∨
    (t_at th = PSchedule ∧ t_sig th = false ∧ op_nonblock (t_op th) = false ∧
     must_wait cfg (t_op th) (dev s) = true)) as Hmut.
  { intros A [t' Ht']. right; left. eauto using holder_steps. }
  destruct (t_at th) eqn:Hat; simpl in Hh; try done; try (left; by eexists);
    try (destruct (mutex s); [apply Hmut; by eexists | left; by eexists]).
  destruct (bool_decide _ || _) eqn:E; [left; by eexists|]. right; right. bool_to_prop.
  apply bool_decide_eq_false_1 in H.
  assert (t_state th = TASK_INTERRUPTIBLE) as Hs by (by destruct (t_state th)).
  destruct (tk_state _ _ _ _ _ _ K Hs). split_and!; try done.
  apply (tk_loop _ _ _ _ _ _ K). by rewrite Hat.
Qed.

(** *** Histories without a clear *)
Definition bytes_written (l : list fifo_event) : list Z :=
  l ≫= λ e, match e with EvWrite _ bs => bs | _ => [] end.
Definition bytes_read (l : list fifo_event) : list Z :=
  l ≫= λ e, match e with EvRead _ bs _ => bs | _ => [] end.
Definition not_clear (e : fifo_event) : Prop :=
  match e with EvClear _ => False | _ => True end.
(** A read whose rest did not overlap its destination. *)
Definition half_read (e : fifo_event) : Prop :=
  match e with EvRead _ bs n => (n <= length bs)%nat | _ => True end.

Lemma fifo_run_counts cap l q :
  fifo_run cap l q → length (bytes_written l) = (length (bytes_read l) + length q)%nat.
Proof.
  unfold bytes_written, bytes_read.
  induction 1 as [|l q t bs q' _ IH [Hl _]|l q t bs _ IH _|l q t _ IH]; [done|..];
    rewrite !bind_app; simpl; rewrite ?app_nil_r, ?length_app in *; try lia.
  - rewrite drop_app_length in Hl. lia.
  - unfold fifo_clear. rewrite length_replicate. lia.
Qed.

Lemma fifo_run_conserves cap l q :
  fifo_run cap l q → Forall not_clear l → Forall half_read l → bytes_written l = bytes_read l ++ q.
Proof.
  unfold bytes_written, bytes_read.
  induction 1 as [|l q t bs q' _ IH [Hl1 Hl2]|l q t bs _ IH _|l q t _ IH]; [done|..];
    intros [Hl He]%Forall_app [Hh Hr]%Forall_app; rewrite !bind_app; simpl; rewrite ?app_nil_r, (IH Hl Hh).
  - apply Forall_cons_1 in Hr as [Hr _]. cbn in Hr. rewrite drop_app_length in *. rewrite Hl2 by lia. by rewrite app_assoc.
  - by rewrite app_assoc.
  - apply Forall_cons_1 in He as [[] _].
Qed.

(** ** Theorems *)

(** C8: in every state that any number of interleaved readers, writers and
    clears can reach, at most one task is between [mutex_lock] and
    [mutex_unlock], the device satisfies its representation invariant, and a
    call that is about to return holds neither the mutex nor a place on a wait
    queue, whichever of its error paths it took. *)
Theorem gfifo_mutual_exclusion s :
  reachable cfg s →
  gfifo_ok cfg (dev s) ∧
  (∀ t t' th th', tasks s !! t = Some th → tasks s !! t' = Some th' →
     holds (t_at th) = true → holds (t_at th') = true → t = t') ∧
  (∀ t th, tasks s !! t = Some th → t_at th = PReturn →
     mutex s ≠ Some t ∧ t ∉ r_wait s ∧ t ∉ w_wait s).
Proof.
  intros I%inv_reachable. split_and!; [apply I| |].
  - intros t t' th th' Ht Ht' Hh Hh'.
    rewrite <- (tk_hold _ _ _ _ _ _ (inv_task s I _ _ Ht)) in Hh.
    rewrite <- (tk_hold _ _ _ _ _ _ (inv_task s I _ _ Ht')) in Hh'.
    apply bool_decide_eq_true_1 in Hh, Hh'. congruence.
  - intros t th Ht Hat. destruct (inv_task s I _ _ Ht) as [_ Hh Hr Hw _ _ _ _ _].
    rewrite Hat, andb_false_r in *.
    split_and!; by eapply bool_decide_eq_false_1.
Qed.

(** C3: no wake-up is lost and no schedule deadlocks.  In every reachable state
    a call that has not returned can take its next step, or waits for the mutex
    whose holder can, or sleeps in [schedule]; and it only sleeps there as a
    blocking call with no signal pending, while the queue really is empty (for
    a reader) or full (for a writer). *)
Theorem gfifo_no_lost_wakeup s t th :
  reachable cfg s → tasks s !! t = Some th → t_at th ≠ PReturn →
  is_Some (exec cfg s t) ∨
  (∃ t', mutex s = Some t' ∧ is_Some (exec cfg s t')) ∨
  (t_at th = PSchedule ∧ t_sig th = false ∧ op_nonblock (t_op th) = false ∧
   must_wait cfg (t_op th) (dev s) = true).
Proof. intros I%inv_reachable. by apply task_progress. Qed.

(** C2: whatever the interleaving, the completed operations form a history of a bounded
    FIFO queue that ends in the queue the device holds: the bytes a read put into the
    buffer of its caller are the oldest bytes of its moment, a write appended the bytes
    of its buffer, and as many bytes were written as were read and are still queued.
    A read that leaves more than it delivers moves the rest with an overlapping
    [memcpy], of which only the number of bytes is promised; while there was no such
    read and no clear, everything written is exactly everything read followed by what
    is still queued: no byte is lost, duplicated or reordered. *)
Theorem gfifo_linearizable s :
  reachable cfg s →
  fifo_run (GFIFO_SIZE cfg) (log s) (queue (dev s)) ∧
  length (bytes_written (log s)) = (length (bytes_read (log s)) + length (queue (dev s)))%nat ∧
  (Forall not_clear (log s) → Forall half_read (log s) →
   bytes_written (log s) = bytes_read (log s) ++ queue (dev s)).
Proof.
  intros I%inv_reachable. split_and!; [apply I|eapply fifo_run_counts, I|eapply fifo_run_conserves, I].
Qed.
End Invariant.

(** ** Schedules, to evaluate the model *)
Inductive act := Call (t : nat) (o : op) | Run (t : nat).

Section Schedules.
Context {UA : UserAccess} {MC : Memcpy} {FA : FasyncApi}.
Variable cfg : gfifo_cfg.

Definition do_act (s : sys) (a : act) : sys :=
  match a with
  | Call t (OpRead _ size _ as o) | Call t (OpWrite _ size _ as o) =>
      if decide (tasks s !! t = None ∧ 0 <= size < 4294967296)
      then set_tasks s (<[t := call o]> (tasks s)) else s
  | Call t o =>
      if decide (tasks s !! t = None)
      then set_tasks s (<[t := call o]> (tasks s)) else s
  | Run t => default s (exec cfg s t)
  end.

Definition play (s : sys) (l : list act) : sys := foldl do_act s l.

Lemma do_act_rtc s a : rtc (step cfg) s (do_act s a).
Proof.
  destruct a as [t [| |]|t]; cbn [do_act].
  1-2: case_decide as H; [destruct H|done]; by apply rtc_once, step_call.
  - case_decide; [|done]. by apply rtc_once, step_call.
  - destruct (exec cfg s t) eqn:E; simpl; [|done]. by eapply rtc_once, step_task.
Qed.

Lemma play_rtc l s : rtc (step cfg) s (play s l).
Proof.
  revert s. induction l as [|a l IH]; intros s; simpl; [done|].
  etrans; [apply do_act_rtc|apply IH].
Qed.

Lemma play_reachable u l : reachable cfg (play (init cfg u) l).
Proof. exists u. apply play_rtc. Qed.
End Schedules.

Import FlatUser MemcpyImpl.

(** Task 1 finds the queue empty and goes to sleep. *)
Definition demo_sleep : list act :=
  Call 1 (OpRead 200 4 false) :: replicate 5 (Run 1).

(** Task 2 then writes three bytes, which wakes task 1 up; task 1 reads them. *)
Definition demo_wakeup : list act :=
  demo_sleep ++ Call 2 (OpWrite 100 3 false) :: replicate 6 (Run 2) ++ replicate 7 (Run 1).

Definition demo_play (l : list act) : sys :=
  play (MC := up) gfifo_config (init gfifo_config demo_user) l.

Lemma gfifo_mutual_exclusion_witness :
  gfifo_ok gfifo_config (dev (demo_play demo_wakeup)) ∧
  t_ret <$> tasks (demo_play demo_wakeup) !! 1%nat = Some 3.
Proof.
  split; [|vm_compute; reflexivity].
  apply (gfifo_mutual_exclusion (MC := up) gfifo_config ltac:(split; simpl; lia)).
  apply play_reachable.
Defined.

Lemma gfifo_no_lost_wakeup_witness :
  ∃ th, tasks (demo_play demo_sleep) !! 1%nat = Some th ∧
    t_state th = TASK_INTERRUPTIBLE ∧ must_wait gfifo_config (t_op th) (dev (demo_play demo_sleep)) = true.
Proof.
  eexists. split; [vm_compute; reflexivity|]. split; [reflexivity|].
  edestruct (gfifo_no_lost_wakeup (MC := up) gfifo_config ltac:(split; simpl; lia)
    (demo_play demo_sleep) 1) as [H|[H|H]];
    [apply play_reachable | vm_compute; reflexivity | vm_compute; discriminate | | |].
  - exfalso. destruct H as [x H]. vm_compute in H. discriminate.
  - exfalso. destruct H as (t' & H & _). vm_compute in H. discriminate.
  - apply H.
Defined.

Lemma gfifo_linearizable_witness :
  log (demo_play demo_wakeup) = [EvWrite 2 [1; 2; 3]; EvRead 1 [1; 2; 3] 0] ∧
  bytes_written (log (demo_play demo_wakeup))
    = bytes_read (log (demo_play demo_wakeup)) ++ queue (dev (demo_play demo_wakeup)).
Proof.
  assert (log (demo_play demo_wakeup) = [EvWrite 2 [1; 2; 3]; EvRead 1 [1; 2; 3] 0]) as E
    by (vm_compute; reflexivity).
  split; [exact E|].
  apply (gfifo_linearizable (MC := up) gfifo_config ltac:(split; simpl; lia));
    [apply play_reachable|rewrite E; repeat constructor..].
Defined.
