(* ===== verification/Lifecycle.v ===== *)
(** * Loading and unloading the character drivers

    Module init and exit of gmem, gmem_n, gmem_mutex, gfifo, gfifo_nonblock and
    gfifo_async, probe and remove of the platform and misc-device drivers, and
    the modules that create the platform devices.  The kernel is the set of
    resources they hold: device-number regions, allocations, live cdevs, misc
    devices, driver data and platform devices.  What a kernel call answers is an
    input. *)

From S2P Require Import Prelude.

(** A device-number region: major, first minor, count. *)
Definition region : Type := Z * Z * Z.

Record kstate := {
  k_regions : gset region;
  k_heap : gset Z;              (* addresses of live [kzalloc] objects *)
  k_cdevs : gset (Z * Z);       (* live cdevs: object, index in the array *)
  k_misc : gset Z;              (* registered misc devices, by their object *)
}.

Definition with_regions (r : gset region) (k : kstate) : kstate :=
  {| k_regions := r; k_heap := k_heap k; k_cdevs := k_cdevs k; k_misc := k_misc k |}.
Definition with_heap (h : gset Z) (k : kstate) : kstate :=
  {| k_regions := k_regions k; k_heap := h; k_cdevs := k_cdevs k; k_misc := k_misc k |}.
Definition with_cdevs (c : gset (Z * Z)) (k : kstate) : kstate :=
  {| k_regions := k_regions k; k_heap := k_heap k; k_cdevs := c; k_misc := k_misc k |}.
Definition with_misc (m : gset Z) (k : kstate) : kstate :=
  {| k_regions := k_regions k; k_heap := k_heap k; k_cdevs := k_cdevs k; k_misc := m |}.

(** The answers of the kernel during one init or probe. *)
Record answers := {
  a_region : Z;          (* register_chrdev_region / alloc_chrdev_region *)
  a_major : Z;           (* the major alloc_chrdev_region chose *)
  a_kzalloc : option Z;  (* the object, [None] for NULL *)
  a_cdev_add : Z → Z;    (* cdev_add of the [i]-th device *)
  a_misc : Z;            (* misc_register *)
}.

(** The globals of a module: its major number and device pointer. *)
Record globals := { g_major : Z; g_devp : option Z }.

(** ** Character drivers: [xxx_init] and [xxx_exit] over [count] devices *)

(** [xxx_setup_cdev]: a failing [cdev_add] is only printed. *)
Definition setup_cdev (a : answers) (devp index : Z) (k : kstate) : kstate :=
  if a_cdev_add a index =? 0 then with_cdevs ({[(devp, index)]} ∪ k_cdevs k) k else k.

(** [for (i = 0; i < DEVICE_NUM; i++) gmem_setup_cdev(gmem_devp + i, i)] *)
Definition setup_cdevs (a : answers) (devp : Z) (l : list Z) (k : kstate) : kstate :=
  foldl (λ k i, setup_cdev a devp i k) k l.

Definition char_init (count : Z) (a : answers) (g : globals) (k : kstate) : Z * globals * kstate :=
  let '(ret, devno_major, g, k) :=
    if negb (g_major g =? 0) then
      (a_region a, g_major g, g,
       if a_region a <? 0 then k
       else with_regions ({[(g_major g, 0, count)]} ∪ k_regions k) k)
    else if a_region a <? 0 then
      (a_region a, 0, {| g_major := 0; g_devp := g_devp g |}, k)
    else
      (a_region a, a_major a, {| g_major := a_major a; g_devp := g_devp g |},
       with_regions ({[(a_major a, 0, count)]} ∪ k_regions k) k) in
  if ret <? 0 then (ret, g, k)
  else
    let g := {| g_major := g_major g; g_devp := a_kzalloc a |} in
    match a_kzalloc a with
    | None => (- ENOMEM, g, with_regions (k_regions k ∖ {[(devno_major, 0, count)]}) k)
    | Some p =>
        (0, g, setup_cdevs a p (seqZ 0 count) (with_heap ({[p]} ∪ k_heap k) k))
    end.

Definition char_exit (count : Z) (g : globals) (k : kstate) : option kstate :=
  match g_devp g with
  | None => None (* NULL dereference *)
  | Some p =>
      let k := with_cdevs (k_cdevs k ∖ list_to_set ((λ i, (p, i)) <$> seqZ 0 count)) k in
      let k := with_heap (k_heap k ∖ {[p]}) k in
      Some (with_regions (k_regions k ∖ {[(g_major g, 0, count)]}) k)
  end.

Definition gmem_init := char_init 1.
Definition gmem_exit := char_exit 1.
Definition gmem_mutex_init := char_init 1.
Definition gmem_mutex_exit := char_exit 1.
Definition gmem_n_init := char_init 16.
Definition gmem_n_exit := char_exit 16.
Definition gfifo_init := char_init 1.
Definition gfifo_exit := char_exit 1.
Definition gfifo_nonblock_init := char_init 1.
Definition gfifo_nonblock_exit := char_exit 1.
Definition gfifo_async_init := char_init 1.
Definition gfifo_async_exit := char_exit 1.
(** The platform driver registers the same way, from its probe. *)
Definition gfifo_platform_probe := char_init 1.
Definition gfifo_platform_remove := char_exit 1.

(** ** Misc-device drivers *)

(** Driver data of the platform device. *)
Record pdevice := { pd_id : Z; pd_drvdata : option Z }.

(** The memory [miscdev.name] points to: a string literal, or the array
    [dev_name] in the frame of the probe. *)
Inductive storage := Static | ProbeFrame.

Definition misc_probe (a : answers) (pd : pdevice) (k : kstate) : Z * pdevice * kstate :=
  match a_kzalloc a with
  | None => (- ENOMEM, pd, k)
  | Some p =>
      let k := with_heap ({[p]} ∪ k_heap k) k in
      let pd := {| pd_id := pd_id pd; pd_drvdata := Some p |} in
      if negb (a_misc a =? 0) then (a_misc a, pd, k)
      else (0, pd, with_misc ({[p]} ∪ k_misc k) k)
  end.

Definition misc_remove (pd : pdevice) (k : kstate) : option kstate :=
  match pd_drvdata pd with
  | None => None
  | Some p => Some (with_heap (k_heap k ∖ {[p]}) (with_misc (k_misc k ∖ {[p]}) k))
  end.

Definition gfifo_misc_probe (a : answers) (pd : pdevice) (k : kstate)
    : Z * pdevice * kstate * storage := (misc_probe a pd k, Static).
Definition gfifo_misc_remove := misc_remove.

(** [dev->miscdev.name = dev_name]: the name is an array of the probe's frame. *)
Definition gfifo_misc_n_probe (a : answers) (pd : pdevice) (k : kstate)
    : Z * pdevice * kstate * storage := (misc_probe a pd k, ProbeFrame).
Definition gfifo_misc_n_remove := misc_remove.

(** ** Creating the platform devices *)

(** [platform_device_alloc] and [platform_device_add] of device [i]: [None] for
    NULL, the error of the add otherwise.  The state is the set of devices that
    are registered. *)
Definition device_step (alloc : Z → bool) (add : Z → Z) (i : Z) (reg : gset Z)
    : option Z * gset Z :=
  if negb (alloc i) then (Some (- ENOMEM), reg)
  else if negb (add i =? 0) then (Some (add i), reg) (* platform_device_put *)
  else (None, {[i]} ∪ reg).

Fixpoint device_loop (alloc : Z → bool) (add : Z → Z) (l : list Z) (reg : gset Z)
    : Z * gset Z :=
  match l with
  | [] => (0, reg)
  | i :: l' => match device_step alloc add i reg with
               | (Some err, reg') => (err, reg')
               | (None, reg') => device_loop alloc add l' reg'
               end
  end.

(** gfifo_misc_n creates [gfifo0] to [gfifo15], gfifo_misc one device (-1). *)
Definition gfifo_misc_n_device_init (alloc : Z → bool) (add : Z → Z) (reg : gset Z) : Z * gset Z :=
  device_loop alloc add (seqZ 0 16) reg.
Definition gfifo_misc_n_device_exit (reg : gset Z) : gset Z := reg ∖ list_to_set (seqZ 0 16).
Definition gfifo_misc_device_init (alloc : Z → bool) (add : Z → Z) (reg : gset Z) : Z * gset Z :=
  device_loop alloc add [-1] reg.
Definition gfifo_misc_device_exit (reg : gset Z) : gset Z := reg ∖ {[-1]}.
(** gfifo_platform registers a static device. *)
Definition gfifo_platform_device_init (add : Z → Z) (reg : gset Z) : Z * gset Z :=
  if add (-1) =? 0 then (0, {[-1]} ∪ reg) else (add (-1), reg).
Definition gfifo_platform_device_exit (reg : gset Z) : gset Z := reg ∖ {[-1]}.

(** ** What the drivers leave behind *)

(** The kernel's side of a call: it hands out what is free. *)
Definition fresh (count : Z) (a : answers) (g : globals) (k : kstate) : Prop :=
  (∀ p, a_kzalloc a = Some p → p ∉ k_heap k ∧ ∀ i, (p, i) ∉ k_cdevs k) ∧
  (0 <= a_region a →
     (if g_major g =? 0 then a_major a else g_major g, 0, count) ∉ k_regions k).

Lemma kstate_eq k k' :
  k_regions k = k_regions k' → k_heap k = k_heap k' → k_cdevs k = k_cdevs k' →
  k_misc k = k_misc k' → k = k'.
Proof. destruct k, k'; simpl; intros; by subst. Qed.

Lemma add_remove {A} `{Countable A} (x : A) (X : gset A) : x ∉ X → ({[x]} ∪ X) ∖ {[x]} = X.
Proof. set_solver. Qed.

(** The cdevs after the set-up loop; it touches nothing else. *)
Lemma setup_cdevs_frame a p l k :
  k_regions (setup_cdevs a p l k) = k_regions k ∧
  k_heap (setup_cdevs a p l k) = k_heap k ∧ k_misc (setup_cdevs a p l k) = k_misc k.
Proof.
  unfold setup_cdevs. revert k. induction l as [|i l IH]; intros k; [done|]. simpl.
  destruct (IH (setup_cdev a p i k)) as (-> & -> & ->). unfold setup_cdev. by split_if.
Qed.

Lemma elem_of_setup_cdevs a p l k c :
  c ∈ k_cdevs (setup_cdevs a p l k) ↔
    c ∈ k_cdevs k ∨ ∃ i, i ∈ l ∧ a_cdev_add a i = 0 ∧ c = (p, i).
Proof.
  unfold setup_cdevs. revert k. induction l as [|i l IH]; intros k; simpl; [set_solver|].
  rewrite IH. unfold setup_cdev. destruct (Z.eqb_spec (a_cdev_add a i) 0); simpl; set_solver.
Qed.

Lemma setup_then_delete a p l k :
  (∀ i, (p, i) ∉ k_cdevs k) →
  k_cdevs (setup_cdevs a p l k) ∖ list_to_set ((λ i, (p, i)) <$> l) = k_cdevs k.
Proof.
  intros Hf. apply set_eq. intros c.
  rewrite elem_of_difference, elem_of_setup_cdevs, elem_of_list_to_set, list_elem_of_fmap.
  split; [|intros ?; split; [by left|]; intros (i & -> & _); by destruct (Hf i)].
  intros [[?|(i & ? & _ & ->)] Hn]; [done|]. destruct Hn. by exists i.
Qed.

(** Init fails with the kernel as before, or exit undoes it. *)
Lemma char_balanced count a g k ret g' k' :
  fresh count a g k → char_init count a g k = (ret, g', k') →
  (ret < 0 → k' = k) ∧ (0 <= ret → ret = 0 ∧ char_exit count g' k' = Some k).
Proof.
  intros [Hp Hr]. unfold char_init.
  set (maj := if g_major g =? 0 then a_major a else g_major g) in *.
  destruct (a_region a <? 0) eqn:Er; bool_to_prop.
  { destruct (g_major g =? 0); simpl; if_true; intros; simplify_eq; split; done || lia. }
  assert (∀ gm, (if negb (g_major g =? 0) then (a_region a, g_major g, g,
      with_regions ({[(g_major g, 0, count)]} ∪ k_regions k) k)
    else (a_region a, a_major a, {| g_major := a_major a; g_devp := g_devp g |},
      with_regions ({[(a_major a, 0, count)]} ∪ k_regions k) k)) = gm →
    gm = (a_region a, maj, {| g_major := maj; g_devp := g_devp g |},
      with_regions ({[(maj, 0, count)]} ∪ k_regions k) k)) as Hm.
  { intros gm <-. unfold maj. destruct (g_major g =? 0) eqn:Em; [done|]. by destruct g. }
  rewrite (Hm _ eq_refl). if_false. simpl. destruct (a_kzalloc a) as [p|] eqn:Ea; intros [= <- <- <-].
  - split; [lia|]. intros _. split; [done|]. destruct (Hp p eq_refl) as [Hh Hc].
    destruct (setup_cdevs_frame a p (seqZ 0 count)
      (with_heap ({[p]} ∪ k_heap k) (with_regions ({[(maj, 0, count)]} ∪ k_regions k) k)))
      as (F1 & F2 & F3).
    unfold char_exit. simpl. f_equal. apply kstate_eq; simpl.
    + rewrite F1. simpl. apply add_remove, Hr. lia.
    + rewrite F2. simpl. by apply add_remove.
    + by rewrite setup_then_delete.
    + by rewrite F3.
  - split; [|unfold ENOMEM; lia]. intros _. apply kstate_eq; simpl; [|done..].
    apply add_remove, Hr. lia.
Qed.

(** C28: loading a character driver never leaks.  When init fails, because the
    region or the memory is refused, the kernel is as before; when it succeeds,
    exit gives back the region, the memory and every cdev. *)
Theorem char_init_exit_balanced count a g k ret g' k' :
  fresh count a g k → char_init count a g k = (ret, g', k') →
  (ret < 0 → k' = k) ∧ (0 <= ret → ret = 0 ∧ char_exit count g' k' = Some k).
Proof. apply char_balanced. Qed.

(** A refused [cdev_add] is not an error of the load: init answers 0 and the
    device is not reachable through any cdev. *)
Theorem char_init_ignores_cdev_failure a g k p :
  a_region a = 0 → a_kzalloc a = Some p → (∀ i, (p, i) ∉ k_cdevs k) →
  (∀ i, a_cdev_add a i ≠ 0) →
  ∃ g' k', gfifo_init a g k = (0, g', k') ∧ g_devp g' = Some p ∧ ∀ i, (p, i) ∉ k_cdevs k'.
Proof.
  intros Hr Ha Hc Hadd. unfold gfifo_init, char_init. rewrite Hr, Ha.
  destruct (g_major g =? 0); cbn -[setup_cdevs seqZ]; do 2 eexists;
    (split; [reflexivity|]); (split; [reflexivity|]);
    intros i [Hi|(j & _ & Hj & _)]%elem_of_setup_cdevs; [by apply (Hc i)|by apply (Hadd j)| |];
    [by apply (Hc i)|by apply (Hadd j)].
Qed.

(** A misc-device probe that fails leaks.  When [misc_register] refuses, the
    probe returns its error with the device object still allocated and the
    platform device still pointing to it; only a failing allocation leaves the
    kernel as it was. *)
Theorem misc_probe_leaks a pd k p :
  a_kzalloc a = Some p → p ∉ k_heap k → a_misc a < 0 →
  ∃ pd' k', gfifo_misc_probe a pd k = (a_misc a, pd', k', Static) ∧
    p ∈ k_heap k' ∧ pd_drvdata pd' = Some p ∧ p ∉ k_heap k.
Proof.
  intros Ha Hf Hm. unfold gfifo_misc_probe, misc_probe. rewrite Ha. if_true.
  do 2 eexists. split; [done|]. simpl. split; [set_solver|done].
Qed.

(** ** Concrete loads *)
Definition demo_kernel : kstate :=
  {| k_regions := {[(1, 0, 1)]}; k_heap := {[100]}; k_cdevs := {[(100, 0)]}; k_misc := ∅ |}.

Definition demo_answers (misc cdev : Z) : answers :=
  {| a_region := 0; a_major := 240; a_kzalloc := Some 500; a_cdev_add := λ _, cdev;
     a_misc := misc |}.

Lemma char_init_exit_balanced_witness :
  let r := gmem_n_init (demo_answers 0 0) {| g_major := 231; g_devp := None |} demo_kernel in
  r.1.1 = 0 ∧ gmem_n_exit r.1.2 r.2 = Some demo_kernel.
Proof.
  intros r. split; [reflexivity|].
  apply (char_init_exit_balanced 16 (demo_answers 0 0) {| g_major := 231; g_devp := None |}
    demo_kernel (r.1.1) (r.1.2) (r.2)).
  - split; simpl.
    + intros p [= <-]. split; [by apply (bool_decide_unpack _)|]. intros i.
      rewrite elem_of_singleton. congruence.
    + intros _. by apply (bool_decide_unpack _).
  - unfold r, gmem_n_init. by destruct (char_init _ _ _ _) as [[? ?] ?].
  - unfold r. simpl. lia.
Defined.

Lemma char_init_ignores_cdev_failure_witness :
  ∃ g' k', gfifo_init (demo_answers 0 (-16)) {| g_major := 231; g_devp := None |} demo_kernel
    = (0, g', k') ∧ g_devp g' = Some 500 ∧ ∀ i, (500, i) ∉ k_cdevs k'.
Proof.
  apply (char_init_ignores_cdev_failure (demo_answers 0 (-16))); [reflexivity..| |].
  - intros i. simpl. rewrite elem_of_singleton. congruence.
  - intros i. simpl. lia.
Defined.

Lemma misc_probe_leaks_witness :
  ∃ pd' k', gfifo_misc_probe (demo_answers (-16) 0) {| pd_id := -1; pd_drvdata := None |} demo_kernel
    = (-16, pd', k', Static) ∧ 500 ∈ k_heap k' ∧ pd_drvdata pd' = Some 500 ∧
      500 ∉ k_heap demo_kernel.
Proof.
  apply (misc_probe_leaks (demo_answers (-16) 0)); [reflexivity| |simpl; lia].
  by apply (bool_decide_unpack _).
Defined.
