(* ===== verification/GenericAccess.v ===== *)
(** * Generic register access: generic/generic_access.c, generic/dev_common.h

    Masked reads and writes of memory-mapped registers of 8 to 64 bits, with a
    hook that can take over the 8-bit accesses of one physical range.  The
    hardware is an interface: a state and the [__raw_read]/[__raw_write]
    accessors of the architecture. *)

From S2P Require Import Prelude.

(** ** The bus *)
Class IoBus := {
  bus : Type;
  (** [__raw_readb], [__raw_readw], [__raw_readl], [__raw_readq] by width *)
  raw_read : Z → Z → bus → Z * bus;
  (** [__raw_writeb] and its siblings: width, value, address *)
  raw_write : Z → Z → Z → bus → bus;
  (** [vmalloc_to_page] and [page_to_phys]: the physical address behind a mapped
      address *)
  ioaddr_phys : Z → option Z;
}.

(** Registers whose reads have no effect.  What a write does to the register is
    up to the hardware: it may ignore it. *)
Class PureBus (B : IoBus) := {
  rb_read_pure w a b : (raw_read w a b).2 = b;
  rb_read_range w a b : 0 <= w → 0 <= (raw_read w a b).1 < 2 ^ w;
}.

(** Registers that behave as memory: moreover a read returns what was last
    written to the cell, and cells that do not overlap are independent. *)
Class RegisterBus (B : IoBus) := {
  #[global] rb_pure :: PureBus B;
  rb_write_read w a v b : In w [8; 16; 32; 64] → 0 <= v < 2 ^ w →
    (raw_read w a (raw_write w v a b)).1 = v;
  rb_write_other w a v w' a' b : 0 <= w → 0 <= w' →
    8 * a + w <= 8 * a' ∨ 8 * a' + w' <= 8 * a →
    (raw_read w' a' (raw_write w v a b)).1 = (raw_read w' a' b).1;
}.

(** ** Constants *)
Definition GA_WRITE : Z := 1.
Definition GA_READ_WRITE_CONDITIONAL : Z := 2.
Definition GA_READ_WRITE_ALWAYS : Z := 4.
Definition GA_MODIFIED_NONE : Z := 0.
Definition GA_MODIFIED_SURE : Z := 1.
Definition GA_MODIFIED_MAYBE : Z := 2.
Definition GA_LM_SPINLOCK : Z := 0.
Definition GA_LM_MUTEX : Z := 1.

Section Access.
Context {B : IoBus}.

(** [struct ga_ioaddr_ops]: each hook may be NULL and is given [opaque]. *)
Record ga_ioaddr_ops := {
  op_init : option (Z → Z → Z → bus → Z * bus);
  op_read8 : option (Z → Z → bus → Z * bus);
  op_write8 : option (Z → Z → Z → bus → bus);
}.

Record ga_ioaddr_info := { i_addr : Z; i_size : Z; i_opaque : Z; i_ops : ga_ioaddr_ops }.

(** The static state of the module. *)
Record ga_state := { addr_info : ga_ioaddr_info; ga_lock_mode : Z }.

Definition no_ops : ga_ioaddr_ops :=
  {| op_init := None; op_read8 := None; op_write8 := None |}.
(** [memset(&addr_info, 0, sizeof(addr_info))] *)
Definition no_info : ga_ioaddr_info :=
  {| i_addr := 0; i_size := 0; i_opaque := 0; i_ops := no_ops |}.

Definition with_info (i : ga_ioaddr_info) (s : ga_state) : ga_state :=
  {| addr_info := i; ga_lock_mode := ga_lock_mode s |}.

Definition ga_set_lock_mode (mode : Z) (s : ga_state) : ga_state :=
  {| addr_info := addr_info s; ga_lock_mode := mode |}.

Definition ga_set_phys_addr_ops (addr size : Z) (ops : option ga_ioaddr_ops) (opaque : Z)
    (s : ga_state) (b : bus) : Z * ga_state * bus :=
  match ops with
  | None => (0, with_info no_info s, b)
  | Some o =>
      let s := with_info {| i_addr := addr; i_size := size; i_opaque := opaque; i_ops := o |} s in
      match op_init o with
      | Some init =>
          let '(ret, b) := init addr size opaque b in
          if negb (ret =? 0) then (ret, with_info no_info s, b) else (0, s, b)
      | None => (0, s, b)
      end
  end.

(** Returns the code and, for 1, the physical address. *)
Definition ga_ioaddr_to_phys (s : ga_state) (ioaddr : Z) : Z * Z :=
  match ioaddr_phys ioaddr with
  | None => (- EFAULT, 0)
  | Some addr =>
      let i := addr_info s in
      if (i_addr i <=? addr) && (addr <? u64 (i_addr i + i_size i)) then (1, addr) else (0, 0)
  end.

Definition ga_raw_readb (s : ga_state) (ioaddr : Z) (b : bus) : Z * bus :=
  match op_read8 (i_ops (addr_info s)) with
  | Some rd =>
      let '(ret, addr) := ga_ioaddr_to_phys s ioaddr in
      if ret <? 0 then (0, b)
      else if 0 <? ret then rd addr (i_opaque (addr_info s)) b
      else raw_read 8 ioaddr b
  | None => raw_read 8 ioaddr b
  end.

Definition ga_raw_writeb (s : ga_state) (val ioaddr : Z) (b : bus) : bus :=
  match op_write8 (i_ops (addr_info s)) with
  | Some wr =>
      let '(ret, addr) := ga_ioaddr_to_phys s ioaddr in
      if ret <? 0 then b
      else if 0 <? ret then wr val addr (i_opaque (addr_info s)) b
      else raw_write 8 val ioaddr b
  | None => raw_write 8 val ioaddr b
  end.

(** The accessors [__r] and [__w] a register function is instantiated with. *)
Record port := { p_width : Z; p_read : Z → bus → Z * bus; p_write : Z → Z → bus → bus }.

Definition port8 (s : ga_state) : port :=
  {| p_width := 8; p_read := ga_raw_readb s; p_write := ga_raw_writeb s |}.
Definition raw_port (w : Z) : port :=
  {| p_width := w; p_read := raw_read w; p_write := raw_write w |}.

(** The two locks of the module, [true] when held, and the bus: what the register
    functions change. *)
Record locks := { ga_spinlock : bool; ga_mutex : bool }.
Definition free_locks : locks := {| ga_spinlock := false; ga_mutex := false |}.
Definition ga_sys : Type := locks * bus.

(** Taking a held lock spins or sleeps. *)
Definition LOCK (s : ga_state) (l : locks) : run locks :=
  if ga_lock_mode s =? GA_LM_SPINLOCK
  then if ga_spinlock l then Block else Done {| ga_spinlock := true; ga_mutex := ga_mutex l |}
  else if ga_mutex l then Block else Done {| ga_spinlock := ga_spinlock l; ga_mutex := true |}.

Definition UNLOCK (s : ga_state) (l : locks) : locks :=
  if ga_lock_mode s =? GA_LM_SPINLOCK
  then {| ga_spinlock := false; ga_mutex := ga_mutex l |}
  else {| ga_spinlock := ga_spinlock l; ga_mutex := false |}.

Definition locked {A} (s : ga_state) (f : bus → A * bus) (h : ga_sys) : run (A * ga_sys) :=
  l ← LOCK s h.1; let '(a, b) := f h.2 in Done (a, (UNLOCK s l, b)).

(** [GA_DEFINE_REG_WRITE(__f, __T, __r, __w, __a)], between [LOCK] and
    [UNLOCK] *)
Definition write_body (p : port) (addr mask value options : Z) (b : bus) : Z * bus :=
  let w := p_width p in
  if negb (Z.land options GA_WRITE =? 0) || (mask =? Z.ones w) then
    (GA_MODIFIED_MAYBE, p_write p (Z.land value mask) addr b)
  else if negb (Z.land options (Z.lor GA_READ_WRITE_CONDITIONAL GA_READ_WRITE_ALWAYS) =? 0) then
    let '(old_reg, b) := p_read p addr b in
    let new_reg := uwrap w (Z.land old_reg (Z.lnot mask)) in
    let new_reg := Z.lor new_reg (Z.land value mask) in
    let modified := if negb (old_reg =? new_reg) then GA_MODIFIED_SURE else GA_MODIFIED_NONE in
    (modified,
     if negb (Z.land options GA_READ_WRITE_ALWAYS =? 0) || negb (old_reg =? new_reg)
     then p_write p new_reg addr b else b)
  else (GA_MODIFIED_NONE, b).
Definition reg_write (s : ga_state) (p : port) (addr mask value options : Z) : ga_sys → run (Z * ga_sys) :=
  locked s (write_body p addr mask value options).

(** [GA_DEFINE_REG_READ(__f, __T, __r)] *)
Definition read_body (p : port) (addr mask : Z) (b : bus) : Z * bus :=
  let '(v, b) := p_read p addr b in (Z.land v mask, b).
Definition reg_read (s : ga_state) (p : port) (addr mask : Z) : ga_sys → run (Z * ga_sys) :=
  locked s (read_body p addr mask).

Definition ga_reg_write8 (s : ga_state) := reg_write s (port8 s).
Definition ga_reg_write16 (s : ga_state) := reg_write s (raw_port 16).
Definition ga_reg_write32 (s : ga_state) := reg_write s (raw_port 32).
Definition ga_reg_write64 (s : ga_state) := reg_write s (raw_port 64).
Definition ga_reg_read8 (s : ga_state) := reg_read s (port8 s).
Definition ga_reg_read16 (s : ga_state) := reg_read s (raw_port 16).
Definition ga_reg_read32 (s : ga_state) := reg_read s (raw_port 32).
Definition ga_reg_read64 (s : ga_state) := reg_read s (raw_port 64).

(** The 64-bit functions of a 32-bit kernel, by byte order. *)
Definition low32 (x : Z) : Z := Z.land x (Z.ones 32).
Definition high32 (x : Z) : Z := Z.shiftr x 32.

Definition ga_reg_write64_32bit (s : ga_state) (little : bool) (addr mask value options : Z)
    (h : ga_sys) : run (Z * ga_sys) :=
  let first := if little then low32 else high32 in
  let second := if little then high32 else low32 in
  '(rc1, h) ← ga_reg_write32 s addr (first mask) (first value) options h;
  '(rc2, h) ← ga_reg_write32 s (addr + 4) (second mask) (second value) options h;
  mret (if (rc1 =? GA_MODIFIED_SURE) || (rc2 =? GA_MODIFIED_SURE) then GA_MODIFIED_SURE
        else if (rc1 =? GA_MODIFIED_MAYBE) || (rc2 =? GA_MODIFIED_MAYBE) then GA_MODIFIED_MAYBE
        else GA_MODIFIED_NONE, h).

Definition ga_reg_read64_32bit (s : ga_state) (little : bool) (addr mask : Z) (h : ga_sys)
    : run (Z * ga_sys) :=
  if little then
    '(lsv, h) ← ga_reg_read32 s addr (low32 mask) h;
    '(msv, h) ← ga_reg_read32 s (addr + 4) (high32 mask) h;
    mret (Z.land (u64 (Z.shiftl msv 32)) lsv, h)
  else
    '(msv, h) ← ga_reg_read32 s addr (high32 mask) h;
    '(lsv, h) ← ga_reg_read32 s (addr + 4) (low32 mask) h;
    mret (Z.land (u64 (Z.shiftl msv 32)) lsv, h).

(** Access of a size given at run time; the result of the sized write is
    dropped. *)
Definition ga_reg_write (s : ga_state) (addr access_size mask value options : Z) (h : ga_sys)
    : run (Z * ga_sys) :=
  if access_size =? 8 then
    '(_, h) ← ga_reg_write8 s addr (u8 mask) (u8 value) options h; mret (0, h)
  else if access_size =? 16 then
    '(_, h) ← ga_reg_write16 s addr (u16 mask) (u16 value) options h; mret (0, h)
  else if access_size =? 32 then
    '(_, h) ← ga_reg_write32 s addr (u32 mask) (u32 value) options h; mret (0, h)
  else if access_size =? 64 then
    '(_, h) ← ga_reg_write64 s addr (u64 mask) (u64 value) options h; mret (0, h)
  else mret (- EINVAL, h).

(** [None]: [*value] was not assigned. *)
Definition ga_reg_read (s : ga_state) (addr access_size mask : Z) (h : ga_sys)
    : run (Z * option Z * ga_sys) :=
  if access_size =? 8 then
    '(v, h) ← ga_reg_read8 s addr (u8 mask) h; mret (0, Some v, h)
  else if access_size =? 16 then
    '(v, h) ← ga_reg_read16 s addr (u16 mask) h; mret (0, Some v, h)
  else if access_size =? 32 then
    '(v, h) ← ga_reg_read32 s addr (u32 mask) h; mret (0, Some v, h)
  else if access_size =? 64 then
    '(v, h) ← ga_reg_read64 s addr (u64 mask) h; mret (0, Some v, h)
  else mret (- EINVAL, None, h).

(** *** generic/dev_common.h *)
Definition dev_read (s : ga_state) (addr : Z) : ga_sys → run (Z * ga_sys) :=
  ga_reg_read8 s addr 255.
Definition dev_write (s : ga_state) (addr val : Z) : ga_sys → run (Z * ga_sys) :=
  ga_reg_write8 s addr 255 (u8 val) GA_WRITE.
Definition dev_read8 (s : ga_state) (addr : Z) : ga_sys → run (Z * ga_sys) :=
  ga_reg_read8 s addr 255.
Definition dev_write8 (s : ga_state) (addr val : Z) : ga_sys → run (Z * ga_sys) :=
  ga_reg_write8 s addr 255 (u8 val) GA_WRITE.
Definition dev_read16 (s : ga_state) (addr : Z) : ga_sys → run (Z * ga_sys) :=
  ga_reg_read16 s addr 65535.
Definition dev_write16 (s : ga_state) (addr val : Z) : ga_sys → run (Z * ga_sys) :=
  ga_reg_write16 s addr 65535 (u16 val) GA_WRITE.
Definition dev_read_modify_write (s : ga_state) (addr mask upd : Z) : ga_sys → run (Z * ga_sys) :=
  ga_reg_write8 s addr (u8 mask) (u8 upd) GA_READ_WRITE_ALWAYS.
Definition dev_read_modify_write_cond (s : ga_state) (addr mask upd : Z) : ga_sys → run (Z * ga_sys) :=
  ga_reg_write8 s addr (u8 mask) (u8 upd) GA_READ_WRITE_CONDITIONAL.
End Access.

(** ** Ports that behave as registers

    The contract a masked write needs of its accessors at one address; the raw
    accessors have it on a [RegisterBus], the hooked 8-bit ones where the hook
    does not apply or has it itself. *)
Class PortOk `{IoBus} (p : port) (addr : Z) : Prop := {
  po_width : 0 < p_width p;
  po_pure b : (p_read p addr b).2 = b;
  po_range b : 0 <= (p_read p addr b).1 < 2 ^ p_width p;
  po_write_read v b : 0 <= v < 2 ^ p_width p → (p_read p addr (p_write p v addr b)).1 = v;
}.

(** Masked update, bit by bit. *)
Definition masked (old mask value : Z) : Z :=
  Z.lor (Z.ldiff old mask) (Z.land value mask).

Lemma masked_spec old mask value i :
  Z.testbit (masked old mask value) i =
    if Z.testbit mask i then Z.testbit value i else Z.testbit old i.
Proof.
  unfold masked. rewrite Z.lor_spec, Z.ldiff_spec, Z.land_spec.
  destruct (Z.testbit mask i), (Z.testbit value i), (Z.testbit old i); done.
Qed.

Lemma land_range w x y : 0 <= w → 0 <= y < 2 ^ w → 0 <= Z.land x y < 2 ^ w.
Proof.
  intros Hw Hy. rewrite <- (uwrap_id w y) by done. unfold uwrap.
  rewrite <- Z.land_ones, Z.land_assoc, Z.land_ones by done. by apply (uwrap_range w).
Qed.

Lemma masked_range w old mask value :
  0 <= w → 0 <= old < 2 ^ w → 0 <= mask < 2 ^ w → 0 <= masked old mask value < 2 ^ w.
Proof.
  intros Hw Ho Hm. assert (masked old mask value = uwrap w (masked old mask value)) as ->.
  { unfold uwrap. rewrite <- Z.land_ones by done. apply Z.bits_inj'. intros i Hi.
    rewrite Z.land_spec, masked_spec. destruct (Z_lt_le_dec i w).
    - rewrite Z.ones_spec_low by lia. by rewrite andb_true_r.
    - rewrite Z.ones_spec_high by lia. rewrite andb_false_r.
      rewrite <- (Z.mod_small mask (2 ^ w)), Z.mod_pow2_bits_high by lia.
      rewrite <- (Z.mod_small old (2 ^ w)), Z.mod_pow2_bits_high by lia. done. }
  by apply uwrap_range.
Qed.

Lemma masked_code w old mask value :
  0 <= w → 0 <= old < 2 ^ w →
  Z.lor (uwrap w (Z.land old (Z.lnot mask))) (Z.land value mask) = masked old mask value.
Proof.
  intros Hw Ho. unfold masked. f_equal. rewrite <- Z.ldiff_land. apply uwrap_id.
  assert (Z.ldiff old mask = Z.land (Z.lnot mask) old) as ->
    by (rewrite Z.ldiff_land; apply Z.land_comm).
  by apply land_range.
Qed.

Section Facts.
Context {B : IoBus}.

#[export] Instance raw_port_ok `{!RegisterBus B} w addr :
  In w [8; 16; 32; 64] → PortOk (raw_port w) addr.
Proof.
  intros Hw. assert (0 < w) by (simpl in Hw; lia). split; simpl.
  - done.
  - intros b. apply rb_read_pure.
  - intros b. apply rb_read_range. lia.
  - intros v b Hv. by apply rb_write_read.
Qed.

(** Without a hook on the address the 8-bit port is the raw one. *)
Definition unhooked (s : ga_state) (addr : Z) : Prop :=
  (op_read8 (i_ops (addr_info s)) = None ∨ (ga_ioaddr_to_phys s addr).1 = 0) ∧
  (op_write8 (i_ops (addr_info s)) = None ∨ (ga_ioaddr_to_phys s addr).1 = 0).

Lemma port8_unhooked s addr b v :
  unhooked s addr →
  p_read (port8 s) addr b = raw_read 8 addr b ∧
  p_write (port8 s) v addr b = raw_write 8 v addr b.
Proof.
  intros [Hr Hw]. simpl. unfold ga_raw_readb, ga_raw_writeb.
  destruct (ga_ioaddr_to_phys s addr) as [ret pa]. simpl in *.
  split.
  - destruct (op_read8 _); [|done]. destruct Hr as [?| ->]; done.
  - destruct (op_write8 _); [|done]. destruct Hw as [?| ->]; done.
Qed.

Lemma port8_ok `{!RegisterBus B} s addr : unhooked s addr → PortOk (port8 s) addr.
Proof.
  intros Hu. destruct (raw_port_ok 8 addr) as [_ R1 R2 R3]; [by left|].
  split; [done|..].
  - intros b. destruct (port8_unhooked s addr b 0 Hu) as [-> _]. apply R1.
  - intros b. destruct (port8_unhooked s addr b 0 Hu) as [-> _]. apply R2.
  - intros v b Hv. destruct (port8_unhooked s addr b v Hu) as [_ ->].
    destruct (port8_unhooked s addr (raw_write 8 v addr b) v Hu) as [-> _]. by apply R3.
Qed.

(** What a write of [options] leaves in a [w]-bit register. *)
Definition reg_after (w options old mask value : Z) : Z :=
  if negb (Z.land options GA_WRITE =? 0) then Z.land value mask
  else if negb (Z.land options (Z.lor GA_READ_WRITE_CONDITIONAL GA_READ_WRITE_ALWAYS) =? 0)
       || (mask =? Z.ones w)
  then masked old mask value else old.

Lemma masked_all w old value : 0 <= w → 0 <= old < 2 ^ w →
  masked old (Z.ones w) value = Z.land value (Z.ones w).
Proof.
  intros Hw Ho. unfold masked. rewrite Z.ldiff_ones_r by done.
  rewrite Z.shiftr_div_pow2, Z.div_small, Z.shiftl_0_l by lia. done.
Qed.

Lemma write_body_spec p addr `{!PortOk p addr} mask value options b :
  0 <= mask < 2 ^ p_width p →
  let old := (p_read p addr b).1 in
  let r := write_body p addr mask value options b in
  (p_read p addr r.2).1 = reg_after (p_width p) options old mask value ∧
  (r.1 = GA_MODIFIED_SURE → (p_read p addr r.2).1 ≠ old) ∧
  (r.1 = GA_MODIFIED_NONE → (p_read p addr r.2).1 = old) ∧
  (r.2 = b ∨ ∃ v, r.2 = p_write p v addr b).
Proof.
  intros Hm. pose proof (po_width (p := p) (addr := addr)) as Hw.
  pose proof (po_range (p := p) (addr := addr) b) as Hr.
  pose proof (po_pure (p := p) (addr := addr) b) as Hp.
  unfold write_body, reg_after. cbv zeta.
  destruct (p_read p addr b) as [old b'] eqn:E. simpl in *. subst b'.
  pose proof (land_range (p_width p) value mask) as Hl.
  pose proof (masked_range (p_width p) old mask value) as Hmr.
  destruct (Z.eqb_spec (Z.land options GA_WRITE) 0); simpl.
  2: { rewrite po_write_read by lia. naive_solver. }
  destruct (Z.eqb_spec mask (Z.ones (p_width p))) as [->|]; simpl.
  { rewrite orb_true_r, masked_all, po_write_read by lia. naive_solver. }
  rewrite orb_false_r. destruct (Z.eqb_spec (Z.land options (Z.lor 2 4)) 0) as [Hz|Hz];
    unfold GA_READ_WRITE_CONDITIONAL, GA_READ_WRITE_ALWAYS in *.
  { rewrite Hz. simpl. rewrite E. simpl. naive_solver. }
  apply Z.eqb_neq in Hz. rewrite Hz. simpl. rewrite masked_code by lia.
  destruct (Z.eqb_spec old (masked old mask value)) as [Heq|]; simpl.
  - destruct (negb _); simpl; [rewrite po_write_read by lia|rewrite E; simpl]; naive_solver.
  - rewrite orb_true_r, po_write_read by lia. naive_solver.
Qed.
End Facts.

(** ** A bus of memory cells, little endian *)
Module CellBus.
#[local] Abbreviation cells := (gmap Z Z).
Definition cell (m : cells) (a : Z) : Z := u8 (default 0 (m !! a)).
Fixpoint fetch (n : nat) (a : Z) (m : cells) : Z :=
  match n with O => 0 | S n => cell m a + 256 * fetch n (a + 1) m end.
Fixpoint put (n : nat) (v a : Z) (m : cells) : cells :=
  match n with O => m | S n => put n (v / 256) (a + 1) (<[a := v mod 256]> m) end.

(** Addresses from [2^20] on are not mapped; the others are at their physical
    address. *)
#[export] Instance cell_bus : IoBus := {|
  bus := cells;
  raw_read w a m := (fetch (Z.to_nat (w / 8)) a m, m);
  raw_write w v a m := put (Z.to_nat (w / 8)) v a m;
  ioaddr_phys a := if a <? 1048576 then Some a else None;
|}.

Lemma cell_put_other n v a m a' :
  a' < a ∨ a + Z.of_nat n <= a' → cell (put n v a m) a' = cell m a'.
Proof.
  revert v a m. induction n as [|n IH]; intros v a m Ha; [done|]. simpl.
  rewrite IH by lia. unfold cell. rewrite lookup_insert_ne by lia. done.
Qed.

Lemma fetch_put_other n v a m n' a' :
  a' + Z.of_nat n' <= a ∨ a + Z.of_nat n <= a' → fetch n' a' (put n v a m) = fetch n' a' m.
Proof.
  revert a'. induction n' as [|n' IH]; intros a' Ha; [done|]. simpl.
  rewrite IH by lia. rewrite cell_put_other by lia. done.
Qed.

Lemma fetch_put n v a m : 0 <= v < 256 ^ Z.of_nat n → fetch n a (put n v a m) = v.
Proof.
  revert v a m. induction n as [|n IH]; intros v a m Hv; [simpl in *; lia|].
  rewrite Nat2Z.inj_succ, Z.pow_succ_r in Hv by lia. simpl.
  rewrite IH by (split; [apply Z.div_pos; lia|apply Z.div_lt_upper_bound; lia]).
  rewrite cell_put_other by lia. unfold cell. rewrite lookup_insert. rewrite decide_True by done.
  simpl. rewrite u8_id by (apply Z.mod_pos_bound; lia). pose proof (Z.div_mod v 256). lia.
Qed.

Lemma fetch_range n a m : 0 <= fetch n a m < 256 ^ Z.of_nat n.
Proof.
  revert a. induction n as [|n IH]; intros a; [simpl; lia|].
  rewrite Nat2Z.inj_succ, Z.pow_succ_r by lia. simpl.
  pose proof (IH (a + 1)). pose proof (u8_range (default 0 (m !! a))). unfold cell. lia.
Qed.

#[export] Instance cell_pure : PureBus cell_bus.
Proof.
  split; simpl.
  - done.
  - intros w a b Hw. pose proof (fetch_range (Z.to_nat (w / 8)) a b) as Hr.
    pose proof (Z.div_pos w 8). rewrite Z2Nat.id in Hr by lia.
    change 256 with (2 ^ 8) in Hr. rewrite <- Z.pow_mul_r in Hr by lia.
    pose proof (Z.mul_div_le w 8). pose proof (Z.pow_le_mono_r 2 (8 * (w / 8)) w). lia.
Qed.

#[export] Instance cell_registers : RegisterBus cell_bus.
Proof.
  split; simpl.
  - apply _.
  - intros w a v b Hw Hv. apply fetch_put. destruct Hw as [<-|[<-|[<-|[<-|[]]]]]; done.
  - intros w a v w' a' b Hw Hw' Ha. apply fetch_put_other.
    rewrite !Z2Nat.id by (apply Z.div_pos; lia).
    pose proof (Z.mul_div_le w 8). pose proof (Z.mul_div_le w' 8). lia.
Qed.
End CellBus.

(** ** Theorems *)
Section Theorems.
Context {B : IoBus}.
Implicit Types (s : ga_state) (b : bus).

(** With the locks free a register function runs its body and frees the lock it
    took. *)
Lemma locked_free {A} s (f : bus → A * bus) b :
  locked s f (free_locks, b) = Done ((f b).1, (free_locks, (f b).2)).
Proof.
  unfold locked, LOCK, UNLOCK. destruct (_ =? _) eqn:E; simpl; rewrite ?E; by destruct (f b).
Qed.

(** The accessors behind an access size. *)
Definition port_of s (w : Z) : port := if w =? 8 then port8 s else raw_port w.

Lemma port_of_width s w : p_width (port_of s w) = w.
Proof. unfold port_of. by destruct (Z.eqb_spec w 8) as [->|]. Qed.

Lemma port_of_ok `{!RegisterBus B} s w addr :
  In w [8; 16; 32; 64] → (w = 8 → unhooked s addr) → PortOk (port_of s w) addr.
Proof.
  intros Hw Hu. unfold port_of. destruct (Z.eqb_spec w 8) as [->|].
  - by apply port8_ok, Hu.
  - by apply raw_port_ok.
Qed.

Lemma port_of_raw s w addr v b : (w = 8 → unhooked s addr) →
  p_read (port_of s w) addr b = raw_read w addr b ∧
  p_write (port_of s w) v addr b = raw_write w v addr b.
Proof.
  intros Hu. unfold port_of. destruct (Z.eqb_spec w 8) as [->|]; [|done].
  by apply port8_unhooked, Hu.
Qed.

Lemma ga_reg_write_sized s addr w mask value options b :
  In w [8; 16; 32; 64] →
  ga_reg_write s addr w mask value options (free_locks, b) =
    Done (0, (free_locks, (write_body (port_of s w) addr (uwrap w mask) (uwrap w value) options b).2)).
Proof.
  intros Hw. destruct Hw as [<-|[<-|[<-|[<-|[]]]]]; unfold ga_reg_write; simpl;
  unfold ga_reg_write8, ga_reg_write16, ga_reg_write32, ga_reg_write64, reg_write;
  rewrite locked_free; done.
Qed.

Lemma ga_reg_read_sized s addr w mask b :
  In w [8; 16; 32; 64] →
  ga_reg_read s addr w mask (free_locks, b) =
    let r := read_body (port_of s w) addr (uwrap w mask) b in
    Done (0, Some r.1, (free_locks, r.2)).
Proof.
  intros Hw. destruct Hw as [<-|[<-|[<-|[<-|[]]]]]; unfold ga_reg_read; simpl;
  unfold ga_reg_read8, ga_reg_read16, ga_reg_read32, ga_reg_read64, reg_read;
  rewrite locked_free; done.
Qed.

Lemma read_body_spec p addr `{!PortOk p addr} mask b :
  read_body p addr mask b = (Z.land (p_read p addr b).1 mask, b).
Proof.
  unfold read_body. pose proof (po_pure (p := p) (addr := addr) b).
  destruct (p_read p addr b); simpl in *. by subst.
Qed.

(** The byte accesses of dev_common.h where no hook applies. *)
Lemma land_255 x : Z.land x 255 = u8 x.
Proof. change 255 with (Z.ones 8). by rewrite Z.land_ones. Qed.

Lemma dev_write_ok s a v b : unhooked s a →
  dev_write s a v (free_locks, b) =
    Done (GA_MODIFIED_MAYBE, (free_locks, raw_write 8 (u8 v) a b)).
Proof.
  intros Hu. unfold dev_write, ga_reg_write8, reg_write. rewrite locked_free. unfold write_body. simpl.
  rewrite land_255, (u8_id (u8 v)) by apply u8_range.
  destruct (port8_unhooked s a b (u8 v) Hu) as [_ Hw]. simpl in Hw. by rewrite Hw.
Qed.

Lemma dev_read_ok `{!PureBus B} s a b : unhooked s a →
  dev_read s a (free_locks, b) = Done ((raw_read 8 a b).1, (free_locks, b)).
Proof.
  intros Hu. unfold dev_read, ga_reg_read8, reg_read. rewrite locked_free. unfold read_body.
  rewrite (proj1 (port8_unhooked s a b 0 Hu)).
  pose proof (rb_read_pure 8 a b) as Hp. pose proof (rb_read_range 8 a b ltac:(lia)) as Hr.
  destruct (raw_read 8 a b) as [v b']. simpl in *. subst b'. by rewrite land_255, u8_id by lia.
Qed.

(** A read-modify-write writes the masked update of what the register read,
    once, whatever the hardware makes of it. *)
Lemma dev_read_modify_write_once `{!PureBus B} s a mask v b : unhooked s a →
  ∃ code, dev_read_modify_write s a mask v (free_locks, b) =
    Done (code, (free_locks, raw_write 8 (masked (raw_read 8 a b).1 (u8 mask) (u8 v)) a b)).
Proof.
  intros Hu. unfold dev_read_modify_write, ga_reg_write8, reg_write. rewrite locked_free.
  eexists. do 3 f_equal. unfold write_body. cbv zeta.
  pose proof (rb_read_pure 8 a b) as Hp. pose proof (rb_read_range 8 a b ltac:(lia)) as Hr.
  change (p_width (port8 s)) with 8.
  change (negb (Z.land GA_READ_WRITE_ALWAYS GA_WRITE =? 0)) with false. cbn [orb].
  rewrite (proj1 (port8_unhooked s a b 0 Hu)). destruct (raw_read 8 a b) as [old b']. simpl in Hp, Hr. subst b'.
  destruct (Z.eqb_spec (u8 mask) (Z.ones 8)) as [Hm|Hm].
  - simpl. rewrite Hm, masked_all by lia. apply (port8_unhooked s a b _ Hu).
  - change (negb (Z.land GA_READ_WRITE_ALWAYS (Z.lor GA_READ_WRITE_CONDITIONAL GA_READ_WRITE_ALWAYS) =? 0))
      with true. change (negb (Z.land GA_READ_WRITE_ALWAYS GA_READ_WRITE_ALWAYS =? 0)) with true.
    cbn [orb]. cbv iota. rewrite masked_code by lia. apply (port8_unhooked s a b _ Hu).
Qed.

Lemma dev_read_modify_write_ok `{!RegisterBus B} s a mask v b : unhooked s a →
  ∃ code b', dev_read_modify_write s a mask v (free_locks, b) = Done (code, (free_locks, b')) ∧
    (raw_read 8 a b').1 = masked (raw_read 8 a b).1 (u8 mask) (u8 v) ∧
    ∀ a', a' ≠ a → (raw_read 8 a' b').1 = (raw_read 8 a' b).1.
Proof.
  intros Hu. destruct (dev_read_modify_write_once s a mask v b Hu) as [code Hw].
  do 2 eexists. split; [exact Hw|]. split.
  - apply rb_write_read; [by left|]. apply masked_range; [lia|by apply (rb_read_range 8)|apply u8_range].
  - intros a' Ha. apply rb_write_other; lia.
Qed.

(** C10: a write of any supported size (8, 16, 32 or 64 bits; one of 8 bits at an
    address that no hook redirects) on registers that behave as memory returns 0 with the locks free again, and a later read of
    that size under any mask returns the register the code writes: with
    [GA_WRITE] the value and the mask combined by a bitwise and (the bits outside
    the mask become 0, where the header says that the value is written), with a
    read-modify-write option or a full mask the old register with the masked bits
    replaced, with none of these the old register (where the header says that
    the register is updated).  No other register changes. *)
Theorem ga_write_read_back `{!RegisterBus B} s addr w mask value options b :
  In w [8; 16; 32; 64] → (w = 8 → unhooked s addr) →
  let old := (raw_read w addr b).1 in
  ∃ b', ga_reg_write s addr w mask value options (free_locks, b) = Done (0, (free_locks, b')) ∧
    (∀ rmask, ga_reg_read s addr w rmask (free_locks, b') =
       Done (0, Some (Z.land (reg_after w options old (uwrap w mask) (uwrap w value)) (uwrap w rmask)),
             (free_locks, b'))) ∧
    (∀ w' a', 0 <= w' → 8 * addr + w <= 8 * a' ∨ 8 * a' + w' <= 8 * addr →
       (raw_read w' a' b').1 = (raw_read w' a' b).1).
Proof.
  intros Hw Hu old. pose proof (port_of_ok s w addr Hw Hu) as Hok.
  assert (0 < w) by (simpl in Hw; lia).
  pose proof (uwrap_range w mask) as Hm.
  destruct (write_body_spec (port_of s w) addr (uwrap w mask) (uwrap w value) options b)
    as (Hrd & _ & _ & Hb); [rewrite port_of_width; lia|].
  eexists. rewrite ga_reg_write_sized by done. split; [done|]. split.
  - intros rmask. rewrite ga_reg_read_sized by done. simpl. rewrite read_body_spec by done.
    simpl. rewrite Hrd, port_of_width. by destruct (port_of_raw s w addr 0 b Hu) as [-> _].
  - intros w' a' Hw' Hd. destruct Hb as [->|[v ->]]; [done|].
    destruct (port_of_raw s w addr v b Hu) as [_ ->]. apply rb_write_other; lia.
Qed.

(** Where the header and the code part: with [GA_WRITE] a partial mask clears
    the bits of the value outside it, and without any option a partial mask
    writes nothing at all. *)
Theorem ga_write_differs_from_header p addr mask value b :
  mask ≠ Z.ones (p_width p) →
  write_body p addr mask value GA_WRITE b =
    (GA_MODIFIED_MAYBE, p_write p (Z.land value mask) addr b) ∧
  write_body p addr mask value 0 b = (GA_MODIFIED_NONE, b).
Proof.
  intros Hm. unfold write_body. cbv zeta. rewrite (proj2 (Z.eqb_neq _ _) Hm). split; reflexivity.
Qed.

(** The result of a sized register write tells the caller what happened:
    [GA_MODIFIED_SURE] only when the register changed, [GA_MODIFIED_NONE] only
    when it did not, [GA_MODIFIED_MAYBE] exactly when the register was written
    without being read ([GA_WRITE] or a full mask); a conditional write that
    would not change the register does not access it for writing at all. *)
Theorem ga_write_result s p addr `{!PortOk p addr} mask value options b :
  0 <= mask < 2 ^ p_width p →
  let old := (p_read p addr b).1 in
  ∃ code b', reg_write s p addr mask value options (free_locks, b) = Done (code, (free_locks, b')) ∧
    (code = GA_MODIFIED_SURE → (p_read p addr b').1 ≠ old) ∧
    (code = GA_MODIFIED_NONE → (p_read p addr b').1 = old) ∧
    (code = GA_MODIFIED_MAYBE ↔ Z.land options GA_WRITE ≠ 0 ∨ mask = Z.ones (p_width p)) ∧
    (options = GA_READ_WRITE_CONDITIONAL → mask ≠ Z.ones (p_width p) →
     masked old mask value = old → b' = b).
Proof.
  intros Hm old. destruct (write_body_spec p addr mask value options b Hm) as (_ & Hs & Hn & _).
  unfold reg_write. rewrite locked_free. do 2 eexists. split; [done|].
  split; [done|]. split; [done|].
  pose proof (po_width (p := p) (addr := addr)). pose proof (po_pure (p := p) (addr := addr) b) as Hp.
  pose proof (po_range (p := p) (addr := addr) b) as Hr. subst old.
  unfold write_body. cbv zeta. destruct (p_read p addr b) as [old b1]. simpl in *. subst b1.
  split.
  - destruct (Z.eqb_spec (Z.land options GA_WRITE) 0), (Z.eqb_spec mask (Z.ones (p_width p)));
      simpl; try (split; [intros _; tauto|done]).
    destruct (negb _); simpl; [destruct (negb _)|]; split; try done; tauto.
  - intros -> Hne Heq. apply Z.eqb_neq in Hne. rewrite Hne. simpl.
    rewrite masked_code, Heq, Z.eqb_refl by lia. done.
Qed.

(** [ga_set_phys_addr_ops] routes the 8-bit accesses: once it returned 0 the
    accesses to addresses mapped into the registered physical range go to the
    hooks, with the physical address and the opaque pointer, and those outside go
    to the bus; an address that is not mapped reads as 0 and its writes are
    dropped.  When it returned an error no access is hooked. *)
Theorem ga_hook_dispatch addr size rd wr init opaque s b ret s' b' :
  let ops := {| op_init := init; op_read8 := Some rd; op_write8 := Some wr |} in
  ga_set_phys_addr_ops addr size (Some ops) opaque s b = (ret, s', b') →
  ∀ ioaddr val bb,
  let call_read r := Done (Z.land (fst r) 255, (free_locks, snd r)) in
  let call_write bb' := Done (GA_MODIFIED_MAYBE, (free_locks, bb')) in
  dev_read s' ioaddr (free_locks, bb) = call_read (
    match ioaddr_phys ioaddr with
    | Some pa => if (ret =? 0) && (addr <=? pa) && (pa <? u64 (addr + size))
                 then rd pa opaque bb else raw_read 8 ioaddr bb
    | None => if ret =? 0 then (0, bb) else raw_read 8 ioaddr bb
    end) ∧
  dev_write s' ioaddr val (free_locks, bb) = call_write (
    match ioaddr_phys ioaddr with
    | Some pa => if (ret =? 0) && (addr <=? pa) && (pa <? u64 (addr + size))
                 then wr (u8 val) pa opaque bb else raw_write 8 (u8 val) ioaddr bb
    | None => if ret =? 0 then bb else raw_write 8 (u8 val) ioaddr bb
    end).
Proof.
  intros ops Hset ioaddr val bb.
  assert (Z.land (u8 val) 255 = u8 val) as Hv.
  { rewrite land_255. apply u8_id, u8_range. }
  assert (addr_info s' = if ret =? 0 then {| i_addr := addr; i_size := size; i_opaque := opaque;
                                             i_ops := ops |} else no_info) as Hi.
  { unfold ga_set_phys_addr_ops, ops in *. simpl in *.
    destruct init as [f|]; [destruct (f addr size opaque b) as [r b1]|];
      [destruct (Z.eqb_spec r 0); simpl in *|]; simplify_eq/=; try done.
    rewrite (proj2 (Z.eqb_neq ret 0)) by done. done. }
  unfold dev_read, dev_write, ga_reg_read8, ga_reg_write8, reg_read, reg_write.
  rewrite !locked_free. unfold write_body, read_body. simpl. rewrite Hv.
  unfold ga_raw_readb, ga_raw_writeb, ga_ioaddr_to_phys. rewrite Hi.
  destruct (ret =? 0); simpl.
  - destruct (ioaddr_phys ioaddr); simpl; [|done].
    destruct ((addr <=? z) && (z <? u64 (addr + size))); simpl; [|by destruct (raw_read 8 ioaddr bb)].
    by destruct (rd z opaque bb).
  - destruct (ioaddr_phys ioaddr); by destruct (raw_read 8 ioaddr bb).
Qed.

Lemma shifted_land_low msv lsv : 0 <= lsv < 2 ^ 32 → Z.land (u64 (Z.shiftl msv 32)) lsv = 0.
Proof.
  intros Hl. apply Z.bits_inj'. intros i Hi. rewrite Z.land_spec, Z.bits_0.
  destruct (Z_lt_le_dec i 32).
  - unfold u64, uwrap. rewrite Z.mod_pow2_bits_low, Z.shiftl_spec_low by lia. done.
  - rewrite <- (Z.mod_small lsv (2 ^ 32)), Z.mod_pow2_bits_high by lia. apply andb_false_r.
Qed.

(** On a 32-bit kernel [ga_reg_read64] joins the two halves with a bitwise
    and of disjoint bit ranges: whatever the two 32-bit registers hold and
    whatever the mask, it returns 0. *)
Theorem ga_read64_32bit_always_zero `{!RegisterBus B} s little addr mask b :
  0 <= mask < 2 ^ 64 →
  ga_reg_read64_32bit s little addr mask (free_locks, b) = Done (0, (free_locks, b)).
Proof.
  intros Hm. unfold ga_reg_read64_32bit, ga_reg_read32, reg_read.
  assert (∀ a m, read_body (raw_port 32) a m b = (Z.land (raw_read 32 a b).1 m, b)) as Hrb.
  { intros a m. apply read_body_spec, raw_port_ok. simpl. tauto. }
  assert (∀ x, 0 <= low32 x < 2 ^ 32) as Hlow.
  { intros x. unfold low32. rewrite Z.land_ones by lia. by apply Z.mod_pos_bound. }
  assert (∀ a, 0 <= Z.land (raw_read 32 a b).1 (low32 mask) < 2 ^ 32) as Hl.
  { intros a. apply land_range; [lia|apply Hlow]. }
  destruct little; rewrite locked_free; simpl; rewrite !Hrb; simpl;
    rewrite locked_free; simpl; rewrite !Hrb; simpl; by rewrite shifted_land_low.
Qed.
End Theorems.

(** ** Witnesses *)
Import CellBus.

Definition plain : ga_state := {| addr_info := no_info; ga_lock_mode := GA_LM_SPINLOCK |}.

Lemma ga_write_read_back_witness :
  ∃ b', ga_reg_write plain 16 16 0x0ff0 0xabcd GA_READ_WRITE_ALWAYS
          (free_locks, raw_write 16 0x1234 16 ∅) = Done (0, (free_locks, b')) ∧
        ga_reg_read plain 16 16 0xffff (free_locks, b') =
          Done (0, Some 0x1bc4, (free_locks, b')).
Proof.
  destruct (ga_write_read_back plain 16 16 0x0ff0 0xabcd GA_READ_WRITE_ALWAYS
              (raw_write 16 0x1234 16 ∅)) as (b' & Hw & Hr & _); [simpl; tauto|done|].
  exists b'. split; [exact Hw|]. rewrite Hr. reflexivity.
Defined.

Lemma ga_write_result_witness :
  ∃ code b', reg_write plain (raw_port 32) 8 0xff 0x34 GA_READ_WRITE_CONDITIONAL
               (free_locks, raw_write 32 0x1234 8 ∅) = Done (code, (free_locks, b')) ∧
             b' = raw_write 32 0x1234 8 ∅ ∧ code ≠ GA_MODIFIED_MAYBE.
Proof.
  destruct (ga_write_result plain (raw_port 32) 8 (PortOk0 := raw_port_ok 32 8 ltac:(simpl; tauto))
              0xff 0x34 GA_READ_WRITE_CONDITIONAL (raw_write 32 0x1234 8 ∅))
    as (code & b' & Hw & _ & _ & Hm & Hc); [done|].
  exists code, b'. split; [exact Hw|]. split.
  - apply Hc; [done|done|reflexivity].
  - intros [H|H]%Hm; by vm_compute in H.
Defined.

(** Hooks that keep the byte at a shifted address. *)
Definition hook_rd (pa opaque : Z) (b : bus) : Z * bus := raw_read 8 (pa + opaque) b.
Definition hook_wr (v pa opaque : Z) (b : bus) : bus := raw_write 8 v (pa + opaque) b.

Lemma ga_hook_dispatch_witness :
  let r := ga_set_phys_addr_ops 64 16
             (Some {| op_init := None; op_read8 := Some hook_rd; op_write8 := Some hook_wr |})
             1000 plain ∅ in
  dev_write r.1.2 70 5 (free_locks, ∅) = Done (GA_MODIFIED_MAYBE, (free_locks, hook_wr 5 70 1000 ∅)) ∧
  dev_write r.1.2 90 5 (free_locks, ∅) = Done (GA_MODIFIED_MAYBE, (free_locks, raw_write 8 5 90 ∅)).
Proof.
  simpl. split; (eapply (ga_hook_dispatch 64 16 hook_rd hook_wr None 1000 plain ∅ 0); reflexivity).
Defined.

Lemma ga_read64_32bit_always_zero_witness :
  ga_reg_read64_32bit plain true 0 (2 ^ 64 - 1)
    (free_locks, raw_write 64 0x1122334455667788 0 ∅) =
  Done (0, (free_locks, raw_write 64 0x1122334455667788 0 ∅)).
Proof. apply (ga_read64_32bit_always_zero plain true 0 (2 ^ 64 - 1)). done. Defined.
