(* ===== verification/Watchdog.v ===== *)
(** * The watchdog driver: watchdog/watchdog.c

    A misc device that kicks a hardware watchdog from a timer, directly or through
    a workqueue.  The registers are reached through the generic access layer; the
    timer, the workqueue, the mapping and the misc device are kernel objects of
    [wd_world].  An access through an unmapped [reg_base] or a destroyed
    workqueue is [Undef]. *)

From S2P Require Import Prelude KernelApi GenericAccess.

Set Default Proof Using "Type*".

Definition WD_PROP_KICK_OFFSET : nat := 0.
Definition WD_PROP_KICK_VALUE : nat := 1.
Definition WD_PROP_ENABLE_OFFSET : nat := 2.
Definition WD_PROP_ENABLE_VALUE : nat := 3.
Definition WD_PROP_COUNT : nat := 4.
Definition WD_PROP_NONE : Z := -1.
Definition WD_STATE_UNKNOWN : Z := 0.
Definition WD_STATE_DISABLED : Z := 1.
Definition WD_STATE_ENABLED : Z := 2.

Definition wd_state_str : list string := ["unknown"; "disabled"; "enabled"]%string.

(** [watchdog_props]: mandatory, property name *)
Definition watchdog_props : list (bool * string) :=
  [(true, "reg-kick-offset"); (true, "reg-kick-value");
   (false, "reg-enable-offset"); (false, "reg-enable-value")]%string.

(** The static [priv]; NULL is 0 for [reg_base] and [None] for [workqueue]. *)
Record dev_watchdog := {
  workqueue : option Z;
  reg_base : Z;
  use_workqueue : Z;
  props : list Z;
  misc_registered : Z;
  timer_running : Z;
  wd_state : Z;
}.

(** [memset(&priv, 0, sizeof(priv))] *)
Definition priv_zero : dev_watchdog :=
  {| workqueue := None; reg_base := 0; use_workqueue := 0; props := [0; 0; 0; 0];
     misc_registered := 0; timer_running := 0; wd_state := 0 |}.

Section Driver.
Context {B : IoBus}.

Record wd_world := {
  priv : dev_watchdog;
  k_ga : ga_sys;              (* locks of the access layer and registers *)
  k_timer : option Z;         (* [priv.timer]: expiry when pending *)
  k_jiffies : Z;
  k_wqs : gset Z;             (* live workqueues *)
  k_work : bool;              (* [priv.work] is queued *)
  k_wdmisc : bool;            (* [dev_watchdog_miscdev] is registered *)
  k_iomaps : gset Z;          (* live mappings *)
}.

Definition upd (p : dev_watchdog) (w : wd_world) : wd_world :=
  {| priv := p; k_ga := k_ga w; k_timer := k_timer w; k_jiffies := k_jiffies w;
     k_wqs := k_wqs w; k_work := k_work w; k_wdmisc := k_wdmisc w; k_iomaps := k_iomaps w |}.
Definition set_ga (g : ga_sys) (w : wd_world) : wd_world :=
  {| priv := priv w; k_ga := g; k_timer := k_timer w; k_jiffies := k_jiffies w;
     k_wqs := k_wqs w; k_work := k_work w; k_wdmisc := k_wdmisc w; k_iomaps := k_iomaps w |}.
Definition set_timer (t : option Z) (w : wd_world) : wd_world :=
  {| priv := priv w; k_ga := k_ga w; k_timer := t; k_jiffies := k_jiffies w;
     k_wqs := k_wqs w; k_work := k_work w; k_wdmisc := k_wdmisc w; k_iomaps := k_iomaps w |}.
Definition set_wqs (q : gset Z) (work : bool) (w : wd_world) : wd_world :=
  {| priv := priv w; k_ga := k_ga w; k_timer := k_timer w; k_jiffies := k_jiffies w;
     k_wqs := q; k_work := work; k_wdmisc := k_wdmisc w; k_iomaps := k_iomaps w |}.
Definition set_wdmisc (m : bool) (w : wd_world) : wd_world :=
  {| priv := priv w; k_ga := k_ga w; k_timer := k_timer w; k_jiffies := k_jiffies w;
     k_wqs := k_wqs w; k_work := k_work w; k_wdmisc := m; k_iomaps := k_iomaps w |}.
Definition set_iomaps (m : gset Z) (w : wd_world) : wd_world :=
  {| priv := priv w; k_ga := k_ga w; k_timer := k_timer w; k_jiffies := k_jiffies w;
     k_wqs := k_wqs w; k_work := k_work w; k_wdmisc := k_wdmisc w; k_iomaps := m |}.

Definition set_running (r : Z) (w : wd_world) : wd_world :=
  let p := priv w in
  upd {| workqueue := workqueue p; reg_base := reg_base p; use_workqueue := use_workqueue p;
         props := props p; misc_registered := misc_registered p; timer_running := r;
         wd_state := wd_state p |} w.
Definition set_state (s : Z) (w : wd_world) : wd_world :=
  let p := priv w in
  upd {| workqueue := workqueue p; reg_base := reg_base p; use_workqueue := use_workqueue p;
         props := props p; misc_registered := misc_registered p; timer_running := timer_running p;
         wd_state := s |} w.
Definition set_workqueue (q : option Z) (w : wd_world) : wd_world :=
  let p := priv w in
  upd {| workqueue := q; reg_base := reg_base p; use_workqueue := use_workqueue p;
         props := props p; misc_registered := misc_registered p; timer_running := timer_running p;
         wd_state := wd_state p |} w.
Definition set_base (b : Z) (w : wd_world) : wd_world :=
  let p := priv w in
  upd {| workqueue := workqueue p; reg_base := b; use_workqueue := use_workqueue p;
         props := props p; misc_registered := misc_registered p; timer_running := timer_running p;
         wd_state := wd_state p |} w.
Definition set_use_workqueue (u : Z) (w : wd_world) : wd_world :=
  let p := priv w in
  upd {| workqueue := workqueue p; reg_base := reg_base p; use_workqueue := u;
         props := props p; misc_registered := misc_registered p; timer_running := timer_running p;
         wd_state := wd_state p |} w.
Definition set_props (l : list Z) (w : wd_world) : wd_world :=
  let p := priv w in
  upd {| workqueue := workqueue p; reg_base := reg_base p; use_workqueue := use_workqueue p;
         props := l; misc_registered := misc_registered p; timer_running := timer_running p;
         wd_state := wd_state p |} w.
Definition set_registered (m : Z) (w : wd_world) : wd_world :=
  let p := priv w in
  upd {| workqueue := workqueue p; reg_base := reg_base p; use_workqueue := use_workqueue p;
         props := props p; misc_registered := m; timer_running := timer_running p;
         wd_state := wd_state p |} w.

Definition prop (w : wd_world) (i : nat) : Z := nth i (props (priv w)) 0.

(** The static state of the access layer, the module parameter, the kernel's
    conversion of milliseconds. *)
Context (ga : ga_state) (kick_interval : Z) (msecs_to_jiffies : Z → Z).

(** *** Kernel services *)

(** A register access through [priv.reg_base]. *)
Definition mmio {A} (f : ga_sys → run (A * ga_sys)) (w : wd_world) : run (A * wd_world) :=
  if decide (reg_base (priv w) ∈ k_iomaps w)
  then '(a, g) ← f (k_ga w); mret (a, set_ga g w) else Undef.

Definition mod_timer (expires : Z) : wd_world → wd_world := set_timer (Some expires).
(** [del_timer_sync], when no handler is running *)
Definition del_timer : wd_world → wd_world := set_timer None.

Definition queue_work (w : wd_world) : run wd_world :=
  match workqueue (priv w) with
  | Some q => if decide (q ∈ k_wqs w) then mret (set_wqs (k_wqs w) true w) else Undef
  | None => Undef
  end.

(** *** The driver *)
Definition dev_watchdog_kick (w : wd_world) : run wd_world :=
  '(_, w) ← mmio (dev_write ga (reg_base (priv w) + prop w WD_PROP_KICK_OFFSET)
                   (prop w WD_PROP_KICK_VALUE)) w;
  mret w.

Definition has_enable (w : wd_world) : bool :=
  negb (prop w WD_PROP_ENABLE_OFFSET =? WD_PROP_NONE) &&
  negb (prop w WD_PROP_ENABLE_VALUE =? WD_PROP_NONE).

Definition state_of_reg (w : wd_world) (reg : Z) : Z :=
  if negb (Z.land reg (prop w WD_PROP_ENABLE_VALUE) =? 0) then WD_STATE_ENABLED
  else WD_STATE_DISABLED.

Definition dev_watchdog_enable (enable : bool) (w : wd_world) : run wd_world :=
  if has_enable w then
    let addr := reg_base (priv w) + prop w WD_PROP_ENABLE_OFFSET in
    let value := prop w WD_PROP_ENABLE_VALUE in
    '(_, w) ← mmio (dev_read_modify_write ga addr value (if enable then value else 0)) w;
    '(reg, w) ← mmio (dev_read ga addr) w;
    mret (set_state (state_of_reg w reg) w)
  else mret w.

Definition dev_watchdog_read_enable (w : wd_world) : run wd_world :=
  let w := set_state WD_STATE_UNKNOWN w in
  if has_enable w then
    '(reg, w) ← mmio (dev_read ga (reg_base (priv w) + prop w WD_PROP_ENABLE_OFFSET)) w;
    mret (set_state (state_of_reg w reg) w)
  else mret w.

Definition arm (w : wd_world) : wd_world :=
  mod_timer (u64 (k_jiffies w + msecs_to_jiffies kick_interval)) w.
Definition dev_watchdog_start (w : wd_world) : wd_world := arm (set_running 1 w).
Definition dev_watchdog_stop (w : wd_world) : wd_world := del_timer (set_running 0 w).

Definition dev_watchdog_work (w : wd_world) : run wd_world := dev_watchdog_kick w.

(** What the timer does when it is running: a kick, now or by the worker. *)
Definition fire (w : wd_world) : run wd_world :=
  if negb (use_workqueue (priv w) =? 0) then queue_work w else dev_watchdog_kick w.

Definition dev_watchdog_timeout (w : wd_world) : run wd_world :=
  if timer_running (priv w) =? 0 then mret w
  else w ← fire w; mret (dev_watchdog_start w).

(** The timer expires: it is no longer pending when its handler runs. *)
Definition timer_expires (w : wd_world) : run wd_world := dev_watchdog_timeout (set_timer None w).

(** The worker thread. *)
Definition worker (w : wd_world) : run wd_world :=
  if k_work w then dev_watchdog_work (set_wqs (k_wqs w) false w) else mret w.

(** Pending work is done before a workqueue goes. *)
Definition destroy_workqueue (q : Z) (w : wd_world) : run wd_world :=
  if decide (q ∈ k_wqs w) then w ← worker w; mret (set_wqs (k_wqs w ∖ {[q]}) (k_work w) w)
  else Undef.

(** *** File operations *)
Context {UA : UserAccess}.

(** [file->private_data] is [&priv] ([true]) or NULL. *)
Definition dev_watchdog_open (f : bool) : Z * bool := (0, true).
Definition dev_watchdog_release (f : bool) : Z * bool := (0, false).

Definition is_cmd (c : Z) (l : list Z) : bool := existsb (Z.eqb c) l.

Definition dev_watchdog_write (u : umem) (data len : Z) (w : wd_world) : run (Z * wd_world) :=
  let '(bs, missing) := copy_from_user u data 1 in
  if negb (missing =? 0) then mret (- EFAULT, w)
  else
    let c := nth 0 bs 0 in
    if is_cmd c [0; 48; 113; 81] then mret (len, dev_watchdog_stop w)
    else if is_cmd c [1; 49; 107; 75] then w ← dev_watchdog_kick w; mret (len, w)
    else if is_cmd c [2; 50; 115; 83] then mret (len, dev_watchdog_start w)
    else if is_cmd c [3; 51; 101; 69] then w ← dev_watchdog_enable true w; mret (len, w)
    else if is_cmd c [4; 52; 100; 68] then w ← dev_watchdog_enable false w; mret (len, w)
    else mret (- EINVAL, w).

(** [sprintf(str, "t=%d s=%c\n", r, c)] for a 2-bit [r] *)
Definition status_line (r c : Z) : list Z :=
  [116; 61] ++ (if r <? 0 then [45; 48 - r] else [48 + r]) ++ [32; 115; 61; c; 10].

(** [wd_state_str[s][0]] *)
Definition state_char (s : Z) : option Z :=
  if s <? 0 then None else
  match wd_state_str !! Z.to_nat s with
  | Some (String a _) => Some (Z.of_N (Ascii.N_of_ascii a))
  | _ => None
  end.

Definition dev_watchdog_read (f : bool) (u : umem) (data : Z) (w : wd_world)
    : run (Z * bool * umem) :=
  if negb f then mret (0, f, u)
  else
    c ← access (state_char (wd_state (priv w)));
    let str := status_line (timer_running (priv w)) c in
    let '(u, missing) := copy_to_user u data str in
    if negb (missing =? 0) then mret (- EFAULT, false, u)
    else mret (Z.of_nat (length str), false, u).

(** *** Probe and remove *)
Definition dev_watchdog_remove (w : wd_world) : run (Z * wd_world) :=
  let w := dev_watchdog_stop w in
  w ← match workqueue (priv w) with Some q => destroy_workqueue q w | None => mret w end;
  let w := if negb (misc_registered (priv w) =? 0)
           then set_registered 0 (set_wdmisc false w) else w in
  mret (0, if negb (reg_base (priv w) =? 0)
           then set_base 0 (set_iomaps (k_iomaps w ∖ {[reg_base (priv w)]}) w) else w).

(** The kernel's answers during a probe. *)
Record wd_answers := {
  a_iomap : Z;                 (* of_iomap: the mapping or 0 *)
  a_misc_register : Z;
  a_workqueue : option Z;      (* create_singlethread_workqueue *)
}.

(** The loop over [watchdog_props] from index [i]: 0 or the error. *)
Fixpoint get_props (n : of_node) (l : list (bool * string)) (i : nat) (w : wd_world)
    : Z * wd_world :=
  match l with
  | [] => (0, w)
  | (mandatory, property) :: l' =>
      match of_prop n property with
      | Some v =>
          if negb (Z.of_nat (length v) =? 4) then (- EINVAL, w)
          else get_props n l' (S i) (set_props (<[i := s32 (be_value v)]> (props (priv w))) w)
      | None =>
          if mandatory then (- EINVAL, w)
          else get_props n l' (S i) (set_props (<[i := WD_PROP_NONE]> (props (priv w))) w)
      end
  end.

(** [err:] *)
Definition probe_err (ret : Z) (w : wd_world) : run (Z * wd_world) :=
  '(_, w) ← dev_watchdog_remove w; mret (ret, w).

Definition dev_watchdog_probe (n : of_node) (a : wd_answers) (w : wd_world) : run (Z * wd_world) :=
  if negb (reg_base (priv w) =? 0) then mret (- EIO, w)
  else
    let w := set_base (a_iomap a) w in
    if a_iomap a =? 0 then probe_err (- EIO) w
    else
      let w := set_iomaps ({[a_iomap a]} ∪ k_iomaps w) w in
      let '(ret, w) := get_props n watchdog_props 0 w in
      if negb (ret =? 0) then probe_err ret w
      else
        let ret := a_misc_register a in
        if ret <? 0 then probe_err ret w
        else
          let w := set_registered 1 (set_wdmisc true w) in
          let w := match of_prop n "use-workqueue" with
                   | Some _ => set_use_workqueue 1 w | None => w end in
          match a_workqueue a with
          | None => probe_err ret (set_workqueue None w)
          | Some q =>
              let w := set_workqueue (Some q) (set_wqs ({[q]} ∪ k_wqs w) (k_work w) w) in
              w ← dev_watchdog_read_enable w; mret (0, w)
          end.

(** Module init: the answer of [platform_driver_register]. *)
Definition dev_watchdog_init (registered : Z) (w : wd_world) : Z * wd_world :=
  (registered, set_timer None (upd priv_zero w)).
(** Unregistering the driver removes the device when one is bound. *)
Definition dev_watchdog_exit (bound : bool) (w : wd_world) : run wd_world :=
  if bound then '(_, w) ← dev_watchdog_remove w; mret w else mret w.
End Driver.

(** ** What the device promises

    An abstract watchdog: armed or not, the reported state, and the hardware
    behind its registers, which decides what becomes of a write. *)
Inductive cmd := Quit | Kick | Start | Enable | Disable.

Definition cmd_of (c : Z) : option cmd :=
  if is_cmd c [0; 48; 113; 81] then Some Quit
  else if is_cmd c [1; 49; 107; 75] then Some Kick
  else if is_cmd c [2; 50; 115; 83] then Some Start
  else if is_cmd c [3; 51; 101; 69] then Some Enable
  else if is_cmd c [4; 52; 100; 68] then Some Disable else None.

Section Spec.
Context {B : IoBus}.
Implicit Types (w : wd_world).

Record awd := { aw_armed : bool; aw_state : Z; aw_hw : bus }.

(** What a byte register reads as. *)
Definition reg8 (a : Z) (b : bus) : Z := (raw_read 8 a b).1.

(** Enable and disable: one write to the enable register [ea], of the value it
    read with the bits [m] replaced by those of [v]; the state is what the
    register reads afterwards. *)
Definition spec_enable (ea m v : Z) (a : awd) : awd :=
  let b := raw_write 8 (masked (reg8 ea (aw_hw a)) (u8 m) (u8 v)) ea (aw_hw a) in
  {| aw_armed := aw_armed a; aw_hw := b;
     aw_state := if Z.land (reg8 ea b) m =? 0 then WD_STATE_DISABLED else WD_STATE_ENABLED |}.

(** [ka], [kv]: the kick register and value; [ea], [ev]: the enable register and
    its bits, when they are configured. *)
Definition spec_cmd (ka kv ea : Z) (ev : option Z) (k : cmd) (a : awd) : awd :=
  match k with
  | Quit => {| aw_armed := false; aw_state := aw_state a; aw_hw := aw_hw a |}
  | Start => {| aw_armed := true; aw_state := aw_state a; aw_hw := aw_hw a |}
  | Kick => {| aw_armed := aw_armed a; aw_state := aw_state a; aw_hw := raw_write 8 (u8 kv) ka (aw_hw a) |}
  | Enable => match ev with Some m => spec_enable ea m m a | None => a end
  | Disable => match ev with Some m => spec_enable ea m 0 a | None => a end
  end.

Definition kick_addr w : Z := reg_base (priv w) + prop w WD_PROP_KICK_OFFSET.
Definition enable_addr w : Z := reg_base (priv w) + prop w WD_PROP_ENABLE_OFFSET.
Definition is_pending w : bool := bool_decide (is_Some (k_timer w)).

Definition abs w : awd :=
  {| aw_armed := is_pending w; aw_state := wd_state (priv w); aw_hw := (k_ga w).2 |}.

Definition enable_bits w : option Z :=
  if has_enable w then Some (prop w WD_PROP_ENABLE_VALUE) else None.

(** The device's command [k]. *)
Definition spec_step w (k : cmd) : awd :=
  spec_cmd (kick_addr w) (prop w WD_PROP_KICK_VALUE) (enable_addr w) (enable_bits w) k (abs w).

(** A bound device between two operations. *)
Record wd_ok (ga : ga_state) w : Prop := {
  ok_locks : (k_ga w).1 = free_locks;
  ok_mapped : reg_base (priv w) ∈ k_iomaps w;
  ok_kick : unhooked ga (kick_addr w);
  ok_enable : unhooked ga (enable_addr w);
  ok_running : timer_running (priv w) = if is_pending w then 1 else 0;
  ok_state : In (wd_state (priv w)) [WD_STATE_UNKNOWN; WD_STATE_DISABLED; WD_STATE_ENABLED];
}.
End Spec.

Section Refinement.
Context {B : IoBus} `{!PureBus B} (ga : ga_state).
Context {UA : UserAccess} `{!UserAccessOk UA}.
Implicit Types (w : wd_world).

Lemma mmio_done {A} (f : ga_sys → run (A * ga_sys)) w a g :
  reg_base (priv w) ∈ k_iomaps w → f (k_ga w) = Done (a, g) → mmio f w = Done (a, set_ga g w).
Proof using Type. intros Hm Hf. unfold mmio. rewrite decide_True by done. by rewrite Hf. Qed.

Lemma wd_ok_ga w : wd_ok ga w → k_ga w = (free_locks, (k_ga w).2).
Proof. intros []. rewrite <- ok_locks0. by destruct (k_ga w). Qed.

Lemma wd_ok_set w b s :
  wd_ok ga w → In s [WD_STATE_UNKNOWN; WD_STATE_DISABLED; WD_STATE_ENABLED] →
  wd_ok ga (set_state s (set_ga (free_locks, b) w)).
Proof. intros [] ?. by split. Qed.

Lemma wd_ok_set_ga w b : wd_ok ga w → wd_ok ga (set_ga (free_locks, b) w).
Proof. intros []. by split. Qed.

Lemma kick_ok w : wd_ok ga w →
  ∃ w', dev_watchdog_kick ga w = Done w' ∧ wd_ok ga w' ∧ abs w' = spec_step w Kick.
Proof.
  intros Hok. pose proof (wd_ok_ga w Hok) as Hg. pose proof Hok as [? Hm Hk He ? ?].
  unfold dev_watchdog_kick. erewrite mmio_done; [|done|rewrite Hg; apply dev_write_ok; exact Hk].
  simpl. eexists. split; [done|]. split; [by apply wd_ok_set_ga|done].
Qed.

Lemma enable_ok (on : bool) w : wd_ok ga w →
  ∃ w', dev_watchdog_enable ga on w = Done w' ∧ wd_ok ga w' ∧
    abs w' = spec_step w (if on then Enable else Disable).
Proof.
  intros Hok. pose proof (wd_ok_ga w Hok) as Hg. pose proof Hok as [? Hm Hk He ? ?].
  unfold dev_watchdog_enable, spec_step, enable_bits. cbv zeta.
  destruct (has_enable w); [|by destruct on; eauto].
  fold (enable_addr w). set (m := prop w WD_PROP_ENABLE_VALUE).
  destruct (dev_read_modify_write_once ga (enable_addr w) m (if on then m else 0) (k_ga w).2 He)
    as (code & Hrmw).
  erewrite mmio_done; [|done|rewrite Hg; exact Hrmw]. cbn [mbind run_bind].
  erewrite mmio_done; [|done|by apply (dev_read_ok ga)]. cbn [mbind run_bind mret run_ret].
  eexists. split; [done|]. split.
  - apply wd_ok_set; [by apply wd_ok_set_ga|]. unfold state_of_reg. destruct (negb _); simpl; tauto.
  - unfold abs, state_of_reg. simpl. fold (enable_addr w). unfold prop. simpl. fold (prop w WD_PROP_ENABLE_VALUE).
    fold m. destruct on; simpl; unfold spec_enable, reg8; simpl; f_equal; by destruct (_ =? 0).
Qed.

Lemma stop_ok w : wd_ok ga w →
  wd_ok ga (dev_watchdog_stop w) ∧ abs (dev_watchdog_stop w) = spec_step w Quit.
Proof. intros []. by split. Qed.

(** Reading the device reports the abstract state: with the buffer
    accessible the first read of an open file delivers the 8 bytes "t=<0|1>
    s=<u|d|e>" and a newline, for armed and state, and the next read is an end
    of file; with a faulting buffer the read is [-EFAULT]. *)
Theorem wd_read_reports f u dst w :
  wd_ok ga w →
  let line := status_line (if aw_armed (abs w) then 1 else 0)
                (if aw_state (abs w) =? WD_STATE_ENABLED then 101
                 else if aw_state (abs w) =? WD_STATE_DISABLED then 100 else 117) in
  let opened := (dev_watchdog_open f).2 in
  ∃ ret u', dev_watchdog_read opened u dst w = Done (ret, false, u') ∧
    ((copy_to_user u dst line).2 = 0 → ret = 8 ∧ ubytes u' dst 8 = Some line) ∧
    ((copy_to_user u dst line).2 ≠ 0 → ret = - EFAULT) ∧
    dev_watchdog_read false u' dst w = Done (0, false, u').
Proof.
  intros Hok line opened. destruct Hok as [_ _ _ _ Hrun Hst].
  unfold dev_watchdog_read. simpl.
  assert (state_char (wd_state (priv w)) = Some (if wd_state (priv w) =? WD_STATE_ENABLED then 101
            else if wd_state (priv w) =? WD_STATE_DISABLED then 100 else 117)) as ->.
  { destruct Hst as [<-|[<-|[<-|[]]]]; reflexivity. }
  simpl. rewrite Hrun. fold line. unfold abs in line. simpl in line. fold line.
  pose proof (ctu_ok u dst line) as Hc.
  assert (length line = 8%nat) as Hl by (unfold line; by destruct (is_pending w)).
  destruct (copy_to_user u dst line) as [u' missing]. simpl in *. rewrite Hl in *.
  destruct (Z.eqb_spec missing 0); simpl; do 2 eexists; (split; [done|]); naive_solver.
Qed.

Context (kick_interval : Z) (msecs_to_jiffies : Z → Z).

Lemma start_ok w : wd_ok ga w →
  wd_ok ga (dev_watchdog_start kick_interval msecs_to_jiffies w) ∧
  abs (dev_watchdog_start kick_interval msecs_to_jiffies w) = spec_step w Start.
Proof. intros []. by split. Qed.

(** C7: writing a command byte to a bound watchdog implements the abstract
    device on any hardware whose register reads have no effect: quit disarms the
    timer, start arms it, kick writes the kick value once to the kick register;
    enable and disable write once to the enable register, with exactly the enable
    bits set or cleared, and the recorded state is what the register reads back,
    whether the hardware took the write or ignored it.  Each returns the length
    given and keeps the driver's invariant.  Any other byte is refused with
    [-EINVAL] and changes nothing. *)
Theorem wd_write_refines u data len c w :
  wd_ok ga w → ubytes u data 1 = Some [c] →
  ∃ ret w', dev_watchdog_write ga kick_interval msecs_to_jiffies u data len w = Done (ret, w') ∧
    wd_ok ga w' ∧
    match cmd_of c with
    | Some k => ret = len ∧ abs w' = spec_step w k
    | None => ret = - EINVAL ∧ w' = w
    end.
Proof.
  intros Hok Hu. unfold dev_watchdog_write, cmd_of.
  rewrite (cfu_accessible u data 1 [c]) by done. change (negb (0 =? 0)) with false. cbn [nth].
  destruct (is_cmd c [0; 48; 113; 81]).
  { destruct (stop_ok w Hok). do 2 eexists; split; [reflexivity|]; auto. }
  destruct (is_cmd c [1; 49; 107; 75]).
  { destruct (kick_ok w Hok) as (w' & -> & ? & ?). do 2 eexists; split; [reflexivity|]; auto. }
  destruct (is_cmd c [2; 50; 115; 83]).
  { destruct (start_ok w Hok). do 2 eexists; split; [reflexivity|]; auto. }
  destruct (is_cmd c [3; 51; 101; 69]).
  { destruct (enable_ok true w Hok) as (w' & -> & ? & ?). do 2 eexists; split; [reflexivity|]; auto. }
  destruct (is_cmd c [4; 52; 100; 68]); [|do 2 eexists; split; [reflexivity|]; auto].
  destruct (enable_ok false w Hok) as (w' & -> & ? & ?). do 2 eexists; split; [reflexivity|]; auto.
Qed.
End Refinement.

(** ** The two kinds of hardware behind the enable register *)
Section Hardware.
Context {B : IoBus}.
Implicit Types (a : awd).

Lemma land_u8 x y : 0 <= x < 256 → Z.land x y = Z.land x (u8 y).
Proof.
  intros Hx. rewrite <- (u8_id x) at 1 by done. unfold u8, uwrap.
  rewrite <- !Z.land_ones by lia. rewrite <- Z.land_assoc. f_equal. apply Z.land_comm.
Qed.

Lemma masked_set old m : Z.land (masked old m m) m = m.
Proof.
  apply Z.bits_inj'. intros i _. rewrite Z.land_spec, masked_spec. by destruct (Z.testbit m i); rewrite ?andb_false_r.
Qed.
Lemma masked_clear old m : Z.land (masked old m 0) m = 0.
Proof.
  apply Z.bits_inj'. intros i _. rewrite Z.land_spec, masked_spec, Z.bits_0.
  by destruct (Z.testbit m i); rewrite ?andb_false_r.
Qed.

(** On registers that keep what is written, enable reports enabled (when one of
    the low eight bits of the enable value is set) and disable reports
    disabled, and no other register changes. *)
Theorem wd_enable_takes_effect `{!RegisterBus B} (on : bool) ea m a :
  let a' := spec_enable ea m (if on then m else 0) a in
  aw_state a' = (if on && negb (u8 m =? 0) then WD_STATE_ENABLED else WD_STATE_DISABLED) ∧
  ∀ x, x ≠ ea → reg8 x (aw_hw a') = reg8 x (aw_hw a).
Proof.
  intros a'. split; [|intros x Hx; apply rb_write_other; lia].
  unfold a', spec_enable. simpl. set (v := if on then m else 0).
  pose proof (rb_read_range 8 ea (aw_hw a) ltac:(lia)) as Hr.
  assert (0 <= masked (reg8 ea (aw_hw a)) (u8 m) (u8 v) < 2 ^ 8) as Hrange
    by (apply masked_range; [lia|exact Hr|apply u8_range]).
  unfold reg8 at 1. rewrite rb_write_read by (done || by left).
  rewrite land_u8 by exact Hrange.
  destruct on; unfold v; simpl.
  - rewrite masked_set. by destruct (u8 m =? 0).
  - change (u8 0) with 0. by rewrite masked_clear.
Qed.

(** On hardware that ignores the write (no GICI), the reported state is the one
    the register had: disabled stays disabled whatever was asked. *)
Theorem wd_enable_without_effect (on : bool) ea m a :
  (∀ v b, reg8 ea (raw_write 8 v ea b) = reg8 ea b) →
  aw_state (spec_enable ea m (if on then m else 0) a) =
    if Z.land (reg8 ea (aw_hw a)) m =? 0 then WD_STATE_DISABLED else WD_STATE_ENABLED.
Proof. intros Hdead. unfold spec_enable. simpl. by rewrite Hdead. Qed.
End Hardware.

Lemma union_remove (x : Z) (X : gset Z) : x ∉ X → ({[x]} ∪ X) ∖ {[x]} = X.
Proof. set_solver. Qed.

(** ** Probe and remove *)
Section Lifecycle.
Context {B : IoBus} `{!PureBus B} (ga : ga_state).
Implicit Types (w : wd_world).

(** No device is bound. *)
Record wd_idle w : Prop := {
  id_base : reg_base (priv w) = 0;
  id_wq : workqueue (priv w) = None;
  id_misc : misc_registered (priv w) = 0;
  id_kmisc : k_wdmisc w = false;
  id_timer : k_timer w = None;
  id_work : k_work w = false;
}.

(** What the driver holds of the kernel. *)
Definition wd_res w : gset Z * bool * gset Z * option Z * bool :=
  (k_wqs w, k_wdmisc w, k_iomaps w, k_timer w, k_work w).

(** The kernel hands out objects that are not in use. *)
Record fresh_answers (a : wd_answers) w : Prop := {
  fa_iomap : a_iomap a ∉ k_iomaps w;
  fa_wq q : a_workqueue a = Some q → q ∉ k_wqs w;
}.

Lemma get_props_frame n l i w :
  ∃ p, (get_props n l i w).2 = set_props p w.
Proof.
  revert i w. induction l as [|[m p] l IH]; intros i w; cbn [get_props].
  - exists (props (priv w)). by destruct w as [[] ? ? ? ? ? ? ?].
  - destruct (of_prop n p) as [v|]; [destruct (negb _)|destruct m]; simpl;
      try (exists (props (priv w)); by destruct w as [[] ? ? ? ? ? ? ?]);
      match goal with |- context [get_props _ _ _ (set_props ?q _)] =>
        destruct (IH (S i) (set_props q w)) as [r ->]; by exists r end.
Qed.

(** The mandatory properties are there and every property is one cell. *)
Definition node_ok (n : of_node) : Prop :=
  Forall (λ mp, match of_prop n mp.2 with Some v => length v = 4%nat | None => mp.1 = false end)
    watchdog_props.

Lemma get_props_ok n l i w :
  Forall (λ mp, match of_prop n mp.2 with Some v => length v = 4%nat | None => mp.1 = false end) l →
  (get_props n l i w).1 = 0.
Proof.
  intros H. revert i w. induction H as [|[m p] l Hp _ IH]; intros i w; [done|]. cbn [get_props].
  simpl in Hp. destruct (of_prop n p) as [v|]; [rewrite Hp|rewrite Hp]; apply IH.
Qed.

(** A failed probe of an unbound driver undoes the mapping and the misc device;
    [p], [m] and [u] are what it had assigned. *)
Lemma probe_err_mapped ret a w p (m : bool) u :
  wd_idle w → a_iomap a ≠ 0 → a_iomap a ∉ k_iomaps w →
  let w1 := set_props p (set_iomaps ({[a_iomap a]} ∪ k_iomaps w) (set_base (a_iomap a) w)) in
  let w2 := if m then set_registered 1 (set_wdmisc true w1) else w1 in
  ∃ w', probe_err ga ret (set_workqueue None (set_use_workqueue u w2)) = Done (ret, w') ∧
    wd_idle w' ∧ wd_res w' = wd_res w.
Proof.
  intros [Hb Hq Hm Hk Ht Hw] Hne Hf. cbv zeta. unfold probe_err, dev_watchdog_remove.
  destruct w as [[] ? ? ? ? ? ? ?]. simpl in *. subst.
  destruct m; simpl; (destruct (Z.eqb_spec (a_iomap a) 0); [lia|]); simpl;
    eexists; (split; [reflexivity|]); split; try (split; simpl; done);
    unfold wd_res; simpl; by rewrite union_remove.
Qed.

Lemma read_enable_done w :
  (k_ga w).1 = free_locks → (∀ x, unhooked ga x) → reg_base (priv w) ∈ k_iomaps w →
  ∃ s, dev_watchdog_read_enable ga w = Done (set_state s w).
Proof.
  intros Hl Hu Hm. destruct w as [[] [l b] ? ? ? ? ? ?]. simpl in *. subst l.
  unfold dev_watchdog_read_enable. cbv zeta. destruct (has_enable _); [|by eexists].
  erewrite mmio_done; [|done|by apply dev_read_ok]. eexists. reflexivity.
Qed.

(** Removing a bound device releases everything but keeps the pointer to the
    workqueue it destroyed. *)
Lemma remove_bound q w :
  workqueue (priv w) = Some q → q ∈ k_wqs w → k_work w = false →
  misc_registered (priv w) ≠ 0 → reg_base (priv w) ≠ 0 →
  ∃ w', dev_watchdog_remove ga w = Done (0, w') ∧
    wd_res w' = (k_wqs w ∖ {[q]}, false, k_iomaps w ∖ {[reg_base (priv w)]}, None, false) ∧
    workqueue (priv w') = Some q ∧ reg_base (priv w') = 0 ∧
    use_workqueue (priv w') = use_workqueue (priv w).
Proof.
  intros Hq Hin Hw Hm Hb. unfold dev_watchdog_remove. simpl. rewrite Hq.
  unfold destroy_workqueue, worker. rewrite decide_True by done. simpl. rewrite Hw. simpl.
  apply Z.eqb_neq in Hm, Hb. rewrite Hm. simpl. rewrite Hb. simpl.
  eexists. split; [reflexivity|]. unfold wd_res. simpl. by rewrite Hw.
Qed.

(** The state after a probe that got everything, before the initial state is
    read. *)
Definition probed (a : wd_answers) (p : list Z) (u q : Z) w : wd_world :=
  set_workqueue (Some q) (set_wqs ({[q]} ∪ k_wqs w) (k_work w)
    (set_use_workqueue u (set_registered 1 (set_wdmisc true
      (set_props p (set_iomaps ({[a_iomap a]} ∪ k_iomaps w) (set_base (a_iomap a) w))))))).

(** The three ways a probe of an unbound driver ends. *)
Lemma probe_cases n a w :
  wd_idle w → fresh_answers a w → (k_ga w).1 = free_locks → (∀ x, unhooked ga x) →
  a_misc_register a <= 0 →
  (∃ ret w', dev_watchdog_probe ga n a w = Done (ret, w') ∧
     wd_idle w' ∧ wd_res w' = wd_res w ∧ (ret = 0 → a_workqueue a = None) ∧
     (node_ok n → a_iomap a ≠ 0 → a_misc_register a = 0 → ret = 0)) ∨
  (∃ p u q s, a_workqueue a = Some q ∧ a_iomap a ≠ 0 ∧
     dev_watchdog_probe ga n a w = Done (0, set_state s (probed a p u q w))).
Proof.
  intros Hid [Hfi Hfq] Hl Hu Hmisc. pose proof Hid as [Hb Hq Hm Hk Ht Hw].
  unfold dev_watchdog_probe. rewrite Hb. change (negb (0 =? 0)) with false. cbv iota zeta.
  destruct (Z.eqb_spec (a_iomap a) 0) as [H0|H0].
  { left. unfold probe_err, dev_watchdog_remove. simpl. rewrite Hq. simpl. rewrite Hm. simpl.
    rewrite H0. simpl. do 2 eexists. split; [reflexivity|].
    split; [by split|]. split; [unfold wd_res; simpl; by rewrite Ht|]. by split. }
  match goal with |- context [get_props n watchdog_props 0 ?x] =>
    destruct (get_props_frame n watchdog_props 0 x) as [p Hp];
    pose proof (get_props_ok n watchdog_props 0 x) as Hok;
    destruct (get_props n watchdog_props 0 x) as [r w1] end.
  simpl in Hp. subst w1.
  pose proof (λ ret m u, probe_err_mapped ret a w p m u Hid H0 Hfi) as Herr.
  destruct w as [[wq base uw pr mr tr st] kg kt kj kq kw km ki]. simpl in *. subst.
  destruct (Z.eqb_spec r 0) as [->|Hr]; simpl.
  2: { left. destruct (Herr r false uw) as (w' & Hw' & ? & ?).
       exists r, w'. split_and!; try done. intros Hn. by specialize (Hok Hn). }
  destruct (Z.ltb_spec (a_misc_register a) 0) as [Hlt|Hge].
  { left. destruct (Herr (a_misc_register a) false uw) as (w' & Hw' & ? & ?).
    exists (a_misc_register a), w'. split; [exact Hw'|]. split_and!; try done; lia. }
  set (u := match of_prop n "use-workqueue" with Some _ => 1 | None => uw end).
  destruct (a_workqueue a) as [q|] eqn:Eq.
  - right. exists p, u, q.
    match goal with |- context [dev_watchdog_read_enable ga ?x] =>
      assert (∃ s, dev_watchdog_read_enable ga x = Done (set_state s x)) as [s Hs] end.
    { apply read_enable_done; [|done|]; destruct (of_prop n _); simpl; done || set_solver. }
    exists s. split_and!; try done. rewrite Hs. unfold u. by destruct (of_prop n _).
  - left. destruct (Herr (a_misc_register a) true u) as (w' & Hw' & ? & ?).
    exists (a_misc_register a), w'. split_and!; try done.
    rewrite <- Hw'. unfold u. by destruct (of_prop n _).
Qed.

(** C31: the first probe of the driver (none has bound a device since the module
    was loaded, so its workqueue pointer is NULL), with no address hook on the
    registers, is all or nothing for the resources of the kernel: whenever it returns an error the mappings, the misc
    device, the workqueues and the timer are as before and the driver is unbound
    again; when it returns 0 having obtained its workqueue, the device is mapped,
    registered and has a live workqueue, and [remove] gives everything back.  (A
    failing probe after a remove is [wd_reprobe_destroys_dead_workqueue].) *)
Theorem wd_probe_remove_balanced n a w :
  wd_idle w → fresh_answers a w → (k_ga w).1 = free_locks → (∀ x, unhooked ga x) →
  a_misc_register a <= 0 →
  ∃ ret w', dev_watchdog_probe ga n a w = Done (ret, w') ∧
    (ret ≠ 0 → wd_idle w' ∧ wd_res w' = wd_res w) ∧
    (ret = 0 → ∀ q, a_workqueue a = Some q →
       reg_base (priv w') ∈ k_iomaps w' ∧ k_wdmisc w' = true ∧
       workqueue (priv w') = Some q ∧ q ∈ k_wqs w' ∧
       ∃ w'', dev_watchdog_remove ga w' = Done (0, w'') ∧ wd_res w'' = wd_res w).
Proof.
  intros Hid Hf Hl Hu Hmisc. destruct (probe_cases n a w Hid Hf Hl Hu Hmisc)
    as [(ret & w' & -> & ? & ? & Hn & _)|(p & u & q & s & Hq & H0 & ->)].
  { exists ret, w'. split_and!; try done. intros ? q Hq. naive_solver. }
  do 2 eexists. split; [reflexivity|]. split; [done|]. intros _ q' Hq'. simplify_eq.
  destruct Hid as [_ _ _ Hk Ht Hw]. destruct Hf as [Hfi Hfq]. specialize (Hfq q Hq).
  simpl. split_and!; try done; try set_solver.
  destruct (remove_bound q (set_state s (probed a p u q w))) as (w'' & -> & Hres & _);
    try done; try (simpl; set_solver).
  eexists. split; [reflexivity|]. rewrite Hres. unfold wd_res. simpl.
  by rewrite !union_remove, Hk, Ht, Hw.
Qed.

(** A probe that cannot get its workqueue undoes everything and still returns
    0 (the leftover result of [misc_register]): the driver core sees a bound
    device although nothing is mapped or registered. *)
Theorem wd_probe_hides_workqueue_failure n a w :
  wd_idle w → fresh_answers a w → (k_ga w).1 = free_locks → (∀ x, unhooked ga x) →
  node_ok n → a_iomap a ≠ 0 → a_misc_register a = 0 → a_workqueue a = None →
  ∃ w', dev_watchdog_probe ga n a w = Done (0, w') ∧ wd_idle w' ∧ wd_res w' = wd_res w.
Proof.
  intros Hid Hf Hl Hu Hn H0 Hm Hq. destruct (probe_cases n a w Hid Hf Hl Hu ltac:(lia))
    as [(ret & w' & -> & ? & ? & _ & Hr)|(p & u & q & s & Hq' & _)]; [|congruence].
  rewrite Hr by done. eauto.
Qed.

(** A bound device whose work is not queued; no mapping is at address 0. *)
Record wd_bound (q : Z) w : Prop := {
  bd_wq : workqueue (priv w) = Some q;
  bd_live : q ∈ k_wqs w;
  bd_work : k_work w = false;
  bd_misc : misc_registered (priv w) ≠ 0;
  bd_base : reg_base (priv w) ≠ 0;
  bd_null : 0 ∉ k_iomaps w;
}.

Lemma remove_bound_dead q w :
  wd_bound q w →
  ∃ w', dev_watchdog_remove ga w = Done (0, w') ∧
    q ∉ k_wqs w' ∧ workqueue (priv w') = Some q ∧
    reg_base (priv w') = 0 ∧ reg_base (priv w') ∉ k_iomaps w'.
Proof.
  intros []. destruct (remove_bound q w) as (w' & -> & Hres & Hq & Hb & _); try done.
  injection Hres as Hwqs _ Hio _ _. eexists. split; [done|]. rewrite Hwqs, Hio, Hb.
  split_and!; try done; intros []%elem_of_difference; [set_solver|done].
Qed.

(** [remove] leaves [priv.workqueue] pointing at the workqueue it destroyed,
    so a later probe that fails to map its registers destroys that workqueue a
    second time. *)
Theorem wd_reprobe_destroys_dead_workqueue q w :
  wd_bound q w →
  ∃ w', dev_watchdog_remove ga w = Done (0, w') ∧
    ∀ n a, a_iomap a = 0 → dev_watchdog_probe ga n a w' = Undef.
Proof.
  intros (w' & -> & Hdead & Hq & Hb & _)%remove_bound_dead.
  eexists. split; [done|]. intros n a H0. unfold dev_watchdog_probe. rewrite Hb, H0. simpl.
  unfold probe_err, dev_watchdog_remove. simpl. rewrite Hq. simpl.
  unfold destroy_workqueue. by rewrite decide_False.
Qed.

Context {UA : UserAccess} `{!UserAccessOk UA}.
Context (kick_interval : Z) (msecs_to_jiffies : Z → Z).

(** A file that stays open across [remove] is still served: a kick command
    accesses the registers through the cleared base, and a start command arms the
    timer again, whose next expiry accesses the registers or the workqueue after
    they are gone. *)
Theorem wd_use_after_remove q u data len w :
  wd_bound q w →
  ∃ w', dev_watchdog_remove ga w = Done (0, w') ∧
    (ubytes u data 1 = Some [107] →
       dev_watchdog_write ga kick_interval msecs_to_jiffies u data len w' = Undef) ∧
    (ubytes u data 1 = Some [115] →
       ∃ w'', dev_watchdog_write ga kick_interval msecs_to_jiffies u data len w' = Done (len, w'') ∧
         timer_expires ga kick_interval msecs_to_jiffies w'' = Undef).
Proof.
  intros (w' & -> & Hdead & Hq & _ & Hb)%remove_bound_dead.
  eexists. split; [done|]. split; intros Hu.
  - unfold dev_watchdog_write. rewrite (cfu_accessible u data 1 [107]) by done. simpl.
    unfold dev_watchdog_kick, mmio. by rewrite decide_False.
  - unfold dev_watchdog_write. rewrite (cfu_accessible u data 1 [115]) by done. simpl.
    eexists. split; [reflexivity|]. unfold timer_expires, dev_watchdog_timeout, fire. simpl.
    destruct (negb _).
    + unfold queue_work. simpl. rewrite Hq. by rewrite decide_False.
    + unfold dev_watchdog_kick, mmio. simpl. by rewrite decide_False.
Qed.
End Lifecycle.

(** ** The timer against the command writers

    [dev_watchdog_timeout] runs in interrupt context beside the tasks that write
    commands; nothing keeps two of these apart.  Every access to the shared [priv]
    and timer is a step of its own: the handler tests [timer_running], fires, sets
    the flag, re-arms; a start sets the flag, then arms; a stop clears the flag,
    then [del_timer_sync] waits until the handler is not running and deletes the
    timer. *)
Section Race.
Context {B : IoBus} (ga : ga_state) (kick_interval : Z) (msecs_to_jiffies : Z → Z).

Inductive handler_pc := HIdle | HTest | HFire | HFlag | HArm.
Inductive writer_pc := WIdle | WArm | WDelete.

#[export] Instance writer_pc_eq_dec : EqDecision writer_pc.
Proof. solve_decision. Defined.

(** What the writers have done since one of them last left the state where all
    are idle: only starts, only stops, or both. *)
Inductive episode := Starts | Stops | Mixed.

Record race := {
  r_world : wd_world; r_handler : handler_pc; r_writers : list writer_pc; r_episode : episode }.

Definition mk w h ws e : race := {| r_world := w; r_handler := h; r_writers := ws; r_episode := e |}.

(** The command of writer [i] goes on to the point [pc]. *)
Definition goto (i : nat) (pc : writer_pc) (ws : list writer_pc) : list writer_pc := <[i := pc]> ws.

Definition all_idle (ws : list writer_pc) : bool := forallb (λ pc, bool_decide (pc = WIdle)) ws.

(** A start or a stop begins. *)
Definition begins (k : episode) (s : race) : episode :=
  if all_idle (r_writers s) then k
  else match k, r_episode s with Starts, Starts => Starts | Stops, Stops => Stops | _, _ => Mixed end.

Inductive move :=
  | Expire | Test | Fire | Flag | Arm | Work
  | StartFlag (i : nat) | StartArm (i : nat) | StopFlag (i : nat) | StopDelete (i : nat).

(** The outcome of a move, [None] when it is not possible in this state. *)
Definition do_move (m : move) (s : race) : option race :=
  let w := r_world s in let h := r_handler s in let ws := r_writers s in let e := r_episode s in
  match m, h with
  | Expire, HIdle => match k_timer w with
                     | Some _ => Some (mk (set_timer None w) HTest ws e) | None => None end
  | Test, HTest => Some (mk w (if timer_running (priv w) =? 0 then HIdle else HFire) ws e)
  | Fire, HFire => match fire ga w with Done w' => Some (mk w' HFlag ws e) | _ => None end
  | Flag, HFlag => Some (mk (set_running 1 w) HArm ws e)
  | Arm, HArm => Some (mk (arm kick_interval msecs_to_jiffies w) HIdle ws e)
  | Work, _ => match worker ga w with Done w' => Some (mk w' h ws e) | _ => None end
  | StartFlag i, _ => match ws !! i with
                      | Some WIdle => Some (mk (set_running 1 w) h (goto i WArm ws) (begins Starts s))
                      | _ => None end
  | StartArm i, _ => match ws !! i with
                     | Some WArm => Some (mk (arm kick_interval msecs_to_jiffies w) h (goto i WIdle ws) e)
                     | _ => None end
  | StopFlag i, _ => match ws !! i with
                     | Some WIdle => Some (mk (set_running 0 w) h (goto i WDelete ws) (begins Stops s))
                     | _ => None end
  | StopDelete i, HIdle => match ws !! i with
                           | Some WDelete => Some (mk (del_timer w) h (goto i WIdle ws) e)
                           | _ => None end
  | _, _ => None
  end.

Inductive reach (s0 : race) : race → Prop :=
| reach_refl : reach s0 s0
| reach_step s m s' : reach s0 s → do_move m s = Some s' → reach s0 s'.

Fixpoint moves (l : list move) (s : race) : option race :=
  match l with [] => Some s | m :: l' => s ← do_move m s; moves l' s end.

Lemma moves_reach l s0 s s' : reach s0 s → moves l s = Some s' → reach s0 s'.
Proof.
  revert s. induction l as [|m l IH]; simpl; intros s Hr H; [by simplify_eq|].
  destruct (do_move m s) eqn:E; [|done]. eapply IH; [|done]. by eapply reach_step.
Qed.

(** [n] tasks have the device open and none has written. *)
Definition at_rest (n : nat) (w : wd_world) : race := mk w HIdle (replicate n WIdle) Stops.

(** A fire or a worker run touches neither the timer nor its flag. *)
Lemma kick_frame w w' : dev_watchdog_kick ga w = Done w' →
  k_timer w' = k_timer w ∧ priv w' = priv w.
Proof.
  unfold dev_watchdog_kick, mmio. destruct (decide _); [|done]. simpl.
  destruct (dev_write _ _ _ _) as [[? ?]| |]; simpl; [|done|done]. unfold mret, run_ret. intros [= <-]. done.
Qed.

Lemma fire_frame w w' : fire ga w = Done w' → k_timer w' = k_timer w ∧ priv w' = priv w.
Proof.
  unfold fire, queue_work. destruct (negb _); [|apply kick_frame].
  destruct (workqueue (priv w)); [|done]. destruct (decide _); [|done]. unfold mret, run_ret. intros [= <-]. done.
Qed.

Lemma worker_frame w w' : worker ga w = Done w' → k_timer w' = k_timer w ∧ priv w' = priv w.
Proof.
  unfold worker, dev_watchdog_work. destruct (k_work w); [intros H; by apply kick_frame in H|]. unfold mret, run_ret. intros [= <-]. done.
Qed.

Lemma all_idle_spec ws : all_idle ws = true ↔ ∀ i pc, ws !! i = Some pc → pc = WIdle.
Proof.
  unfold all_idle. rewrite forallb_forall. split.
  - intros H i pc Hi. apply (bool_decide_eq_true_1 _ (H pc (proj1 (list_elem_of_In _ _) (list_elem_of_lookup_2 _ _ _ Hi)))).
  - intros H pc [i Hi]%list_elem_of_In%list_elem_of_lookup_1. apply bool_decide_eq_true_2. by eapply H.
Qed.

Lemma not_all_idle ws i pc : ws !! i = Some pc → pc ≠ WIdle → all_idle ws = false.
Proof.
  intros Hi Hpc. destruct (all_idle ws) eqn:E; [|done]. by apply (proj1 (all_idle_spec ws) E) in Hi.
Qed.

(** No writer is at [pc]. *)
Definition none_at (pc : writer_pc) (ws : list writer_pc) : Prop := ∀ i, ws !! i ≠ Some pc.

Lemma none_at_goto pc i pc' ws : none_at pc ws → pc' ≠ pc → none_at pc (goto i pc' ws).
Proof.
  intros H Hne j. unfold goto. intros [(_ & ? & _)|[_ Hj]]%list_lookup_insert_Some; [done|]. by apply (H j).
Qed.

Lemma idle_none_at pc ws : all_idle ws = true → pc ≠ WIdle → none_at pc ws.
Proof. intros Hi Hpc i Hj. by apply (proj1 (all_idle_spec ws) Hi) in Hj. Qed.

Definition race_inv (s : race) : Prop :=
  let w := r_world s in
  match r_episode s with
  | Starts => timer_running (priv w) = 1 ∧ none_at WDelete (r_writers s) ∧
      (all_idle (r_writers s) = true → is_Some (k_timer w) ∨ r_handler s ≠ HIdle)
  | Stops => none_at WArm (r_writers s) ∧
      (all_idle (r_writers s) = true → r_handler s = HIdle ∧ k_timer w = None)
  | Mixed => True
  end.

(** A move of the handler or of the worker. *)
Lemma race_inv_kernel m s s' : race_inv s → do_move m s = Some s' →
  In m [Expire; Test; Fire; Flag; Arm; Work] → race_inv s'.
Proof.
  destruct s as [w h ws e]. unfold race_inv. intros Hi Hm Hin.
  destruct Hin as [<-|[<-|[<-|[<-|[<-|[<-|[]]]]]]]; destruct h; simpl in *; try done;
    repeat match type of Hm with
    | match ?x with _ => _ end = _ => destruct x eqn:?; simpl in Hm; try discriminate Hm
    end;
    repeat match goal with
    | H : fire ga _ = Done _ |- _ => apply fire_frame in H as [? ?]
    | H : worker ga _ = Done _ |- _ => apply worker_frame in H as [? ?]
    end;
    simplify_eq/=; destruct e; simpl in *; try done;
    repeat match goal with
    | H : _ ∧ _ |- _ => destruct H
    | H : priv _ = priv _ |- _ => rewrite H
    | H : k_timer _ = k_timer _ |- _ => rewrite H
    | H : timer_running _ = 1 |- context [timer_running _ =? 0] => rewrite H
    end; split_and?; try done; intros Hz; naive_solver.
Qed.

Lemma race_inv_start i s s' : race_inv s → do_move (StartFlag i) s = Some s' → race_inv s'.
Proof.
  destruct s as [w h ws e]. unfold race_inv. simpl. intros Hi Hm.
  assert (ws !! i = Some WIdle) as Ei by by destruct h, (ws !! i) as [[]|].
  rewrite Ei in Hm. assert (s' = mk (set_running 1 w) h (goto i WArm ws) (begins Starts (mk w h ws e))) as ->
    by (destruct h; injection Hm as <-; reflexivity).
  unfold begins. simpl. assert (all_idle (goto i WArm ws) = false) as Hn.
  { apply (not_all_idle _ i WArm); [|done]. unfold goto. apply list_lookup_insert_eq. by eapply lookup_lt_Some. }
  destruct (all_idle ws) eqn:Ea; [|destruct e; try done]; rewrite Hn; split_and!; try done.
  - apply none_at_goto; [by apply idle_none_at|done].
  - apply none_at_goto; [apply Hi|done].
Qed.

Lemma race_inv_stop i s s' : race_inv s → do_move (StopFlag i) s = Some s' → race_inv s'.
Proof.
  destruct s as [w h ws e]. unfold race_inv. simpl. intros Hi Hm.
  assert (ws !! i = Some WIdle) as Ei by by destruct h, (ws !! i) as [[]|].
  rewrite Ei in Hm. assert (s' = mk (set_running 0 w) h (goto i WDelete ws) (begins Stops (mk w h ws e))) as ->
    by (destruct h; injection Hm as <-; reflexivity).
  unfold begins. simpl. assert (all_idle (goto i WDelete ws) = false) as Hn.
  { apply (not_all_idle _ i WDelete); [|done]. unfold goto. apply list_lookup_insert_eq. by eapply lookup_lt_Some. }
  destruct (all_idle ws) eqn:Ea; [|destruct e; try done]; rewrite Hn; split_and!; try done.
  - apply none_at_goto; [by apply idle_none_at|done].
  - apply none_at_goto; [apply Hi|done].
Qed.

Lemma race_inv_finish m i s s' : race_inv s → do_move m s = Some s' →
  m = StartArm i ∨ m = StopDelete i → race_inv s'.
Proof.
  destruct s as [w h ws e]. unfold race_inv. intros Hi Hm [-> | ->]; simpl in Hi, Hm.
  - assert (ws !! i = Some WArm) as Ei by by destruct h, (ws !! i) as [[]|].
    assert (s' = mk (arm kick_interval msecs_to_jiffies w) h (goto i WIdle ws) e) as ->
      by (rewrite Ei in Hm; destruct h; injection Hm as <-; reflexivity).
    simpl. destruct e; [|by destruct Hi as [Hn _]; destruct (Hn i)|done].
    destruct Hi as (? & ? & _). split_and!; [done|by apply none_at_goto|]. intros _. left. by eexists.
  - destruct h; try done. destruct (ws !! i) as [[]|] eqn:Ei; try done. simplify_eq/=.
    destruct e; simpl; [by destruct Hi as (_ & Hn & _); destruct (Hn i)| |done].
    destruct Hi as (? & _). split; [by apply none_at_goto|done].
Qed.

Lemma race_inv_step m s s' : race_inv s → do_move m s = Some s' → race_inv s'.
Proof.
  intros Hi Hm. destruct m; try (eapply race_inv_kernel; [done|done|simpl; tauto]).
  - by eapply race_inv_start.
  - eapply race_inv_finish; eauto.
  - by eapply race_inv_stop.
  - eapply race_inv_finish; eauto.
Qed.

(** C9: the timer obeys the commands of any number of tasks under every
    interleaving of its handler, the worker and the tasks, starting at rest.
    Whenever no command is in progress: if since the last such moment only starts
    ran (possibly at the same time) the flag is set and the timer is pending or
    its handler is running, so the next kick comes; if only stops ran, the timer
    is not pending and the handler does not run, so no kick is fired.  Nothing is
    promised after a start and a stop that overlapped. *)
Theorem wd_timer_protocol n w s :
  k_timer w = None → reach (at_rest n w) s → all_idle (r_writers s) = true →
  match r_episode s with
  | Starts => timer_running (priv (r_world s)) = 1 ∧ (is_Some (k_timer (r_world s)) ∨ r_handler s ≠ HIdle)
  | Stops => r_handler s = HIdle ∧ k_timer (r_world s) = None
  | Mixed => True
  end.
Proof.
  intros Hw Hr Hi. assert (race_inv s) as Hinv.
  { clear Hi. induction Hr; [|by eapply race_inv_step].
    split; [|done]. intros i. by intros [? _]%lookup_replicate. }
  unfold race_inv in Hinv. destruct (r_episode s); [|naive_solver|done].
  destruct Hinv as (? & _ & ?). auto.
Qed.
End Race.

(** ** Witnesses *)
Import CellBus FlatUser.

Definition jiffy (ms : Z) : Z := ms / 10.
Definition demo_priv : dev_watchdog :=
  {| workqueue := Some 7; reg_base := 4096; use_workqueue := 0; props := [2; 85; 6; 4];
     misc_registered := 1; timer_running := 0; wd_state := WD_STATE_UNKNOWN |}.
Definition demo_world (p : dev_watchdog) (maps wqs : gset Z) (registered : bool) : wd_world :=
  {| priv := p; k_ga := (free_locks, ∅); k_timer := None; k_jiffies := 0; k_wqs := wqs;
     k_work := false; k_wdmisc := registered; k_iomaps := maps |}.
Definition demo_bound : wd_world := demo_world demo_priv {[4096]} {[7]} true.
Definition demo_idle : wd_world := demo_world priv_zero ∅ ∅ false.

Lemma plain_unhooked x : unhooked plain x.
Proof. split; by left. Qed.

Lemma demo_bound_ok : wd_ok plain demo_bound.
Proof. split; try done; try apply plain_unhooked; simpl; try set_solver; tauto. Qed.

(** A command byte at the user address 300. *)
Definition demo_cmd (c : Z) : umem := ({[300 := c]} : gmap Z Z).
(** Eight user bytes at 400. *)
Definition demo_buf : umem := (list_to_map (zip (seqZ 400 8) (zeros 8)) : gmap Z Z).

Lemma wd_write_refines_witness :
  ∃ ret w', dev_watchdog_write plain 1000 jiffy (demo_cmd 101) 300 1 demo_bound = Done (ret, w') ∧
    ret = 1 ∧ aw_state (abs w') = WD_STATE_ENABLED ∧ reg8 4102 (aw_hw (abs w')) = 4.
Proof.
  destruct (wd_write_refines plain 1000 jiffy (demo_cmd 101) 300 1 101 demo_bound)
    as (ret & w' & Hw & _ & Hret & Ha); [exact demo_bound_ok|reflexivity|].
  exists ret, w'. split; [exact Hw|]. split; [exact Hret|]. rewrite Ha. split; reflexivity.
Defined.

(** Hardware without the GICI: the register at 4102 ignores writes. *)
Definition dead_bus : IoBus := {|
  bus := gmap Z Z;
  raw_read := @raw_read cell_bus;
  raw_write w v a m := if a =? 4102 then m else @raw_write cell_bus w v a m;
  ioaddr_phys := @ioaddr_phys cell_bus;
|}.

Lemma wd_enable_without_effect_witness :
  aw_state (@spec_enable dead_bus 4102 4 4 {| aw_armed := false; aw_state := WD_STATE_UNKNOWN; aw_hw := ∅ |})
    = WD_STATE_DISABLED.
Proof. rewrite (wd_enable_without_effect (B := dead_bus) true 4102 4); [reflexivity|done]. Defined.

Lemma wd_read_reports_witness :
  ∃ u', dev_watchdog_read true demo_buf 400 demo_bound
        = Done (8, false, u') ∧
        ubytes u' 400 8 = Some [116; 61; 48; 32; 115; 61; 117; 10].
Proof.
  destruct (wd_read_reports plain false demo_buf 400 demo_bound)
    as (ret & u' & Hr & Hok & _); [exact demo_bound_ok|].
  destruct Hok as [-> Hu]; [reflexivity|]. exists u'. split; [exact Hr|]. exact Hu.
Defined.

(** A node with the two mandatory properties. *)
Definition demo_node : of_node :=
  {| of_prop s := if decide (s = "reg-kick-offset")%string then Some [0; 0; 0; 2]
                  else if decide (s = "reg-kick-value")%string then Some [0; 0; 0; 85] else None |}.
Definition demo_answers (q : option Z) : wd_answers :=
  {| a_iomap := 4096; a_misc_register := 0; a_workqueue := q |}.

Lemma demo_idle_ok : wd_idle demo_idle.
Proof. by split. Qed.
Lemma demo_fresh q : fresh_answers (demo_answers q) demo_idle.
Proof. split; simpl; set_solver. Qed.

Lemma wd_probe_remove_balanced_witness :
  ∃ ret w' w'', dev_watchdog_probe plain demo_node (demo_answers (Some 7)) demo_idle = Done (ret, w') ∧
    dev_watchdog_remove plain w' = Done (0, w'') ∧ wd_res w'' = wd_res demo_idle.
Proof.
  destruct (wd_probe_remove_balanced plain demo_node (demo_answers (Some 7)) demo_idle)
    as (ret & w' & Hp & _ & Hok); [exact demo_idle_ok|exact (demo_fresh _)|reflexivity
    |exact plain_unhooked|done|].
  assert (match dev_watchdog_probe plain demo_node (demo_answers (Some 7)) demo_idle with
          | Done (r, _) => r = 0 | _ => False end) as Hz by (vm_compute; reflexivity).
  rewrite Hp in Hz. subst ret.
  destruct (Hok eq_refl 7 eq_refl) as (_ & _ & _ & _ & w'' & Hr & Hres). eauto 10.
Defined.

Lemma wd_probe_hides_workqueue_failure_witness :
  ∃ w', dev_watchdog_probe plain demo_node (demo_answers None) demo_idle = Done (0, w') ∧
    wd_idle w' ∧ wd_res w' = wd_res demo_idle.
Proof.
  apply (wd_probe_hides_workqueue_failure plain demo_node (demo_answers None) demo_idle);
    [exact demo_idle_ok|exact (demo_fresh _)|reflexivity|exact plain_unhooked|repeat constructor|done..].
Defined.

Lemma demo_bound_bound : wd_bound 7 demo_bound.
Proof. split; simpl; try done; set_solver. Qed.

Lemma wd_reprobe_destroys_dead_workqueue_witness :
  ∃ w', dev_watchdog_remove plain demo_bound = Done (0, w') ∧
    dev_watchdog_probe plain demo_node {| a_iomap := 0; a_misc_register := 0; a_workqueue := None |} w' = Undef.
Proof.
  destruct (wd_reprobe_destroys_dead_workqueue plain 7 demo_bound demo_bound_bound) as (w' & Hr & Hp).
  exists w'. split; [exact Hr|]. by apply Hp.
Defined.

Lemma wd_use_after_remove_witness :
  ∃ w', dev_watchdog_remove plain demo_bound = Done (0, w') ∧
    dev_watchdog_write plain 1000 jiffy (demo_cmd 107) 300 1 w' = Undef.
Proof.
  destruct (wd_use_after_remove plain 1000 jiffy 7 (demo_cmd 107) 300 1 demo_bound demo_bound_bound)
    as (w' & Hr & Hk & _).
  exists w'. split; [exact Hr|]. apply Hk. reflexivity.
Defined.

(** A stop that overlaps the timer handler leaves the flag wrong: when the
    handler has passed its test before the stop clears [timer_running], it sets
    the flag again while [del_timer_sync] waits for it; the stop completes with
    no timer pending and no handler running, yet the status line says "t=1". *)
Theorem wd_stop_race_reports_running :
  ∃ s, reach plain 1000 jiffy (at_rest 1 demo_bound) s ∧
    all_idle (r_writers s) = true ∧ r_episode s = Stops ∧
    ∃ u', dev_watchdog_read true demo_buf 400 (r_world s)
          = Done (8, false, u') ∧ ubytes u' 400 8 = Some [116; 61; 49; 32; 115; 61; 117; 10].
Proof.
  pose (l := [StartFlag 0; StartArm 0; Expire; Test; StopFlag 0; Fire; Flag; Arm; StopDelete 0]).
  assert (match moves plain 1000 jiffy l (at_rest 1 demo_bound) with
          | Some s => all_idle (r_writers s) = true ∧ r_episode s = Stops ∧
              match dev_watchdog_read true demo_buf 400 (r_world s) with
              | Done (r, f, u') => r = 8 ∧ f = false ∧
                  ubytes u' 400 8 = Some [116; 61; 49; 32; 115; 61; 117; 10]
              | _ => False
              end
          | None => False end) as Hl by (vm_compute; split_and!; reflexivity).
  destruct (moves plain 1000 jiffy l (at_rest 1 demo_bound)) as [s|] eqn:E; [|done].
  exists s. split; [by eapply moves_reach; [apply reach_refl|]|].
  destruct Hl as (-> & -> & Hr). split_and!; try done.
  destruct (dev_watchdog_read _ _ _ _) as [[[r f] u']| |]; [|done|done].
  destruct Hr as (-> & -> & Hu). by exists u'.
Qed.

(** Two tasks whose start and stop overlap lose the start, in two ways.  When
    the stop clears the flag before the start and deletes the timer after it, the
    flag says running and no timer is pending; when the stop runs between the two
    steps of the start, the start completes last, yet the flag is clear and the
    one expiry that follows fires no kick and does not re-arm the timer. *)
Theorem wd_overlapping_writers_lose_start :
  (∃ s, moves plain 1000 jiffy [StopFlag 0; StartFlag 1; StartArm 1; StopDelete 0] (at_rest 2 demo_bound) = Some s ∧
     all_idle (r_writers s) = true ∧ r_episode s = Mixed ∧
     timer_running (priv (r_world s)) = 1 ∧ k_timer (r_world s) = None ∧ r_handler s = HIdle) ∧
  (∃ s, moves plain 1000 jiffy
          [StartFlag 1; StopFlag 0; StopDelete 0; StartArm 1; Expire; Test] (at_rest 2 demo_bound) = Some s ∧
     all_idle (r_writers s) = true ∧ r_episode s = Mixed ∧
     k_ga (r_world s) = k_ga demo_bound ∧ k_timer (r_world s) = None ∧ r_handler s = HIdle).
Proof. split; eexists; (split; [reflexivity|]); split_and!; reflexivity. Qed.

Lemma wd_timer_protocol_witness :
  ∃ s, moves plain 1000 jiffy [StartFlag 0; StartFlag 1; StartArm 1; StartArm 0; Expire; Test]
         (at_rest 2 demo_bound) = Some s ∧
    timer_running (priv (r_world s)) = 1 ∧ (is_Some (k_timer (r_world s)) ∨ r_handler s ≠ HIdle).
Proof.
  assert (match moves plain 1000 jiffy [StartFlag 0; StartFlag 1; StartArm 1; StartArm 0; Expire; Test]
                  (at_rest 2 demo_bound) with
          | Some s => all_idle (r_writers s) = true ∧ r_episode s = Starts | None => False end) as Hc
    by (vm_compute; split; reflexivity).
  destruct (moves plain 1000 jiffy [StartFlag 0; StartFlag 1; StartArm 1; StartArm 0; Expire; Test]
              (at_rest 2 demo_bound)) as [s|] eqn:E; [|destruct Hc].
  destruct Hc as [Hi Hc]. exists s. split; [reflexivity|].
  pose proof (wd_timer_protocol plain 1000 jiffy 2 demo_bound s eq_refl
                (moves_reach _ _ _ _ _ _ _ (reach_refl _ _ _ _) E) Hi) as H.
  by rewrite Hc in H.
Defined.
