(* ===== verification/KString.v ===== *)
(** * Numbers and strings of the kernel library

    The conversions the sysfs handlers use: [sprintf] of [%d], [%x] and [%s],
    [simple_strtol], and NUL-terminated strings in character arrays.  A string is
    the list of its bytes. *)

From S2P Require Import Prelude.

(** ** Printing *)
Definition digit (d : Z) : Z := if d <? 10 then 48 + d else 87 + d.

(** The digits of [n >= 0] in base [b]; [fuel] bounds their number. *)
Fixpoint udigits (fuel : nat) (b n : Z) : list Z :=
  match fuel with
  | O => []
  | S f => if n <? b then [digit n] else udigits f b (n / b) ++ [digit (n mod b)]
  end.

(** [%d] of an [int] or [long], [%x] of an unsigned number: 64 digits are enough
    for 64 bits in any base. *)
Definition fmt_d (x : Z) : list Z := if x <? 0 then 45 :: udigits 64 10 (- x) else udigits 64 10 x.
Definition fmt_x (n : Z) : list Z := udigits 64 16 n.

(** [%s] of a character array: the bytes before the first NUL. *)
Fixpoint cstr (l : list Z) : list Z :=
  match l with [] => [] | c :: l' => if c =? 0 then [] else c :: cstr l' end.

(** ** [simple_strtol] *)
Definition digit_value (c : Z) : option Z :=
  let lc := Z.lor c 32 in
  if (48 <=? c) && (c <=? 57) then Some (c - 48)
  else if (97 <=? lc) && (lc <=? 102) then Some (lc - 97 + 10) else None.

Fixpoint parse_integer (b acc : Z) (l : list Z) : Z :=
  match l with
  | [] => acc
  | c :: l' => match digit_value c with
               | Some v => if v <? b then parse_integer b (u64 (acc * b + v)) l' else acc
               | None => acc
               end
  end.

Definition simple_strtoull (b : Z) (l : list Z) : Z :=
  match l with
  | c :: x :: l' => if (b =? 16) && (c =? 48) && (Z.lor x 32 =? 120) then parse_integer b 0 l'
                    else parse_integer b 0 l
  | _ => parse_integer b 0 l
  end.

Definition simple_strtol (b : Z) (l : list Z) : Z :=
  match l with
  | c :: l' => if c =? 45 then s64 (- simple_strtoull b l') else s64 (simple_strtoull b l)
  | [] => s64 (simple_strtoull b l)
  end.

(** Base 0: the prefix tells the base, [0x] before a digit 16, [0] 8, else 10. *)
Definition is_xdigit (c : Z) : bool := match digit_value c with Some _ => true | None => false end.
Definition radix (l : list Z) : Z :=
  match l with
  | c :: l' =>
      if c =? 48 then
        match l' with
        | x :: d :: _ => if (Z.lor x 32 =? 120) && is_xdigit d then 16 else 8
        | _ => 8
        end
      else 10
  | [] => 10
  end.
Definition simple_strtol0 (l : list Z) : Z :=
  match l with
  | c :: l' => if c =? 45 then s64 (- simple_strtoull (radix l') l') else s64 (simple_strtoull (radix l) l)
  | [] => 0
  end.

(** ** C strings in arrays *)

(** A string literal, without its NUL. *)
Definition str (s : string) : list Z :=
  (λ a, Z.of_N (Ascii.N_of_ascii a)) <$> String.list_ascii_of_string s.

(** The string that starts here; [None]: the array ends first. *)
Fixpoint until_nul (l : list Z) : option (list Z) :=
  match l with
  | [] => None
  | c :: l' => if c =? 0 then Some [] else (c ::.) <$> until_nul l'
  end.

(** [strchr]: how far the first [c] is *)
Fixpoint strchr (c : Z) (l : list Z) : option nat :=
  match l with
  | [] => None
  | x :: l' => if x =? c then Some 0%nat else S <$> strchr c l'
  end.

Definition strcpy (dst s : list Z) : option (list Z) := store_bytes dst 0 (s ++ [0]).

Lemma until_nul_app l rest : Forall (λ c, c ≠ 0) l → until_nul (l ++ 0 :: rest) = Some l.
Proof.
  induction 1 as [|c l Hc _ IH]; [done|]. simpl. apply Z.eqb_neq in Hc. by rewrite Hc, IH.
Qed.

Lemma strchr_app c l rest : Forall (λ x, x ≠ c) l → strchr c (l ++ c :: rest) = Some (length l).
Proof.
  induction 1 as [|x l Hx _ IH]; simpl; [by rewrite Z.eqb_refl|]. apply Z.eqb_neq in Hx. by rewrite Hx, IH.
Qed.

Lemma strchr_none c l : Forall (λ x, x ≠ c) l → strchr c l = None.
Proof.
  induction 1 as [|x l Hx _ IH]; simpl; [done|]. apply Z.eqb_neq in Hx. by rewrite Hx, IH.
Qed.

(** ** Printing and parsing are inverse *)
Lemma digit_value_digit d : 0 <= d < 16 → digit_value (digit d) = Some d.
Proof.
  intros H. assert (d = 0 ∨ d = 1 ∨ d = 2 ∨ d = 3 ∨ d = 4 ∨ d = 5 ∨ d = 6 ∨ d = 7 ∨ d = 8 ∨ d = 9 ∨
    d = 10 ∨ d = 11 ∨ d = 12 ∨ d = 13 ∨ d = 14 ∨ d = 15) as Hd by lia.
  repeat destruct Hd as [-> | Hd]; [reflexivity..|]. by subst.
Qed.

Lemma parse_digits b f n rest :
  2 <= b <= 16 → 0 <= n < 2 ^ Z.of_nat f → n < 18446744073709551616 →
  parse_integer b 0 (udigits f b n ++ rest) = parse_integer b n rest.
Proof.
  intros Hb. revert n rest. induction f as [|f IH]; intros n rest Hn Hu.
  { simpl in Hn. replace n with 0 by lia. done. }
  cbn [udigits]. destruct (Z.ltb_spec n b).
  - simpl. rewrite digit_value_digit by lia. if_true. by rewrite u64_id by lia.
  - rewrite <- app_assoc. rewrite IH.
    + simpl. pose proof (Z.mod_pos_bound n b). rewrite digit_value_digit by lia. if_true.
      rewrite (Z.mul_comm (n / b)), <- Z.div_mod by lia. by rewrite u64_id by lia.
    + rewrite Nat2Z.inj_succ, Z.pow_succ_r in Hn by lia.
      split; [apply Z.div_pos; lia|]. apply Z.div_lt_upper_bound; nia.
    + apply Z.div_lt_upper_bound; nia.
Qed.

Lemma udigits_head f b n : (0 < f)%nat → 2 <= b <= 16 → 0 <= n →
  ∃ d l, udigits f b n = digit d :: l ∧ 0 <= d < b.
Proof.
  intros Hf Hb. revert n. induction f as [|f IH]; intros n Hn; [lia|]. cbn [udigits].
  destruct (Z.ltb_spec n b); [by exists n, []|].
  destruct f as [|f'].
  { exists (n mod b), []. split; [done|]. apply Z.mod_pos_bound. lia. }
  destruct (IH ltac:(lia) (n / b) ltac:(apply Z.div_pos; lia)) as (d & l & -> & ?).
  exists d, (l ++ [digit (n mod b)]). done.
Qed.

Definition no_digit (l : list Z) : Prop := match l with [] => True | c :: _ => digit_value c = None end.

Lemma parse_integer_stop b acc l : no_digit l → parse_integer b acc l = acc.
Proof. destruct l as [|c l]; simpl; [done|]. by intros ->. Qed.

Lemma strtoull_dec l : simple_strtoull 10 l = parse_integer 10 0 l.
Proof. unfold simple_strtoull. by destruct l as [|c [|x l']]. Qed.

Lemma digit_not_minus d : 0 <= d → (digit d =? 45) = false.
Proof. intros. unfold digit. apply Z.eqb_neq. split_if; lia. Qed.

(** What [%d] printed is what [simple_strtol] reads back. *)
Lemma strtol_fmt_d x rest :
  - 9223372036854775808 <= x < 9223372036854775808 → no_digit rest →
  simple_strtol 10 (fmt_d x ++ rest) = x.
Proof.
  intros Hx Hr. unfold fmt_d. generalize (eq_refl 64%nat). generalize 64%nat at 1 3 4. intros f Hf.
  destruct (Z.ltb_spec x 0).
  - unfold simple_strtol. cbn [app]. change (45 =? 45) with true. cbv iota.
    rewrite strtoull_dec, parse_digits, parse_integer_stop by (done || subst f; simpl; lia).
    rewrite Z.opp_involutive. apply s64_id. lia.
  - destruct (udigits_head f 10 x) as (d & l & Hl & Hd); [lia..|].
    unfold simple_strtol. rewrite Hl. cbn [app]. rewrite digit_not_minus by lia.
    rewrite app_comm_cons, <- Hl, strtoull_dec.
    rewrite parse_digits, parse_integer_stop by (done || subst f; simpl; lia). apply s64_id. lia.
Qed.

Lemma cstr_app_nul l rest : Forall (λ c, c ≠ 0) l → cstr (l ++ 0 :: rest) = l.
Proof.
  induction 1 as [|c l Hc _ IH]; [done|]. simpl. apply Z.eqb_neq in Hc. by rewrite Hc, IH.
Qed.

(** The same for the ["0x%llx"] of a 64-bit number. *)
Lemma strtol_fmt_x n rest :
  0 <= n < 18446744073709551616 → no_digit rest →
  simple_strtol 16 ([48; 120] ++ fmt_x n ++ rest) = s64 n.
Proof.
  intros Hn Hr. unfold fmt_x. generalize (eq_refl 64%nat). generalize 64%nat at 1 3. intros f Hf.
  unfold simple_strtol, simple_strtoull. cbn [app].
  change (48 =? 45) with false. change ((16 =? 16) && (48 =? 48) && (Z.lor 120 32 =? 120)) with true.
  cbv iota. by rewrite parse_digits, parse_integer_stop by (done || subst f; simpl; lia).
Qed.

Lemma u64_s64 n : 0 <= n < 18446744073709551616 → u64 (s64 n) = n.
Proof.
  intros Hn. unfold s64, swrap. rewrite (uwrap_id 64 n) by (simpl; lia). split_if.
  - by apply u64_id.
  - unfold u64, uwrap. replace (n - 2 ^ 64) with (n + (-1) * 2 ^ 64) by lia.
    rewrite Z_mod_plus_full. apply Z.mod_small. simpl. lia.
Qed.
