(* ===== verification/Firmware.v ===== *)
(** * Firmware loading: memloader/firmware.c, memloader/firmware.h

    A context that pulls a firmware file from user space and hands it to a device
    through callbacks, and its sysfs attributes.  The callbacks are a record of
    functions over the device's own state; the contract firmware.h states for them
    is the class [CallbacksOk].  Another thread may cancel a load or delete the
    context while it runs: what it stores is an input of the load, seen at each
    test of the state. *)

From S2P Require Import Prelude KernelApi KString.

Definition FW_EMPTY : Z := 0.
Definition FW_LOADING : Z := 1.
Definition FW_LOADED : Z := 2.
Definition FW_FAILED : Z := 3.
Definition FW_DELETED : Z := 4.

Definition FILENAME_SIZE : nat := 32.
Definition DEF_FIRMWARE_NAME : list Z := [102; 112; 103; 97; 46; 98; 105; 116]. (* fpga.bit *)
Definition DEF_BLOCKREAD : Z := 640.
Definition DEF_BLOCKSIZE : Z := 20.
Definition DEF_BLOCKDELAY : Z := 10.

(** [struct firmware] of the kernel: the mapped bytes or NULL, the pages or
    NULL, the size. *)
Record firmware := { fw_data : option (list Z); fw_pages : option (list (list Z)); fw_size : Z }.
Definition no_firmware : firmware := {| fw_data := None; fw_pages := None; fw_size := 0 |}.

(** [struct fw_context] less the callbacks; [c_dev] is [None] for NULL. *)
Record fw_context := {
  c_fw : firmware;
  total_count : Z;
  current_count : Z;
  devicemask : Z;
  blockread : Z;
  blocksize : Z;
  blockdelay : Z;
  c_dev : option Z;
  filename : list Z;
  state : Z;
  kobj_init : bool;
  kobj_added : bool;
}.

Definition set_st (s : Z) (c : fw_context) : fw_context :=
  {| c_fw := c_fw c; total_count := total_count c; current_count := current_count c;
     devicemask := devicemask c; blockread := blockread c; blocksize := blocksize c;
     blockdelay := blockdelay c; c_dev := c_dev c; filename := filename c; state := s;
     kobj_init := kobj_init c; kobj_added := kobj_added c |}.
Definition set_counts (cur tot : Z) (c : fw_context) : fw_context :=
  {| c_fw := c_fw c; total_count := tot; current_count := cur;
     devicemask := devicemask c; blockread := blockread c; blocksize := blocksize c;
     blockdelay := blockdelay c; c_dev := c_dev c; filename := filename c; state := state c;
     kobj_init := kobj_init c; kobj_added := kobj_added c |}.
Definition set_fw (f : firmware) (c : fw_context) : fw_context :=
  {| c_fw := f; total_count := total_count c; current_count := current_count c;
     devicemask := devicemask c; blockread := blockread c; blocksize := blocksize c;
     blockdelay := blockdelay c; c_dev := c_dev c; filename := filename c; state := state c;
     kobj_init := kobj_init c; kobj_added := kobj_added c |}.
Definition set_params (mask rd sz dl : Z) (c : fw_context) : fw_context :=
  {| c_fw := c_fw c; total_count := total_count c; current_count := current_count c;
     devicemask := mask; blockread := rd; blocksize := sz;
     blockdelay := dl; c_dev := c_dev c; filename := filename c; state := state c;
     kobj_init := kobj_init c; kobj_added := kobj_added c |}.
Definition set_name (n : list Z) (c : fw_context) : fw_context :=
  {| c_fw := c_fw c; total_count := total_count c; current_count := current_count c;
     devicemask := devicemask c; blockread := blockread c; blocksize := blocksize c;
     blockdelay := blockdelay c; c_dev := c_dev c; filename := n; state := state c;
     kobj_init := kobj_init c; kobj_added := kobj_added c |}.
Definition set_dev (d : option Z) (c : fw_context) : fw_context :=
  {| c_fw := c_fw c; total_count := total_count c; current_count := current_count c;
     devicemask := devicemask c; blockread := blockread c; blocksize := blocksize c;
     blockdelay := blockdelay c; c_dev := d; filename := filename c; state := state c;
     kobj_init := kobj_init c; kobj_added := kobj_added c |}.
Definition set_kobj (i a : bool) (c : fw_context) : fw_context :=
  {| c_fw := c_fw c; total_count := total_count c; current_count := current_count c;
     devicemask := devicemask c; blockread := blockread c; blocksize := blocksize c;
     blockdelay := blockdelay c; c_dev := c_dev c; filename := filename c; state := state c;
     kobj_init := i; kobj_added := a |}.

(** What another thread may store in [ctx->state] during a load: writing 0 to
    the state attribute, or [fw_cleanup]. *)
Inductive other := Cancel | Delete.
Definition interrupt (o : option other) (c : fw_context) : fw_context :=
  match o with
  | None => c
  | Some Cancel => set_st FW_EMPTY c
  | Some Delete => set_st FW_DELETED c
  end.

Section Loader.
Context {D : Type}.

(** The callbacks; NULL is [None].  They read the context and change the state of
    the device. *)
Record fw_callbacks := {
  cb_start : option (fw_context → D → run (Z * D));
  cb_write : option (fw_context → D → run (Z * D));
  cb_read : option (fw_context → D → run (Z * D));
  cb_end : option (fw_context → Z → D → run (Z * D));
}.

(** The state of a loader: its context, the device, [serial_lock]. *)
Record fw_sys := { s_ctx : fw_context; s_dev : D; serial_lock : bool }.
Definition mk_sys (c : fw_context) (d : D) (l : bool) : fw_sys :=
  {| s_ctx := c; s_dev := d; serial_lock := l |}.

(** An absent callback leaves [ret] as it was. *)
Definition opt_call (f : option (fw_context → D → run (Z * D))) (ret : Z) (c : fw_context) (d : D)
    : run (Z * D) :=
  match f with Some f => f c d | None => mret (ret, d) end.

(** The loop of the load; [i] numbers its tests. *)
Fixpoint write_loop (fuel : nat) (cb : fw_callbacks) (write : fw_context → D → run (Z * D))
    (intr : nat → option other) (i : nat) (ret prev_read prev_delay curr : Z)
    (c : fw_context) (d : D) : run (Z * fw_context * D) :=
  let c := interrupt (intr i) c in
  if negb ((current_count c <? total_count c) && (state c =? FW_LOADING)) then mret (ret, c, d)
  else match fuel with
  | O => Block
  | S fuel =>
      '(ret, d) ← write c d;
      if ret <=? 0 then mret (ret, c, d)
      else
        cur ← add_int (current_count c) ret;
        let c := set_counts cur (total_count c) c in
        curr ← add_int curr ret;
        let due := bool_decide (is_Some (cb_read cb)) && (0 <? blockread c)
                   && (blockread c <=? curr - prev_read) in
        '(ret, d) ← if due then opt_call (cb_read cb) ret c d else mret (ret, d);
        if due && (ret <? 0) then mret (ret, c, d)
        else
          let prev_read := if due then curr else prev_read in
          let prev_delay := if (0 <? blocksize c) && (blocksize c <=? curr - prev_delay)
                            then curr else prev_delay in
          write_loop fuel cb write intr (S i) ret prev_read prev_delay curr c d
  end.

(** [request_firmware]: an error or the file. *)
Definition fw_answer : Type := Z + firmware.

(** The start callback and the write loop. *)
Definition fw_write_all (cb : fw_callbacks) (intr : nat → option other)
    (fw : firmware) (c : fw_context) (d : D) : run (Z * fw_context * D) :=
  let c := set_counts (current_count c) (s32 (fw_size fw)) (set_fw fw c) in
  '(ret, d) ← opt_call (cb_start cb) 0 c d;
  match cb_write cb with
  | Some write =>
      if 0 <=? ret then
        let c := set_counts 0 (total_count c) c in
        write_loop (Z.to_nat (total_count c)) cb write intr 0 ret 0 0 0 c d
      else mret (ret, c, d)
  | None => mret (ret, c, d)
  end.

(** After the loop, up to the last switch; [last] is what another thread stored
    by then. *)
Definition fw_end (cb : fw_callbacks) (last : option other) (ret : Z) (c : fw_context) (d : D)
    : run (Z * fw_context * D) :=
  let c := interrupt last c in
  let c := if ret <? 0 then set_st FW_FAILED c else c in
  match cb_end cb with
  | Some end_ =>
      '(ret, d) ← end_ c (if state c =? FW_LOADING then 0 else 1) d;
      mret (ret, if ret <? 0 then set_st FW_FAILED c else c, d)
  | None => mret (ret, c, d)
  end.

(** The last switch *)
Definition fw_finish (ret : Z) (c : fw_context) : Z * fw_context :=
  if state c =? FW_LOADING then (0, set_st FW_LOADED c)
  else if (state c =? FW_EMPTY) || (state c =? FW_DELETED) then (- EIO, c)
  else if state c =? FW_FAILED then (ret, c)
  else (ret, set_st FW_EMPTY c).

Definition fw_load_device_firmware (cb : fw_callbacks) (req : fw_answer)
    (intr : nat → option other) (last : option other) (load : Z) (s : fw_sys) : run (Z * fw_sys) :=
  let c := s_ctx s in
  if load =? 0 then mret (0, mk_sys (set_st FW_EMPTY c) (s_dev s) (serial_lock s))
  else if serial_lock s then Block
  else if (state c =? FW_LOADING) || (state c =? FW_LOADED) || (state c =? FW_DELETED) then
    mret (- EINVAL, s)
  else
    let c := set_counts 0 0 (set_st FW_LOADING c) in
    match req with
    | inl err => mret (err, mk_sys (set_st FW_FAILED c) (s_dev s) false)
    | inr fw =>
        '(ret, c, d) ← fw_write_all cb intr fw c (s_dev s);
        '(ret, c, d) ← fw_end cb last ret c d;
        let '(ret, c) := fw_finish ret c in
        mret (ret, mk_sys c d false)
    end.

Definition fw_load_firmware (cb : fw_callbacks) (req : fw_answer)
    (intr : nat → option other) (last : option other) (buf : list Z) (s : fw_sys) : run (Z * fw_sys) :=
  fw_load_device_firmware cb req intr last (s32 (simple_strtol 10 buf)) s.
End Loader.
Arguments fw_callbacks : clear implicits.
Arguments fw_sys : clear implicits.

(** ** Attributes *)
Definition is_blank (c : Z) : bool := (c =? 13) || (c =? 10) || (c =? 9) || (c =? 32).

(** The length of [buf] without its trailing blanks: [n + 1]. *)
Fixpoint strip_len (buf : list Z) (n : nat) : nat :=
  match n with
  | O => O
  | S n' => if is_blank (nth n' buf 0) then strip_len buf n' else n
  end.

Definition fw_set_filename (buf : list Z) (count : nat) (c : fw_context) : run (Z * fw_context) :=
  let count := strip_len buf count in
  if (count =? 0)%nat then mret (- EINVAL, c)
  else if (FILENAME_SIZE <=? count)%nat then mret (- EINVAL, c)
  else
    src ← access (load_bytes buf 0 (Z.of_nat count));
    name ← access (store_bytes (filename c) 0 src);
    name ← access (store_bytes name (Z.of_nat count) [0]);
    mret (0, set_name name c).

Definition fw_set_blockread (buf : list Z) (c : fw_context) : Z * fw_context :=
  (0, set_params (devicemask c) (s32 (simple_strtol 10 buf)) (blocksize c) (blockdelay c) c).
Definition fw_set_blocksize (buf : list Z) (c : fw_context) : Z * fw_context :=
  (0, set_params (devicemask c) (blockread c) (s32 (simple_strtol 10 buf)) (blockdelay c) c).
Definition fw_set_delay (buf : list Z) (c : fw_context) : Z * fw_context :=
  (0, set_params (devicemask c) (blockread c) (blocksize c) (s32 (simple_strtol 10 buf)) c).
Definition fw_set_devicemask (buf : list Z) (c : fw_context) : Z * fw_context :=
  (0, set_params (s32 (simple_strtol 10 buf)) (blockread c) (blocksize c) (blockdelay c) c).

Inductive fw_attr := A_state | A_filename | A_blockread | A_blocksize | A_blockdelay
  | A_devicemask | A_progress_pct | A_progress_size | A_total_size | A_other.
#[global] Instance fw_attr_eq : EqDecision fw_attr.
Proof. solve_decision. Defined.

(** The bytes printed into [buf] (their number is the result), or the error. *)
Definition fw_show (a : fw_attr) (c : fw_context) : run (Z + list Z) :=
  let line x := mret (inr (x ++ [10])) in
  match a with
  | A_state => line (fmt_d (state c))
  | A_filename => line (cstr (filename c))
  | A_blockread => line (fmt_d (blockread c))
  | A_blocksize => line (fmt_d (blocksize c))
  | A_blockdelay => line (fmt_d (blockdelay c))
  | A_devicemask => line (fmt_d (devicemask c))
  | A_progress_pct =>
      if total_count c =? 0 then line (fmt_d 0)
      else p ← mul_int 100 (current_count c); line (fmt_d (Z.quot p (total_count c)))
  | A_progress_size => line (fmt_d (current_count c))
  | A_total_size => line (fmt_d (total_count c))
  | A_other => mret (inl (- EIO))
  end.

Section Store.
Context {D : Type}.

(** The attributes other than the state only change the context. *)
Definition with_ctx (r : Z * fw_context) (s : fw_sys D) : Z * fw_sys D :=
  (r.1, mk_sys r.2 (s_dev s) (serial_lock s)).

Definition fw_store (cb : fw_callbacks D) (req : fw_answer) (intr : nat → option other)
    (last : option other) (a : fw_attr) (buf : list Z) (s : fw_sys D) : run (Z * fw_sys D) :=
  let c := s_ctx s in
  let count := Z.of_nat (length buf) in
  '(ret, s) ← match a with
    | A_state => fw_load_firmware cb req intr last buf s
    | A_filename => r ← fw_set_filename buf (length buf) c; mret (with_ctx r s)
    | A_blockread => mret (with_ctx (fw_set_blockread buf c) s)
    | A_blocksize => mret (with_ctx (fw_set_blocksize buf c) s)
    | A_blockdelay => mret (with_ctx (fw_set_delay buf c) s)
    | A_devicemask => mret (with_ctx (fw_set_devicemask buf c) s)
    | _ => mret (- EIO, s)
    end;
  mret (if ret <? 0 then ret else count, s).
End Store.

(** ** Configuration *)
Section Config.
Context {D : Type}.

(** [of_find_node_by_phandle], [of_find_device_by_node] *)
Context (find_node : Z → option Z) (find_device : Z → option Z).

(** An integer property: read, or keep the value. *)
Definition int_prop (n : of_node) (name : string) (old : Z) : run Z :=
  match of_prop n name with Some v => x ← of_be32 v; mret (s32 x) | None => mret old end.

Definition fw_get_parameters (ctx : option fw_context) (dev : option of_node)
    : run (Z * option fw_context) :=
  match ctx, dev with
  | Some c, Some n =>
      match of_prop n "firmware-load" with
      | None => mret (0, Some c)
      | Some _ =>
          '(ret, c) ← match of_prop n "firmware-target" with
            | Some v =>
                x ← of_be32 v;
                match find_node x with
                | None => mret (- ENODEV, c)
                | Some t => match find_device t with
                            | None => mret (- ENODEV, c)
                            | Some dv => mret (0, set_dev (Some dv) c)
                            end
                end
            | None => mret (0, c)
            end;
          if ret <? 0 then mret (ret, Some c)
          else
            rd ← int_prop n "firmware-blockread" (blockread c);
            sz ← int_prop n "firmware-blocksize" (blocksize c);
            dl ← int_prop n "firmware-blockdelay" (blockdelay c);
            let c := set_params (devicemask c) rd sz dl c in
            match of_prop n "firmware-filename" with
            | Some v => '(ret, c) ← fw_set_filename v (length v) c;
                        mret (if ret <? 0 then ret else 1, Some c)
            | None => mret (1, Some c)
            end
      end
  | _, _ => mret (- EINVAL, ctx)
  end.

(** [kobj_answer]: what [kobject_add] returns.  Callers pass their own context,
    which is not NULL. *)
Definition fw_initialize (kobj_answer : Z) (s : fw_sys D) (dev_configuration : option of_node)
    (dev_target : option Z) : run (Z * fw_sys D) :=
  match dev_configuration with
  | None => mret (- EINVAL, s)
  | Some n =>
      let c := s_ctx s in
      name ← access (store_bytes (filename c) 0 (DEF_FIRMWARE_NAME ++ [0]));
      let c := set_st FW_EMPTY (set_dev dev_target
                 (set_params 255 DEF_BLOCKREAD DEF_BLOCKSIZE DEF_BLOCKDELAY (set_name name c))) in
      '(ret, oc) ← fw_get_parameters (Some c) (Some n);
      let c := default c oc in
      if ret <=? 0 then mret (ret, mk_sys c (s_dev s) (serial_lock s))
      else match c_dev c with
      | None => mret (- ENODEV, mk_sys c (s_dev s) (serial_lock s))
      | Some _ =>
          let '(c, lock) := if kobj_init c then (c, serial_lock s)
                            else (set_kobj true (kobj_added c) c, false) in
          if kobj_added c then mret (0, mk_sys c (s_dev s) lock)
          else if negb (kobj_answer =? 0) then mret (kobj_answer, mk_sys c (s_dev s) lock)
          else mret (0, mk_sys (set_kobj (kobj_init c) true c) (s_dev s) lock)
      end
  end.

Definition fw_cleanup (s : fw_sys D) : fw_sys D :=
  if kobj_added (s_ctx s)
  then mk_sys (set_kobj (kobj_init (s_ctx s)) false (set_st FW_DELETED (s_ctx s)))
         (s_dev s) (serial_lock s)
  else s.
End Config.

(** ** The write loop *)

(** The context the callbacks see when [cur] of [tot] bytes are written. *)
Definition ctx_at (c : fw_context) (cur tot : Z) : fw_context := set_st FW_LOADING (set_counts cur tot c).

(** The state another thread's store leaves, if it stored. *)
Definition other_state (o : other) : Z := match o with Cancel => FW_EMPTY | Delete => FW_DELETED end.

Lemma interrupt_st o st c : ∃ st', interrupt o (set_st st c) = set_st st' c ∧
  (st' = st ∨ ∃ x, o = Some x ∧ st' = other_state x).
Proof. destruct o as [[]|]; simpl; eexists; (split; [reflexivity|]); eauto. Qed.

Section Rule.
Context {D : Type} (cb : fw_callbacks D) (write : fw_context → D → run (Z * D)).
Context (intr : nat → option other) (c0 : fw_context) (tot : Z).

(** [P n d]: the device state after [n] bytes; [E r n d]: after a callback
    returned the final [r]. *)
Context (P : Z → D → Prop) (E : Z → Z → D → Prop).
Context (Hwrite : ∀ n d, 0 <= n < tot → P n d →
  ∃ r d', write (ctx_at c0 n tot) d = Done (r, d') ∧ r <= tot - n ∧
    if 0 <? r then P (n + r) d' else E r n d').
Context (Hread : ∀ f n d, cb_read cb = Some f → 0 <= n <= tot → P n d →
  ∃ r d', f (ctx_at c0 n tot) d = Done (r, d') ∧ if 0 <=? r then P n d' else E r n d').
Context (Htot : tot < 2147483648).

(** The read that is due after a block, if it is. *)
Lemma read_turn (due : bool) r n d :
  (due = true → is_Some (cb_read cb)) → 0 <= r → 0 <= n <= tot → P n d →
  ∃ r' d', (if due then opt_call (cb_read cb) r (ctx_at c0 n tot) d else mret (r, d)) = Done (r', d') ∧
    if due && (r' <? 0) then E r' n d' ∧ r' < 0 else 0 <= r' ∧ P n d'.
Proof using Hread.
  intros Hdue Hr Hn HP. destruct due; [|by exists r, d].
  destruct Hdue as [f Hf]; [done|].
  destruct (Hread f n d) as (r' & d' & Hf' & Hp'); [done|lia|done|].
  exists r', d'. split; [by rewrite Hf|]. simpl.
  destruct (Z.ltb_spec r' 0), (Z.leb_spec 0 r'); try lia; auto.
Qed.

(** The loop with enough fuel, one unit per byte, returns; it stops at the end of
    the data, at another thread's store, or when a callback says so. *)
Lemma write_loop_rule fuel i ret pr pd st cur d :
  0 <= cur → tot - cur <= Z.of_nat fuel → 0 <= ret → P cur d →
  (st = FW_LOADING ∨ ∃ i x, intr i = Some x ∧ st = other_state x) →
  ∃ ret' cur' st' d',
    write_loop fuel cb write intr i ret pr pd cur (set_st st (set_counts cur tot c0)) d
      = Done (ret', set_st st' (set_counts cur' tot c0), d') ∧
    cur <= cur' <= Z.max cur tot ∧
    (st' = FW_LOADING ∨ ∃ i x, intr i = Some x ∧ st' = other_state x) ∧
    ((0 <= ret' ∧ P cur' d' ∧ (st' = FW_LOADING → tot <= cur')) ∨
     (ret' <= 0 ∧ st' = FW_LOADING ∧ cur' <= tot ∧ E ret' cur' d')).
Proof.
  revert i ret pr pd st cur d. induction fuel as [|fuel IH];
    intros i ret pr pd st cur d Hcur Hfuel Hret HP Hst; cbn [write_loop];
    destruct (interrupt_st (intr i) st (set_counts cur tot c0)) as (st1 & -> & Hst1); simpl.
  all: assert (st1 = FW_LOADING ∨ ∃ i x, intr i = Some x ∧ st1 = other_state x) as Hst1'
    by (destruct Hst1 as [->|(x & ? & ->)]; eauto).
  all: destruct (Z.ltb_spec cur tot) as [Hlt|Hge]; simpl.
  - lia.
  - do 4 eexists. split; [reflexivity|]. split; [lia|]. split; [done|]. left. done.
  - destruct (Z.eqb_spec st1 FW_LOADING) as [->|Hne]; simpl.
    2: { do 4 eexists. split; [reflexivity|]. split; [lia|]. split; [done|]. left. naive_solver. }
    destruct (Hwrite cur d) as (r & d1 & Hw & Hr & Hp); [lia|done|]. unfold ctx_at in Hw. rewrite Hw.
    simpl. destruct (Z.leb_spec r 0).
    { rewrite (proj2 (Z.ltb_ge 0 r)) in Hp by lia. do 4 eexists. split; [reflexivity|].
      split; [lia|]. split; [auto|]. right. split_and!; [lia|done|lia|done]. }
    rewrite (proj2 (Z.ltb_lt 0 r)) in Hp by lia.
    rewrite !add_int_done by lia. cbn [mbind run_bind]. simpl.
    set (due := bool_decide _ && _ && _).
    destruct (read_turn due r (cur + r) d1) as (r' & d2 & Hrd & Hp'); [|lia|lia|done|].
    { unfold due. intros Hdue. bool_to_prop. by eapply bool_decide_eq_true_1. }
    match goal with |- context [opt_call _ _ ?c _] => change c with (ctx_at c0 (cur + r) tot) end.
    rewrite Hrd. cbn [mbind run_bind].
    destruct (due && (r' <? 0)) eqn:Ed.
    { do 4 eexists. split; [reflexivity|]. split; [lia|]. split; [auto|]. right.
      destruct Hp'. split_and!; [lia|done|lia|done]. }
    destruct Hp' as [? Hp'].
    destruct (IH (S i) r' (if due then cur + r else pr)
                (if (0 <? blocksize c0) && (blocksize c0 <=? cur + r - pd) then cur + r else pd)
                FW_LOADING (cur + r) d2) as (ret' & cur' & st' & d' & Heq & ? & ? & ?);
      [lia|lia|lia|done|auto|].
    exists ret', cur', st', d'. split; [exact Heq|]. split; [lia|]. auto.
  - do 4 eexists. split; [reflexivity|]. split; [lia|]. split; [done|]. left. done.
Qed.
End Rule.

(** ** Outcomes of a load *)

(** What firmware.h asks of the callbacks: they return, and a write takes at most
    the bytes that are left. *)
Class CallbacksOk {D} (cb : fw_callbacks D) : Prop := {
  ok_start f c d : cb_start cb = Some f → ∃ r d', f c d = Done (r, d');
  ok_write f c d : cb_write cb = Some f → 0 <= current_count c < total_count c →
    ∃ r d', f c d = Done (r, d') ∧ r <= total_count c - current_count c;
  ok_read f c d : cb_read cb = Some f → ∃ r d', f c d = Done (r, d');
  ok_end f c e d : cb_end cb = Some f → ∃ r d', f c e d = Done (r, d');
}.

(** The hardware never ends the transfer early. *)
Definition no_eof {D} (cb : fw_callbacks D) : Prop :=
  ∀ f c d d', cb_write cb = Some f → 0 <= current_count c < total_count c → f c d ≠ Done (0, d').

Definition startable (st : Z) : bool :=
  negb ((st =? FW_LOADING) || (st =? FW_LOADED) || (st =? FW_DELETED)).

Lemma s32_lt x : s32 x < 2147483648.
Proof.
  unfold s32, swrap. pose proof (uwrap_range 32 x). change (2 ^ (32 - 1)) with 2147483648.
  split_if; simpl in *; lia.
Qed.

Section Outcomes.
Context {D : Type} (cb : fw_callbacks D) `{!CallbacksOk cb}.
Context (intr : nat → option other) (last : option other).

(** Another thread stored [st]. *)
Definition stored (st : Z) : Prop :=
  (∃ i x, intr i = Some x ∧ st = other_state x) ∨ ∃ x, last = Some x ∧ st = other_state x.

(** A start, write or read callback returned the error [r]. *)
Definition call_failed (r : Z) : Prop :=
  r < 0 ∧ ∃ f c d d', (cb_start cb = Some f ∨ cb_write cb = Some f ∨ cb_read cb = Some f) ∧ f c d = Done (r, d').

Lemma fw_write_all_done fw c d :
  state c = FW_LOADING → current_count c = 0 →
  ∃ ret c' d', fw_write_all cb intr fw c d = Done (ret, c', d') ∧
    (state c' = FW_LOADING ∨ stored (state c')) ∧ (ret < 0 → call_failed ret) ∧
    (state c' = FW_LOADING → 0 <= ret → is_Some (cb_write cb) → no_eof cb →
       s32 (fw_size fw) <= current_count c').
Proof using CallbacksOk0.
  intros Hst Hcur. unfold fw_write_all. cbv zeta. rewrite Hcur. set (tot := s32 (fw_size fw)).
  assert (∃ r d1, opt_call (cb_start cb) 0 (set_counts 0 tot (set_fw fw c)) d = Done (r, d1) ∧ (r < 0 → call_failed r))
    as (r & d1 & -> & Hf0).
  { unfold opt_call. destruct (cb_start cb) as [f|] eqn:Es; [|by eexists 0, d].
    destruct (ok_start f (set_counts 0 tot (set_fw fw c)) d Es) as (r & d1 & E). exists r, d1. split; [done|].
    intros Hr. split; [done|]. eauto 9. }
  simpl. destruct (cb_write cb) as [write|] eqn:Ew.
  2: { do 3 eexists. split; [reflexivity|]. split; [by left|]. split; [done|]. by intros _ _ []. }
  destruct (Z.leb_spec 0 r).
  2: { do 3 eexists. split; [reflexivity|]. split; [by left|]. split; [done|]. lia. }
  destruct (write_loop_rule cb write intr (set_fw fw c) tot (λ _ _, True)
              (λ r _ _, (no_eof cb → r < 0) ∧ (r < 0 → call_failed r))) with (fuel := Z.to_nat tot) (i := 0%nat) (ret := r)
    (pr := 0) (pd := 0) (st := FW_LOADING) (cur := 0) (d := d1)
    as (ret' & cur' & st' & d' & Heq & Hc & Hst' & Hend); try done; try lia.
  - intros n dd Hn _. destruct (ok_write write (ctx_at (set_fw fw c) n tot) dd Ew) as (r' & d' & Hw & Hr);
      [done|]. exists r', d'. split; [done|]. split; [done|]. destruct (Z.ltb_spec 0 r'); [done|].
    split; [|intros Hneg; split; [done|]; eauto 9]. intros Hne. destruct (decide (r' = 0)) as [->|]; [|lia]. by destruct (Hne write (ctx_at (set_fw fw c) n tot) dd d' Ew Hn).
  - intros f n dd Hf _ _. destruct (ok_read f (ctx_at (set_fw fw c) n tot) dd Hf) as (r' & d' & Hr).
    exists r', d'. split; [done|]. destruct (Z.leb_spec 0 r'); [done|]. split; [by intros|]. intros _. split; [done|]. eauto 9.
  - apply s32_lt.
  - rewrite <- Hst in Heq at 1. do 3 eexists. split; [exact Heq|]. split.
    + destruct Hst' as [->|?]; [by left|right; by left].
    + split; [intros Hneg; destruct Hend as [(? & _)|(_ & _ & _ & _ & Hx)]; [lia|by apply Hx]|]. simpl. intros -> Hret _ Hne. destruct Hend as [(_ & _ & Hx)|(_ & _ & _ & Hx)]; [by apply Hx|].
      destruct Hx as [Hx _]. specialize (Hx Hne). lia.
Qed.

(** The end callback returned the error [r]. *)
Definition end_failed (r : Z) : Prop := r < 0 ∧ ∃ f c e d d', cb_end cb = Some f ∧ f c e d = Done (r, d').

Lemma fw_end_done ret c d :
  ∃ ret' c' d', fw_end cb last ret c d = Done (ret', c', d') ∧
    current_count c' = current_count c ∧
    (state c' = FW_FAILED ∧ (ret < 0 ∧ (cb_end cb = None → ret' = ret) ∨ end_failed ret') ∨
     0 <= ret ∧ ¬ end_failed ret' ∧ (state c' = state c ∨ ∃ x, last = Some x ∧ state c' = other_state x)).
Proof using CallbacksOk0.
  unfold fw_end. cbv zeta. set (c1 := interrupt last c).
  assert (current_count c1 = current_count c) as Hcur by (unfold c1; by destruct last as [[]|]).
  assert (state c1 = state c ∨ ∃ x, last = Some x ∧ state c1 = other_state x) as Hst
    by (unfold c1; destruct last as [[]|]; simpl; eauto).
  set (c2 := if ret <? 0 then _ else c1).
  assert (current_count c2 = current_count c) as Hcur2 by (unfold c2; by destruct (ret <? 0)).
  assert (state c2 = FW_FAILED ∧ ret < 0 ∨ 0 <= ret ∧ state c2 = state c1) as Hst2.
  { unfold c2. destruct (Z.ltb_spec ret 0); [by left|by right]. }
  destruct (cb_end cb) as [e|] eqn:Ee.
  - destruct (ok_end e c2 (if state c2 =? FW_LOADING then 0 else 1) d Ee) as (r & d' & E). rewrite E. simpl.
    do 3 eexists. split; [reflexivity|]. destruct (Z.ltb_spec r 0); simpl.
    + split; [done|]. left. split; [done|]. right. split; [done|]. eauto 9.
    + split; [done|]. destruct Hst2 as [[? ?]|[? ->]]; [left; split; [done|]; by left|right].
      split; [done|]. split; [intros [? _]; lia|done].
  - do 3 eexists. split; [reflexivity|]. split; [done|].
    destruct Hst2 as [[? ?]|[? ->]]; [left; split; [done|]; by left|right].
    split; [done|]. split; [|done]. intros (_ & f & c3 & e & d3 & d4 & E & _). by rewrite Ee in E.
Qed.

End Outcomes.

(** ** The attributes *)
Lemma strip_len_take buf rest n : (n <= length buf)%nat → strip_len (buf ++ rest) n = strip_len buf n.
Proof.
  induction n as [|n IH]; intros Hn; [done|]. simpl. rewrite app_nth1 by lia. by rewrite IH by lia.
Qed.

(** [buf] without its trailing blanks is [name]. *)
Definition stripped (buf name : list Z) : Prop :=
  ∃ blanks, buf = name ++ blanks ∧ Forall (λ c, is_blank c = true) blanks ∧
    ∀ c pre, name = pre ++ [c] → is_blank c = false.

Lemma strip_len_stripped buf name : stripped buf name → strip_len buf (length buf) = length name.
Proof.
  intros (blanks & -> & Hb & Hlast). induction blanks as [|c blanks IH] using rev_ind.
  - rewrite app_nil_r. destruct name as [|x l _] using rev_ind; [done|].
    rewrite length_app, Nat.add_1_r. simpl. rewrite app_nth2, Nat.sub_diag by lia. simpl.
    by rewrite (Hlast x l).
  - apply Forall_app in Hb as [Hb Hc]. inversion Hc as [|? ? Hc' _]; subst.
    rewrite app_assoc, (length_app (name ++ blanks)), Nat.add_1_r. simpl.
    rewrite app_nth2, Nat.sub_diag by lia. simpl. rewrite Hc', strip_len_take by lia. by apply IH.
Qed.

(** The file name as stored: the name, a NUL, what was there. *)
Lemma fw_set_filename_stripped buf name c :
  length (filename c) = FILENAME_SIZE → stripped buf name →
  fw_set_filename buf (length buf) c =
    if bool_decide (name = []) || (FILENAME_SIZE <=? length name)%nat then Done (- EINVAL, c)
    else Done (0, set_name (name ++ [0] ++ drop (S (length name)) (filename c)) c).
Proof.
  unfold FILENAME_SIZE. intros Hl Hs. unfold fw_set_filename, FILENAME_SIZE. cbv zeta. rewrite (strip_len_stripped buf name Hs).
  destruct Hs as (blanks & -> & _). destruct name as [|x name']; [done|].
  set (name := x :: name'). rewrite bool_decide_false by done. cbn [orb].
  change ((length name =? 0)%nat) with false. cbv iota.
  destruct (Nat.leb_spec 32 (length name)) as [|Hlt]; [done|].
  rewrite (load_bytes_in (name ++ blanks) 0) by (rewrite ?length_app; lia). cbn [access mbind run_bind].
  rewrite Nat2Z.id. change (Z.to_nat 0) with 0%nat. rewrite drop_0, take_app_length.
  rewrite store_bytes_in by lia. cbn [access mbind run_bind]. change (Z.to_nat 0) with 0%nat.
  assert (splice (filename c) 0 name = name ++ drop (length name) (filename c)) as -> by done.
  rewrite store_bytes_in by (rewrite ?length_app, ?length_drop; change (length [0]) with 1%nat; lia).
  cbn [access mbind run_bind]. rewrite Nat2Z.id. unfold mret, run_ret. do 3 f_equal.
  unfold splice. rewrite take_app_length, drop_app_ge by lia. do 2 f_equal.
  rewrite drop_drop. f_equal. cbn [length]. lia.
Qed.

Section Attributes.
Context {D : Type} (cb : fw_callbacks D) (req : fw_answer) (intr : nat → option other) (last : option other).

(** Storing a file name strips its trailing blanks and never writes outside
    the 32-byte array: an empty name and one of 32 bytes or more are refused with
    nothing changed; any other name is stored NUL-terminated, the write returns
    its full count, and showing the attribute gives the name and a newline when
    it holds no NUL. *)
Theorem fw_filename_roundtrip buf name (s : fw_sys D) :
  length (filename (s_ctx s)) = FILENAME_SIZE → stripped buf name →
  ∃ ret s', fw_store cb req intr last A_filename buf s = Done (ret, s') ∧
    length (filename (s_ctx s')) = FILENAME_SIZE ∧
    if decide (0 < length name < FILENAME_SIZE)%nat
    then ret = Z.of_nat (length buf) ∧
         (Forall (λ c, c ≠ 0) name → fw_show A_filename (s_ctx s') = Done (inr (name ++ [10])))
    else ret = - EINVAL ∧ s_ctx s' = s_ctx s.
Proof.
  intros Hl Hs. unfold fw_store. cbv zeta. rewrite (fw_set_filename_stripped buf name) by done.
  destruct (bool_decide_reflect (name = [])) as [->|Hne]; cbn [orb].
  { do 2 eexists. split; [reflexivity|]. done. }
  destruct (Nat.leb_spec FILENAME_SIZE (length name)); simpl.
  { do 2 eexists. split; [reflexivity|]. rewrite decide_False by lia. done. }
  do 2 eexists. split; [reflexivity|]. simpl. split.
  { rewrite length_app. simpl. rewrite length_drop. lia. }
  rewrite decide_True by (destruct name; [done|]; simpl in *; lia). split; [done|].
  intros Hz. by rewrite cstr_app_nul.
Qed.

(** The numeric attributes keep any [int]: storing the decimal text of a value
    and showing the attribute gives the same text back, and no other attribute
    changes. *)
Theorem fw_number_roundtrip a x (s : fw_sys D) :
  In a [A_blockread; A_blocksize; A_blockdelay; A_devicemask] → - 2147483648 <= x < 2147483648 →
  let text := fmt_d x ++ [10] in
  ∃ s', fw_store cb req intr last a text s = Done (Z.of_nat (length text), s') ∧
    fw_show a (s_ctx s') = Done (inr text) ∧
    ∀ a', a' ≠ a → fw_show a' (s_ctx s') = fw_show a' (s_ctx s).
Proof.
  intros Ha Hx text. assert (s32 (simple_strtol 10 text) = x) as Ht.
  { unfold text. rewrite strtol_fmt_d by (done || lia). by apply s32_id. }
  destruct Ha as [<-|[<-|[<-|[<-|[]]]]]; cbn -[fmt_d text length]; rewrite Ht;
    (eexists; split; [reflexivity|]); (split; [reflexivity|]); intros [] Hne; done.
Qed.

(** The progress percentage is exact and between 0 and 100 while the file has
    at most 21474836 bytes; once more bytes than that are written, [100 * cur]
    leaves the range of [int], which is undefined behaviour. *)
Theorem fw_progress_bounds (c : fw_context) :
  0 <= current_count c <= total_count c → 0 < total_count c →
  (current_count c <= 21474836 →
     let pct := 100 * current_count c / total_count c in
     0 <= pct <= 100 ∧ fw_show A_progress_pct c = Done (inr (fmt_d pct ++ [10]))) ∧
  (21474836 < current_count c → fw_show A_progress_pct c = Undef).
Proof.
  intros Hc Ht. unfold fw_show. rewrite (proj2 (Z.eqb_neq (total_count c) 0)) by lia. unfold mul_int.
  split; intros Hle.
  - split.
    + split; [apply Z.div_pos; lia|]. apply Z.div_le_upper_bound; lia.
    + if_true. simpl. rewrite Z.quot_div_nonneg by lia. done.
  - if_false. done.
Qed.
End Attributes.

(** ** Configuration *)
Lemma stripped_exists buf : ∃ name, stripped buf name.
Proof.
  induction buf as [|c buf IH] using rev_ind.
  - exists []. exists []. split_and!; try done. by intros ? [].
  - destruct (is_blank c) eqn:Ec.
    + destruct IH as (name & blanks & -> & Hb & Hl). exists name, (blanks ++ [c]).
      split; [by rewrite app_assoc|]. split; [|done]. apply Forall_app. by repeat constructor.
    + exists (buf ++ [c]), []. split; [by rewrite app_nil_r|]. split; [done|].
      intros x pre H. apply app_inj_tail in H as [_ <-]. done.
Qed.

Lemma fw_set_filename_done buf c :
  length (filename c) = FILENAME_SIZE →
  ∃ ret c', fw_set_filename buf (length buf) c = Done (ret, c') ∧ ret <= 0 ∧
    length (filename c') = FILENAME_SIZE ∧ kobj_init c' = kobj_init c ∧ kobj_added c' = kobj_added c ∧
    state c' = state c.
Proof.
  intros Hl. destruct (stripped_exists buf) as [name Hs].
  rewrite (fw_set_filename_stripped buf name) by done.
  destruct (bool_decide_reflect (name = [])); cbn [orb]; [by eexists _, _|].
  destruct (Nat.leb_spec FILENAME_SIZE (length name)); [by eexists _, _|].
  eexists _, _. split; [reflexivity|]. simpl. split_and!; try done.
  rewrite length_app. simpl. rewrite length_drop. lia.
Qed.

(** The integer properties the loader reads have at least one cell. *)
Definition params_wf (n : of_node) : Prop :=
  ∀ name v, In name ["firmware-target"; "firmware-blockread"; "firmware-blocksize"; "firmware-blockdelay"]%string →
    of_prop n name = Some v → 4 <= Z.of_nat (length v).

Lemma int_prop_done n name old :
  params_wf n →
  In name ["firmware-target"; "firmware-blockread"; "firmware-blocksize"; "firmware-blockdelay"]%string →
  ∃ x, int_prop n name old = Done x.
Proof.
  intros Hp Hi. unfold int_prop. destruct (of_prop n name) as [v|] eqn:E; [|by eexists].
  specialize (Hp name v Hi E). unfold of_be32. rewrite load_bytes_in by lia. by eexists.
Qed.

Section Initialize.
Context {D : Type} (find_node find_device : Z → option Z).

Lemma fw_get_parameters_done n c :
  params_wf n → length (filename c) = FILENAME_SIZE →
  ∃ ret c', fw_get_parameters find_node find_device (Some c) (Some n) = Done (ret, Some c') ∧
    length (filename c') = FILENAME_SIZE ∧ kobj_init c' = kobj_init c ∧ kobj_added c' = kobj_added c ∧
    state c' = state c.
Proof.
  intros Hp Hl. unfold fw_get_parameters. destruct (of_prop n "firmware-load"); [|by eexists _, _].
  set (target := match of_prop n "firmware-target" with Some v => _ | None => _ end).
  assert (∃ r d, target = Done (r, set_dev d c)) as (r & d & ->).
  { assert (mret (0, c) = Done (0, set_dev (c_dev c) c) ∧
            mret (- ENODEV, c) = Done (- ENODEV, set_dev (c_dev c) c)) as [H0 H1] by by destruct c.
    unfold target. destruct (of_prop n "firmware-target") as [v|] eqn:Et; [|rewrite H0; eauto].
    assert (4 <= Z.of_nat (length v)) by (apply (Hp "firmware-target"%string v); [simpl; tauto|done]).
    unfold of_be32. rewrite load_bytes_in by lia. simpl. destruct (find_node _) as [t|]; [|rewrite H1; eauto].
    destruct (find_device t); [by eexists _, _|rewrite H1; eauto]. }
  cbn [mbind run_bind]. destruct (r <? 0); [by eexists _, _|].
  destruct (int_prop_done n "firmware-blockread" (blockread (set_dev d c))) as [rd ->]; [done|simpl; tauto|].
  destruct (int_prop_done n "firmware-blocksize" (blocksize (set_dev d c))) as [sz ->]; [done|simpl; tauto|].
  destruct (int_prop_done n "firmware-blockdelay" (blockdelay (set_dev d c))) as [dl ->]; [done|simpl; tauto|].
  cbn [mbind run_bind]. destruct (of_prop n "firmware-filename") as [v|]; [|by eexists _, _].
  match goal with |- context [fw_set_filename v _ ?x] =>
    destruct (fw_set_filename_done v x) as (ret & c' & -> & _ & Hl' & Hi & Ha & Hst); [done|] end.
  cbn [mbind run_bind]. by eexists _, _.
Qed.

(** Initialisation on a well-formed node returns; the state is empty, and when it
    reports an error it added no kobject. *)
Lemma fw_initialize_done n target ans (s : fw_sys D) :
  params_wf n → length (filename (s_ctx s)) = FILENAME_SIZE → ans <= 0 →
  ∃ ret s', fw_initialize find_node find_device ans s (Some n) target = Done (ret, s') ∧
    length (filename (s_ctx s')) = FILENAME_SIZE ∧ s_dev s' = s_dev s ∧ state (s_ctx s') = FW_EMPTY ∧
    (ret ≠ 0 → kobj_added (s_ctx s') = kobj_added (s_ctx s)).
Proof.
  intros Hp Hl Ha. unfold fw_initialize, FILENAME_SIZE in *. cbv zeta.
  rewrite store_bytes_in by (simpl; lia). cbn [access mbind run_bind].
  match goal with |- context [fw_get_parameters _ _ (Some ?x) _] =>
    destruct (fw_get_parameters_done n x) as (ret & c & -> & Hl' & Hi & Had & Hst); [done|..] end.
  { change (length (splice (filename (s_ctx s)) 0 (DEF_FIRMWARE_NAME ++ [0])) = 32%nat).
    by rewrite length_splice by (simpl; lia). }
  cbn [mbind run_bind]. simpl in Had, Hst. cbv zeta.
  match goal with |- context [default ?x (Some c)] => change (default x (Some c)) with c end.
  destruct (Z.leb_spec ret 0); [by eexists _, _|].
  destruct (c_dev c); [|by eexists _, _].
  destruct (kobj_init c); cbn [set_kobj]; (destruct (kobj_added c) eqn:Ec;
    [by eexists _, _|]); simpl; rewrite ?Ec;
    (destruct (Z.eqb_spec ans 0); simpl; eexists _, _; (split; [reflexivity|]); simpl; by rewrite ?Ec).
Qed.
End Initialize.

(** ** Witnesses *)

(** A device that takes one byte per write and keeps what it got. *)
Definition demo_write (c : fw_context) (d : list Z) : run (Z * list Z) :=
  Done (1, d ++ [nth (Z.to_nat (current_count c)) (default [] (fw_data (c_fw c))) 0]).
Definition demo_cb : fw_callbacks (list Z) :=
  {| cb_start := None; cb_write := Some demo_write; cb_read := None;
     cb_end := Some (λ c e d, Done (0, d)) |}.

#[export] Instance demo_cb_ok : CallbacksOk demo_cb.
Proof.
  split; simpl; intros; simplify_eq; try (by eexists _, _).
  unfold demo_write. do 2 eexists. split; [reflexivity|]. lia.
Qed.

Lemma demo_no_eof : no_eof demo_cb.
Proof. intros f c d d' [= <-] _. done. Qed.

Definition demo_ctx : fw_context :=
  {| c_fw := no_firmware; total_count := 0; current_count := 0; devicemask := 255;
     blockread := 640; blocksize := 20; blockdelay := 10; c_dev := Some 1; filename := zeros 32;
     state := FW_EMPTY; kobj_init := true; kobj_added := true |}.
Definition demo_sys : fw_sys (list Z) := mk_sys demo_ctx [] false.
Definition demo_fw : firmware := {| fw_data := Some [7; 8; 9]; fw_pages := None; fw_size := 3 |}.


Lemma fw_filename_roundtrip_witness :
  ∃ ret s', fw_store demo_cb (inl 0) (λ _, None) None A_filename [97; 46; 98; 10] demo_sys = Done (ret, s') ∧
    ret = 4 ∧ fw_show A_filename (s_ctx s') = Done (inr [97; 46; 98; 10]).
Proof.
  destruct (fw_filename_roundtrip demo_cb (inl 0) (λ _, None) None [97; 46; 98; 10] [97; 46; 98] demo_sys)
    as (ret & s' & Hs & _ & Hr); [reflexivity| |].
  - exists [10]. split; [reflexivity|]. split; [by repeat constructor|].
    intros c pre H. change [97; 46; 98] with ([97; 46] ++ [98]) in H.
    apply app_inj_tail in H as [_ <-]. reflexivity.
  - simpl in Hr. destruct Hr as [Hret Hshow]. exists ret, s'. split; [exact Hs|].
    split; [exact Hret|]. apply Hshow. repeat constructor; done.
Defined.

Lemma fw_number_roundtrip_witness :
  ∃ s', fw_store demo_cb (inl 0) (λ _, None) None A_blocksize (fmt_d (-37) ++ [10]) demo_sys = Done (4, s') ∧
    fw_show A_blocksize (s_ctx s') = Done (inr [45; 51; 55; 10]).
Proof.
  destruct (fw_number_roundtrip demo_cb (inl 0) (λ _, None) None A_blocksize (-37) demo_sys)
    as (s' & Hs & Hr & _); [simpl; tauto|lia|].
  exists s'. split; [exact Hs|exact Hr].
Defined.

Lemma fw_progress_bounds_witness :
  fw_show A_progress_pct (set_counts 1 3 demo_ctx) = Done (inr [51; 51; 10]) ∧
  fw_show A_progress_pct (set_counts 21474837 30000000 demo_ctx) = Undef.
Proof.
  split.
  - apply (fw_progress_bounds (set_counts 1 3 demo_ctx)); simpl; lia.
  - apply (fw_progress_bounds (set_counts 21474837 30000000 demo_ctx)); simpl; lia.
Defined.
