(* ===== verification/Memloader.v ===== *)
(** * The memory loader: memloader/memloader_core.c

    A client of the firmware loader whose callbacks copy the file to physical
    memory at a configured address, from the mapped bytes or from the page array
    of [struct firmware], and the driver's attributes, probe and remove.  Physical
    memory is a finite map; whether an [ioremap] succeeds is a parameter. *)

From S2P Require Import Prelude KernelApi KString Firmware.

Definition PAGE_SHIFT : Z := 12.
Definition PAGE_SIZE : Z := 4096.

(** [struct memloader_info] less the embedded context, the memory it writes, and
    the number of pages mapped with [kmap]. *)
Record memloader_info := {
  load_base_address : Z;
  ml_count : Z;             (* [info->current_count] *)
  phys : gmap Z Z;
  kmaps : Z;
}.

Definition set_ml (n : Z) (m : gmap Z Z) (k : Z) (d : memloader_info) : memloader_info :=
  {| load_base_address := load_base_address d; ml_count := n; phys := m; kmaps := k |}.

Section Callbacks.
Context (ioremap_ok : Z → Z → bool).

(** [data]: NULL, or an array and the offset pointed at. *)
Definition memloader_load (phy_address : Z) (data : option (list Z * Z)) (count : Z) (m : gmap Z Z)
    : run (Z * gmap Z Z) :=
  match data with
  | None => mret (- EINVAL, m)
  | Some (arr, off) =>
      if count <=? 0 then mret (- EINVAL, m)
      else if negb (ioremap_ok phy_address count) then mret (- EBUSY, m)
      else bs ← access (load_bytes arr off count); mret (count, put_phys phy_address bs m)
  end.

Definition memloader_start (c : fw_context) (d : memloader_info) : run (Z * memloader_info) :=
  mret (0, set_ml 0 (phys d) (kmaps d) d).

(** [while (count)] over the pages; the result is [total_copy] or the error.  The
    error path returns without the [kunmap]. *)
Fixpoint page_loop (fuel : nat) (pages : list (list Z)) (count total_copy : Z) (d : memloader_info)
    : run (Z * memloader_info) :=
  if count =? 0 then mret (total_copy, d)
  else match fuel with
  | O => Block
  | S fuel =>
      let page_nr := Z.shiftr (ml_count d) PAGE_SHIFT in
      page_data ← access (if page_nr <? 0 then None else pages !! Z.to_nat page_nr);
      let d := set_ml (ml_count d) (phys d) (kmaps d + 1) d in
      '(ret, m) ← memloader_load (u64 (load_base_address d + ml_count d)) (Some (page_data, 0))
                    (Z.min PAGE_SIZE (u64 count)) (phys d);
      if 0 <? ret then
        n ← add_int (ml_count d) ret;
        count ← add_int count (- ret);
        total_copy ← add_int total_copy ret;
        page_loop fuel pages count total_copy (set_ml n m (kmaps d - 1) d)
      else mret (- ENOMEM, set_ml (ml_count d) m (kmaps d) d)
  end.

(** The bytes of one write call. *)
Definition write_count (c : fw_context) : Z :=
  let remaint := total_count c - current_count c in
  let count := if negb (blocksize c =? 0) then blocksize c else remaint in
  if remaint <? count then remaint else count.

Definition memloader_write (c : fw_context) (d : memloader_info) : run (Z * memloader_info) :=
  let count := write_count c in
  match fw_data (c_fw c), fw_pages (c_fw c) with
  | Some data, _ =>
      '(ret, m) ← memloader_load (u64 (load_base_address d + current_count c))
                    (Some (data, current_count c)) count (phys d);
      if 0 <? ret then n ← add_int (ml_count d) ret; mret (ret, set_ml n m (kmaps d) d)
      else mret (ret, set_ml (ml_count d) m (kmaps d) d)
  | None, Some pages => page_loop (Z.to_nat count + length pages + 1) pages count 0 d
  | None, None => mret (- EINVAL, d)
  end.

Definition memloader_end (c : fw_context) (error : Z) (d : memloader_info) : run (Z * memloader_info) :=
  if negb (ml_count d =? current_count c) then mret (- EIO, d) else mret (0, d).

(** The callbacks [memloader_probe] installs. *)
Definition memloader_cb : fw_callbacks memloader_info :=
  {| cb_start := Some memloader_start; cb_write := Some memloader_write; cb_read := None;
     cb_end := Some memloader_end |}.
End Callbacks.

(** ** Attributes *)
Inductive ml_attr := L_load_address | L_load_size | L_other.

Definition memloader_set_load_address (buf : list Z) (d : memloader_info) : Z * memloader_info :=
  (0, {| load_base_address := u64 (simple_strtol 16 buf); ml_count := ml_count d;
         phys := phys d; kmaps := kmaps d |}).

Definition memloader_show (a : ml_attr) (d : memloader_info) : Z + list Z :=
  match a with
  | L_load_address => inr ([48; 120] ++ fmt_x (load_base_address d) ++ [10])
  | L_load_size => inr ([48; 120] ++ fmt_x (u32 (ml_count d)) ++ [10])
  | L_other => inl (- EIO)
  end.

Definition memloader_store (a : ml_attr) (buf : list Z) (d : memloader_info) : Z * memloader_info :=
  let '(ret, d) := match a with
                   | L_load_address => memloader_set_load_address buf d
                   | _ => (- EINVAL, d)
                   end in
  (if ret <? 0 then - EINVAL else Z.of_nat (length buf), d).

(** ** Probe and remove *)

(** The driver data (when allocated) and the sysfs directories "fw" and
    "memloader" of the device. *)
Record ml_world := {
  drvdata : option (fw_sys memloader_info);
  sysfs_fw : bool;
  sysfs_ml : bool;
  k_serial_lock : bool;
  k_phys : gmap Z Z;
}.

Record ml_answers := {
  a_alloc : bool;        (* devm_kzalloc *)
  a_fw_kobj : Z;         (* kobject_add in fw_initialize *)
  a_ml_kobj : Z;         (* kobject_init_and_add *)
}.

Section Driver.
Context (find_node find_device : Z → option Z).

(** A zeroed [struct memloader_info]. *)
Definition ml_zero (lock : bool) (m : gmap Z Z) : fw_sys memloader_info :=
  mk_sys {| c_fw := no_firmware; total_count := 0; current_count := 0; devicemask := 0;
            blockread := 0; blocksize := 0; blockdelay := 0; c_dev := None;
            filename := zeros FILENAME_SIZE; state := 0; kobj_init := false; kobj_added := false |}
    {| load_base_address := 0; ml_count := 0; phys := m; kmaps := 0 |} lock.

(** [devm_kfree]: the object goes; the lock is a global of firmware.c. *)
Definition ml_free (s : fw_sys memloader_info) (w : ml_world) : ml_world :=
  {| drvdata := None; sysfs_fw := sysfs_fw w; sysfs_ml := sysfs_ml w;
     k_serial_lock := serial_lock s; k_phys := phys (s_dev s) |}.
Definition ml_set (s : fw_sys memloader_info) (fw ml : bool) (w : ml_world) : ml_world :=
  {| drvdata := Some s; sysfs_fw := fw; sysfs_ml := ml; k_serial_lock := serial_lock s;
     k_phys := phys (s_dev s) |}.

(** [fw_cleanup] on the driver data deletes the "fw" directory it had added. *)
Definition ml_fw_cleanup (s : fw_sys memloader_info) (w : ml_world) : ml_world :=
  ml_set (fw_cleanup s) (if kobj_added (s_ctx s) then false else sysfs_fw w) (sysfs_ml w) w.

Definition memloader_remove (w : ml_world) : run (Z * ml_world) :=
  match drvdata w with
  | None => Undef
  | Some s => let w := ml_fw_cleanup s (ml_set s (sysfs_fw w) false w) in
              mret (0, ml_free (fw_cleanup s) w)
  end.

Definition memloader_probe (a : ml_answers) (pdev : Z) (n : of_node) (w : ml_world) : run (Z * ml_world) :=
  if negb (a_alloc a) then mret (- ENOMEM, w)
  else
    let s := ml_zero (k_serial_lock w) (k_phys w) in
    match of_prop n "load-address" with
    | None => mret (- EINVAL, ml_free s w)
    | Some v =>
        base ← of_be64 v;
        let s := mk_sys (s_ctx s) {| load_base_address := base; ml_count := 0; phys := k_phys w;
                                     kmaps := 0 |} (serial_lock s) in
        '(ret, s) ← fw_initialize find_node find_device (a_fw_kobj a) s (Some n) (Some pdev);
        let w := ml_set s (kobj_added (s_ctx s)) (sysfs_ml w) w in
        if ret <? 0 then mret (ret, ml_free s w)
        else if negb (a_ml_kobj a =? 0) then
          mret (a_ml_kobj a, ml_free (fw_cleanup s) (ml_fw_cleanup s w))
        else mret (0, ml_set s (sysfs_fw w) true w)
    end.
End Driver.

(** ** Lemmas *)
Section Loads.
Context (ioremap_ok : Z → Z → bool).

Lemma memloader_load_done phy arr off count m :
  0 < count → ioremap_ok phy count = true → 0 <= off → off + count <= Z.of_nat (length arr) →
  memloader_load ioremap_ok phy (Some (arr, off)) count m =
    Done (count, put_phys phy (take (Z.to_nat count) (drop (Z.to_nat off) arr)) m).
Proof.
  intros Hc Hio Ho Hl. unfold memloader_load. rewrite (proj2 (Z.leb_gt count 0)) by lia.
  rewrite Hio. simpl. by rewrite load_bytes_in by lia.
Qed.

Lemma write_count_bounds c : 0 <= blocksize c → current_count c < total_count c →
  0 < write_count c <= total_count c - current_count c.
Proof.
  intros Hb Hc. unfold write_count. destruct (Z.eqb_spec (blocksize c) 0); simpl; split_if; lia.
Qed.

(** The device after [n] bytes of [bs]. *)
Definition loaded (bs : list Z) (d0 : memloader_info) (n : Z) (d : memloader_info) : Prop :=
  d = set_ml n (put_phys (load_base_address d0) (take (Z.to_nat n) bs) (phys d0)) (kmaps d0) d0.

(** The length of the block a write call takes of [rest] bytes, and the
    positions a load reaches from 0 by blocks that were all mapped. *)
Definition block_len (block rest : Z) : Z := if block =? 0 then rest else Z.min block rest.

Inductive blocks_to (block base size : Z) : Z → Prop :=
  | blocks_to_0 : blocks_to block base size 0
  | blocks_to_next n : blocks_to block base size n → 0 < block_len block (size - n) →
      ioremap_ok (base + n) (block_len block (size - n)) = true →
      blocks_to block base size (n + block_len block (size - n)).

(** The block at [n] cannot be written: its length is not positive (a negative
    block size) or its mapping is refused. *)
Definition block_refused (block base size n : Z) : Prop :=
  block_len block (size - n) <= 0 ∨ ioremap_ok (base + n) (block_len block (size - n)) = false.

Lemma write_count_block c : write_count c = block_len (blocksize c) (total_count c - current_count c).
Proof. unfold write_count, block_len. destruct (blocksize c =? 0); simpl; split_if; lia. Qed.

Lemma block_len_le block rest : block_len block rest <= rest.
Proof. unfold block_len. split_if; lia. Qed.

Lemma memloader_write_data c bs d0 d :
  let k := write_count c in
  fw_data (c_fw c) = Some bs → total_count c = Z.of_nat (length bs) →
  0 <= load_base_address d0 → load_base_address d0 + total_count c <= 18446744073709551616 →
  total_count c < 2147483648 → 0 <= current_count c < total_count c →
  loaded bs d0 (current_count c) d →
  ∃ r d', memloader_write ioremap_ok c d = Done (r, d') ∧
    ((r = k ∧ 0 < k ∧ ioremap_ok (load_base_address d0 + current_count c) k = true ∧
      loaded bs d0 (current_count c + r) d') ∨
     (r < 0 ∧ (k <= 0 ∨ ioremap_ok (load_base_address d0 + current_count c) k = false) ∧ d' = d)).
Proof.
  intros k Hd Ht Hba Hwrap Hint Hc Hl. pose proof (write_count_block c) as Hk.
  pose proof (block_len_le (blocksize c) (total_count c - current_count c)) as Hle.
  rewrite <- Hk in Hle. fold k in Hle. rewrite Hl. unfold memloader_write. cbv zeta. fold k. rewrite Hd. cbv iota.
  change (load_base_address (set_ml _ _ _ d0)) with (load_base_address d0).
  rewrite u64_id by lia. destruct (Z.leb_spec k 0) as [Hk0|Hk0].
  { unfold memloader_load. rewrite (proj2 (Z.leb_le k 0)) by lia. simpl.
    eexists _, _. split; [reflexivity|]. right. unfold EINVAL. split_and!; [lia|by left|done]. }
  destruct (ioremap_ok (load_base_address d0 + current_count c) k) eqn:Hio.
  - rewrite memloader_load_done by (done || lia). cbn [mbind run_bind].
    rewrite (proj2 (Z.ltb_lt 0 k)) by lia. rewrite add_int_done by (simpl; lia).
    do 2 eexists. split; [reflexivity|]. left. split_and!; try done. unfold loaded, set_ml. simpl. f_equal.
    apply put_phys_next; lia.
  - unfold memloader_load. rewrite (proj2 (Z.leb_gt k 0)) by lia. rewrite Hio. simpl.
    eexists _, _. split; [reflexivity|]. right. unfold EBUSY. split_and!; [lia|by right|done].
Qed.

(** A load that is not refused, up to the end callback. *)
Lemma memloader_transfer intr fw c d :
  state c = FW_LOADING → current_count c = 0 →
  fw_write_all (memloader_cb ioremap_ok) intr fw c d =
    write_loop (Z.to_nat (s32 (fw_size fw))) (memloader_cb ioremap_ok) (memloader_write ioremap_ok)
      intr 0 0 0 0 0 (set_st FW_LOADING (set_counts 0 (s32 (fw_size fw)) (set_fw fw c)))
      (set_ml 0 (phys d) (kmaps d) d).
Proof. intros Hs Hc. unfold fw_write_all. cbv zeta. rewrite Hc. simpl. by rewrite <- Hs. Qed.

(** A load on a startable context, from what one write call does: [P n d] is the
    device after [n] bytes, [E n d] the device after a write failed.  The end
    callback finds equal counters in both cases, so that a failed load returns
    0. *)
Lemma memloader_load_rule (P : Z → memloader_info → Prop) (E : Z → memloader_info → Prop)
    intr last load fw (s : fw_sys memloader_info) tot :
  let c0 := set_fw fw (set_counts 0 0 (set_st FW_LOADING (s_ctx s))) in
  serial_lock s = false → load ≠ 0 → startable (state (s_ctx s)) = true →
  s32 (fw_size fw) = tot → 0 <= tot →
  (∀ n d, P n d → ml_count d = n) → (∀ n d, E n d → ml_count d = n) →
  P 0 (set_ml 0 (phys (s_dev s)) (kmaps (s_dev s)) (s_dev s)) →
  (∀ n d, 0 <= n < tot → P n d →
     ∃ r d', memloader_write ioremap_ok (ctx_at c0 n tot) d = Done (r, d') ∧ r <= tot - n ∧
       if 0 <? r then P (n + r) d' else r < 0 ∧ E n d') →
  ∃ ret s' n, fw_load_device_firmware (memloader_cb ioremap_ok) (inr fw) intr last load s = Done (ret, s') ∧
    serial_lock s' = false ∧ 0 <= n <= tot ∧ current_count (s_ctx s') = n ∧
    (P n (s_dev s') ∧ (state (s_ctx s') = FW_LOADED ∧ ret = 0 ∧ n = tot ∨
                       stored intr last (state (s_ctx s')) ∧ ret = - EIO) ∨
     E n (s_dev s') ∧ state (s_ctx s') = FW_FAILED ∧ ret = 0).
Proof.
  intros c0 Hlock Hload Hst Htot Hpos HP HE HP0 Hwrite.
  unfold fw_load_device_firmware. apply Z.eqb_neq in Hload. rewrite Hload, Hlock.
  unfold startable in Hst. apply negb_true_iff in Hst. rewrite Hst. cbn [negb]. cbv zeta iota.
  rewrite memloader_transfer, Htot by done.
  destruct (write_loop_rule (memloader_cb ioremap_ok) (memloader_write ioremap_ok) intr c0
              tot P (λ r n d, r < 0 ∧ E n d))
    with (fuel := Z.to_nat tot) (i := 0%nat) (ret := 0) (pr := 0) (pd := 0)
         (st := FW_LOADING) (cur := 0) (d := set_ml 0 (phys (s_dev s)) (kmaps (s_dev s)) (s_dev s))
    as (ret & cur & st & d & Heq & Hcur & Hst' & Hend); try done; try lia.
  { pose proof (s32_lt (fw_size fw)). lia. }
  unfold c0 in Heq. rewrite Heq. fold c0. cbn [mbind run_bind].
  assert (∃ st2, interrupt last (set_st st (set_counts cur tot c0)) = set_st st2 (set_counts cur tot c0) ∧
            (st2 = FW_LOADING ∧ st = FW_LOADING ∨ stored intr last st2)) as (st2 & Hi & Hst2).
  { destruct (interrupt_st last st (set_counts cur tot c0)) as (st2 & Hi & Hx).
    exists st2. split; [done|]. destruct Hx as [->|(x & ? & ?)]; [|right; right; eauto].
    destruct Hst' as [->|?]; [by left|right; by left]. }
  unfold fw_end. cbv zeta. rewrite Hi. simpl. unfold memloader_end. clear Heq Hi.
  destruct Hend as [(Hret & Hp & Hall)|(_ & -> & ? & Hret & He)]; simpl.
  - rewrite (proj2 (Z.ltb_ge ret 0)) by lia. simpl. rewrite (HP _ _ Hp), Z.eqb_refl. simpl.
    unfold fw_finish. simpl. destruct Hst2 as [[-> ->]|Hst2].
    + eexists _, _, cur. split; [reflexivity|]. simpl. split_and!; try done; try lia.
      left. split; [done|]. left. split_and!; try done. specialize (Hall eq_refl). lia.
    + assert (st2 = FW_EMPTY ∨ st2 = FW_DELETED) as Hd.
      { destruct Hst2 as [(i & x & _ & ->)|(x & _ & ->)]; destruct x; auto. }
      destruct Hd as [-> | ->]; simpl; eexists _, _, cur; (split; [reflexivity|]); simpl;
        split_and!; try done; try lia; left; (split; [done|]); by right.
  - rewrite (proj2 (Z.ltb_lt ret 0)) by lia. simpl. rewrite (HE _ _ He), Z.eqb_refl. simpl.
    eexists _, _, cur. split; [reflexivity|]. simpl. split_and!; try done; try lia. by right.
Qed.

(** C5: loading a mapped file below 2 GiB, to a range inside the 64-bit address
    space, copies exactly what was mapped: whatever the block size, whatever blocks
    [ioremap] refuses and whatever other threads cancel or delete meanwhile, the
    load returns, the memory from the load address on holds a prefix of the file,
    as long as both byte counters say and made of blocks that were all mapped, and
    every other cell is untouched.  The load is complete (state loaded, result 0,
    the whole file), or was stopped by another thread (result [-EIO]), or its next
    block was refused or of a negative length: then the state is failed, and the
    result is 0 all the same. *)
Theorem memloader_loads_file intr last load bs pages (s : fw_sys memloader_info) :
  let fw := {| fw_data := Some bs; fw_pages := pages; fw_size := Z.of_nat (length bs) |} in
  let base := load_base_address (s_dev s) in
  let block := blocksize (s_ctx s) in
  let size := Z.of_nat (length bs) in
  serial_lock s = false → load ≠ 0 → startable (state (s_ctx s)) = true →
  size < 2147483648 → 0 <= base → base + size <= 18446744073709551616 →
  ∃ ret s' n, fw_load_device_firmware (memloader_cb ioremap_ok) (inr fw) intr last load s = Done (ret, s') ∧
    0 <= n <= size ∧ current_count (s_ctx s') = n ∧ ml_count (s_dev s') = n ∧
    blocks_to block base size n ∧
    phys (s_dev s') = put_phys base (take (Z.to_nat n) bs) (phys (s_dev s)) ∧
    (state (s_ctx s') = FW_LOADED ∧ ret = 0 ∧ n = size ∨
     stored intr last (state (s_ctx s')) ∧ ret = - EIO ∨
     state (s_ctx s') = FW_FAILED ∧ ret = 0 ∧ n < size ∧ block_refused block base size n).
Proof.
  intros fw base block size Hlock Hload Hst Hlen Hbase Hwrap.
  set (d0 := set_ml 0 (phys (s_dev s)) (kmaps (s_dev s)) (s_dev s)).
  destruct (memloader_load_rule (λ n d, loaded bs d0 n d ∧ blocks_to block base size n)
              (λ n d, loaded bs d0 n d ∧ blocks_to block base size n ∧ n < size ∧ block_refused block base size n)
              intr last load fw s size)
    as (ret & s' & n & -> & _ & Hn & Hc & Hout); try done; try lia.
  - apply s32_id. simpl. lia.
  - by intros n d [-> _].
  - by intros n d [-> _].
  - split; [done|constructor].
  - intros n d Hn [Hp Hb]. set (c := ctx_at _ n size).
    destruct (memloader_write_data c bs d0 d) as (r & d' & -> & Hr); try done.
    rewrite (write_count_block c) in Hr. exists r, d'. split; [done|].
    pose proof (block_len_le block (size - n)) as Hle.
    destruct Hr as [(-> & Hk & Hio & Hp')|(Hr & Href & ->)]; [split; [exact Hle|]|split; [lia|]].
    + rewrite (proj2 (Z.ltb_lt 0 _)) by exact Hk. split; [exact Hp'|]. by constructor.
    + rewrite (proj2 (Z.ltb_ge 0 r)) by lia. split_and!; try done; lia.
  - eexists _, _, n. split; [reflexivity|].
    destruct Hout as [([Hd Hb] & Hout)|((Hd & Hb & Hlt & Href) & Hout)]; rewrite Hd;
      split_and!; try done; try lia; tauto.
Qed.

(** A load whose blocks cannot be mapped fails and says it succeeded: the
    write callback's [-EBUSY] puts the context in the failed state, the end
    callback then finds both counters equal and returns 0, and that 0 is the
    result, so that writing "1" to the state attribute returns its length.
    Nothing was loaded. *)
Theorem memloader_hides_write_failure intr last bs pages (s : fw_sys memloader_info) :
  let fw := {| fw_data := Some bs; fw_pages := pages; fw_size := Z.of_nat (length bs) |} in
  (∀ a n, ioremap_ok a n = false) →
  serial_lock s = false → startable (state (s_ctx s)) = true →
  0 <= blocksize (s_ctx s) → 0 < Z.of_nat (length bs) < 2147483648 → (∀ i, intr i = None) → last = None →
  ∃ s', fw_store (memloader_cb ioremap_ok) (inr fw) intr last A_state [49] s = Done (1, s') ∧
    state (s_ctx s') = FW_FAILED ∧ current_count (s_ctx s') = 0 ∧ phys (s_dev s') = phys (s_dev s).
Proof.
  intros fw Hio Hlock Hst Hb Hlen Hi Hl. unfold fw_store, fw_load_firmware. cbv zeta.
  change (s32 (simple_strtol 10 [49])) with 1.
  set (d0 := set_ml 0 (phys (s_dev s)) (kmaps (s_dev s)) (s_dev s)).
  destruct (memloader_load_rule (λ n d, n = 0 ∧ d = d0) (λ n d, n = 0 ∧ d = d0) intr last 1 fw s
              (Z.of_nat (length bs)))
    as (ret & s' & n & -> & _ & Hn & Hc & Hout); try done; try lia.
  - apply s32_id. simpl. lia.
  - by intros n d [-> ->].
  - by intros n d [-> ->].
  - intros n d Hn [-> ->].
    set (c := ctx_at _ _ _). pose proof (write_count_bounds c Hb ltac:(simpl; lia)) as Hw.
    exists (- EBUSY), d0. split; [|split; [unfold EBUSY; lia|done]].
    unfold memloader_write. cbv zeta. change (fw_data (c_fw c)) with (Some bs). cbv iota.
    unfold memloader_load. rewrite (proj2 (Z.leb_gt (write_count c) 0)) by lia. by rewrite Hio.
  - simpl. destruct Hout as [([-> ?] & [(_ & _ & ?)|([(i & x & ? & _)|(x & ? & _)] & _)])|([-> Hd] & ? & ->)];
      try lia; try congruence.
    eexists. split; [reflexivity|]. by rewrite Hd.
Qed.

(** *** From pages *)

(** One turn of the page loop inside page [nr]. *)
Lemma page_loop_turn fuel pages count tc d nr page :
  (∀ a n, ioremap_ok a n = true) →
  Z.shiftr (ml_count d) PAGE_SHIFT = nr → 0 <= nr → pages !! Z.to_nat nr = Some page →
  Z.of_nat (length page) = PAGE_SIZE → 0 <= tc →
  0 < count → 0 <= ml_count d → ml_count d + count < 2147483648 → tc + count < 2147483648 →
  let k := Z.min PAGE_SIZE count in
  page_loop ioremap_ok (S fuel) pages count tc d =
    page_loop ioremap_ok fuel pages (count - k) (tc + k)
      (set_ml (ml_count d + k)
         (put_phys (u64 (load_base_address d + ml_count d)) (take (Z.to_nat k) page) (phys d)) (kmaps d) d).
Proof.
  intros Hio Hnr Hnr0 Hp Hl Htc Hc Hm Hi1 Hi2 k. unfold PAGE_SIZE in *. cbn [page_loop].
  rewrite (proj2 (Z.eqb_neq count 0)) by lia. cbv zeta. rewrite Hnr.
  rewrite (proj2 (Z.ltb_ge nr 0)), Hp by lia. cbn [access mbind run_bind].
  rewrite (u64_id count) by lia. fold k. unfold PAGE_SIZE. fold k.
  rewrite memloader_load_done by (done || lia). cbn [mbind run_bind].
  rewrite (proj2 (Z.ltb_lt 0 k)) by lia. change (Z.to_nat 0) with 0%nat. rewrite drop_0.
  rewrite !add_int_done by (simpl; lia). cbn [mbind run_bind]. simpl. rewrite Z.add_simpl_r. done.
Qed.

Lemma concat_page {A} (ps : nat) (pages : list (list A)) i p k :
  Forall (λ p, length p = ps) pages → pages !! i = Some p → (k <= ps)%nat →
  take k (drop (ps * i) (concat pages)) = take k p.
Proof.
  intros Hf. revert i. induction Hf as [|q pages Hq Hf IH]; intros i Hi Hk; [done|].
  destruct i as [|i]; simpl in *.
  - simplify_eq. rewrite Nat.mul_0_r, drop_0. by rewrite take_app_le by lia.
  - rewrite drop_app_ge by lia. replace (ps * S i - length q)%nat with (ps * i)%nat by lia.
    by apply IH.
Qed.

Lemma length_concat_pages {A} (ps : nat) (pages : list (list A)) :
  Forall (λ p, length p = ps) pages → length (concat pages) = (ps * length pages)%nat.
Proof. induction 1 as [|q pages Hq _ IH]; simpl; [lia|]. rewrite length_app, IH. lia. Qed.

Definition whole_pages (pages : list (list Z)) : Prop :=
  Forall (λ p, length p = Z.to_nat PAGE_SIZE) pages.

(** From a page boundary the loop copies all that is left. *)
Lemma page_loop_all fuel pages d0 tot n d tc :
  (∀ a n, ioremap_ok a n = true) → whole_pages pages →
  tot <= Z.of_nat (length (concat pages)) → tot < 2147483648 →
  0 <= load_base_address d0 → load_base_address d0 + tot <= 18446744073709551616 →
  0 <= n <= tot → (n < tot → n mod PAGE_SIZE = 0) → tot - n <= Z.of_nat fuel → tc = n →
  loaded (concat pages) d0 n d →
  ∃ d', page_loop ioremap_ok fuel pages (tot - n) tc d = Done (tot, d') ∧
    loaded (concat pages) d0 tot d'.
Proof.
  unfold PAGE_SIZE. intros Hio Hp Htot Hint Hb Hwrap. revert n d tc.
  induction fuel as [|fuel IH]; intros n d tc Hn Hmod Hfuel -> Hd.
  { replace n with tot in * by lia. rewrite Z.sub_diag. by exists d. }
  destruct (decide (n = tot)) as [->|Hne].
  { rewrite Z.sub_diag. by exists d. }
  specialize (Hmod ltac:(lia)). pose proof (Z.div_mod n 4096 ltac:(lia)) as Hdm.
  pose proof (length_concat_pages _ _ Hp) as Hlen. unfold loaded in Hd. subst d.
  assert (0 <= n / 4096 < Z.of_nat (length pages)) as Hnr.
  { unfold PAGE_SIZE in Hlen. split; [apply Z.div_pos; lia|]. apply Z.div_lt_upper_bound; lia. }
  destruct (lookup_lt_is_Some_2 pages (Z.to_nat (n / 4096))) as [page Hpage]; [lia|].
  assert (Z.of_nat (length page) = PAGE_SIZE) as Hpl.
  { eapply Forall_lookup_1 in Hpage; [|exact Hp]. rewrite Hpage. unfold PAGE_SIZE. lia. }
  rewrite (page_loop_turn fuel pages (tot - n) n _ (n / 4096) page);
    try done; try lia; [|apply (Z.shiftr_div_pow2 n 12); lia|simpl; lia|simpl; lia].
  unfold PAGE_SIZE. set (k := Z.min 4096 (tot - n)).
  destruct (IH (n + k) (set_ml (n + k) (put_phys (load_base_address d0)
      (take (Z.to_nat (n + k)) (concat pages)) (phys d0)) (kmaps d0) d0) (n + k))
    as (d' & Heq & Hl); [lia| |lia|done|done|].
  { intros Hlt. assert (k = 4096) as -> by lia. rewrite <- Zplus_mod_idemp_l, Hmod. done. }
  exists d'. split; [|done]. rewrite <- Heq. replace (tot - n - k) with (tot - (n + k)) by lia.
  f_equal. unfold set_ml. simpl. f_equal. rewrite u64_id by lia.
  rewrite <- (put_phys_next _ _ _ n k) by lia. f_equal. symmetry.
  assert (Z.to_nat n = (Z.to_nat PAGE_SIZE * Z.to_nat (n / 4096))%nat) as ->.
  { unfold PAGE_SIZE. rewrite <- Z2Nat.inj_mul by lia. f_equal. lia. }
  apply concat_page; [done|done|]. unfold PAGE_SIZE. lia.
Qed.

(** A file that comes as pages and is written in one call (block size 0) is
    copied whole: the memory from the load address on holds the first [size] bytes
    of the pages, the load is complete and returns 0. *)
Theorem memloader_loads_pages load pages size (s : fw_sys memloader_info) :
  let fw := {| fw_data := None; fw_pages := Some pages; fw_size := size |} in
  let base := load_base_address (s_dev s) in
  (∀ a n, ioremap_ok a n = true) → whole_pages pages →
  0 <= size <= Z.of_nat (length (concat pages)) → size < 2147483648 →
  serial_lock s = false → load ≠ 0 → startable (state (s_ctx s)) = true →
  blocksize (s_ctx s) = 0 → 0 <= base → base + size <= 18446744073709551616 →
  ∃ s', fw_load_device_firmware (memloader_cb ioremap_ok) (inr fw) (λ _, None) None load s = Done (0, s') ∧
    state (s_ctx s') = FW_LOADED ∧ current_count (s_ctx s') = size ∧ kmaps (s_dev s') = kmaps (s_dev s) ∧
    phys (s_dev s') = put_phys base (take (Z.to_nat size) (concat pages)) (phys (s_dev s)).
Proof.
  intros fw base Hio Hp Hs Hint Hlock Hload Hst Hb Hbase Hwrap.
  set (d0 := set_ml 0 (phys (s_dev s)) (kmaps (s_dev s)) (s_dev s)).
  destruct (memloader_load_rule (λ n d, (n = 0 ∨ n = size) ∧ loaded (concat pages) d0 n d)
              (λ _ _, False) (λ _, None) None load fw s size)
    as (ret & s' & n & -> & _ & Hn & Hc & [([_ Hd] & Hout)|([] & _)]); try done; try lia.
  - apply s32_id. simpl. lia.
  - by intros n d [_ ->].
  - split; [by left|done].
  - intros n d Hn [[->| ->] Hd]; [|lia]. set (c := ctx_at _ _ _).
    assert (write_count c = size) as Hw.
    { unfold write_count. change (blocksize c) with (blocksize (s_ctx s)). rewrite Hb. simpl.
      rewrite Z.sub_0_r. by rewrite Z.ltb_irrefl. }
    destruct (page_loop_all (Z.to_nat size + length pages + 1) pages d0 size 0 d 0)
      as (d' & Heq & Hl); try done; try lia.
    exists size, d'. split; [|split; [lia|]].
    + unfold memloader_write. cbv zeta. rewrite Hw. rewrite Z.sub_0_r in Heq. exact Heq.
    + rewrite (proj2 (Z.ltb_lt 0 size)) by lia. split; [by right|done].
  - destruct Hout as [(? & -> & ->)|([(i & x & ? & _)|(x & ? & _)] & _)]; try done.
    eexists. split; [reflexivity|]. by rewrite Hd.
Qed.

(** A write of at most a page that starts and ends in the first page. *)
Lemma page_loop_one n b f page d :
  (∀ a n, ioremap_ok a n = true) → Z.of_nat (length page) = PAGE_SIZE →
  0 <= n → 0 < b → n + b <= PAGE_SIZE → ml_count d = n →
  0 <= load_base_address d → load_base_address d + n + b <= 18446744073709551616 →
  page_loop ioremap_ok (S f) [page] b 0 d =
    Done (b, set_ml (n + b) (put_phys (load_base_address d + n) (take (Z.to_nat b) page) (phys d)) (kmaps d) d).
Proof.
  intros Hio Hl Hn Hb Hnb Hm Hba Hw. unfold PAGE_SIZE in *.
  rewrite (page_loop_turn f [page] b 0 d 0 page); try done; try lia.
  - unfold PAGE_SIZE. replace (Z.min 4096 b) with b by lia. rewrite Z.sub_diag, Hm, u64_id by lia.
    by destruct f.
  - rewrite Hm, Z.shiftr_div_pow2 by done. apply Z.div_small. change (2 ^ PAGE_SHIFT) with 4096. lia.
Qed.

(** With a block size below a page (20 by default) the page path ignores the
    offset inside the page: of a file of two blocks the first block is written
    twice and the second never, and the load is reported complete. *)
Theorem memloader_pages_repeat_block load page b (s : fw_sys memloader_info) :
  let fw := {| fw_data := None; fw_pages := Some [page]; fw_size := 2 * b |} in
  let base := load_base_address (s_dev s) in
  (∀ a n, ioremap_ok a n = true) → Z.of_nat (length page) = PAGE_SIZE →
  0 < b → 2 * b <= PAGE_SIZE → blocksize (s_ctx s) = b →
  serial_lock s = false → load ≠ 0 → startable (state (s_ctx s)) = true →
  0 <= base → base + 2 * b <= 18446744073709551616 →
  ∃ s', fw_load_device_firmware (memloader_cb ioremap_ok) (inr fw) (λ _, None) None load s = Done (0, s') ∧
    state (s_ctx s') = FW_LOADED ∧ current_count (s_ctx s') = 2 * b ∧
    ∀ i, 0 <= i < b → phys (s_dev s') !! (base + b + i) = page !! Z.to_nat i.
Proof.
  intros fw base Hio Hl Hb0 Hb2 Hb Hlock Hload Hst Hbase Hwrap. unfold PAGE_SIZE in *.
  set (d0 := set_ml 0 (phys (s_dev s)) (kmaps (s_dev s)) (s_dev s)).
  set (blk := take (Z.to_nat b) page).
  set (P := λ n d, (n = 0 ∧ d = d0) ∨ (n = b ∧ d = set_ml b (put_phys base blk (phys d0)) (kmaps d0) d0) ∨
                   (n = 2 * b ∧ d = set_ml (2 * b) (put_phys (base + b) blk (put_phys base blk (phys d0)))
                                      (kmaps d0) d0)).
  destruct (memloader_load_rule P (λ _ _, False) (λ _, None) None load fw s (2 * b))
    as (ret & s' & n & -> & _ & Hn & Hc & [(Hd & Hout)|([] & _)]); try done; try lia.
  - apply s32_id. simpl. lia.
  - unfold P. intros n d [[-> ->]|[[-> ->]|[-> ->]]]; done.
  - by left.
  - intros n d Hn Hp. set (c := ctx_at _ _ _).
    assert (write_count c = Z.min b (2 * b - n)) as Hw.
    { unfold write_count. change (blocksize c) with (blocksize (s_ctx s)). rewrite Hb. simpl.
      rewrite (proj2 (Z.eqb_neq b 0)) by lia. simpl. split_if; lia. }
    assert ((n = 0 ∨ n = b) ∧ ml_count d = n ∧ load_base_address d = base) as (Hnb & Hm & Hba).
    { unfold P in Hp. destruct Hp as [[-> ->]|[[-> ->]|[-> ->]]]; [auto..|lia]. }
    exists b, (set_ml (n + b) (put_phys (base + n) blk (phys d)) (kmaps d) d).
    split; [|split; [lia|]].
    + unfold memloader_write. cbv zeta. rewrite Hw. replace (Z.min b (2 * b - n)) with b by lia.
      simpl. rewrite Nat.add_1_r. rewrite (page_loop_one n) by (done || unfold PAGE_SIZE; lia). by rewrite Hba.
    + rewrite (proj2 (Z.ltb_lt 0 b)) by lia. unfold P in *.
      destruct Hp as [[-> ->]|[[-> ->]|[-> ->]]]; [right; left|right; right|lia].
      * rewrite Z.add_0_l, Z.add_0_r. done.
      * split; [lia|]. unfold set_ml. simpl. f_equal. lia.
  - destruct Hout as [(? & -> & ->)|([(i & x & ? & _)|(x & ? & _)] & _)]; try done.
    eexists. split; [reflexivity|]. split_and!; try done. intros i Hi.
    unfold P in Hd. destruct Hd as [[? _]|[[? _]|[_ ->]]]; [lia..|]. simpl.
    rewrite put_phys_lookup. unfold blk. rewrite length_take, decide_True by lia.
    rewrite lookup_take_lt by lia. do 2 f_equal. lia.
Qed.
End Loads.

(** The load address survives a store and a show for every 64-bit address:
    storing the text that showing gives sets exactly that address, and nothing
    else of the device changes. *)
Theorem memloader_address_roundtrip a (d d0 : memloader_info) :
  0 <= a < 18446744073709551616 → load_base_address d0 = a →
  ∃ text, memloader_show L_load_address d0 = inr text ∧
    let '(ret, d') := memloader_store L_load_address text d in
    ret = Z.of_nat (length text) ∧ memloader_show L_load_address d' = inr text ∧
    load_base_address d' = a ∧ ml_count d' = ml_count d ∧ phys d' = phys d.
Proof.
  intros Ha Hd. eexists. split; [reflexivity|]. rewrite Hd. unfold memloader_store, memloader_set_load_address.
  assert (u64 (simple_strtol 16 ([48; 120] ++ fmt_x a ++ [10])) = a) as ->
    by (rewrite strtol_fmt_x, u64_s64; done).
  cbv iota beta. change (0 <? 0) with false. done.
Qed.

(** ** Probe *)

(** Nothing of the driver exists. *)
Definition ml_clean (w : ml_world) : Prop := drvdata w = None ∧ sysfs_fw w = false ∧ sysfs_ml w = false.

Lemma fw_cleanup_added {D} (s : fw_sys D) : kobj_added (s_ctx (fw_cleanup s)) = false.
Proof. unfold fw_cleanup. destruct (kobj_added (s_ctx s)) eqn:E; [done|exact E]. Qed.

(** C32: probing on a well-formed node always returns, and is all or nothing: with
    an error the object is freed and neither sysfs directory exists; with 0 the
    driver data is set, the context is empty, the loader's directory exists
    exactly when its kobject was added, and [remove] leaves nothing behind. *)
Theorem memloader_probe_remove find_node find_device a pdev n (w : ml_world) :
  ml_clean w → params_wf n → a_fw_kobj a <= 0 → a_ml_kobj a <= 0 →
  (∀ v, of_prop n "load-address" = Some v → 8 <= Z.of_nat (length v)) →
  ∃ ret w', memloader_probe find_node find_device a pdev n w = Done (ret, w') ∧
    if ret =? 0 then
      ∃ s w'', drvdata w' = Some s ∧ state (s_ctx s) = FW_EMPTY ∧
        sysfs_fw w' = kobj_added (s_ctx s) ∧ sysfs_ml w' = true ∧
        memloader_remove w' = Done (0, w'') ∧ ml_clean w''
    else ml_clean w'.
Proof.
  intros (Hd & Hf & Hm) Hp Hk1 Hk2 Hv. unfold memloader_probe.
  destruct (a_alloc a); cbn [negb]; [|by eexists _, _].
  destruct (of_prop n "load-address") as [v|]; [|by eexists _, _]. specialize (Hv v eq_refl).
  unfold of_be64. rewrite load_bytes_in by lia. cbn [access mbind run_bind mret run_ret]. cbv zeta.
  match goal with |- context [fw_initialize _ _ _ ?x _ _] =>
    destruct (fw_initialize_done find_node find_device n (Some pdev) (a_fw_kobj a) x)
      as (ret & s & -> & _ & _ & Hst & Hadd); [done|apply length_zeros|done|] end.
  cbn [mbind run_bind]. destruct (Z.ltb_spec ret 0).
  { eexists _, _. split; [reflexivity|]. rewrite (proj2 (Z.eqb_neq ret 0)) by lia.
    split_and!; simpl; try done. by rewrite Hadd by lia. }
  destruct (Z.eqb_spec (a_ml_kobj a) 0) as [->|Hne]; simpl.
  - eexists _, _. split; [reflexivity|]. simpl. eexists s, _. split_and!; try done.
    split_and!; simpl; try done. by destruct (kobj_added (s_ctx s)).
  - eexists _, _. split; [reflexivity|]. rewrite (proj2 (Z.eqb_neq _ 0)) by done.
    split_and!; simpl; try done. by destruct (kobj_added (s_ctx s)).
Qed.

(** ** Witnesses *)
Definition ok_map (a n : Z) : bool := true.
Definition no_map (a n : Z) : bool := false.
Definition demo_info : memloader_info :=
  {| load_base_address := 65536; ml_count := 0; phys := ∅; kmaps := 0 |}.
Definition demo_ml (block : Z) : fw_sys memloader_info :=
  mk_sys (set_params 255 640 block 10 demo_ctx) demo_info false.

Lemma memloader_loads_file_witness :
  ∃ ret s' n, fw_load_device_firmware (memloader_cb ok_map)
      (inr {| fw_data := Some [7; 8; 9]; fw_pages := None; fw_size := 3 |}) (λ _, None) None 1 (demo_ml 2)
      = Done (ret, s') ∧ 0 <= n <= 3 ∧
    phys (s_dev s') = put_phys 65536 (take (Z.to_nat n) [7; 8; 9]) ∅.
Proof.
  destruct (memloader_loads_file ok_map (λ _, None) None 1 [7; 8; 9] None (demo_ml 2))
    as (ret & s' & n & Hl & Hn & _ & _ & _ & Hp & _); try done; try (simpl; lia).
  exists ret, s', n. split; [exact Hl|]. split; [exact Hn|exact Hp].
Defined.

Lemma memloader_hides_write_failure_witness :
  ∃ s', fw_store (memloader_cb no_map)
      (inr {| fw_data := Some [7; 8; 9]; fw_pages := None; fw_size := 3 |}) (λ _, None) None A_state [49]
      (demo_ml 20) = Done (1, s') ∧ state (s_ctx s') = FW_FAILED.
Proof.
  destruct (memloader_hides_write_failure no_map (λ _, None) None [7; 8; 9] None (demo_ml 20))
    as (s' & Hs & Hst & _); try done; try (simpl; lia).
  exists s'. split; [exact Hs|exact Hst].
Defined.

(** A page whose first bytes are 0, 1, 2, ... *)
Definition demo_page : list Z := map (λ i, i mod 256) (seqZ 0 PAGE_SIZE).

Lemma demo_page_length : Z.of_nat (length demo_page) = PAGE_SIZE.
Proof. unfold demo_page. rewrite length_map, length_seqZ. done. Qed.

Lemma memloader_loads_pages_witness :
  ∃ s', fw_load_device_firmware (memloader_cb ok_map)
      (inr {| fw_data := None; fw_pages := Some [demo_page]; fw_size := 100 |}) (λ _, None) None 1 (demo_ml 0)
      = Done (0, s') ∧ current_count (s_ctx s') = 100.
Proof.
  destruct (memloader_loads_pages ok_map 1 [demo_page] 100 (demo_ml 0))
    as (s' & Hl & _ & Hc & _); try done; try (simpl; lia).
  - apply Forall_cons_2; [|apply Forall_nil_2]. pose proof demo_page_length. lia.
  - exists s'. split; [exact Hl|exact Hc].
Defined.

Lemma memloader_pages_repeat_block_witness :
  ∃ s', fw_load_device_firmware (memloader_cb ok_map)
      (inr {| fw_data := None; fw_pages := Some [demo_page]; fw_size := 40 |}) (λ _, None) None 1
      (demo_ml DEF_BLOCKSIZE) = Done (0, s') ∧
    phys (s_dev s') !! 65559 = Some 3 ∧ demo_page !! 23%nat = Some 23.
Proof.
  destruct (memloader_pages_repeat_block ok_map 1 demo_page 20 (demo_ml DEF_BLOCKSIZE))
    as (s' & Hl & _ & _ & Hp); try done; try (simpl; lia).
  exists s'. split; [exact Hl|]. split; [|vm_compute; reflexivity].
  specialize (Hp 3 ltac:(lia)). change (load_base_address (s_dev (demo_ml DEF_BLOCKSIZE)) + 20 + 3)
    with 65559 in Hp. rewrite Hp. vm_compute. reflexivity.
Defined.

Lemma memloader_address_roundtrip_witness :
  ∃ text, memloader_show L_load_address demo_info = inr text ∧
    load_base_address (memloader_store L_load_address text demo_info).2 = 65536.
Proof.
  destruct (memloader_address_roundtrip 65536 demo_info demo_info) as (text & Hs & Hr); [lia|done|].
  exists text. split; [exact Hs|]. destruct (memloader_store L_load_address text demo_info).
  apply Hr.
Defined.

Definition demo_tree : of_node :=
  {| of_prop s := if decide (s = "load-address")%string then Some [0; 0; 0; 0; 0; 1; 0; 0]
                  else if decide (s = "firmware-load")%string then Some [] else None |}.

Lemma memloader_probe_remove_witness :
  ∃ ret w', memloader_probe (λ _, None) (λ _, None) {| a_alloc := true; a_fw_kobj := 0; a_ml_kobj := 0 |} 1
      demo_tree {| drvdata := None; sysfs_fw := false; sysfs_ml := false; k_serial_lock := false; k_phys := ∅ |}
      = Done (ret, w') ∧ (ret = 0 → sysfs_ml w' = true).
Proof.
  destruct (memloader_probe_remove (λ _, None) (λ _, None)
      {| a_alloc := true; a_fw_kobj := 0; a_ml_kobj := 0 |} 1 demo_tree
      {| drvdata := None; sysfs_fw := false; sysfs_ml := false; k_serial_lock := false; k_phys := ∅ |})
    as (ret & w' & Hp & Hr); try done.
  - intros name v [<-|[<-|[<-|[<-|[]]]]] H; by vm_compute in H.
  - intros v H. vm_compute in H. by injection H as <-.
  - exists ret, w'. split; [exact Hp|]. intros ->. simpl in Hr.
    destruct Hr as (s & w'' & _ & _ & _ & H & _). exact H.
Defined.
