(* ===== verification/Led.v ===== *)
(** * LED driver: led/led_dev.c, led/led_support.c, led/led_support.h

    A device-tree node describes a row of LEDs, each a bit of an 8-bit register
    reached through the access layer.  The driver registers them with the kernel's
    LED class; brightness changes are applied at once, or queued as work items for a
    worker thread when the node has [use-workqueue]. *)

From S2P Require Import Prelude KernelApi GenericAccess.

(** ** Constants *)
Definition LED_NAME_SIZE : Z := 32.
(** [enum led_brightness] of the LED class *)
Definition LED_OFF : Z := 0.
Definition LED_FULL : Z := 255.
Definition LED_CORE_SUSPENDRESUME : Z := 65536.

(** ** Data *)

(** The two functions a [brightness_set] pointer takes: [_dev_leds_brightness_set]
    and [dev_leds_brightness_set]. *)
Inductive setter := SetNow | SetQueued.

(** [struct dev_led], with the fields of its [cdev] first.  [led_brightness_get]
    is never assigned, so [cdev.brightness_get] is [_dev_leds_brightness_get]. *)
Record dev_led := {
  cdev_name : bool;                      (* [cdev.name] points to [name] *)
  cdev_brightness : Z;
  cdev_flags : Z;
  cdev_brightness_set : option setter;
  led_reg_base : Z;
  reg_offset : Z;
  reg_mask : Z;
  enb_reg_offset : Z;
  enb_reg_mask : Z;
  enb_reg_value : Z;
  enb_ctrl : Z;
  active_low : Z;                        (* a signed field of one bit *)
  disabled : Z;                          (* likewise *)
  name : list Z;
  led_brightness_set : option setter;
}.

Definition zero_led : dev_led :=
  {| cdev_name := false; cdev_brightness := 0; cdev_flags := 0; cdev_brightness_set := None;
     led_reg_base := 0; reg_offset := 0; reg_mask := 0; enb_reg_offset := 0; enb_reg_mask := 0;
     enb_reg_value := 0; enb_ctrl := 0; active_low := 0; disabled := 0;
     name := zeros (Z.to_nat LED_NAME_SIZE); led_brightness_set := None |}.

(** [struct dev_work]: pending on a queue or not, its LED (by index) and value *)
Record dev_work := { wk_pending : bool; wk_cdev : option nat; wk_value : Z }.

(** [struct led_dev_priv]; a pointer is 0 when NULL. *)
Record led_dev_priv := {
  workqueue : Z;
  use_workqueue : Z;
  reg_base : Z;
  num_leds : nat;
  works : Z;
  leds : list dev_led;
}.

Section Driver.
Context {B : IoBus}.

(** The device, what the driver allocated and registered, the work items in the
    order they were queued, and the node references held. *)
Record led_world := {
  drvdata : bool;                        (* [platform_get_drvdata] is the private data *)
  k_priv : option led_dev_priv;          (* the private data, while it is allocated *)
  k_ga : ga_sys;
  k_iomaps : gset Z;
  k_wqs : gset Z;
  k_works : gmap Z dev_work;
  k_queue : list Z;
  k_registered : gset nat;               (* LEDs registered with the LED class *)
  k_parent_refs : Z;
  k_child_refs : Z;
}.

Definition set_drvdata (d : bool) (w : led_world) : led_world :=
  {| drvdata := d; k_priv := k_priv w; k_ga := k_ga w; k_iomaps := k_iomaps w; k_wqs := k_wqs w;
     k_works := k_works w; k_queue := k_queue w; k_registered := k_registered w;
     k_parent_refs := k_parent_refs w; k_child_refs := k_child_refs w |}.
Definition set_priv (p : option led_dev_priv) (w : led_world) : led_world :=
  {| drvdata := drvdata w; k_priv := p; k_ga := k_ga w; k_iomaps := k_iomaps w; k_wqs := k_wqs w;
     k_works := k_works w; k_queue := k_queue w; k_registered := k_registered w;
     k_parent_refs := k_parent_refs w; k_child_refs := k_child_refs w |}.
Definition set_ga (g : ga_sys) (w : led_world) : led_world :=
  {| drvdata := drvdata w; k_priv := k_priv w; k_ga := g; k_iomaps := k_iomaps w; k_wqs := k_wqs w;
     k_works := k_works w; k_queue := k_queue w; k_registered := k_registered w;
     k_parent_refs := k_parent_refs w; k_child_refs := k_child_refs w |}.
Definition set_maps (m q : gset Z) (w : led_world) : led_world :=
  {| drvdata := drvdata w; k_priv := k_priv w; k_ga := k_ga w; k_iomaps := m; k_wqs := q;
     k_works := k_works w; k_queue := k_queue w; k_registered := k_registered w;
     k_parent_refs := k_parent_refs w; k_child_refs := k_child_refs w |}.
Definition set_work (m : gmap Z dev_work) (q : list Z) (w : led_world) : led_world :=
  {| drvdata := drvdata w; k_priv := k_priv w; k_ga := k_ga w; k_iomaps := k_iomaps w; k_wqs := k_wqs w;
     k_works := m; k_queue := q; k_registered := k_registered w;
     k_parent_refs := k_parent_refs w; k_child_refs := k_child_refs w |}.
Definition set_registered (r : gset nat) (w : led_world) : led_world :=
  {| drvdata := drvdata w; k_priv := k_priv w; k_ga := k_ga w; k_iomaps := k_iomaps w; k_wqs := k_wqs w;
     k_works := k_works w; k_queue := k_queue w; k_registered := r;
     k_parent_refs := k_parent_refs w; k_child_refs := k_child_refs w |}.
Definition set_refs (p c : Z) (w : led_world) : led_world :=
  {| drvdata := drvdata w; k_priv := k_priv w; k_ga := k_ga w; k_iomaps := k_iomaps w; k_wqs := k_wqs w;
     k_works := k_works w; k_queue := k_queue w; k_registered := k_registered w;
     k_parent_refs := p; k_child_refs := c |}.

Definition set_works (x : Z) (p : led_dev_priv) : led_dev_priv :=
  {| workqueue := workqueue p; use_workqueue := use_workqueue p; reg_base := reg_base p;
     num_leds := num_leds p; works := x; leds := leds p |}.
Definition set_leds (n : nat) (l : list dev_led) (p : led_dev_priv) : led_dev_priv :=
  {| workqueue := workqueue p; use_workqueue := use_workqueue p; reg_base := reg_base p;
     num_leds := n; works := works p; leds := l |}.
Definition set_base (b : Z) (p : led_dev_priv) : led_dev_priv :=
  {| workqueue := workqueue p; use_workqueue := use_workqueue p; reg_base := b;
     num_leds := num_leds p; works := works p; leds := leds p |}.
Definition set_queueing (q u : Z) (p : led_dev_priv) : led_dev_priv :=
  {| workqueue := q; use_workqueue := u; reg_base := reg_base p;
     num_leds := num_leds p; works := works p; leds := leds p |}.

(** The access layer's state; whether unregistering an LED switches it off; what
    unregistering an LED that is not registered does, which is up to the LED
    class. *)
Context (ga : ga_state) (off_on_unregister : bool) (stray : nat → led_world → run led_world).

(** [priv] behind a pointer the driver holds, and behind [platform_get_drvdata]. *)
Definition the_priv (w : led_world) : run led_dev_priv := access (k_priv w).
Definition get_drvdata (w : led_world) : run led_dev_priv :=
  if drvdata w then the_priv w else Undef.
Definition led_at (i : nat) (w : led_world) : run dev_led :=
  p ← the_priv w; access (leds p !! i).
Definition put_led (i : nat) (l : dev_led) (w : led_world) : run led_world :=
  p ← the_priv w; _ ← access (leds p !! i);
  mret (set_priv (Some (set_leds (num_leds p) (<[i := l]> (leds p)) p)) w).

Definition mmio {A} (base : Z) (f : ga_sys → run (A * ga_sys)) (w : led_world)
    : run (A * led_world) :=
  if decide (base ∈ k_iomaps w)
  then '(a, g) ← f (k_ga w); mret (a, set_ga g w) else Undef.

(** *** led_support.c *)
Definition _dev_leds_brightness_get (i : nat) (w : led_world) : run (Z * led_world) :=
  led ← led_at i w;
  '(reg, w) ← (if disabled led =? 0 then
                 '(v, w) ← mmio (led_reg_base led)
                             (dev_read ga (led_reg_base led + reg_offset led)) w;
                 mret (Z.land v (reg_mask led), w)
               else mret (0, w));
  mret (if (negb (reg =? 0) && negb (active_low led =? 0)) || ((reg =? 0) && (active_low led =? 0))
        then LED_OFF else LED_FULL, w).

Definition _dev_leds_brightness_set (i : nat) (led_value : Z) (w : led_world) : run led_world :=
  led ← led_at i w;
  if disabled led =? 0 then
    let addr := led_reg_base led + reg_offset led in
    '(_, w) ← mmio (led_reg_base led)
      (if (negb (led_value =? 0) && negb (active_low led =? 0)) ||
          ((led_value =? 0) && (active_low led =? 0))
       then dev_read_modify_write ga addr (reg_mask led) 0
       else dev_read_modify_write ga addr (reg_mask led) (reg_mask led)) w;
    mret w
  else mret w.

Definition dev_leds_enb_reg_set (i : nat) (w : led_world) : run led_world :=
  led ← led_at i w;
  if (disabled led =? 0) && negb (enb_ctrl led =? 0) then
    '(_, w) ← mmio (led_reg_base led)
      (dev_read_modify_write ga (led_reg_base led + enb_reg_offset led)
         (enb_reg_mask led) (enb_reg_value led)) w;
    mret w
  else mret w.

(** The statements of the queueing branch of [dev_leds_brightness_set], one by one;
    [priv->works] is shared by all callers. *)
Definition upd_work (f : dev_work → dev_work) (w : led_world) : run led_world :=
  p ← get_drvdata w;
  wk ← access (k_works w !! works p);
  mret (set_work (<[works p := f wk]> (k_works w)) (k_queue w) w).

(** [priv->works = kzalloc(...)]: [x] is the new object, or 0 *)
Definition bs_alloc (x : Z) (w : led_world) : run led_world :=
  p ← get_drvdata w;
  let w := set_priv (Some (set_works x p)) w in
  if x =? 0 then mret w
  else mret (set_work (<[x := {| wk_pending := false; wk_cdev := None; wk_value := 0 |}]> (k_works w))
               (k_queue w) w).
(** [INIT_WORK] re-initialises the list node: not for a work on a queue *)
Definition bs_init (w : led_world) : run led_world :=
  p ← get_drvdata w;
  if bool_decide (works p ∈ k_queue w) then Undef
  else upd_work (λ k, {| wk_pending := false; wk_cdev := wk_cdev k; wk_value := wk_value k |}) w.
Definition bs_cdev (i : nat) : led_world → run led_world :=
  upd_work (λ k, {| wk_pending := wk_pending k; wk_cdev := Some i; wk_value := wk_value k |}).
Definition bs_value (v : Z) : led_world → run led_world :=
  upd_work (λ k, {| wk_pending := wk_pending k; wk_cdev := wk_cdev k; wk_value := v |}).
(** [queue_work] does nothing for a work that is pending *)
Definition bs_queue (w : led_world) : run led_world :=
  p ← get_drvdata w;
  if decide (workqueue p ∈ k_wqs w) then
    wk ← access (k_works w !! works p);
    if wk_pending wk then mret w
    else mret (set_work (<[works p := {| wk_pending := true; wk_cdev := wk_cdev wk;
                                          wk_value := wk_value wk |}]> (k_works w))
                 (k_queue w ++ [works p]) w)
  else Undef.

Definition dev_leds_brightness_set (x : Z) (i : nat) (led_value : Z) (w : led_world)
    : run led_world :=
  priv ← get_drvdata w;
  if negb (use_workqueue priv =? 0) then
    w ← bs_alloc x w;
    priv ← get_drvdata w;
    if works priv =? 0 then mret w
    else w ← bs_init w; w ← bs_cdev i w; w ← bs_value led_value w; bs_queue w
  else _dev_leds_brightness_set i led_value w.

Definition dev_led_set_work (x : Z) (w : led_world) : run led_world :=
  wk ← access (k_works w !! x);
  i ← access (wk_cdev wk);
  w ← _dev_leds_brightness_set i (wk_value wk) w;
  mret (set_work (delete x (k_works w)) (k_queue w) w).

(** The worker thread takes the oldest work, which is then no longer pending. *)
Definition worker (w : led_world) : run led_world :=
  match k_queue w with
  | [] => mret w
  | x :: q =>
      wk ← access (k_works w !! x);
      dev_led_set_work x
        (set_work (<[x := {| wk_pending := false; wk_cdev := wk_cdev wk; wk_value := wk_value wk |}]>
                     (k_works w)) q w)
  end.

(** The worker until the queue is empty; nothing queues meanwhile. *)
Fixpoint drain (n : nat) (w : led_world) : run led_world :=
  match n with O => mret w | S n => w ← worker w; drain n w end.

(** A call through [cdev.brightness_set]. *)
Definition call_brightness_set (x : Z) (i : nat) (v : Z) (w : led_world) : run led_world :=
  led ← led_at i w;
  match cdev_brightness_set led with
  | Some SetNow => _dev_leds_brightness_set i v w
  | Some SetQueued => dev_leds_brightness_set x i v w
  | None => Undef
  end.

(** [led_classdev_unregister] *)
Definition led_classdev_unregister (i : nat) (w : led_world) : run led_world :=
  if decide (i ∈ k_registered w) then
    w ← (if off_on_unregister then call_brightness_set 0 i LED_OFF w else mret w);
    mret (set_registered (k_registered w ∖ {[i]}) w)
  else stray i w.

(** [while (--i >= 0)] *)
Fixpoint unregister_below (i : nat) (w : led_world) : run led_world :=
  match i with O => mret w | S i => w ← led_classdev_unregister i w; unregister_below i w end.

(** [led_classdev_register] for each LED: its result, the brightness it leaves in
    the LED, and the memory [kzalloc] would give to a work item. *)
Record reg_answer := { r_ret : Z; r_brightness : Z; r_work : Z }.

Definition complete_led (base : Z) (l : dev_led) : dev_led :=
  {| cdev_name := cdev_name l; cdev_brightness := cdev_brightness l;
     cdev_flags := Z.lor (cdev_flags l) LED_CORE_SUSPENDRESUME;
     cdev_brightness_set := Some (default SetNow (led_brightness_set l));
     led_reg_base := base; reg_offset := reg_offset l; reg_mask := reg_mask l;
     enb_reg_offset := enb_reg_offset l; enb_reg_mask := enb_reg_mask l;
     enb_reg_value := enb_reg_value l; enb_ctrl := enb_ctrl l; active_low := active_low l;
     disabled := disabled l; name := name l; led_brightness_set := led_brightness_set l |}.

Definition set_brightness (v : Z) (l : dev_led) : dev_led :=
  {| cdev_name := cdev_name l; cdev_brightness := v; cdev_flags := cdev_flags l;
     cdev_brightness_set := cdev_brightness_set l;
     led_reg_base := led_reg_base l; reg_offset := reg_offset l; reg_mask := reg_mask l;
     enb_reg_offset := enb_reg_offset l; enb_reg_mask := enb_reg_mask l;
     enb_reg_value := enb_reg_value l; enb_ctrl := enb_ctrl l; active_low := active_low l;
     disabled := disabled l; name := name l; led_brightness_set := led_brightness_set l |}.

(** The loop of [dev_leds_init]: [n] more LEDs from index [i]. *)
Fixpoint init_loop (dev_base : Z) (ans : nat → reg_answer) (n i : nat) (ret : Z) (w : led_world)
    : run (Z * led_world) :=
  match n with
  | O => mret (ret, w)
  | S n =>
      led ← led_at i w;
      let led := complete_led dev_base led in
      let initial_brightness := cdev_brightness led in
      let ret := r_ret (ans i) in
      w ← put_led i (set_brightness (r_brightness (ans i)) led) w;
      if ret <? 0 then w ← unregister_below i w; mret (ret, w)
      else
        let w := set_registered ({[i]} ∪ k_registered w) w in
        w ← put_led i (set_brightness initial_brightness led) w;
        w ← call_brightness_set (r_work (ans i)) i initial_brightness w;
        w ← dev_leds_enb_reg_set i w;
        init_loop dev_base ans n (S i) ret w
  end.
Definition dev_leds_init (dev_base : Z) (ans : nat → reg_answer) (num_dev_leds : nat)
    : led_world → run (Z * led_world) := init_loop dev_base ans num_dev_leds 0 0.

Fixpoint cleanup_loop (n i : nat) (w : led_world) : run led_world :=
  match n with O => mret w | S n => w ← led_classdev_unregister i w; cleanup_loop n (S i) w end.
Definition dev_leds_cleanup (num_dev_leds : nat) : led_world → run led_world :=
  cleanup_loop num_dev_leds 0.

Definition set_disabled (d : Z) (l : dev_led) : dev_led :=
  {| cdev_name := cdev_name l; cdev_brightness := cdev_brightness l; cdev_flags := cdev_flags l;
     cdev_brightness_set := cdev_brightness_set l;
     led_reg_base := led_reg_base l; reg_offset := reg_offset l; reg_mask := reg_mask l;
     enb_reg_offset := enb_reg_offset l; enb_reg_mask := enb_reg_mask l;
     enb_reg_value := enb_reg_value l; enb_ctrl := enb_ctrl l; active_low := active_low l;
     disabled := swrap 1 d; name := name l; led_brightness_set := led_brightness_set l |}.

Definition dev_leds_enable (n : nat) (l : list dev_led) : list dev_led :=
  (set_disabled 0 <$> take n l) ++ drop n l.
Definition dev_leds_disable (n : nat) (l : list dev_led) : list dev_led :=
  (set_disabled 1 <$> take n l) ++ drop n l.

(** *** led_dev.c *)
Definition led_dev_enable (w : led_world) : run led_world :=
  if drvdata w then
    p ← the_priv w;
    mret (set_priv (Some (set_leds (num_leds p) (dev_leds_enable (num_leds p) (leds p)) p)) w)
  else mret w.
Definition led_dev_disable (w : led_world) : run led_world :=
  if drvdata w then
    p ← the_priv w;
    mret (set_priv (Some (set_leds (num_leds p) (dev_leds_disable (num_leds p) (leds p)) p)) w)
  else mret w.

(** Work that is pending is done before a workqueue goes. *)
Definition destroy_workqueue (q : Z) (w : led_world) : run led_world :=
  if decide (q ∈ k_wqs w)
  then w ← drain (length (k_queue w)) w; mret (set_maps (k_iomaps w) (k_wqs w ∖ {[q]}) w)
  else Undef.

Definition led_dev_deactivate (w : led_world) : run (Z * led_world) :=
  if negb (drvdata w) then mret (- ENODEV, w)
  else
    priv ← the_priv w;
    w ← (if negb (workqueue priv =? 0) then destroy_workqueue (workqueue priv) w else mret w);
    let w := set_drvdata false w in
    w ← dev_leds_cleanup (num_leds priv) w;
    let w := if negb (reg_base priv =? 0)
             then set_maps (k_iomaps w ∖ {[reg_base priv]}) (k_wqs w) w else w in
    mret (0, set_priv None w).

(** A mandatory or optional 4-byte property. *)
Definition cell (n : of_node) (p : string) : option Z :=
  match of_prop n p with
  | Some v => if Z.of_nat (length v) =? 4 then Some (be_value v) else None
  | None => None
  end.
(** An optional one: absent, of a wrong size, or its value *)
Definition opt_cell (n : of_node) (p : string) (dflt : Z) : option Z :=
  match of_prop n p with Some _ => cell n p | None => Some dflt end.
(** [1 << n] *)
Definition shl1 (n : Z) : run Z := if n <? 32 then mret (Z.shiftl 1 n) else Undef.

(** The enable fields: [enb_ctrl], [enb_reg_offset], [enb_reg_mask],
    [enb_reg_value]. *)
Definition enable_props (child : of_node) : run (Z * Z * Z * Z) :=
  let ctrl := u8 (default 0 (cell child "enable-ctrl")) in
  if ctrl =? 1 then
    let '(ctrl, off) := match cell child "enable-reg-offset" with
                        | None => (0, 0) | Some v => (ctrl, u8 v) end in
    '(ctrl, mask) ← match cell child "enable-bit-index" with
                    | None => mret (0, 0) | Some v => m ← shl1 v; mret (ctrl, u8 m) end;
    let '(ctrl, value) := match cell child "enable-bit-value" with
                          | None => (0, 0) | Some v => (ctrl, u8 v) end in
    mret (ctrl, off, mask, value)
  else mret (ctrl, 0, 0, 0).

(** The body of the loop over the children; [None]: [DEV_ERR]. *)
Definition parse_child (use_wq : Z) (child : of_node) (led : dev_led) : run (option dev_led) :=
  let setq := if negb (use_wq =? 0) then Some SetQueued else led_brightness_set led in
  match of_prop child "led-name" with
  | None => mret None
  | Some nm =>
      let length := Z.min (Z.of_nat (length nm)) (LED_NAME_SIZE - 1) in
      nm ← access (load_bytes nm 0 length);
      name' ← access (store_bytes (name led) 0 nm);
      name' ← access (store_bytes name' length [0]);
      match cell child "reg-offset" with
      | None => mret None
      | Some off =>
          match (match of_prop child "bit-index" with
                 | Some _ => cell child "bit-index" | None => cell child "reg-index" end) with
          | None => mret None
          | Some ix =>
              mask ← shl1 ix;
              '(ctrl, eoff, emask, evalue) ← enable_props child;
              match opt_cell child "initial-brightness" LED_OFF with
              | None => mret None
              | Some br =>
                  match opt_cell child "active_low" 0 with
                  | None => mret None
                  | Some al =>
                      mret (Some
                        {| cdev_name := true; cdev_brightness := br; cdev_flags := cdev_flags led;
                           cdev_brightness_set := cdev_brightness_set led;
                           led_reg_base := led_reg_base led; reg_offset := u8 off;
                           reg_mask := u8 mask; enb_reg_offset := eoff; enb_reg_mask := emask;
                           enb_reg_value := evalue; enb_ctrl := ctrl; active_low := swrap 1 al;
                           disabled := disabled led; name := name'; led_brightness_set := setq |})
                  end
              end
          end
      end
  end.

(** The device's node: its own properties, its children, and whether it has a
    parent and the parent is compatible with 'alu,dev'. *)
Record leds_node := { ln_self : of_node; ln_children : list of_node; ln_parent : option bool }.

Record led_answers := {
  a_kzalloc : bool;
  a_iomap : Z;
  a_workqueue : Z;
  a_register : nat → reg_answer;
}.

(** [for_each_child_of_node]: a reference to the child is held during its turn.
    The result is 0, or the error of the child that could not be parsed. *)
Fixpoint parse_children (cs : list of_node) (w : led_world) : run (Z * led_world) :=
  match cs with
  | [] => mret (0, w)
  | child :: cs =>
      let w := set_refs (k_parent_refs w) (k_child_refs w + 1) w in
      p ← the_priv w;
      led ← led_at (num_leds p) w;
      r ← parse_child (use_workqueue p) child led;
      let w := set_refs (k_parent_refs w) (k_child_refs w - 1) w in
      match r with
      | None => mret (- EFAULT, w)
      | Some led =>
          w ← put_led (num_leds p) led w;
          p ← the_priv w;
          parse_children cs (set_priv (Some (set_leds (S (num_leds p)) (leds p) p)) w)
      end
  end.

(** [err:], with the reference to the parent when there is one; [child] is NULL on
    every path that comes here. *)
Definition activate_err (node : bool) (ret : Z) (w : led_world) : run (Z * led_world) :=
  let w := if node then set_refs (k_parent_refs w - 1) (k_child_refs w) w else w in
  '(_, w) ← led_dev_deactivate w; mret (ret, w).

Definition new_priv (count : nat) : led_dev_priv :=
  {| workqueue := 0; use_workqueue := 0; reg_base := 0; num_leds := 0; works := 0;
     leds := replicate count zero_led |}.

Definition led_dev_activate (n : leds_node) (a : led_answers) (w : led_world)
    : run (Z * led_world) :=
  let count := length (ln_children n) in
  if (count =? 0)%nat then mret (0, w)
  else match ln_parent n with
  | None => activate_err false (- ENODEV) w
  | Some compatible =>
      let w := set_refs (k_parent_refs w + 1) (k_child_refs w) w in
      if negb compatible then activate_err true (- ENODEV) w
      else if negb (a_kzalloc a) then activate_err true (- ENOMEM) w
      else
        let priv := set_base (a_iomap a) (new_priv count) in
        let w := set_drvdata true (set_priv (Some priv) w) in
        if a_iomap a =? 0 then activate_err true (- EIO) w
        else
          let w := set_maps ({[a_iomap a]} ∪ k_iomaps w) (k_wqs w) w in
          let w := set_priv (Some (set_queueing 0
                     (match of_prop (ln_self n) "use-workqueue" with Some _ => 1 | None => 0 end)
                     priv)) w in
          '(ret, w) ← parse_children (ln_children n) w;
          if negb (ret =? 0) then activate_err true ret w
          else
            priv ← the_priv w;
            let priv := set_queueing (a_workqueue a) (use_workqueue priv) priv in
            let w := set_priv (Some priv) w in
            if a_workqueue a =? 0 then activate_err true (- ENODEV) w
            else
              let w := set_maps (k_iomaps w) ({[a_workqueue a]} ∪ k_wqs w) w in
              '(ret, w) ← dev_leds_init (reg_base priv) (a_register a) (num_leds priv) w;
              if ret <? 0 then activate_err true ret w else mret (0, w)
  end.

Definition led_dev_probe (n : leds_node) (a : led_answers) : led_world → run (Z * led_world) :=
  led_dev_activate n a.
Definition led_dev_remove : led_world → run (Z * led_world) := led_dev_deactivate.

(** Module init and exit: [bound] says whether the device was bound to the
    driver, which unregistering undoes. *)
Definition led_dev_driver_init (registered : Z) : Z := registered.
Definition led_dev_driver_exit (bound : bool) (w : led_world) : run led_world :=
  if bound then '(_, w) ← led_dev_remove w; mret w else mret w.
End Driver.

(** ** What the device promises

    An abstract panel: for each LED, lit or not. *)
Section Panel.
Context {B : IoBus}.
Implicit Types (w : led_world) (l : dev_led).

Definition led_addr l : Z := led_reg_base l + reg_offset l.

(** An LED as its register shows it. *)
Definition lit l (b : bus) : bool :=
  xorb (negb (Z.land (raw_read 8 (led_addr l) b).1 (reg_mask l) =? 0)) (negb (active_low l =? 0)).

Definition panel w (p : led_dev_priv) : list bool := (λ l, lit l (k_ga w).2) <$> leds p.

(** A request for the LED [r_led], with the memory of its work item. *)
Record request := { r_item : Z; r_led : nat; r_value : Z }.

Definition panel_set (rs : list request) (s : list bool) : list bool :=
  foldl (λ s r, <[r_led r := negb (r_value r =? 0)]> s) s rs.

(** The register of an LED is reachable, and its mask selects a bit. *)
Record led_ok (ga : ga_state) w l : Prop := {
  lo_mapped : led_reg_base l ∈ k_iomaps w;
  lo_unhooked : unhooked ga (led_addr l);
  lo_enabled : disabled l = 0;
  lo_mask : 0 < reg_mask l < 256;
}.

(** No two LEDs share a bit. *)
Definition separate l1 l2 : Prop :=
  led_addr l1 ≠ led_addr l2 ∨ Z.land (reg_mask l1) (reg_mask l2) = 0.

Record panel_ok (ga : ga_state) w (p : led_dev_priv) : Prop := {
  po_priv : k_priv w = Some p;
  po_locks : (k_ga w).1 = free_locks;
  po_leds : Forall (led_ok ga w) (leds p);
  po_separate i j l1 l2 : i ≠ j → leds p !! i = Some l1 → leds p !! j = Some l2 → separate l1 l2;
}.
End Panel.

Section Facts.
Context {B : IoBus} (ga : ga_state).
Implicit Types (w : led_world) (l : dev_led).

Lemma masked_land old m v : Z.land (masked old m v) m = Z.land v m.
Proof.
  apply Z.bits_inj'. intros i _. rewrite !Z.land_spec, masked_spec.
  by destruct (Z.testbit m i); rewrite ?andb_false_r.
Qed.

Lemma masked_disjoint old m v m' : Z.land m m' = 0 → Z.land (masked old m v) m' = Z.land old m'.
Proof.
  intros Hd. apply Z.bits_inj'. intros i _. rewrite !Z.land_spec, masked_spec.
  assert (Z.testbit m i && Z.testbit m' i = false) as Hi by (by rewrite <- Z.land_spec, Hd, Z.bits_0).
  by destruct (Z.testbit m i), (Z.testbit m' i); rewrite ?andb_false_r.
Qed.

Lemma led_at_Some w p i l : k_priv w = Some p → leds p !! i = Some l → led_at i w = Done l.
Proof. intros Hp Hl. unfold led_at, the_priv. by rewrite Hp; simpl; rewrite Hl. Qed.

Lemma mmio_ga {A} base (f : ga_sys → run (A * ga_sys)) w a w' :
  mmio base f w = Done (a, w') → base ∈ k_iomaps w ∧ ∃ g, f (k_ga w) = Done (a, g) ∧ w' = set_ga g w.
Proof.
  unfold mmio. case_decide; [|done]. destruct (f (k_ga w)) as [[x g]| |]; simpl; [|done..].
  intros [= -> <-]. eauto.
Qed.

(** Setting an LED changes the bus only, and depends on the LEDs, the mappings and
    the bus only. *)
Lemma set_local i v w w' :
  _dev_leds_brightness_set ga i v w = Done w' →
  w' = set_ga (k_ga w') w ∧
  ∀ w2 p p2, k_priv w = Some p → k_priv w2 = Some p2 → leds p2 = leds p →
    k_iomaps w2 = k_iomaps w → k_ga w2 = k_ga w →
    _dev_leds_brightness_set ga i v w2 = Done (set_ga (k_ga w') w2).
Proof.
  unfold _dev_leds_brightness_set, led_at, the_priv.
  destruct (k_priv w) as [p|] eqn:Hp; [|done]. cbn [access mbind run_bind].
  destruct (leds p !! i) as [l|] eqn:Hl; [|done]. cbn [access mbind run_bind].
  destruct (disabled l =? 0) eqn:Hd; simpl.
  - set (f := if _ : bool then _ else _). destruct (mmio _ f w) as [[a w1]| |] eqn:Hf; [|done..].
    simpl. intros [= <-]. apply mmio_ga in Hf as (Hm & g & Hg & ->). split; [done|].
    intros w2 q p2 [= <-] -> Hls Hi Hga. simpl. rewrite Hls, Hl. simpl. rewrite Hd.
    unfold mmio. rewrite Hi, decide_True by done. rewrite Hga. fold f. by rewrite Hg.
  - intros [= <-]. split; [by destruct w|]. intros w2 q p2 [= <-] -> Hls Hi Hga. simpl.
    rewrite Hls, Hl. simpl. rewrite Hd, <- Hga. by destruct w2.
Qed.

Lemma panel_ok_set w p b : panel_ok ga w p → panel_ok ga (set_ga (free_locks, b) w) p.
Proof.
  intros [? ? Hl Hs]. split; try done.
  eapply Forall_impl; [done|]. intros l []. by split.
Qed.

Section Registers.
Context `{!RegisterBus B}.

(** Setting an LED: its register bit and nothing else. *)
Lemma set_led w p i l v :
  panel_ok ga w p → leds p !! i = Some l →
  ∃ b', _dev_leds_brightness_set ga i v w = Done (set_ga (free_locks, b') w) ∧
    (raw_read 8 (led_addr l) b').1 =
      masked (raw_read 8 (led_addr l) (k_ga w).2).1 (reg_mask l)
        (if xorb (negb (v =? 0)) (negb (active_low l =? 0)) then reg_mask l else 0) ∧
    ∀ a, a ≠ led_addr l → (raw_read 8 a b').1 = (raw_read 8 a (k_ga w).2).1.
Proof.
  intros [Hp Hlk Hls _] Hl. rewrite Forall_lookup in Hls. destruct (Hls i l Hl) as [Hm Hu Hd Hmask].
  unfold _dev_leds_brightness_set. rewrite (led_at_Some w p i l) by done. cbn [mbind run_bind].
  rewrite Hd. cbn [Z.eqb]. unfold mmio. rewrite decide_True by done.
  destruct (k_ga w) as [lk b]. simpl in Hlk. subst lk. cbn [snd].
  destruct (dev_read_modify_write_ok ga (led_addr l) (reg_mask l)
    (if xorb (negb (v =? 0)) (negb (active_low l =? 0)) then reg_mask l else 0) b Hu)
    as (code & b' & Hrun & Hrd & Hoth).
  exists b'. rewrite u8_id in Hrd by lia.
  split; [|split; [rewrite Hrd; f_equal; destruct (xorb _ _); by rewrite u8_id by lia|done]].
  assert ((if (negb (v =? 0) && negb (active_low l =? 0)) || ((v =? 0) && (active_low l =? 0))
           then dev_read_modify_write ga (led_reg_base l + reg_offset l) (reg_mask l) 0
           else dev_read_modify_write ga (led_reg_base l + reg_offset l) (reg_mask l) (reg_mask l))
          (free_locks, b) = Done (code, (free_locks, b'))) as ->; [|done].
  fold (led_addr l). rewrite <- Hrun. by destruct (v =? 0), (active_low l =? 0).
Qed.

Lemma lit_set l v b b' :
  0 < reg_mask l →
  (raw_read 8 (led_addr l) b').1 =
    masked (raw_read 8 (led_addr l) b).1 (reg_mask l)
      (if xorb v (negb (active_low l =? 0)) then reg_mask l else 0) →
  lit l b' = v.
Proof.
  intros Hm Hr. unfold lit. rewrite Hr, masked_land.
  destruct (active_low l =? 0), v; cbn [negb xorb]; rewrite ?Z.land_diag, ?Z.land_0_l;
    repeat match goal with |- context [?x =? 0] => destruct (Z.eqb_spec x 0) end; simpl; done || lia.
Qed.

(** The panel after one request. *)
Lemma set_panel w p i v :
  panel_ok ga w p → (i < length (leds p))%nat →
  ∃ w', _dev_leds_brightness_set ga i v w = Done w' ∧ w' = set_ga (k_ga w') w ∧
    panel_ok ga w' p ∧ panel w' p = <[i := negb (v =? 0)]> (panel w p).
Proof.
  intros Hok Hi. destruct (lookup_lt_is_Some_2 _ _ Hi) as [l Hl].
  destruct (set_led w p i l v Hok Hl) as (b' & Hrun & Hr & Hoth).
  eexists. split; [done|]. split; [done|]. split; [by apply panel_ok_set|].
  destruct Hok as [_ _ Hls Hsep]. rewrite Forall_lookup in Hls.
  unfold panel. apply list_eq. intros j. rewrite list_lookup_fmap. simpl.
  destruct (decide (j = i)) as [->|Hne].
  - rewrite list_lookup_insert_eq by by rewrite length_fmap. rewrite Hl. simpl. f_equal.
    eapply lit_set; [|exact Hr]. destruct (Hls i l Hl). lia.
  - rewrite list_lookup_insert_ne by done. rewrite list_lookup_fmap.
    destruct (leds p !! j) as [l2|] eqn:Hl2; [|done]. simpl. f_equal. unfold lit.
    destruct (decide (led_addr l2 = led_addr l)) as [Heq|Hneq]; [|by rewrite Hoth].
    destruct (Hsep i j l l2 ltac:(done) Hl Hl2) as [Hx|Hx]; [by rewrite Heq in Hx|].
    rewrite Heq, Hr, masked_disjoint by done. done.
Qed.
End Registers.
End Facts.

(** ** Queued and direct mode *)
Section Queue.
Context {B : IoBus} (ga : ga_state).
Implicit Types (w : led_world) (rs : list request).

(** Calls of [dev_leds_brightness_set], one after the other. *)
Fixpoint submit rs w : run led_world :=
  match rs with
  | [] => mret w
  | r :: rs => w ← dev_leds_brightness_set ga (r_item r) (r_led r) (r_value r) w; submit rs w
  end.

(** The work item of a request while it waits. *)
Definition item_of (r : request) : dev_work :=
  {| wk_pending := true; wk_cdev := Some (r_led r); wk_value := r_value r |}.

(** A device that queues. *)
Definition queueing w p : Prop :=
  k_priv w = Some p ∧ drvdata w = true ∧ use_workqueue p ≠ 0 ∧ workqueue p ∈ k_wqs w.

Lemma submit_one w p x i v :
  queueing w p → x ≠ 0 → x ∉ k_queue w →
  dev_leds_brightness_set ga x i v w = Done
    (set_work (<[x := {| wk_pending := true; wk_cdev := Some i; wk_value := v |}]> (k_works w))
       (k_queue w ++ [x]) (set_priv (Some (set_works x p)) w)).
Proof.
  intros (Hp & Hd & Hu & Hq) Hx Hin. destruct w as [d pr g im wqs wks qu rg pf cf]. simpl in *. subst.
  unfold dev_leds_brightness_set, bs_alloc, bs_init, bs_cdev, bs_value, bs_queue, upd_work, get_drvdata, the_priv.
  apply Z.eqb_neq in Hu, Hx. cbn. rewrite Hu. cbn. rewrite !Hx. cbn. rewrite Hx.
  rewrite bool_decide_false by done. cbn. rewrite !lookup_insert_eq. cbn. rewrite !lookup_insert_eq. cbn.
  rewrite !lookup_insert_eq. cbn. rewrite decide_True by done. rewrite !lookup_insert_eq. cbn.
  by rewrite !insert_insert_eq.
Qed.

(** Sets in the order of the requests. *)
Fixpoint set_all rs w : run led_world :=
  match rs with
  | [] => mret w
  | r :: rs => w ← _dev_leds_brightness_set ga (r_led r) (r_value r) w; set_all rs w
  end.

(** A queue of the items of [rs] drains to the registers that the sets in order
    give, and every item is freed. *)
Lemma drain_all rs w wd wd' p pd :
  k_queue w = r_item <$> rs → NoDup (r_item <$> rs) →
  (∀ r, r ∈ rs → k_works w !! r_item r = Some (item_of r)) →
  k_priv w = Some p → k_priv wd = Some pd → leds p = leds pd →
  k_iomaps w = k_iomaps wd → k_ga w = k_ga wd →
  set_all rs wd = Done wd' →
  ∃ w', drain ga (length rs) w = Done w' ∧
    w' = set_work (k_works w') [] (set_ga (k_ga wd') w) ∧
    (∀ y, k_works w' !! y = if decide (y ∈ r_item <$> rs) then None else k_works w !! y).
Proof.
  revert w wd. induction rs as [|r rs IH]; intros w wd Hq Hnd Hin Hp Hpd Hl Hi Hg Hall.
  { injection Hall as <-. exists w. split; [done|]. split.
    - rewrite <- Hg. simpl in Hq. destruct w. simpl in *. by subst.
    - intros y. rewrite decide_False; [done|]. apply not_elem_of_nil. }
  rewrite fmap_cons in *. apply NoDup_cons in Hnd as [Hni Hnd]. cbn [set_all] in Hall.
  destruct (_dev_leds_brightness_set ga (r_led r) (r_value r) wd) as [wd1| |] eqn:H1; [|done..].
  cbn [mbind run_bind] in Hall. destruct (set_local ga _ _ _ _ H1) as [He1 Hloc].
  cbn [drain length]. unfold worker at 1. rewrite Hq. rewrite Hin by (by left).
  cbn [access mbind run_bind]. unfold dev_led_set_work. simpl. rewrite lookup_insert_eq. simpl.
  erewrite Hloc; [|exact Hpd|exact Hp|done..]. cbn [mbind run_bind]. simpl.
  match goal with |- ∃ _, drain _ _ ?s = _ ∧ _ => set (w1 := s) end.
  destruct (IH w1 wd1) as (w' & Hd & He & Hk); try done.
  - intros r' Hr'. subst w1. simpl.
    assert (r_item r' ≠ r_item r) by (intros Heq; apply Hni; rewrite <- Heq; by apply list_elem_of_fmap_2).
    rewrite lookup_delete_ne, lookup_insert_ne by done. apply Hin. by right.
  - by rewrite He1.
  - by rewrite He1.
  - exists w'. split; [done|]. split; [by rewrite He at 1; subst w1; destruct w|].
    intros y. rewrite Hk. subst w1. simpl. destruct (decide (y = r_item r)) as [->|Hne].
    + rewrite (decide_True (P := _ ∈ _ :: _)) by (by left). rewrite lookup_delete_eq. by case_decide.
    + rewrite lookup_delete_ne, lookup_insert_ne by done.
      apply decide_ext. rewrite elem_of_cons. tauto.
Qed.

(** Direct mode: [dev_leds_brightness_set] sets at once. *)
Lemma submit_direct rs w p :
  k_priv w = Some p → drvdata w = true → use_workqueue p = 0 → submit rs w = set_all rs w.
Proof.
  revert w. induction rs as [|r rs IH]; intros w Hp Hd Hu; [done|]. cbn [submit set_all].
  assert (dev_leds_brightness_set ga (r_item r) (r_led r) (r_value r) w =
          _dev_leds_brightness_set ga (r_led r) (r_value r) w) as ->.
  { unfold dev_leds_brightness_set, get_drvdata, the_priv. rewrite Hd, Hp. simpl. by rewrite Hu. }
  destruct (_dev_leds_brightness_set _ _ _ _) as [w1| |] eqn:H1; [|done..]. simpl.
  apply set_local in H1 as [H1 _]. apply IH; [by rewrite H1|by rewrite H1|done].
Qed.

Lemma set_all_panel `{!RegisterBus B} rs w p :
  panel_ok ga w p → Forall (λ r, (r_led r < length (leds p))%nat) rs →
  ∃ w', set_all rs w = Done w' ∧ w' = set_ga (k_ga w') w ∧ panel_ok ga w' p ∧
    panel w' p = panel_set rs (panel w p).
Proof.
  revert w. induction rs as [|r rs IH]; intros w Hok Hr.
  { exists w. split; [done|]. split; [by destruct w|done]. }
  apply Forall_cons in Hr as [Hr Hrs]. cbn [set_all].
  destruct (set_panel ga w p (r_led r) (r_value r) Hok Hr) as (w1 & -> & He & Hok1 & Hp1).
  destruct (IH w1 Hok1 Hrs) as (w2 & Hrun & He2 & Hok2 & Hp2). exists w2. split; [done|].
  split; [etrans; [exact He2|by rewrite He]|]. split; [done|]. by rewrite Hp2, Hp1.
Qed.
(** *** Calls and the worker interleaved

    A call whose item is 0 is one whose [kzalloc] failed. *)
Inductive event := Call (r : request) | Work.

Definition event_step (e : event) w : run led_world :=
  match e with
  | Call r => dev_leds_brightness_set ga (r_item r) (r_led r) (r_value r) w
  | Work => worker ga w
  end.
Fixpoint run_events (es : list event) w : run led_world :=
  match es with [] => mret w | e :: es => w ← event_step e w; run_events es w end.

(** [kzalloc] does not hand out memory in use. *)
Fixpoint fresh_calls (es : list event) w : Prop :=
  match es with
  | [] => True
  | e :: es =>
      match e with Call r => r_item r ≠ 0 → k_works w !! r_item r = None | Work => True end ∧
      match event_step e w with Done w' => fresh_calls es w' | _ => True end
  end.

(** The requests that got their item, and the number of turns of the worker. *)
Fixpoint served (es : list event) : list request :=
  match es with
  | [] => []
  | Call r :: es => if r_item r =? 0 then served es else r :: served es
  | Work :: es => served es
  end.
Fixpoint turns (es : list event) : nat :=
  match es with [] => 0 | Call _ :: es => turns es | Work :: es => S (turns es) end.

(** From [w0], the requests [ds] are in the registers and [ps] wait. *)
Record lagging w0 p (ds ps : list request) w : Prop := {
  lg_frame : ∃ x, w = set_work (k_works w) (r_item <$> ps) (set_ga (k_ga w) (set_priv (Some (set_works x p)) w0));
  lg_nodup : NoDup (r_item <$> ps);
  lg_items r : r ∈ ps → k_works w !! r_item r = Some (item_of r) ∧ k_works w0 !! r_item r = None;
  lg_others y : y ∉ r_item <$> ps → k_works w !! y = k_works w0 !! y;
  lg_done : ∃ wd, set_all ds w0 = Done wd ∧ k_ga w = k_ga wd;
}.

Lemma lagging_queueing w0 p ds ps w : queueing w0 p → lagging w0 p ds ps w → ∃ x, queueing w (set_works x p).
Proof. intros (? & ? & ? & ?) [[x ->] _ _ _ _]. exists x. by split_and!. Qed.

Lemma submit_failed w p i v :
  queueing w p → dev_leds_brightness_set ga 0 i v w = Done (set_priv (Some (set_works 0 p)) w).
Proof.
  intros (Hp & Hd & Hu%Z.eqb_neq & _). unfold dev_leds_brightness_set, bs_alloc, get_drvdata, the_priv.
  rewrite Hd, Hp. cbn. rewrite Hu. cbn. by rewrite Hd.
Qed.

Lemma lagging_call w0 p ds ps w r :
  queueing w0 p → lagging w0 p ds ps w → (r_item r ≠ 0 → k_works w !! r_item r = None) →
  ∃ w', event_step (Call r) w = Done w' ∧
    lagging w0 p ds (if r_item r =? 0 then ps else ps ++ [r]) w'.
Proof.
  intros Hq Hl Hfr. destruct (lagging_queueing _ _ _ _ _ Hq Hl) as [x0 Hqw]. destruct Hl as [[x Hw] Hnd Hin Hout Hdone].
  cbn [event_step]. destruct (Z.eqb_spec (r_item r) 0) as [H0|H0].
  - rewrite H0, (submit_failed w _ _ _ Hqw). eexists. split; [done|]. split; try done. exists 0. by rewrite Hw at 1.
  - specialize (Hfr H0). assert (r_item r ∉ r_item <$> ps) as Hni.
    { intros (r' & Heq & Hr')%list_elem_of_fmap. destruct (Hin r' Hr') as [Hs _]. by rewrite <- Heq, Hfr in Hs. }
    assert (k_queue w = r_item <$> ps) as Hkq by by rewrite Hw.
    rewrite (submit_one w (set_works x0 p)) by (done || by rewrite Hkq). eexists. split; [done|]. fold (item_of r). split.
    + exists (r_item r). rewrite Hkq, fmap_app. cbn [k_works k_ga set_work set_priv]. by rewrite Hw at 2.
    + rewrite fmap_app. apply NoDup_app. split; [done|]. split; [|apply NoDup_singleton].
      intros y Hy ->%list_elem_of_singleton. by apply Hni.
    + intros r' [Hr'| ->%list_elem_of_singleton]%elem_of_app; simpl.
      * rewrite lookup_insert_ne; [by apply Hin|]. intros Heq. apply Hni. rewrite Heq. by apply list_elem_of_fmap_2.
      * rewrite lookup_insert_eq. split; [done|]. by rewrite <- Hout.
    + intros y. rewrite fmap_app, not_elem_of_app. intros [Hy1 Hy2]. simpl.
      rewrite lookup_insert_ne; [by apply Hout|]. intros <-. apply Hy2. by left.
    + exact Hdone.
Qed.

Lemma set_all_app rs1 rs2 w : set_all (rs1 ++ rs2) w = (w ← set_all rs1 w; set_all rs2 w).
Proof.
  revert w. induction rs1 as [|r rs IH]; intros w; [done|]. cbn [app set_all].
  destruct (_dev_leds_brightness_set _ _ _ _); cbn [mbind run_bind]; [apply IH|done..].
Qed.

Lemma set_all_frame rs w w' : set_all rs w = Done w' → w' = set_ga (k_ga w') w.
Proof.
  revert w. induction rs as [|r rs IH]; intros w H; cbn [set_all] in H.
  { injection H as <-. by destruct w. }
  destruct (_dev_leds_brightness_set _ _ _ _) as [w1| |] eqn:H1; cbn [mbind run_bind] in H; [|done..].
  apply set_local in H1 as [H1 _]. rewrite (IH w1 H) at 1. by rewrite H1.
Qed.

Lemma lagging_work w0 p ds r ps w wd :
  queueing w0 p → lagging w0 p ds (r :: ps) w → set_all (ds ++ [r]) w0 = Done wd →
  ∃ w', event_step Work w = Done w' ∧ lagging w0 p (ds ++ [r]) ps w'.
Proof.
  intros Hq Hl Hall. pose proof Hq as (Hp & _). destruct Hl as [[x Hw] Hnd Hin Hout (wd1 & Hd1 & Hg)].
  rewrite fmap_cons in *. pose proof Hall as Hall2. rewrite set_all_app, Hd1 in Hall2. cbn [mbind run_bind set_all] in Hall2.
  destruct (_dev_leds_brightness_set ga (r_led r) (r_value r) wd1) as [wd2| |] eqn:H2; [|done..].
  injection Hall2 as ->. apply set_all_frame in Hd1 as Hf1. destruct (set_local ga _ _ _ _ H2) as [_ Hloc].
  apply NoDup_cons in Hnd as [Hni Hnd]. destruct (Hin r ltac:(by left)) as [Hr Hr0].
  cbn [event_step]. unfold worker, dev_led_set_work. assert (k_queue w = r_item r :: (r_item <$> ps)) as -> by by rewrite Hw.
  rewrite Hr. cbn [access mbind run_bind]. simpl. rewrite lookup_insert_eq. cbn [access mbind run_bind wk_cdev wk_value item_of].
  erewrite Hloc; [|by rewrite Hf1|by rewrite Hw|done|by rewrite Hf1, Hw|by simpl]. cbn [mbind run_bind mret run_ret].
  eexists. split; [done|]. split; simpl.
  - exists x. clear - Hw. destruct w, w0. unfold set_work, set_ga, set_priv in *. simpl in *. injection Hw; intros; subst; reflexivity.
  - done.
  - intros r' Hr'. destruct (Hin r' ltac:(by right)) as [Hs H0]. split; [|done].
    assert (r_item r ≠ r_item r') by (intros Heq; apply Hni; rewrite Heq; by apply list_elem_of_fmap_2).
    by rewrite lookup_delete_ne, lookup_insert_ne.
  - intros y Hy. destruct (decide (y = r_item r)) as [->|Hne]; [by rewrite lookup_delete_eq|].
    rewrite lookup_delete_ne, lookup_insert_ne by done. apply Hout. by rewrite not_elem_of_cons.
  - by exists wd.
Qed.

Lemma set_all_same rs w w2 wx wy p p2 :
  k_priv w = Some p → k_priv w2 = Some p2 → leds p2 = leds p →
  k_iomaps w2 = k_iomaps w → k_ga w2 = k_ga w →
  set_all rs w = Done wx → set_all rs w2 = Done wy → k_ga wx = k_ga wy.
Proof.
  revert w w2. induction rs as [|r rs IH]; intros w w2 Hp Hp2 Hl Hi Hg H1 H2; cbn [set_all] in *.
  { injection H1 as <-. injection H2 as <-. done. }
  destruct (_dev_leds_brightness_set ga (r_led r) (r_value r) w) as [w1| |] eqn:E; cbn [mbind run_bind] in H1; [|done..].
  destruct (set_local ga _ _ _ _ E) as [He Hloc]. rewrite (Hloc w2 p p2) in H2 by done. cbn [mbind run_bind] in H2.
  apply (IH w1 (set_ga (k_ga w1) w2)); try done; by rewrite He.
Qed.

(** The direct mode can do the requests of [rs] from [w0]. *)
Definition direct_ok w0 rs : Prop := ∀ n, ∃ wd, set_all (take n rs) w0 = Done wd.

Lemma run_events_lagging es w0 p ds ps w :
  queueing w0 p → lagging w0 p ds ps w → fresh_calls es w → direct_ok w0 (ds ++ ps ++ served es) →
  ∃ ds' ps' w', run_events es w = Done w' ∧ lagging w0 p ds' ps' w' ∧
    ds' ++ ps' = ds ++ ps ++ served es ∧ (length ds' <= length ds + turns es)%nat.
Proof.
  intros Hq. revert ds ps w. induction es as [|e es IH]; intros ds ps w Hl Hf Hdo.
  { exists ds, ps, w. cbn. rewrite app_nil_r. split_and!; done || lia. }
  destruct Hf as [Hf1 Hf2]. cbn [run_events]. destruct e as [r|]; cbn [served turns] in *.
  - destruct (lagging_call w0 p ds ps w r Hq Hl Hf1) as (w1 & Hw1 & Hl1). rewrite Hw1 in Hf2 |- *. cbn [mbind run_bind].
    destruct (r_item r =? 0); destruct (IH _ _ w1 Hl1 Hf2) as (ds' & ps' & w' & ? & ? & Heq & ?);
      rewrite <- ?app_assoc in *; try done; exists ds', ps', w'; split_and!; done.
  - destruct ps as [|r ps].
    { assert (event_step Work w = Done w) as Hstep.
      { cbn [event_step]. unfold worker. by destruct Hl as [[x ->] _ _ _ _]. }
      rewrite Hstep in Hf2 |- *. cbn [mbind run_bind]. destruct (IH _ _ w Hl Hf2 Hdo) as (ds' & ps' & w' & ? & ? & ? & ?).
      exists ds', ps', w'. split_and!; try done. lia. }
    destruct (Hdo (length ds + 1)%nat) as [wd Hwd]. cbn [app] in Hwd.
    rewrite cons_middle, app_assoc, take_app_length' in Hwd by (rewrite length_app; simpl; lia).
    destruct (lagging_work w0 p ds r ps w wd Hq Hl Hwd) as (w1 & Hw1 & Hl1). rewrite Hw1 in Hf2 |- *. cbn [mbind run_bind].
    destruct (IH _ _ w1 Hl1 Hf2) as (ds' & ps' & w' & ? & ? & Heq & Hlen).
    { by rewrite <- app_assoc. }
    exists ds', ps', w'. rewrite <- app_assoc in Heq. rewrite length_app in Hlen. simpl in *. split_and!; try done. lia.
Qed.
End Queue.

(** ** Concurrent callers *)

(** One statement of the queueing branch. *)
Inductive bs_step := BsAlloc (x : Z) | BsInit | BsCdev (i : nat) | BsValue (v : Z) | BsQueue.

Definition bs_do `{IoBus} (s : bs_step) : led_world → run led_world :=
  match s with
  | BsAlloc x => bs_alloc x | BsInit => bs_init | BsCdev i => bs_cdev i
  | BsValue v => bs_value v | BsQueue => bs_queue
  end.
Fixpoint bs_run `{IoBus} (l : list bs_step) (w : led_world) : run led_world :=
  match l with [] => mret w | s :: l => w ← bs_do s w; bs_run l w end.

(** A call whose allocation succeeds. *)
Definition bs_call (x : Z) (i : nat) (v : Z) : list bs_step :=
  [BsAlloc x; BsInit; BsCdev i; BsValue v; BsQueue].

(** The ways two callers can be scheduled. *)
Inductive interleave {A} : list A → list A → list A → Prop :=
| il_nil : interleave [] [] []
| il_l a l1 l2 l : interleave l1 l2 l → interleave (a :: l1) l2 (a :: l)
| il_r a l1 l2 l : interleave l1 l2 l → interleave l1 (a :: l2) (a :: l).

Lemma bs_call_seq `{IoBus} ga w p x i v :
  queueing w p → x ≠ 0 → dev_leds_brightness_set ga x i v w = bs_run (bs_call x i v) w.
Proof.
  intros (Hp & Hd & Hu & Hq) Hx. apply Z.eqb_neq in Hu, Hx.
  destruct w as [d pr g im wqs wks qu rg pf cf]. simpl in *. subst.
  unfold dev_leds_brightness_set, bs_call, bs_alloc, get_drvdata, the_priv. cbn [bs_run bs_do].
  unfold bs_alloc, get_drvdata, the_priv. cbn [k_priv drvdata access mbind run_bind]. rewrite Hu, Hx.
  cbn [negb mret run_ret mbind run_bind drvdata set_work set_priv k_priv access works set_works].
  rewrite Hx.
  destruct (bs_init _); cbn [mbind run_bind]; [|done..].
  destruct (bs_cdev _ _); cbn [mbind run_bind]; [|done..].
  destruct (bs_value _ _); cbn [mbind run_bind]; [|done..]. by destruct (bs_queue _).
Qed.

(** The schedule in which both callers find the second one's item. *)
Definition bad_schedule (x y : Z) (i j : nat) (v u : Z) : list bs_step :=
  [BsAlloc x; BsAlloc y; BsInit; BsCdev i; BsValue v; BsInit; BsCdev j; BsValue u; BsQueue; BsQueue].

Lemma bad_schedule_interleaves x y i j v u :
  interleave (bs_call x i v) (bs_call y j u) (bad_schedule x y i j v u).
Proof.
  unfold bs_call, bad_schedule. apply il_l, il_r. do 3 apply il_l. do 3 apply il_r.
  apply il_l, il_r, il_nil.
Qed.

(** The effect of each statement on a device that queues, [x] being the item
    [priv->works] points to. *)
Section Steps.
Context `{IoBus} (w : led_world) (p : led_dev_priv) (x : Z) (k : dev_work).
Hypothesis Hq : queueing w p.
Hypothesis Hx : works p = x.
Hypothesis Hk : k_works w !! x = Some k.

Lemma step_upd f : upd_work f w = Done (set_work (<[x := f k]> (k_works w)) (k_queue w) w).
Proof using Hq Hx Hk.
  destruct Hq as (Hp & Hd & _). unfold upd_work, get_drvdata, the_priv. rewrite Hd, Hp.
  cbn [access mbind run_bind]. by rewrite Hx, Hk.
Qed.

Lemma step_init : x ∉ k_queue w →
  bs_init w = Done (set_work (<[x := {| wk_pending := false; wk_cdev := wk_cdev k; wk_value := wk_value k |}]>
                                (k_works w)) (k_queue w) w).
Proof using Hq Hx Hk.
  intros Hni. pose proof Hq as (Hp & Hd & _). unfold bs_init, get_drvdata, the_priv. rewrite Hd, Hp.
  cbn [access mbind run_bind]. rewrite bool_decide_false by by rewrite Hx. apply step_upd.
Qed.

Lemma step_queue :
  bs_queue w = Done (if wk_pending k then w
                     else set_work (<[x := {| wk_pending := true; wk_cdev := wk_cdev k; wk_value := wk_value k |}]>
                                      (k_works w)) (k_queue w ++ [x]) w).
Proof using Hq Hx Hk.
  pose proof Hq as (Hp & Hd & _ & Hw). unfold bs_queue, get_drvdata, the_priv. rewrite Hd, Hp.
  cbn [access mbind run_bind]. rewrite decide_True by done. rewrite Hx, Hk.
  cbn [access mbind run_bind]. by destruct (wk_pending k).
Qed.
End Steps.

Lemma step_alloc `{IoBus} w p x : queueing w p → x ≠ 0 →
  bs_alloc x w = Done (set_work (<[x := {| wk_pending := false; wk_cdev := None; wk_value := 0 |}]> (k_works w))
                         (k_queue w) (set_priv (Some (set_works x p)) w)).
Proof.
  intros (Hp & Hd & _) Hx%Z.eqb_neq. unfold bs_alloc, get_drvdata, the_priv. rewrite Hd, Hp.
  cbn [access mbind run_bind]. by rewrite Hx.
Qed.

Lemma set_work_twice `{IoBus} m q m' q' w : set_work m q (set_work m' q' w) = set_work m q w.
Proof. done. Qed.
Lemma works_set_work `{IoBus} m q w : k_works (set_work m q w) = m.
Proof. done. Qed.
Lemma queue_set_work `{IoBus} m q w : k_queue (set_work m q w) = q.
Proof. done. Qed.
Lemma set_priv_work `{IoBus} p p' m q w :
  set_priv p (set_work m q (set_priv p' w)) = set_work m q (set_priv p w).
Proof. done. Qed.

(** Keep a world flat after a step. *)
Ltac tidy :=
  cbn [mbind run_bind wk_pending wk_cdev wk_value];
  rewrite ?works_set_work, ?queue_set_work, ?set_priv_work, ?set_work_twice, ?insert_insert_eq.

Lemma queueing_works `{IoBus} w p x m q :
  queueing w p → queueing (set_work m q (set_priv (Some (set_works x p)) w)) (set_works x p).
Proof. by intros (? & ? & ? & ?). Qed.

Lemma bad_schedule_run `{IoBus} w p x y i j v u :
  queueing w p → x ≠ 0 → y ≠ 0 → x ≠ y → y ∉ k_queue w →
  ∃ w', bs_run (bad_schedule x y i j v u) w = Done w' ∧
    w' = set_work (k_works w') (k_queue w ++ [y]) (set_priv (Some (set_works y p)) w) ∧
    k_works w' !! y = Some {| wk_pending := true; wk_cdev := Some j; wk_value := u |} ∧
    k_works w' !! x = Some {| wk_pending := false; wk_cdev := None; wk_value := 0 |}.
Proof.
  intros Hq Hx Hy Hxy Hin. unfold bad_schedule. cbn [bs_run bs_do]. unfold bs_cdev, bs_value.
  rewrite (step_alloc w p) by done. tidy.
  rewrite (step_alloc _ (set_works x p)) by (done || by apply queueing_works). tidy.
  pose proof (λ m q, queueing_works w p y m q Hq) as Hq2.
  change (k_works (set_priv _ w)) with (k_works w). change (k_queue (set_priv _ w)) with (k_queue w).
  change (set_works y (set_works x p)) with (set_works y p).
  repeat (first [erewrite (step_init _ (set_works y p) y) | erewrite (step_upd _ (set_works y p) y)
                |erewrite (step_queue _ (set_works y p) y)];
          [|apply Hq2|reflexivity|apply lookup_insert_eq|rewrite ?queue_set_work; done..]; tidy).
  eexists. split; [reflexivity|]. rewrite works_set_work. split; [reflexivity|].
  split; [by rewrite lookup_insert_eq|]. by rewrite lookup_insert_ne, lookup_insert_eq.
Qed.

(** ** Theorems *)
Section Theorems.
Context {B : IoBus} `{!RegisterBus B} (ga : ga_state).
Implicit Types (w : led_world) (rs : list request).

Definition with_use (u : Z) w : led_world :=
  match k_priv w with
  | Some p => set_priv (Some (set_queueing (workqueue p) u p)) w
  | None => w
  end.

Lemma panel_ok_with_use w p u :
  panel_ok ga w p → panel_ok ga (with_use u w) (set_queueing (workqueue p) u p).
Proof using Type.
  intros [Hp ? Hl Hs]. unfold with_use. rewrite Hp. split; try done.
  eapply Forall_impl; [done|]. intros l []. by split.
Qed.

Lemma get_panel w p i : panel_ok ga w p → (i < length (leds p))%nat →
  ∃ l, leds p !! i = Some l ∧
    _dev_leds_brightness_get ga i w = Done (if lit l (k_ga w).2 then LED_FULL else LED_OFF, w).
Proof.
  intros [Hp Hlk Hls _] Hi. destruct (lookup_lt_is_Some_2 _ _ Hi) as [l Hl]. exists l. split; [done|].
  rewrite Forall_lookup in Hls. destruct (Hls i l Hl) as [Hm Hu Hd Hmask].
  unfold _dev_leds_brightness_get. rewrite (led_at_Some w p i l) by done. cbn [mbind run_bind].
  rewrite Hd. cbn [Z.eqb]. unfold mmio. rewrite decide_True by done.
  destruct (k_ga w) as [lk b] eqn:Hg. simpl in Hlk. subst lk. fold (led_addr l).
  rewrite (dev_read_ok ga (led_addr l) b Hu). cbn [mbind run_bind mret run_ret snd]. unfold lit.
  assert (set_ga (free_locks, b) w = w) as -> by (rewrite <- Hg; by destruct w).
  by destruct (Z.land _ _ =? 0), (active_low l =? 0).
Qed.

(** C14: a device in direct mode is its panel of LEDs.  On registers that behave as
    memory, for LEDs that do not share a bit, every sequence of brightness requests
    returns, changes nothing but registers, and leaves each LED as its last request
    asked, lit for any non-zero value and whatever the LED's polarity, the others as
    they were; [brightness_get] then reports exactly that. *)
Theorem led_refines_panel w p rs :
  panel_ok ga w p → drvdata w = true → use_workqueue p = 0 →
  Forall (λ r, (r_led r < length (leds p))%nat) rs →
  ∃ w', submit ga rs w = Done w' ∧ w' = set_ga (k_ga w') w ∧ panel_ok ga w' p ∧
    panel w' p = panel_set rs (panel w p) ∧
    ∀ i, (i < length (leds p))%nat → ∃ on, panel_set rs (panel w p) !! i = Some on ∧
      _dev_leds_brightness_get ga i w' = Done (if on : bool then LED_FULL else LED_OFF, w').
Proof.
  intros Hok Hd Hu Hrs. pose proof (po_priv _ _ _ Hok) as Hp.
  rewrite (submit_direct ga rs w p) by done.
  destruct (set_all_panel ga rs w p Hok Hrs) as (w' & Hrun & He & Hok' & Hpan).
  exists w'. do 4 (split; [done|]). intros i Hi.
  destruct (get_panel w' p i Hok' Hi) as (l & Hl & Hget). eexists. split; [|exact Hget].
  rewrite <- Hpan. unfold panel. by rewrite list_lookup_fmap, Hl.
Qed.

(** C15: the workqueue changes when the registers are written, not what is
    written, for calls that do not overlap one another.  Take any sequence of calls
    on a device with [use-workqueue], with the worker taking turns anywhere between
    them and any of the allocations failing.  The sequence returns; at its end the
    registers are those that the direct mode gives for a first part of the requests
    that were allocated, the rest of them wait in order, and a request only reaches
    the registers by a turn of the worker.  When the worker has then run through the
    queue the registers are those of all these requests in direct mode, every work
    item was freed and the queue is empty. *)
Theorem led_workqueue_equivalent w p es :
  panel_ok ga w p → queueing w p → k_queue w = [] → fresh_calls ga es w →
  Forall (λ r, (r_led r < length (leds p))%nat) (served es) →
  ∃ ds ps wd1 wd wq wf, run_events ga es w = Done wq ∧
    served es = ds ++ ps ∧ k_queue wq = r_item <$> ps ∧ (length ds <= turns es)%nat ∧
    submit ga ds (with_use 0 w) = Done wd1 ∧ k_ga wq = k_ga wd1 ∧
    submit ga (served es) (with_use 0 w) = Done wd ∧
    drain ga (length (k_queue wq)) wq = Done wf ∧
    k_ga wf = k_ga wd ∧ k_works wf = k_works w ∧ k_queue wf = [].
Proof.
  intros Hok Hq Hqu Hf Hrs. pose proof Hq as (Hp & Hd & _).
  assert (direct_ok ga w (served es)) as Hdo.
  { intros n. destruct (set_all_panel ga (take n (served es)) w p Hok) as (wd & Hrun & _); [by apply Forall_take|by exists wd]. }
  assert (∀ rs, Forall (λ r, (r_led r < length (leds p))%nat) rs → ∃ wx wy,
    set_all ga rs w = Done wx ∧ submit ga rs (with_use 0 w) = Done wy ∧ k_ga wx = k_ga wy) as Hdirect.
  { intros rs Hr. destruct (set_all_panel ga rs w p Hok Hr) as (wx & Hx & _).
    destruct (set_all_panel ga rs (with_use 0 w) _ (panel_ok_with_use w p 0 Hok) Hr) as (wy & Hy & _).
    exists wx, wy. rewrite (submit_direct ga rs _ (set_queueing (workqueue p) 0 p)) by (unfold with_use; rewrite ?Hp; done).
    split_and!; try done. apply (set_all_same ga rs w (with_use 0 w) wx wy p (set_queueing (workqueue p) 0 p)); try done; unfold with_use; rewrite ?Hp; done. }
  destruct (run_events_lagging ga es w p [] [] w Hq) as (ds & ps & wq & Hrun & Hl & Heq & Hlen); try done.
  { split; [|constructor|intros r Hr; by apply elem_of_nil in Hr|done|by exists w].
    exists (works p). destruct w. simpl in *. subst. by destruct p. }
  simpl in Heq. rewrite <- Heq in *. apply Forall_app in Hrs as Hrs2. destruct Hrs2 as [Hr1 Hr2].
  destruct (Hdirect ds Hr1) as (wx1 & wd1 & Hx1 & Hs1 & He1). destruct (Hdirect _ Hrs) as (wx & wd & Hx & Hs & He).
  destruct Hl as [[x Hfr] Hnd Hin Hout (wd1' & Hd1 & Hg)]. rewrite Hx1 in Hd1. injection Hd1 as <-.
  rewrite set_all_app, Hx1 in Hx. cbn [mbind run_bind] in Hx. pose proof (set_all_frame ga _ _ _ Hx1) as Hf1.
  destruct (drain_all ga ps wq wx1 wx (set_works x p) p) as (wf & Hdr & Hef & Hwk); try done;
    try (by rewrite Hfr); try (by rewrite Hf1).
  { intros r Hr. by apply Hin. }
  { rewrite Hf1. by rewrite Hfr. }
  exists ds, ps, wd1, wd, wq, wf. assert (k_queue wq = r_item <$> ps) as -> by by rewrite Hfr.
  rewrite length_fmap. split_and!; try done; try congruence.
  - rewrite Hef. simpl. by rewrite He.
  - apply map_eq. intros y. rewrite Hwk. case_decide as Hy; [|by apply Hout].
    apply list_elem_of_fmap in Hy as (r & -> & Hr). by destruct (Hin r Hr).
  - by rewrite Hef.
Qed.

(** [priv->works] is shared, so two calls that overlap can lose one: there is a
    schedule of the statements of two calls for different LEDs in which both
    callers use the item of the second.  The first LED never changes and the item
    of the first call is never freed.  Calls that do not overlap are the steps of
    [bs_call] in sequence, and lose nothing. *)
Theorem led_overlapping_calls_lose_update w p x y i j v u :
  panel_ok ga w p → queueing w p → k_queue w = [] → x ≠ 0 → y ≠ 0 → x ≠ y →
  (i < length (leds p))%nat → (j < length (leds p))%nat → i ≠ j →
  ∃ sched w1 w2,
    interleave (bs_call x i v) (bs_call y j u) sched ∧
    bs_run sched w = Done w1 ∧ drain ga (length (k_queue w1)) w1 = Done w2 ∧
    panel w2 p = <[j := negb (u =? 0)]> (panel w p) ∧
    panel w2 p !! i = panel w p !! i ∧
    k_queue w2 = [] ∧ is_Some (k_works w2 !! x) ∧
    dev_leds_brightness_set ga x i v w = bs_run (bs_call x i v) w.
Proof.
  intros Hok Hq Hqu Hx Hy Hxy Hi Hj Hij. pose proof Hq as (Hp & Hd & _).
  exists (bad_schedule x y i j v u).
  destruct (bad_schedule_run w p x y i j v u Hq Hx Hy Hxy) as (w1 & Hrun & He & Hwy & Hwx).
  { rewrite Hqu. apply not_elem_of_nil. }
  rewrite Hqu in He. set (r := {| r_item := y; r_led := j; r_value := u |}).
  destruct (set_all_panel ga [r] w p Hok) as (wd & Hall & Hed & _ & Hpan); [by repeat constructor|].
  destruct (drain_all ga [r] w1 w wd (set_works y p) p) as (w2 & Hdr & Hef & Hwk); try done;
    try (by rewrite He).
  { constructor; [apply not_elem_of_nil|constructor]. }
  { intros r' ->%list_elem_of_singleton. exact Hwy. }
  assert (panel w2 p = <[j := negb (u =? 0)]> (panel w p)) as Hp2.
  { rewrite Hef. exact Hpan. }
  exists w1, w2. split; [apply bad_schedule_interleaves|]. split; [done|].
  assert (k_queue w1 = [y]) as -> by by rewrite He. split; [done|]. split; [done|].
  split; [rewrite Hp2; by apply list_lookup_insert_ne|]. split; [by rewrite Hef|].
  split; [|by apply (bs_call_seq ga w p)].
  rewrite Hwk, decide_False; [by rewrite Hwx|]. by intros ?%list_elem_of_singleton.
Qed.
End Theorems.

(** ** Witnesses *)
Import CellBus.

(** Two LEDs in the register at 0x1001, the second active low. *)
Definition demo_led (mask al : Z) : dev_led :=
  {| cdev_name := true; cdev_brightness := 0; cdev_flags := LED_CORE_SUSPENDRESUME;
     cdev_brightness_set := Some SetNow; led_reg_base := 0x1000; reg_offset := 1; reg_mask := mask;
     enb_reg_offset := 0; enb_reg_mask := 0; enb_reg_value := 0; enb_ctrl := 0; active_low := al;
     disabled := 0; name := zeros 32; led_brightness_set := None |}.
Definition demo_priv (use : Z) : led_dev_priv :=
  {| workqueue := 7; use_workqueue := use; reg_base := 0x1000; num_leds := 2; works := 0;
     leds := [demo_led 1 0; demo_led 2 (-1)] |}.
Definition demo_leds (use : Z) : led_world :=
  {| drvdata := true; k_priv := Some (demo_priv use); k_ga := (free_locks, ∅); k_iomaps := {[0x1000]};
     k_wqs := {[7]}; k_works := ∅; k_queue := []; k_registered := {[0%nat; 1%nat]};
     k_parent_refs := 1; k_child_refs := 0 |}.
Definition demo_requests : list request :=
  [{| r_item := 50; r_led := 0; r_value := 255 |}; {| r_item := 51; r_led := 1; r_value := 1 |};
   {| r_item := 52; r_led := 0; r_value := 0 |}].

Lemma plain_free a : unhooked plain a.
Proof. split; by left. Qed.

Lemma demo_panel_ok use : panel_ok plain (demo_leds use) (demo_priv use).
Proof.
  split; try done.
  - repeat constructor; simpl; try apply plain_free; try set_solver; lia.
  - intros [|[|]] [|[|]] l1 l2 Hne H1 H2; simplify_eq/=; by right.
Qed.

Lemma led_refines_panel_witness :
  ∃ w', submit plain demo_requests (demo_leds 0) = Done w' ∧
    panel w' (demo_priv 0) = [false; true] ∧
    _dev_leds_brightness_get plain 1 w' = Done (LED_FULL, w').
Proof.
  destruct (led_refines_panel plain (demo_leds 0) (demo_priv 0) demo_requests)
    as (w' & Hrun & _ & _ & Hp & Hget);
    [apply demo_panel_ok|done|done|repeat constructor; simpl; lia|].
  exists w'. split; [exact Hrun|]. split; [by rewrite Hp|].
  destruct (Hget 1%nat) as (on & Hon & Hg); [simpl; lia|].
  assert (on = true) as -> by (vm_compute in Hon; congruence). exact Hg.
Defined.

(** A worker turn between the calls, and a call without memory. *)
Definition demo_events : list event :=
  [Call {| r_item := 50; r_led := 0; r_value := 255 |}; Work;
   Call {| r_item := 0; r_led := 0; r_value := 0 |}; Call {| r_item := 50; r_led := 1; r_value := 1 |}].

Lemma led_workqueue_equivalent_witness :
  ∃ wd wf wq, submit plain (served demo_events) (with_use 0 (demo_leds 1)) = Done wd ∧
    run_events plain demo_events (demo_leds 1) = Done wq ∧
    drain plain (length (k_queue wq)) wq = Done wf ∧ k_ga wf = k_ga wd.
Proof.
  destruct (led_workqueue_equivalent plain (demo_leds 1) (demo_priv 1) demo_events)
    as (ds & ps & wd1 & wd & wq & wf & H1 & _ & _ & _ & _ & _ & H2 & H3 & H4 & _);
    [apply demo_panel_ok|repeat split; simpl; done || set_solver|done| |repeat constructor; simpl; lia|].
  { vm_compute. tauto. }
  exists wd, wf, wq. exact (conj H2 (conj H1 (conj H3 H4))).
Defined.

Lemma led_overlapping_calls_lose_update_witness :
  ∃ sched w1 w2, interleave (bs_call 50 0 255) (bs_call 51 1 1) sched ∧
    bs_run sched (demo_leds 1) = Done w1 ∧ drain plain (length (k_queue w1)) w1 = Done w2 ∧
    panel w2 (demo_priv 1) = <[1%nat := true]> (panel (demo_leds 1) (demo_priv 1)) ∧ is_Some (k_works w2 !! 50).
Proof.
  destruct (led_overlapping_calls_lose_update plain (demo_leds 1) (demo_priv 1) 50 51 0 1 255 1)
    as (sched & w1 & w2 & Hi & Hr & Hd & Hp & _ & _ & Hx & _);
    [apply demo_panel_ok|repeat split; simpl; done || set_solver|done|done|done|done|simpl; lia|simpl; lia|done|].
  exists sched, w1, w2. exact (conj Hi (conj Hr (conj Hd (conj Hp Hx)))).
Defined.
