(* ===== verification/LedBind.v ===== *)
(** * Binding and unbinding of the LED driver: led/led_dev.c

    How [led_dev_activate] and [led_dev_deactivate] can end: which resources each
    outcome holds, which failures come back, and the descriptors the device tree is
    read into. *)

From S2P Require Import Prelude KernelApi GenericAccess Led.

(** ** Activation: what a call leaves behind *)
Section Frame.
Context {B : IoBus} (ga : ga_state) (off : bool) (stray : nat → led_world → run led_world).
Implicit Types (w : led_world).

(** The same private data but for [works]. *)
Definition same_priv (p p' : led_dev_priv) : Prop := p' = set_works (works p') p.

(** What no brightness change touches. *)
Record frame w w' : Prop := {
  fr_drvdata : drvdata w' = drvdata w;
  fr_iomaps : k_iomaps w' = k_iomaps w;
  fr_wqs : k_wqs w' = k_wqs w;
  fr_registered : k_registered w' = k_registered w;
  fr_parent : k_parent_refs w' = k_parent_refs w;
  fr_child : k_child_refs w' = k_child_refs w;
  fr_priv p : k_priv w = Some p → ∃ p', k_priv w' = Some p' ∧ same_priv p p';
}.

Lemma same_priv_refl p : same_priv p p.
Proof. by destruct p. Qed.
#[local] Hint Resolve same_priv_refl : core.
Lemma frame_refl w : frame w w.
Proof. split; eauto. Qed.
Lemma frame_trans w1 w2 w3 : frame w1 w2 → frame w2 w3 → frame w1 w3.
Proof.
  intros [] []. split; try congruence. intros p Hp.
  destruct (fr_priv0 p Hp) as (p2 & Hp2 & Hs2). destruct (fr_priv1 p2 Hp2) as (p3 & Hp3 & Hs3).
  exists p3. split; [done|]. red in Hs2, Hs3 |- *. by rewrite Hs3, Hs2.
Qed.
Lemma frame_ga w g : frame w (set_ga g w).
Proof. split; eauto. Qed.
Lemma frame_work w m q : frame w (set_work m q w).
Proof. split; eauto. Qed.
Lemma frame_works w p x : k_priv w = Some p → frame w (set_priv (Some (set_works x p)) w).
Proof. intros Hp. split; try done. intros q Hq. eexists. split; [done|]. by simplify_eq. Qed.
#[local] Hint Resolve frame_refl frame_ga frame_work frame_works : core.

Lemma set_frame i v w w' : _dev_leds_brightness_set ga i v w = Done w' → frame w w'.
Proof. intros [-> _]%set_local. auto. Qed.

Lemma enb_frame i w w' : dev_leds_enb_reg_set ga i w = Done w' → frame w w'.
Proof.
  unfold dev_leds_enb_reg_set. destruct (led_at i w); [|done..]. cbn [mbind run_bind].
  split_if; [|by intros [= <-]].
  destruct (mmio _ _ w) as [[c w1]| |] eqn:Hm; [|done..]. intros [= <-].
  apply mmio_ga in Hm as (_ & g & _ & ->). auto.
Qed.

Lemma get_drvdata_Done w p : get_drvdata w = Done p → k_priv w = Some p.
Proof. unfold get_drvdata, the_priv. destruct (drvdata w), (k_priv w); simpl; congruence. Qed.

Lemma upd_work_frame f w w' : upd_work f w = Done w' → frame w w'.
Proof.
  unfold upd_work. destruct (get_drvdata w); [|done..]. cbn [mbind run_bind].
  destruct (k_works w !! _); [|done]. cbn [access mbind run_bind]. intros [= <-]. auto.
Qed.

Lemma bs_queue_frame w w' : bs_queue w = Done w' → frame w w'.
Proof.
  unfold bs_queue. destruct (get_drvdata w); [|done..]. cbn [mbind run_bind]. case_decide; [|done].
  destruct (k_works w !! _); [|done]. cbn [access mbind run_bind]. split_if; intros [= <-]; auto.
Qed.

Lemma bs_alloc_frame x w w' : bs_alloc x w = Done w' → frame w w'.
Proof.
  unfold bs_alloc. destruct (get_drvdata w) as [p| |] eqn:Hp; [|done..]. apply get_drvdata_Done in Hp.
  cbn [mbind run_bind]. split_if; intros [= <-]; [auto|].
  eapply frame_trans; [by apply frame_works|]. auto.
Qed.

Lemma queued_frame x i v w w' : dev_leds_brightness_set ga x i v w = Done w' → frame w w'.
Proof.
  unfold dev_leds_brightness_set. destruct (get_drvdata w) as [p| |] eqn:Hp; [|done..].
  cbn [mbind run_bind]. split_if; [|by apply set_frame].
  destruct (bs_alloc x w) as [w1| |] eqn:H1; [|done..]. apply bs_alloc_frame in H1.
  cbn [mbind run_bind]. destruct (get_drvdata w1); [|done..]. cbn [mbind run_bind].
  split_if; [by intros [= <-]|].
  unfold bs_init, bs_cdev, bs_value. destruct (get_drvdata w1); [|done..]. cbn [mbind run_bind].
  case_bool_decide; [done|]. intros Hrun.
  apply bind_Done in Hrun as (w2 & ?%upd_work_frame & Hrun).
  apply bind_Done in Hrun as (w3 & ?%upd_work_frame & Hrun).
  apply bind_Done in Hrun as (w4 & ?%upd_work_frame & Hrun).
  apply bs_queue_frame in Hrun. eauto using frame_trans.
Qed.

Lemma call_frame x i v w w' : call_brightness_set ga x i v w = Done w' → frame w w'.
Proof.
  unfold call_brightness_set. destruct (led_at i w) as [l| |]; [|done..]. cbn [mbind run_bind].
  destruct (cdev_brightness_set l) as [[]|]; [apply set_frame|apply queued_frame|done].
Qed.

Lemma led_worker_frame w w' : worker ga w = Done w' → frame w w'.
Proof.
  unfold worker. destruct (k_queue w) as [|x q]; [by intros [= <-]|].
  intros (k & _ & H)%bind_Done. unfold dev_led_set_work in H.
  apply bind_Done in H as (k' & _ & H). apply bind_Done in H as (i & _ & H).
  apply bind_Done in H as (w1 & E%set_frame & [= <-]).
  eapply frame_trans; [|apply frame_work]. eapply frame_trans; [|exact E]. auto.
Qed.

Lemma drain_frame n w w' : drain ga n w = Done w' → frame w w'.
Proof.
  revert w. induction n as [|n IH]; intros w; [by intros [= <-]|]. cbn [drain].
  destruct (worker ga w) eqn:E; [|done..]. apply led_worker_frame in E. intros H%IH.
  by eapply frame_trans.
Qed.

Lemma unregister_frame i w w' : i ∈ k_registered w → led_classdev_unregister ga off stray i w = Done w' →
  k_registered w' = k_registered w ∖ {[i]} ∧ frame (set_registered (k_registered w') w) w'.
Proof.
  intros Hi. unfold led_classdev_unregister. rewrite decide_True by done. intros H.
  destruct (if off then _ else _) as [w1| |] eqn:E; [|done..]. injection H as <-. simpl.
  assert (frame w w1) as [] by (destruct off; [by apply call_frame in E|by injection E as <-]).
  rewrite fr_registered0. by split.
Qed.
End Frame.

Section Outcomes.
Context {B : IoBus} (ga : ga_state) (off : bool) (stray : nat → led_world → run led_world).
Implicit Types (w : led_world).

(** The weaker frame of the registration loop, which also completes the LEDs. *)
Record sim_priv (p p' : led_dev_priv) : Prop := {
  sp_workqueue : workqueue p' = workqueue p;
  sp_use : use_workqueue p' = use_workqueue p;
  sp_base : reg_base p' = reg_base p;
  sp_num : num_leds p' = num_leds p;
  sp_len : length (leds p') = length (leds p);
}.
Record loop_frame w w' : Prop := {
  lf_drvdata : drvdata w' = drvdata w;
  lf_iomaps : k_iomaps w' = k_iomaps w;
  lf_wqs : k_wqs w' = k_wqs w;
  lf_parent : k_parent_refs w' = k_parent_refs w;
  lf_child : k_child_refs w' = k_child_refs w;
  lf_priv p : k_priv w = Some p → ∃ p', k_priv w' = Some p' ∧ sim_priv p p';
}.

Lemma loop_frame_refl w : loop_frame w w.
Proof. split; try done. intros p Hp. by exists p. Qed.
Lemma loop_frame_trans w1 w2 w3 : loop_frame w1 w2 → loop_frame w2 w3 → loop_frame w1 w3.
Proof.
  intros [] []. split; try congruence. intros p Hp.
  destruct (lf_priv0 p Hp) as (p2 & Hp2 & []). destruct (lf_priv1 p2 Hp2) as (p3 & Hp3 & []).
  exists p3. split; [done|]. split; congruence.
Qed.
Lemma frame_loop w w' : frame w w' → loop_frame w w'.
Proof.
  intros []. split; try done. intros p Hp. destruct (fr_priv0 p Hp) as (p' & Hp' & Hs).
  exists p'. split; [done|]. rewrite Hs. done.
Qed.
Lemma loop_frame_registered w r : loop_frame w (set_registered r w).
Proof. split; try done. intros p Hp. by exists p. Qed.
Lemma put_led_frame i l w w' : put_led i l w = Done w' →
  loop_frame w w' ∧ k_registered w' = k_registered w.
Proof.
  unfold put_led. intros (p & Hp & H)%bind_Done. apply bind_Done in H as (l0 & Hl & [= <-]).
  split; [|done]. split; try done. intros q Hq. eexists. split; [done|].
  unfold the_priv in Hp. rewrite Hq in Hp. injection Hp as <-. split; try done. simpl. by rewrite length_insert.
Qed.
#[local] Hint Resolve loop_frame_refl loop_frame_registered frame_loop : core.

Lemma seq_set_S n : list_to_set (seq 0 (S n)) =@{gset nat} {[n]} ∪ list_to_set (seq 0 n).
Proof. rewrite seq_S, list_to_set_app_L. simpl. set_solver. Qed.

Lemma seq_set_minus n : (list_to_set (seq 0 (S n)) : gset nat) ∖ {[n]} = list_to_set (seq 0 n).
Proof.
  rewrite seq_set_S. assert (n ∉ (list_to_set (seq 0 n) : gset nat)) as Hn.
  { rewrite elem_of_list_to_set, elem_of_seq. lia. }
  set_solver.
Qed.

(** The unwinding of a failed registration. *)
Lemma unregister_below_Done i w w' :
  k_registered w = list_to_set (seq 0 i) → unregister_below ga off stray i w = Done w' →
  k_registered w' = ∅ ∧ loop_frame w w'.
Proof.
  revert w. induction i as [|i IH]; intros w Hr; cbn [unregister_below].
  { intros [= <-]. auto. }
  intros (w1 & H1 & H)%bind_Done.
  apply unregister_frame in H1 as [Hr1 Hf]; [|rewrite Hr, seq_set_S; set_solver].
  rewrite Hr, seq_set_minus in Hr1. destruct (IH w1 Hr1 H) as [? ?]. split; [done|].
  eapply loop_frame_trans; [|done]. eapply loop_frame_trans; [|apply frame_loop, Hf]. auto.
Qed.

Lemma init_loop_Done base ans n i ret0 w ret w' :
  0 <= ret0 → k_registered w = list_to_set (seq 0 i) →
  init_loop ga off stray base ans n i ret0 w = Done (ret, w') →
  loop_frame w w' ∧
  (ret < 0 ∧ k_registered w' = ∅ ∨
   0 <= ret ∧ k_registered w' = list_to_set (seq 0 (i + n)) ∧ ∀ j, (i <= j < i + n)%nat → 0 <= r_ret (ans j)).
Proof.
  revert i ret0 w. induction n as [|n IH]; intros i ret0 w H0 Hr; cbn [init_loop].
  { intros [= <- <-]. split; [auto|]. right. rewrite Nat.add_0_r. split; [done|]. split; [done|lia]. }
  intros (l & _ & H)%bind_Done. apply bind_Done in H as (w1 & [Hf1 Hr1]%put_led_frame & H).
  split_if_in H.
  - apply bind_Done in H as (w2 & H2 & [= <- <-]).
    apply unregister_below_Done in H2 as [? ?]; [|congruence].
    split; [by eapply loop_frame_trans|]. by left.
  - apply bind_Done in H as (w2 & [Hf2 Hr2]%put_led_frame & H).
    apply bind_Done in H as (w3 & Hf3%call_frame & H).
    apply bind_Done in H as (w4 & Hf4%enb_frame & H).
    assert (loop_frame w w4) as Hf.
    { eapply loop_frame_trans; [exact Hf1|]. eapply loop_frame_trans; [apply loop_frame_registered|].
      eapply loop_frame_trans; [exact Hf2|]. eapply loop_frame_trans; apply frame_loop; done. }
    apply IH in H as [Hf5 Hres].
    + split; [by eapply loop_frame_trans|]. destruct Hres as [?|(? & Hrg & Hj)]; [by left|right].
      split; [done|]. rewrite <- Nat.add_succ_comm. split; [done|]. intros j Hj'.
      destruct (decide (j = i)) as [->|]; [done|]. apply Hj. lia.
    + lia.
    + rewrite (fr_registered _ _ Hf4), (fr_registered _ _ Hf3), Hr2. simpl.
      rewrite Hr1, Hr. by rewrite <- seq_set_S.
Qed.

Lemma parse_children_Done cs w p ret w' :
  k_priv w = Some p → parse_children cs w = Done (ret, w') →
  ∃ j ls, w' = set_priv (Some (set_leds (num_leds p + j) ls p)) w ∧
    (ret = 0 ∧ j = length cs ∨
     ret = - EFAULT ∧ ∃ c l, cs !! j = Some c ∧ parse_child (use_workqueue p) c l = Done None).
Proof.
  revert w p. induction cs as [|c cs IH]; intros w p Hp; cbn [parse_children].
  { intros [= <- <-]. exists 0%nat, (leds p). split; [|by left]. rewrite Nat.add_0_r.
    destruct w. simpl in *. subst. by destruct p. }
  intros (p0 & Hp0 & H)%bind_Done. unfold the_priv in Hp0. simpl in Hp0. rewrite Hp in Hp0.
  injection Hp0 as <-. apply bind_Done in H as (l & _ & H). apply bind_Done in H as (r & Hr & H).
  set (w1 := set_refs _ _ (set_refs _ _ w)) in H.
  assert (w1 = w) as Hw1.
  { subst w1. destruct w. unfold set_refs. simpl. f_equal. lia. }
  rewrite Hw1 in H. clear w1 Hw1. destruct r as [l'|].
  - apply bind_Done in H as (w2 & Hw2 & H). unfold put_led, the_priv in Hw2. rewrite Hp in Hw2.
    simpl in Hw2. destruct (leds p !! num_leds p); [|done]. injection Hw2 as <-. simpl in H.
    apply (IH _ (set_leds (S (num_leds p)) (<[num_leds p := l']> (leds p)) p)) in H as (j & ls & -> & Hres);
      [|done].
    exists (S j), ls. split; [simpl; by rewrite <- plus_n_Sm|].
    cbn [length]. destruct Hres as [[]|[]]; [left; split; lia|by right].
  - injection H as <- <-. exists 0%nat, (leds p). split; [|right; split; [done|by exists c, l]].
    rewrite Nat.add_0_r. destruct w. simpl in *. subst. by destruct p.
Qed.

(** Deactivation of a device whose LEDs are not registered does not return, where
    the LED class does not from such a call. *)
Definition stray_fatal : Prop := ∀ i w w', stray i w ≠ Done w'.

Lemma deactivate_unregistered w p r :
  stray_fatal → drvdata w = true → k_priv w = Some p → (0 < num_leds p)%nat → k_registered w = ∅ →
  led_dev_deactivate ga off stray w ≠ Done r.
Proof.
  intros Hst Hd Hp Hn Hr. unfold led_dev_deactivate, the_priv. rewrite Hd, Hp. cbn [negb access mbind run_bind].
  intros (w1 & H1 & H)%bind_Done.
  assert (k_registered w1 = ∅) as Hr1.
  { split_if_in H1; [|by injection H1 as <-]. unfold destroy_workqueue in H1. case_decide; [|done].
    apply bind_Done in H1 as (w2 & Hf%drain_frame & [= <-]). simpl. by rewrite (fr_registered _ _ Hf). }
  unfold dev_leds_cleanup in H. destruct (num_leds p) as [|n]; [lia|]. cbn [cleanup_loop] in H.
  apply bind_Done in H as (w2 & H2 & _). apply bind_Done in H2 as (w3 & H3 & _).
  unfold led_classdev_unregister in H3. rewrite decide_False in H3 by (simpl; rewrite Hr1; set_solver).
  by apply Hst in H3.
Qed.

Lemma activate_err_late node ret w p r :
  stray_fatal → drvdata w = true → k_priv w = Some p → (0 < num_leds p)%nat → k_registered w = ∅ →
  activate_err ga off stray node ret w ≠ Done r.
Proof.
  intros Hst Hd Hp Hn Hr. unfold activate_err. intros (x & Hx & _)%bind_Done. revert Hx.
  apply (deactivate_unregistered _ p); destruct node; done.
Qed.

(** A device that is not bound. *)
Definition idle w : Prop := drvdata w = false ∧ k_priv w = None ∧ k_registered w = ∅.

Definition use_of (n : leds_node) : Z :=
  match of_prop (ln_self n) "use-workqueue" with Some _ => 1 | None => 0 end.

(** The failure that comes before an LED is known, with its code. *)
Definition first_failure (n : leds_node) (a : led_answers) : option Z :=
  match ln_children n with
  | [] => None
  | c :: _ =>
      if negb (default false (ln_parent n)) then Some (- ENODEV)
      else if negb (a_kzalloc a) then Some (- ENOMEM)
      else if a_iomap a =? 0 then Some (- EIO)
      else match parse_child (use_of n) c zero_led with Done None => Some (- EFAULT) | _ => None end
  end.

(** A device that is bound: all its LEDs registered, and the resources held. *)
Definition bound_to (n : leds_node) (a : led_answers) w w' : Prop :=
  drvdata w' = true ∧
  (∃ p, k_priv w' = Some p ∧ num_leds p = length (ln_children n) ∧ use_workqueue p = use_of n ∧
        workqueue p = a_workqueue a ∧ reg_base p = a_iomap a) ∧
  k_registered w' = list_to_set (seq 0 (length (ln_children n))) ∧
  k_iomaps w' = {[a_iomap a]} ∪ k_iomaps w ∧ k_wqs w' = {[a_workqueue a]} ∪ k_wqs w ∧
  k_parent_refs w' = k_parent_refs w + 1 ∧ k_child_refs w' = k_child_refs w ∧
  ∀ j, (j < length (ln_children n))%nat → 0 <= r_ret (a_register a j).

(** The world after the private data [p] was allocated and the registers mapped. *)
Definition early_world (p : led_dev_priv) (maps : gset Z) w : led_world :=
  set_priv (Some p) (set_maps maps (k_wqs w)
    (set_drvdata true (set_refs (k_parent_refs w + 1) (k_child_refs w) w))).

(** An early failure undoes what was done. *)
Lemma activate_err_early w p maps ret :
  idle w → num_leds p = 0%nat → workqueue p = 0 →
  (if reg_base p =? 0 then maps else maps ∖ {[reg_base p]}) = k_iomaps w →
  activate_err ga off stray true ret (early_world p maps w) = Done (ret, w).
Proof.
  intros (Hd & Hp & Hr) Hn Hq Hm. destruct w as [d pr g im wqs wks qu rg pf cf]. simpl in *. subst.
  unfold activate_err, led_dev_deactivate, the_priv. cbn. rewrite Hq, Hn. cbn.
  rewrite Z.add_simpl_r. by destruct (reg_base p =? 0); cbn.
Qed.

(** The end of a bind, once the children are read. *)
Lemma init_bound n a w p ls ret w' :
  idle w → use_workqueue p = use_of n → reg_base p = a_iomap a →
  let w0 := early_world p ({[a_iomap a]} ∪ k_iomaps w) w in
  dev_leds_init ga off stray (a_iomap a) (a_register a) (length (ln_children n))
    (set_maps (k_iomaps w0) ({[a_workqueue a]} ∪ k_wqs w0)
       (set_priv (Some (set_queueing (a_workqueue a) (use_workqueue p)
          (set_leds (length (ln_children n)) ls p))) w0)) = Done (ret, w') →
  0 <= ret ∧ bound_to n a w w' ∨
  ret < 0 ∧ drvdata w' = true ∧ k_registered w' = ∅ ∧
    ∃ p', k_priv w' = Some p' ∧ num_leds p' = length (ln_children n).
Proof.
  intros (_ & _ & Hr) Hu Hb w0 H. unfold dev_leds_init in H. apply init_loop_Done in H as [[] Hres]; [|done|exact Hr].
  destruct (lf_priv0 _ eq_refl) as (p' & Hp' & []). cbn in *. destruct Hres as [[? Hr2]|(? & Hr2 & Hall)].
  - right. split_and!; try done. exists p'. split; congruence.
  - left. split; [done|]. split; [done|]. split; [exists p'; repeat split; congruence|].
    repeat split; try done. intros k Hk. apply Hall. lia.
Qed.

(** The world when the children are read. *)
Definition mapped_world (n : leds_node) (a : led_answers) w : led_world :=
  early_world (set_queueing 0 (use_of n) (set_base (a_iomap a) (new_priv (length (ln_children n)))))
    ({[a_iomap a]} ∪ k_iomaps w) w.

Lemma first_child_fails n a w c cs :
  idle w → a_iomap a ≠ 0 → a_iomap a ∉ k_iomaps w → ln_children n = c :: cs →
  parse_child (use_of n) c zero_led = Done None →
  ∃ ls, parse_children (ln_children n) (mapped_world n a w) =
      Done (- EFAULT, early_world (set_leds 0 ls (set_queueing 0 (use_of n)
        (set_base (a_iomap a) (new_priv (length (ln_children n)))))) ({[a_iomap a]} ∪ k_iomaps w) w) ∧
    activate_err ga off stray true (- EFAULT) (early_world (set_leds 0 ls (set_queueing 0 (use_of n)
        (set_base (a_iomap a) (new_priv (length (ln_children n)))))) ({[a_iomap a]} ∪ k_iomaps w) w) =
      Done (- EFAULT, w).
Proof.
  intros Hid Hio Hm Hc Hpc. exists (replicate (length (ln_children n)) zero_led).
  unfold mapped_world. rewrite !Hc. split.
  - cbn [parse_children]. set (p := set_queueing 0 (use_of n) (set_base (a_iomap a) (new_priv (length (c :: cs))))).
    change (the_priv (set_refs _ _ _)) with (Done p). cbn [mbind run_bind].
    rewrite (led_at_Some _ p _ zero_led) by done. cbn [mbind run_bind].
    change (use_workqueue p) with (use_of n). rewrite Hpc. cbn [mbind run_bind mret run_ret]. do 2 f_equal.
    unfold early_world, set_refs, set_priv, set_maps, set_drvdata. simpl. f_equal. lia.
  - apply activate_err_early; try done. cbn [reg_base set_leds set_queueing set_base]. if_false. set_solver.
Qed.

(** Once the first child is read the driver knows of an LED. *)
Lemma first_child_read n a w c cs w1 r1 p1 :
  ln_children n = c :: cs → parse_child (use_of n) c zero_led ≠ Done None →
  parse_children (ln_children n) (mapped_world n a w) = Done (r1, w1) → k_priv w1 = Some p1 → (0 < num_leds p1)%nat.
Proof.
  intros Hc Hpz H Hp1. unfold mapped_world in H. rewrite !Hc in H. cbn [parse_children] in H.
  set (p := set_queueing 0 (use_of n) (set_base (a_iomap a) (new_priv (length (c :: cs))))) in H.
  change (the_priv (set_refs _ _ _)) with (Done p) in H. cbn [mbind run_bind] in H.
  rewrite (led_at_Some _ p _ zero_led) in H by done. cbn [mbind run_bind] in H.
  change (use_workqueue p) with (use_of n) in H.
  destruct (parse_child (use_of n) c zero_led) as [[]| |]; try done. cbn [mbind run_bind] in H.
  unfold put_led in H. cbn in H. eapply parse_children_Done in H as (j & ls & Hw & _); [|reflexivity].
  rewrite Hw in Hp1. cbn in Hp1. injection Hp1 as <-. simpl. lia.
Qed.

(** Without private data only the reference of the parent is to be given back. *)
Lemma activate_err_parent r w :
  idle w → activate_err ga off stray true r (set_refs (k_parent_refs w + 1) (k_child_refs w) w) = Done (r, w).
Proof.
  intros (Hd & _). unfold activate_err, led_dev_deactivate. cbn. rewrite Hd. cbn.
  rewrite Z.add_simpl_r. by destruct w.
Qed.

(** C34: how a bind of the LED driver ends.  A node without LEDs succeeds and nothing
    is done.  A failure before the first LED is known (a missing or foreign parent
    node, no memory, no mapping, unusable properties of the first LED) always
    returns, with the code of the first of these and the device and the kernel
    exactly as before.  After that point, with an LED class that does not return
    from unregistering an LED that is not registered, a bind that returns succeeded,
    every LED registered and mapping, workqueue and private data held: no later
    failure (another LED's properties, the workqueue, a registration) comes back,
    for the cleanup then unregisters LEDs that are not registered. *)
Theorem led_activate_outcome n a w :
  idle w → a_iomap a ∉ k_iomaps w →
  (ln_children n = [] → led_dev_activate ga off stray n a w = Done (0, w)) ∧
  (∀ ret, first_failure n a = Some ret → led_dev_activate ga off stray n a w = Done (ret, w)) ∧
  (ln_children n ≠ [] → first_failure n a = None → stray_fatal →
   ∀ ret w', led_dev_activate ga off stray n a w = Done (ret, w') → ret = 0 ∧ bound_to n a w w').
Proof.
  intros Hid Hm. pose proof Hid as (Hd & Hp & Hr). unfold led_dev_activate, first_failure.
  destruct (ln_children n) as [|c cs] eqn:Hc; [done|]. rewrite <- Hc.
  rewrite (proj2 (Nat.eqb_neq (length (ln_children n)) 0)) by (rewrite Hc; done).
  split; [by rewrite Hc|].
  destruct (ln_parent n) as [[]|] eqn:Hpar; cbn [negb default from_option].
  2: { split; [|done]. intros ret [= <-]. by rewrite activate_err_parent. }
  2: { split; [|done]. intros ret [= <-]. unfold activate_err, led_dev_deactivate. by rewrite Hd. }
  destruct (a_kzalloc a) eqn:Hk; cbn [negb].
  2: { split; [|done]. intros ret [= <-]. by rewrite activate_err_parent. }
  destruct (Z.eqb_spec (a_iomap a) 0) as [Hio|Hio].
  { split; [|done]. intros ret [= <-]. rewrite Hio.
    change (set_drvdata true _) with (early_world (new_priv (length (ln_children n))) (k_iomaps w) w).
    by rewrite activate_err_early. }
  change (parse_children (ln_children n) _) with (parse_children (ln_children n) (mapped_world n a w)).
  split.
  - intros ret Hf. destruct (parse_child (use_of n) c zero_led) as [[]| |] eqn:Hpc; try done. injection Hf as <-.
    destruct (first_child_fails n a w c cs Hid Hio Hm Hc Hpc) as (ls & -> & Herr). exact Herr.
  - intros _ Hf Hst ret w' ([r1 w1] & H1 & H)%bind_Done. pose proof H1 as H1c.
    eapply parse_children_Done in H1 as (j & ls & Hw1 & Hres); [|reflexivity].
    cbn [num_leds set_queueing set_base new_priv Nat.add] in Hw1. subst w1.
    destruct Hres as [[-> ->]|(-> & c2 & l & Hc2 & Hpc)]; cbn [Z.eqb negb] in H.
    + cbv zeta in H. cbn [the_priv k_priv set_priv access mbind run_bind] in H.
      assert (0 < length (ln_children n))%nat by (rewrite Hc; simpl; lia).
      split_if_in H.
      { exfalso. revert H. eapply activate_err_late; [done|reflexivity..|done|done]. }
      apply bind_Done in H as ([r2 w2] & H2 & H). 
      apply (init_bound n a w (set_queueing 0 (use_of n) (set_base (a_iomap a) (new_priv (length (ln_children n)))))
        ls r2 w2 Hid eq_refl eq_refl) in H2.
      split_if_in H.
      * destruct H2 as [[? _]|(_ & ? & ? & p' & ? & Hn)]; [lia|]. exfalso. revert H.
        eapply activate_err_late; [done|done|done|by rewrite Hn|done].
      * destruct H2 as [[_ ?]|[? _]]; [|lia]. by injection H as <- <-.
    + exfalso. revert H. eapply activate_err_late; [done|reflexivity..| |done].
      eapply first_child_read in H1c; [exact H1c|done| |reflexivity]. intros E. by rewrite E in Hf.
Qed.
End Outcomes.

(** ** Activation and removal return *)
Section Total.
Context {B : IoBus} `{!RegisterBus B} (ga : ga_state) (off : bool) (stray : nat → led_world → run led_world).
Hypothesis no_hook : ∀ a, unhooked ga a.
Implicit Types (w : led_world) (p : led_dev_priv).

(** The [led_brightness_set] the parser stores. *)
Definition mode p : option setter := if use_workqueue p =? 0 then None else Some SetQueued.

(** The first [n] LEDs can be driven. *)
Record driven (n : nat) w p : Prop := {
  dr_priv : k_priv w = Some p;
  dr_locks : (k_ga w).1 = free_locks;
  dr_base : reg_base p ∈ k_iomaps w;
  dr_num : (n <= length (leds p))%nat;
  dr_done j l : (j < n)%nat → leds p !! j = Some l →
    led_reg_base l = reg_base p ∧ cdev_brightness_set l = Some (default SetNow (mode p));
}.

(** And requests for them can be queued and served. *)
Record live (n : nat) w p : Prop := {
  lv_driven : driven n w p;
  lv_drvdata : drvdata w = true;
  lv_wq : workqueue p ∈ k_wqs w;
  lv_nodup : NoDup (k_queue w);
  lv_items x : x ∈ k_queue w → ∃ j v, (j < n)%nat ∧
    k_works w !! x = Some {| wk_pending := true; wk_cdev := Some j; wk_value := v |};
}.

Lemma driven_lookup n w p i : driven n w p → (i < n)%nat →
  ∃ l, leds p !! i = Some l ∧ led_at i w = Done l ∧ led_reg_base l = reg_base p ∧
    cdev_brightness_set l = Some (default SetNow (mode p)).
Proof using Type.
  intros [Hp _ _ Hn Hdone] Hi. destruct (lookup_lt_is_Some_2 (leds p) i) as [l Hl]; [lia|].
  exists l. destruct (Hdone i l Hi Hl). by rewrite (led_at_Some w p i l).
Qed.

Lemma rmw_total n w p addr m v : driven n w p → ∃ code b',
  mmio (reg_base p) (dev_read_modify_write ga addr m v) w = Done (code, set_ga (free_locks, b') w).
Proof.
  intros [_ Hl Hb _ _]. unfold mmio. rewrite decide_True by done. destruct (k_ga w) as [lk b].
  simpl in Hl. subst lk. destruct (dev_read_modify_write_ok ga addr m v b (no_hook _)) as (c & b' & -> & _).
  by exists c, b'.
Qed.

Lemma set_total n w p i v : driven n w p → (i < n)%nat →
  ∃ g, g.1 = free_locks ∧ _dev_leds_brightness_set ga i v w = Done (set_ga g w).
Proof.
  intros Hd Hi. destruct (driven_lookup n w p i Hd Hi) as (l & _ & Hat & Hb & _).
  unfold _dev_leds_brightness_set. rewrite Hat. cbn [mbind run_bind]. rewrite Hb. split_if.
  - split_if; [destruct (rmw_total n w p (reg_base p + reg_offset l) (reg_mask l) 0 Hd) as (c & b' & ->)
              |destruct (rmw_total n w p (reg_base p + reg_offset l) (reg_mask l) (reg_mask l) Hd) as (c & b' & ->)];
      by exists (free_locks, b').
  - exists (k_ga w). split; [apply Hd|]. by destruct w.
Qed.

Lemma enb_total n w p i : driven n w p → (i < n)%nat →
  ∃ g, g.1 = free_locks ∧ dev_leds_enb_reg_set ga i w = Done (set_ga g w).
Proof.
  intros Hd Hi. destruct (driven_lookup n w p i Hd Hi) as (l & _ & Hat & Hb & _).
  unfold dev_leds_enb_reg_set. rewrite Hat. cbn [mbind run_bind]. rewrite Hb. split_if.
  - destruct (rmw_total n w p (reg_base p + enb_reg_offset l) (enb_reg_mask l) (enb_reg_value l) Hd)
      as (c & b' & ->). by exists (free_locks, b').
  - exists (k_ga w). split; [apply Hd|]. by destruct w.
Qed.

Lemma live_ga n w p g : g.1 = free_locks → live n w p → live n (set_ga g w) p.
Proof using Type. intros Hg [[] ? ? ? ?]. by split; [split|..]. Qed.

(** A call through an LED's setter; [x] is the memory it would be given. *)
Lemma call_total n w p i x v : live n w p → (i < n)%nat → x ∉ k_queue w →
  ∃ w' p', call_brightness_set ga x i v w = Done w' ∧ live n w' p' ∧ same_priv p p' ∧
    ∀ y, y ∈ k_queue w' → y ∈ k_queue w ∨ y = x ∧ x ≠ 0.
Proof.
  intros Hl Hi Hx. pose proof Hl as [Hdr Hd Hwq Hnd Hit].
  destruct (driven_lookup n w p i Hdr Hi) as (l & Hl1 & Hat & _ & Hset).
  unfold call_brightness_set. rewrite Hat. cbn [mbind run_bind]. rewrite Hset. unfold mode.
  destruct (Z.eqb_spec (use_workqueue p) 0) as [Hu|Hu]; cbn [default from_option].
  { destruct (set_total n w p i v Hdr Hi) as (g & Hg & ->). exists (set_ga g w), p.
    split; [done|]. split; [by apply live_ga|]. split; [by destruct p|]. auto. }
  pose proof Hdr as [Hp ? ? ? ?]. destruct (Z.eqb_spec x 0) as [->|Hx0].
  - exists (set_priv (Some (set_works 0 p)) w), (set_works 0 p). split.
    { unfold dev_leds_brightness_set, bs_alloc, get_drvdata, the_priv. rewrite Hd, Hp.
      cbn [access mbind run_bind]. apply Z.eqb_neq in Hu. rewrite Hu. cbn. by rewrite Hd. }
    split; [by split; [split|..]|]. split; [done|]. auto.
  - rewrite (submit_one ga w p) by done. eexists _, (set_works x p). split; [done|]. split; [|split].
    3: { intros y [?| ->%list_elem_of_singleton]%elem_of_app; auto. }
    2: { done. }
    split; [by split|done|done|..]; simpl.
    + apply NoDup_app. split; [done|]. split; [|apply NoDup_singleton].
      intros y Hy ->%list_elem_of_singleton. done.
    + intros y [Hy| ->%list_elem_of_singleton]%elem_of_app.
      * rewrite lookup_insert_ne by (intros ->; done). by apply Hit.
      * rewrite lookup_insert_eq. eauto.
Qed.

Lemma worker_total n w p : live n w p →
  ∃ w', worker ga w = Done w' ∧ live n w' p ∧ k_queue w' = tail (k_queue w).
Proof.
  intros Hl. pose proof Hl as [Hdr Hd Hwq Hnd Hit]. unfold worker.
  destruct (k_queue w) as [|x q] eqn:Hq.
  { exists w. rewrite Hq. done. }
  destruct (Hit x) as (j & v & Hj & Hk); [by left|]. rewrite Hk. cbn [access mbind run_bind].
  apply NoDup_cons in Hnd as [Hni Hnd]. unfold dev_led_set_work. rewrite works_set_work, lookup_insert_eq.
  cbn [access mbind run_bind wk_cdev wk_value].
  match goal with |- context [_dev_leds_brightness_set _ _ _ ?s] => set (w1 := s) end.
  assert (driven n w1 p) as Hdr1 by (destruct Hdr; by split).
  destruct (set_total n w1 p j v Hdr1 Hj) as (g & Hg & ->). eexists. split; [done|]. split; [|done].
  split; [destruct Hdr1; by split|done|done|done|]. simpl. intros y Hy.
  assert (y ≠ x) by (intros ->; done). rewrite lookup_delete_ne, lookup_insert_ne by done.
  apply Hit. by right.
Qed.

Lemma drain_total n w p k : live n w p → k = length (k_queue w) →
  ∃ w', drain ga k w = Done w' ∧ live n w' p ∧ k_queue w' = [].
Proof.
  revert w. induction k as [|k IH]; intros w Hl Hk; cbn [drain].
  { exists w. split; [done|]. split; [done|]. by destruct (k_queue w). }
  destruct (worker_total n w p Hl) as (w1 & -> & Hl1 & Hq1). cbn [mbind run_bind].
  apply IH; [done|]. rewrite Hq1. destruct (k_queue w); simpl in *; lia.
Qed.

(** Removing the registrations, when it does not go through the queue. *)
Lemma cleanup_total n w p i : driven n w p → off = false ∨ use_workqueue p = 0 → (i <= n)%nat →
  k_registered w = list_to_set (seq i (n - i)) →
  ∃ g, g.1 = free_locks ∧ cleanup_loop ga off stray (n - i) i w = Done (set_registered ∅ (set_ga g w)).
Proof.
  remember (n - i)%nat as k eqn:Hk. revert w i Hk. induction k as [|k IH]; intros w i Hk Hd Hoff Hi Hr.
  { exists (k_ga w). split; [apply Hd|]. simpl in Hr. destruct w. simpl in *. by rewrite Hr. }
  cbn [cleanup_loop]. unfold led_classdev_unregister.
  rewrite decide_True by (rewrite Hr; simpl; set_solver).
  assert (∃ g, g.1 = free_locks ∧ (if off then call_brightness_set ga 0 i LED_OFF w else mret w) =
                 Done (set_ga g w)) as (g & Hg & ->).
  { destruct off; [|exists (k_ga w); split; [apply Hd|by destruct w]].
    destruct Hoff as [|Hu]; [done|]. destruct (driven_lookup n w p i Hd) as (l & _ & Hat & _ & Hs); [lia|].
    unfold call_brightness_set. rewrite Hat. cbn [mbind run_bind]. rewrite Hs. unfold mode. rewrite Hu. cbn.
    apply (set_total n w p); [done|lia]. }
  cbn [mbind run_bind]. destruct (IH (set_registered (k_registered (set_ga g w) ∖ {[i]}) (set_ga g w)) (S i))
    as (g2 & Hg2 & Hrun); [lia|destruct Hd; by split|done|lia| |].
  - simpl. rewrite Hr. simpl. assert (i ∉ (list_to_set (seq (S i) k) : gset nat)).
    { rewrite elem_of_list_to_set, elem_of_seq. lia. } set_solver.
  - exists g2. split; [done|]. exact Hrun.
Qed.

Lemma put_led_total w p i l : k_priv w = Some p → (i < length (leds p))%nat →
  put_led i l w = Done (set_priv (Some (set_leds (num_leds p) (<[i := l]> (leds p)) p)) w).
Proof using Type.
  intros Hp [l0 Hl]%lookup_lt_is_Some_2. unfold put_led, the_priv. rewrite Hp. cbn [access mbind run_bind].
  by rewrite Hl.
Qed.

(** The LEDs still to be registered are as the parser left them. *)
Definition parsed (i : nat) p : Prop :=
  ∀ j l, (i <= j)%nat → leds p !! j = Some l → led_brightness_set l = mode p.

(** One more LED is complete. *)
Lemma live_complete i w p l r :
  live i w p → parsed i p → leds p !! i = Some l →
  live (S i) (set_registered r (set_priv (Some (set_leds (num_leds p)
    (<[i := set_brightness (cdev_brightness l) (complete_led (reg_base p) l)]> (leds p)) p)) w))
    (set_leds (num_leds p) (<[i := set_brightness (cdev_brightness l) (complete_led (reg_base p) l)]> (leds p)) p).
Proof using Type.
  intros [[] ? ? ? Hit] Hps Hl. pose proof (lookup_lt_Some _ _ _ Hl). split; try done.
  - split; try done; simpl.
    + rewrite length_insert. lia.
    + intros j l' Hj. destruct (decide (j = i)) as [->|].
      * rewrite list_lookup_insert_eq by done. intros [= <-]. simpl. by rewrite (Hps i l).
      * rewrite list_lookup_insert_ne by done. apply dr_done0. lia.
  - simpl. intros x Hx. destruct (Hit x Hx) as (j & v & ? & ?). exists j, v. split; [lia|done].
Qed.

Lemma same_sim p p' : same_priv p p' → sim_priv p p'.
Proof using Type. intros Hs. rewrite Hs. done. Qed.
Lemma same_leds p p' : same_priv p p' → leds p' = leds p ∧ mode p' = mode p.
Proof using Type. intros Hs. rewrite Hs. done. Qed.
Lemma sim_trans p1 p2 p3 : sim_priv p1 p2 → sim_priv p2 p3 → sim_priv p1 p3.
Proof using Type. intros [] []. split; congruence. Qed.

(** The memory of two work items differs. *)
Definition items_apart (ans : nat → reg_answer) : Prop :=
  ∀ j k, (j < k)%nat → r_work (ans j) = r_work (ans k) → r_work (ans j) = 0.

Lemma init_total ans n i ret0 w p :
  live i w p → parsed i p → (i + n)%nat = length (leds p) → 0 <= ret0 → items_apart ans →
  (∀ j, (i <= j < i + n)%nat → 0 <= r_ret (ans j) ∧ r_work (ans j) ∉ k_queue w) →
  ∃ ret w' p', init_loop ga off stray (reg_base p) ans n i ret0 w = Done (ret, w') ∧ 0 <= ret ∧
    live (i + n) w' p' ∧ sim_priv p p'.
Proof.
  intros Hl Hps Hn Hr0 Hap. revert i ret0 w p Hl Hps Hn Hr0.
  induction n as [|n IH]; intros i ret0 w p Hl Hps Hn Hr0 Hans; cbn [init_loop].
  { exists ret0, w, p. rewrite Nat.add_0_r. done. }
  pose proof (dr_priv _ _ _ (lv_driven _ _ _ Hl)) as Hp.
  destruct (lookup_lt_is_Some_2 (leds p) i) as [l Hli]; [lia|].
  rewrite (led_at_Some w p i l) by done. cbn [mbind run_bind].
  rewrite (put_led_total w p) by (done || lia). cbv zeta. cbn [mbind run_bind].
  destruct (Hans i) as [Hret Hx]; [lia|]. if_false.
  rewrite (put_led_total _ (set_leds (num_leds p) (<[i := _]> (leds p)) p))
    by (simpl; rewrite ?length_insert; done || lia).
  cbn [mbind run_bind]. cbn [cdev_brightness complete_led].
  pose proof (live_complete i w p l ({[i]} ∪ k_registered w) Hl Hps Hli) as Hl1.
  cbn [leds num_leds set_leds]. rewrite list_insert_insert_eq.
  set (p1 := set_leds _ (<[i := _]> (leds p)) p) in Hl1.
  match goal with |- context [call_brightness_set _ _ _ _ ?s] => change s with
    (set_registered ({[i]} ∪ k_registered w) (set_priv (Some p1) w)) end.
  destruct (call_total (S i) _ p1 i (r_work (ans i)) (cdev_brightness l) Hl1) as (w2 & p2 & -> & Hl2 & Hs2 & Hq2);
    [lia|done|]. cbn [mbind run_bind].
  destruct (enb_total (S i) w2 p2 i (lv_driven _ _ _ Hl2)) as (g & Hg & ->); [lia|]. cbn [mbind run_bind].
  destruct (same_leds _ _ Hs2) as [Hls2 Hm2]. pose proof (same_sim _ _ Hs2) as Hsim2.
  replace (reg_base p) with (reg_base p2) by apply Hsim2.
  destruct (IH (S i) (r_ret (ans i)) (set_ga g w2) p2) as (ret & w' & p' & Hrun & ? & Hl' & Hs'); try done.
  - by apply live_ga.
  - intros j l' Hj. rewrite Hls2, Hm2. simpl. rewrite list_lookup_insert_ne by lia. apply Hps. lia.
  - rewrite Hls2. simpl. rewrite length_insert. lia.
  - intros j Hj. destruct (Hans j) as [? Hj2]; [lia|]. split; [done|]. simpl.
    intros [?|[He ?]]%Hq2; [done|]. symmetry in He. apply (Hap i j) in He; [done|lia].
  - exists ret, w', p'. rewrite <- Nat.add_succ_comm. split; [done|]. split; [done|]. split; [done|].
    eapply sim_trans; [|done]. eapply sim_trans; [|done]. split; try done. simpl. apply length_insert.
Qed.

Lemma parse_total use cs ls l0 w p :
  k_priv w = Some p → use_workqueue p = use → leds p = l0 ++ replicate (length cs) zero_led →
  num_leds p = length l0 → Forall2 (λ c l, parse_child use c zero_led = Done (Some l)) cs ls →
  parse_children cs w = Done (0, set_priv (Some (set_leds (length (l0 ++ ls)) (l0 ++ ls) p)) w).
Proof using Type.
  intros Hp Hu Hl Hn Hcs. revert w p l0 Hp Hu Hl Hn.
  induction Hcs as [|c l cs ls Hc Hcs IH]; intros w p l0 Hp Hu Hl Hn; cbn [parse_children].
  { simpl in Hl. rewrite app_nil_r in Hl |- *. rewrite <- Hn, <- Hl. destruct w. simpl in *. subst. by destruct p. }
  change (the_priv (set_refs _ _ w)) with (access (k_priv w)). rewrite Hp. cbn [access mbind run_bind].
  assert (leds p !! num_leds p = Some zero_led) as Hz.
  { rewrite Hl, Hn. rewrite lookup_app_r, Nat.sub_diag by lia. done. }
  rewrite (led_at_Some _ p _ zero_led) by done. cbn [mbind run_bind]. rewrite Hu, Hc. cbn [mbind run_bind].
  match goal with |- context [put_led _ _ ?s] => assert (s = w) as ->
    by (destruct w; unfold set_refs; simpl; f_equal; lia) end.
  rewrite (put_led_total w p) by (done || by eapply lookup_lt_Some).
  cbn [mbind run_bind]. unfold the_priv. cbn [k_priv set_priv access mbind run_bind].
  assert (<[num_leds p := l]> (leds p) = (l0 ++ [l]) ++ replicate (length cs) zero_led) as Hins.
  { rewrite Hl, Hn. rewrite insert_app_r_alt, Nat.sub_diag, <- app_assoc by lia. done. }
  rewrite Hins. erewrite (IH _ _ (l0 ++ [l])); [|done..|simpl; rewrite Hn, length_app; simpl; lia].
  by rewrite <- app_assoc.
Qed.

(** A node whose LEDs can all be read, and a kernel that grants everything. *)
Record good_node (n : leds_node) : Prop := {
  gn_parent : ln_parent n = Some true;
  gn_children : ln_children n ≠ [];
  gn_parse : ∃ ls, Forall2 (λ c l, parse_child (use_of n) c zero_led = Done (Some l)) (ln_children n) ls;
}.
Record good_answers (n : leds_node) (a : led_answers) w : Prop := {
  ga_alloc : a_kzalloc a = true;
  ga_map : a_iomap a ≠ 0 ∧ a_iomap a ∉ k_iomaps w;
  ga_queue : a_workqueue a ≠ 0 ∧ a_workqueue a ∉ k_wqs w;
  ga_register j : (j < length (ln_children n))%nat → 0 <= r_ret (a_register a j);
  ga_items : items_apart (a_register a);
}.

Lemma parse_child_mode use c l : parse_child use c zero_led = Done (Some l) →
  led_brightness_set l = if use =? 0 then None else Some SetQueued.
Proof using Type.
  unfold parse_child. intros H.
  repeat match type of H with
  | match ?x with Some _ => _ | None => _ end = _ => destruct x; [|done]
  | _ ≫= _ = _ => apply bind_Done in H as (? & _ & H)
  | (let '(_, _) := ?x in _) _ = _ => destruct x
  | (let '(_, _) := ?x in _) = _ => destruct x
  end.
  injection H as <-. simpl. by destruct (use =? 0).
Qed.

(** A bind that is granted everything returns, with the device live. *)
Lemma activate_total n a w :
  idle w → (k_ga w).1 = free_locks → k_queue w = [] → good_node n → good_answers n a w →
  ∃ w' p, led_dev_activate ga off stray n a w = Done (0, w') ∧ bound_to n a w w' ∧
    live (length (ln_children n)) w' p ∧ num_leds p = length (ln_children n) ∧
    use_workqueue p = use_of n ∧ workqueue p = a_workqueue a ∧ reg_base p = a_iomap a.
Proof.
  intros Hid Hlk Hqu [Hpar Hne [ls Hls]] [Hal [Hm0 Hm] [Hq0 Hq] Hreg Hap].
  pose proof (Forall2_length _ _ _ Hls) as Hlen.
  set (p0 := set_queueing 0 (use_of n) (set_base (a_iomap a) (new_priv (length (ln_children n))))).
  set (w0 := early_world p0 ({[a_iomap a]} ∪ k_iomaps w) w).
  set (p1 := set_queueing (a_workqueue a) (use_of n) (set_leds (length ls) ls p0)).
  set (w1 := set_maps (k_iomaps w0) ({[a_workqueue a]} ∪ k_wqs w0) (set_priv (Some p1) w0)).
  destruct (init_total (a_register a) (length ls) 0 0 w1 p1) as (ret & w2 & p2 & Hinit & Hret & Hl2 & Hs2).
  { split; try done; [|simpl; set_solver|simpl; rewrite Hqu; constructor|simpl; rewrite Hqu; set_solver].
    split; try done; simpl; [set_solver|lia|lia]. }
  { intros j l _ Hj. destruct (Forall2_lookup_r _ _ _ _ _ Hls Hj) as (c & _ & Hc).
    unfold mode. simpl. by eapply parse_child_mode. }
  { done. } { done. } { done. }
  { intros j Hj. split; [apply Hreg; lia|]. simpl. rewrite Hqu. apply not_elem_of_nil. }
  assert (parse_children (ln_children n) w0 = Done (0, set_priv (Some (set_leds (length ls) ls p0)) w0)) as Hparse
    by by apply (parse_total (use_of n) _ _ []).
  exists w2, p2. cbn [Nat.add] in Hl2. rewrite <- Hlen in Hl2.
  assert (led_dev_activate ga off stray n a w = Done (0, w2)) as Hrun.
  { unfold led_dev_activate. rewrite (proj2 (Nat.eqb_neq _ 0)) by (by destruct (ln_children n)).
    rewrite Hpar, Hal. cbn [negb]. rewrite (proj2 (Z.eqb_neq _ _) Hm0).
    change (parse_children (ln_children n) _) with (parse_children (ln_children n) w0). rewrite Hparse.
    cbn [mbind run_bind]. cbn [Z.eqb negb the_priv k_priv set_priv access mbind run_bind].
    rewrite (proj2 (Z.eqb_neq _ _) Hq0). unfold dev_leds_init.
    change (init_loop _ _ _ _ _ _ _ _ _) with (init_loop ga off stray (reg_base p1) (a_register a) (length ls) 0 0 w1).
    rewrite Hinit. cbn [mbind run_bind]. if_false. done. }
  split; [done|]. split; [|split; [done|]; rewrite Hlen; destruct Hs2; done].
  destruct (init_bound ga off stray n a w p0 ls ret w2) as [[_ ?]|[? _]]; try done; [|lia].
  by rewrite Hlen.
Qed.

(** C33: a device whose node is well formed binds when the kernel grants every
    request: probe returns 0 with every LED registered, in both modes.  In direct
    mode (or when the kernel does not switch LEDs off as it unregisters them) remove
    returns 0 and gives back registrations, mapping, workqueue and private data;
    the reference to the parent node is never dropped.  In queued mode with a kernel
    that switches LEDs off, remove never returns: the driver data is already NULL
    when [dev_leds_brightness_set] reads it. *)
Theorem led_bind_unbind n a w :
  idle w → (k_ga w).1 = free_locks → k_queue w = [] → good_node n → good_answers n a w →
  ∃ w1, led_dev_probe ga off stray n a w = Done (0, w1) ∧ bound_to n a w w1 ∧
    (off = false ∨ use_of n = 0 →
     ∃ w2, led_dev_remove ga off stray w1 = Done (0, w2) ∧
       w2 = set_refs (k_parent_refs w + 1) (k_child_refs w)
              (set_ga (k_ga w2) (set_work (k_works w2) [] w))) ∧
    (off = true → use_of n ≠ 0 → ∀ r, led_dev_remove ga off stray w1 ≠ Done r).
Proof.
  intros Hid Hlk Hqu Hn Ha. destruct (activate_total n a w Hid Hlk Hqu Hn Ha)
    as (w1 & p & Hrun & Hbt & Hl & Hnum & Huse & Hwq & Hbase).
  exists w1. split; [done|]. split; [done|]. destruct Hbt as (Hd1 & _ & Hr1 & Hm1 & Hq1 & Hpr1 & Hcr1 & _).
  destruct Ha as [_ [Hm0 Hm] [Hq0 Hq] _ _]. destruct Hid as (Hd & Hp & Hr).
  pose proof (dr_priv _ _ _ (lv_driven _ _ _ Hl)) as Hp1.
  destruct (drain_total _ _ _ _ Hl eq_refl) as (wd & Hdr & Hld & Hqd). pose proof (drain_frame _ _ _ _ Hdr) as Hf.
  set (wc := set_drvdata false (set_maps (k_iomaps wd) (k_wqs wd ∖ {[a_workqueue a]}) wd)).
  assert (led_dev_remove ga off stray w1 =
    (w ← cleanup_loop ga off stray (length (ln_children n)) 0 wc;
     mret (0, set_priv None (set_maps (k_iomaps w ∖ {[a_iomap a]}) (k_wqs w) w)))) as ->.
  { unfold led_dev_remove, led_dev_deactivate, the_priv. rewrite Hd1, Hp1.
    cbn [negb access mbind run_bind]. rewrite Hwq, Hnum, Hbase.
    rewrite (proj2 (Z.eqb_neq _ _) Hq0), (proj2 (Z.eqb_neq _ _) Hm0). cbn [negb].
    unfold destroy_workqueue. rewrite decide_True by (rewrite Hq1; set_solver). by rewrite Hdr. }
  destruct Hf. split.
  - intros Hoff. destruct (cleanup_total (length (ln_children n)) wc p 0) as (g & Hg & Hcl); try lia.
    { destruct Hld as [[] ? ? ? ?]. by split. } { by rewrite Huse. }
    { simpl. rewrite Nat.sub_0_r. congruence. }
    rewrite Nat.sub_0_r in Hcl. rewrite Hcl. cbn [mbind run_bind]. eexists. split; [done|].
    assert (k_iomaps wd ∖ {[a_iomap a]} = k_iomaps w) as Him.
    { rewrite fr_iomaps0, Hm1. clear -Hm. set_solver. }
    assert (k_wqs wd ∖ {[a_workqueue a]} = k_wqs w) as Hwqs.
    { rewrite fr_wqs0, Hq1. clear -Hq. set_solver. }
    destruct w. unfold set_priv, set_maps, set_registered, set_ga, set_drvdata, set_refs, set_work. simpl in *.
    f_equal; congruence.
  - intros -> Hu r (w2 & H2 & _)%bind_Done.
    assert (0 < length (ln_children n))%nat as Hpos by (destruct Hn as [_ Hne _]; destruct (ln_children n); [done|simpl; lia]).
    destruct (length (ln_children n)) as [|k]; [lia|]. cbn [cleanup_loop] in H2.
    apply bind_Done in H2 as (w3 & H3 & _). unfold led_classdev_unregister in H3.
    rewrite decide_True in H3 by (simpl; rewrite fr_registered0, Hr1; simpl; set_solver).
    apply bind_Done in H3 as (w4 & H4 & _).
    destruct (driven_lookup _ _ _ 0%nat (lv_driven _ _ _ Hld)) as (l & Hl0 & Hat & _ & Hset); [lia|].
    unfold call_brightness_set in H4. change (led_at 0 wc) with (led_at 0 wd) in H4. rewrite Hat in H4.
    cbn [mbind run_bind] in H4. rewrite Hset in H4. unfold mode in H4. rewrite Huse in H4.
    rewrite (proj2 (Z.eqb_neq _ _) Hu) in H4. done.
Qed.
End Total.

(** ** The LED descriptors *)

Lemma shl1_Done n : 0 <= n < 32 → shl1 n = Done (Z.shiftl 1 n).
Proof. intros. unfold shl1. if_true. done. Qed.

(** The name: at most 31 bytes of the property, then a NUL. *)
Lemma name_copy (nm nm0 : list Z) : Z.of_nat (length nm0) = LED_NAME_SIZE →
  let k := Z.min (Z.of_nat (length nm)) (LED_NAME_SIZE - 1) in
  ∃ b n1, load_bytes nm 0 k = Some b ∧ store_bytes nm0 0 b = Some n1 ∧
    store_bytes n1 k [0] = Some (take 31 nm ++ [0] ++ drop (S (length nm `min` 31)) nm0).
Proof.
  intros Hl k. unfold LED_NAME_SIZE in *.
  pose proof (load_bytes_in nm 0 k ltac:(lia) ltac:(lia) ltac:(lia)) as Hb. rewrite drop_0 in Hb.
  assert (take (Z.to_nat k) nm = take 31 nm) as Hk.
  { destruct (decide (length nm <= 31)%nat); [rewrite !take_ge by lia; done|]. f_equal. lia. }
  assert (length (take 31 nm) = Z.to_nat k) as Hkl by (rewrite length_take; lia).
  rewrite Hk in Hb. eexists _, _. split; [exact Hb|].
  split; [apply store_bytes_in; rewrite ?Hkl; lia|]. change (Z.to_nat 0) with 0%nat.
  rewrite store_bytes_in by (rewrite ?length_splice; rewrite ?Hkl; simpl; lia). f_equal.
  unfold splice. simpl. rewrite Hkl. rewrite take_app_length' by done. f_equal.
  rewrite drop_app_ge by lia. rewrite Hkl, drop_drop. do 2 f_equal. lia.
Qed.

(** [1 << ix] in eight bits: the bit of the index, and none from 8 on. *)
Lemma mask_bits ix i : 0 <= ix → 0 <= i → Z.testbit (u8 (Z.shiftl 1 ix)) i = (i =? ix) && (i <? 8).
Proof.
  intros Hx Hi. unfold u8, uwrap. rewrite Z.shiftl_1_l. destruct (Z.ltb_spec i 8).
  - rewrite Z.mod_pow2_bits_low, Z.pow2_bits_eqb, andb_true_r by lia. apply Z.eqb_sym.
  - rewrite Z.mod_pow2_bits_high by lia. by rewrite andb_false_r.
Qed.

Lemma swrap1_odd x : swrap 1 x ≠ 0 ↔ Z.odd x = true.
Proof.
  unfold swrap, uwrap. change (2 ^ 1) with 2. change (2 ^ (1 - 1)) with 1. rewrite Zmod_odd.
  by destruct (Z.odd x).
Qed.

(** *** What a child node says of its LED *)

(** The index comes from [bit-index], and only without one from [reg-index]. *)
Definition led_index (c : of_node) : option Z :=
  cell c (if decide (of_prop c "bit-index" = None) then "reg-index" else "bit-index")%string.

(** Every mandatory property is there and no optional one is malformed. *)
Definition usable (c : of_node) : Prop :=
  is_Some (of_prop c "led-name") ∧ is_Some (cell c "reg-offset") ∧ is_Some (led_index c) ∧
  (of_prop c "initial-brightness" = None ∨ is_Some (cell c "initial-brightness")) ∧
  (of_prop c "active_low" = None ∨ is_Some (cell c "active_low")).

(** A mask holds the bit of an index: none without an index, or from 8 on. *)
Definition is_bit (ix : option Z) (m : Z) : Prop :=
  ∀ i, 0 <= i → Z.testbit m i = match ix with Some x => (i =? x) && (i <? 8) | None => false end.
Definition byte_of (v : option Z) : Z := default 0 v mod 256.

(** The enable fields: only read when [enable-ctrl] is 1, and switched off again when
    one of the three properties is missing. *)
Definition enable_described (c : of_node) (l : dev_led) : Prop :=
  if byte_of (cell c "enable-ctrl") =? 1 then
    (enb_ctrl l = 1 ∧ is_Some (cell c "enable-reg-offset") ∧ is_Some (cell c "enable-bit-index") ∧
       is_Some (cell c "enable-bit-value") ∨
     enb_ctrl l = 0 ∧ (cell c "enable-reg-offset" = None ∨ cell c "enable-bit-index" = None ∨
       cell c "enable-bit-value" = None)) ∧
    enb_reg_offset l = byte_of (cell c "enable-reg-offset") ∧
    is_bit (cell c "enable-bit-index") (enb_reg_mask l) ∧
    enb_reg_value l = byte_of (cell c "enable-bit-value")
  else enb_ctrl l = byte_of (cell c "enable-ctrl") ∧ enb_reg_offset l = 0 ∧ enb_reg_mask l = 0 ∧ enb_reg_value l = 0.

Record described (use : Z) (c : of_node) (l0 l : dev_led) : Prop := {
  de_name nm : of_prop c "led-name" = Some nm →
    cdev_name l = true ∧ name l = take 31 nm ++ [0] ++ drop (S (length nm `min` 31)) (name l0);
  de_offset : reg_offset l = byte_of (cell c "reg-offset");
  de_mask : is_bit (led_index c) (reg_mask l);
  de_brightness : cdev_brightness l = default LED_OFF (cell c "initial-brightness");
  de_polarity : active_low l ≠ 0 ↔ ∃ v, cell c "active_low" = Some v ∧ Z.odd v = true;
  de_enable : enable_described c l;
  de_setter : led_brightness_set l = if use =? 0 then led_brightness_set l0 else Some SetQueued;
  de_rest : cdev_flags l = cdev_flags l0 ∧ cdev_brightness_set l = cdev_brightness_set l0 ∧
    led_reg_base l = led_reg_base l0 ∧ disabled l = disabled l0;
}.

Lemma is_bit_shl x : 0 <= x → is_bit (Some x) (u8 (Z.shiftl 1 x)).
Proof. intros Hx i Hi. by apply mask_bits. Qed.
Lemma is_bit_0 : is_bit None 0.
Proof. intros i _. apply Z.bits_0. Qed.

Lemma enable_props_described c :
  (∀ v, cell c "enable-bit-index" = Some v → 0 <= v < 32) →
  ∃ ctrl o m v, enable_props c = Done (ctrl, o, m, v) ∧
    ∀ l, enb_ctrl l = ctrl → enb_reg_offset l = o → enb_reg_mask l = m → enb_reg_value l = v → enable_described c l.
Proof.
  intros Hb. unfold enable_props, enable_described, byte_of.
  change (u8 (default 0 (cell c "enable-ctrl"))) with (default 0 (cell c "enable-ctrl") mod 256).
  destruct (_ =? 1) eqn:E; [|by do 4 eexists].
  apply Z.eqb_eq in E. rewrite E.
  destruct (cell c "enable-reg-offset") as [o|]; destruct (cell c "enable-bit-index") as [ix|];
    destruct (cell c "enable-bit-value") as [v|];
    try (rewrite shl1_Done by by apply Hb); cbn [mbind run_bind mret run_ret];
    do 4 eexists; (split; [done|]); intros l -> -> -> ->;
    (split; [eauto 8|]); (split; [done|]); (split; [|done]);
    first [apply is_bit_0 | apply is_bit_shl; by apply Hb].
Qed.

Lemma opt_cell_spec c p d :
  (opt_cell c p d = None ∧ of_prop c p ≠ None ∧ cell c p = None) ∨
  (opt_cell c p d = Some (default d (cell c p)) ∧ (of_prop c p = None ∨ is_Some (cell c p))).
Proof.
  unfold opt_cell, cell. destruct (of_prop c p) as [v|]; [|by right; auto].
  destruct (_ =? 4); [right|left]; eauto.
Qed.

Lemma led_index_code c :
  (match of_prop c "bit-index" with Some _ => cell c "bit-index" | None => cell c "reg-index" end) = led_index c.
Proof. unfold led_index. by destruct (of_prop c "bit-index"). Qed.


(** ** Witnesses *)
Import CellBus.

(** A node with one LED, and one whose LED has no name. *)
Definition demo_child (named : bool) : of_node :=
  {| of_prop p := if (p =? "led-name")%string then if named then Some [65; 0] else None
                  else if (p =? "reg-offset")%string then Some [0; 0; 0; 1]
                  else if (p =? "bit-index")%string then Some [0; 0; 0; 3] else None |}.
Definition demo_leds_node (use named : bool) : leds_node :=
  {| ln_self := {| of_prop p := if use then if (p =? "use-workqueue")%string then Some [] else None else None |};
     ln_children := [demo_child named]; ln_parent := Some true |}.
Definition demo_led_answers : led_answers :=
  {| a_kzalloc := true; a_iomap := 0x1000; a_workqueue := 7;
     a_register j := {| r_ret := 0; r_brightness := 255; r_work := 50 + Z.of_nat j |} |}.
Definition demo_unbound : led_world :=
  {| drvdata := false; k_priv := None; k_ga := (free_locks, ∅); k_iomaps := ∅;
     k_wqs := ∅; k_works := ∅; k_queue := []; k_registered := ∅;
     k_parent_refs := 0; k_child_refs := 0 |}.

Definition demo_no_memory : led_answers :=
  {| a_kzalloc := false; a_iomap := 0x1000; a_workqueue := 7; a_register := a_register demo_led_answers |}.
(** An LED class on which a stray unregistration crashes. *)
Definition demo_stray `{IoBus} (i : nat) (w : led_world) : run led_world := Undef.

Lemma demo_led_granted : ∃ w',
  led_dev_activate plain true demo_stray (demo_leds_node false true) demo_led_answers demo_unbound = Done (0, w').
Proof.
  destruct (activate_total plain true demo_stray plain_free (demo_leds_node false true) demo_led_answers demo_unbound)
    as (w' & p & Hrun & _); [done..| | |by exists w'].
  - split; [done|done|]. eexists. constructor; [reflexivity|constructor].
  - split; [done|split; [done|simpl; set_solver]|split; [done|simpl; set_solver]|simpl; lia|].
    intros j k Hjk. simpl. lia.
Qed.

Lemma led_activate_outcome_witness :
  led_dev_activate plain true demo_stray (demo_leds_node false false) demo_no_memory demo_unbound =
    Done (- ENOMEM, demo_unbound) ∧
  ∃ w', led_dev_activate plain true demo_stray (demo_leds_node false true) demo_led_answers demo_unbound = Done (0, w') ∧
    k_registered w' = {[0%nat]}.
Proof.
  split.
  - destruct (led_activate_outcome plain true demo_stray (demo_leds_node false false) demo_no_memory demo_unbound)
      as (_ & H & _); [done|simpl; set_solver|]. by apply H.
  - destruct (led_activate_outcome plain true demo_stray (demo_leds_node false true) demo_led_answers demo_unbound)
      as (_ & _ & H); [done|simpl; set_solver|].
    destruct demo_led_granted as (w' & Hrun). exists w'. split; [exact Hrun|].
    destruct (H ltac:(done) ltac:(reflexivity) ltac:(by intros i w w2) _ _ Hrun) as [_ (_ & _ & Hr & _)].
    rewrite Hr. by vm_compute.
Defined.

Lemma led_bind_unbind_witness :
  ∃ w1, led_dev_probe plain true demo_stray (demo_leds_node true true) demo_led_answers demo_unbound = Done (0, w1) ∧
    k_registered w1 = {[0%nat]} ∧ ∀ r, led_dev_remove plain true demo_stray w1 ≠ Done r.
Proof.
  destruct (led_bind_unbind plain true demo_stray plain_free (demo_leds_node true true) demo_led_answers demo_unbound)
    as (w1 & Hrun & Hb & _ & Hcrash).
  - done.
  - reflexivity.
  - reflexivity.
  - split; [done|done|]. eexists. constructor; [reflexivity|constructor].
  - split; [done|split; [done|simpl; set_solver]|split; [done|simpl; set_solver]|simpl; lia|].
    intros j k Hjk. simpl. lia.
  - exists w1. split; [exact Hrun|]. split; [|by apply Hcrash].
    destruct Hb as (_ & _ & -> & _). by vm_compute.
Defined.

