(* ===== verification/Logbuffer.v ===== *)
(** * Log buffer driver: logbuffer/logbuffer.c

    /proc/logbuffer shows the log another program (the boot loader) left in a memory
    region.  The module parameter [buffer_info] gives name, length and address of the
    region; a header with a magic number gives the range of characters.  Every
    complete line is shown behind the name. *)

From S2P Require Import Prelude KernelApi KString.

Definition LOGBUFF_MAGIC : Z := 0xc0de4ced.
Definition LOGBUFF_LEN : Z := 0x8000.
Definition LOGBUFF_MASK : Z := LOGBUFF_LEN - 1.
Definition LOGBUFF_SIZE : Z := 2048.
(** [sizeof(logbuff_t)] and the offsets of its fields *)
Definition sizeof_logbuff_t : Z := 40.
Definition off_tag : Z := 0.
Definition off_start : Z := 8.
Definition off_end : Z := 24.

(** ** One chunk *)

(** [local_buffer[i] = c] *)
Definition put_char (b : list Z) (i c : Z) : run (list Z) := access (store_bytes b i [c]).
Definition get_char (b : list Z) (i : Z) : run Z := bs ← access (load_bytes b i 1); mret (nth 0 bs 0).

(** The loop, [n] characters before the end; [m] is what [seq_printf] printed. *)
Fixpoint process_loop (mem : list Z) (base : Z) (buffer_name : list Z)
    (n : nat) (log_idx local_idx : Z) (local_buffer m : list Z) : run (list Z) :=
  match n with
  | O => mret m
  | S n =>
      c ← get_char mem (base + Z.land log_idx LOGBUFF_MASK);
      if c =? 13 then process_loop mem base buffer_name n (log_idx + 1) local_idx local_buffer m
      else
        local_buffer ← put_char local_buffer local_idx c;
        '(local_buffer, local_idx, m) ←
          (if c =? 10 then
             local_buffer ← put_char local_buffer (local_idx + 1) 0;
             mret (local_buffer, 0, m ++ cstr buffer_name ++ [58; 32] ++ cstr local_buffer)
           else mret (local_buffer, local_idx + 1, m));
        let local_idx := if LOGBUFF_SIZE - 1 <=? local_idx then local_idx - 1 else local_idx in
        process_loop mem base buffer_name n (log_idx + 1) local_idx local_buffer m
  end.

(** [logbuffer] is the address [base] of the mapped memory [mem]; [alloc] is the
    memory [kmalloc] returned. *)
Definition process_logbuffer (mem : list Z) (base : Z) (buffer_name : list Z) (size : Z)
    (alloc : option (list Z)) (m : list Z) : run (list Z) :=
  match alloc with
  | None => mret (m ++ str "kmalloc " ++ fmt_d LOGBUFF_SIZE ++ str " bytes failed - ignore it!" ++ [10])
  | Some local_buffer => process_loop mem base buffer_name (Z.to_nat size) 0 0 local_buffer m
  end.

(** ** The module parameter *)

(** [cur] is an offset into [info]; returns both arrays and the new [cur]. *)
Definition get_mytoken (info : list Z) (cur : Z) (outp : list Z) : run (list Z * list Z * Z) :=
  s ← access (until_nul (drop (Z.to_nat cur) info));
  match strchr 44 s with
  | Some k =>
      let ptr := cur + Z.of_nat k in
      info ← access (store_bytes info ptr [0]);
      tok ← access (until_nul (drop (Z.to_nat cur) info));
      outp ← access (strcpy outp tok);
      mret (info, outp, ptr + 1)
  | None =>
      outp ← access (strcpy outp s);
      mret (info, outp, cur + Z.of_nat (length s))
  end.

(** ** The file *)

(** The arrays on the stack of [logbuffer_show], whatever they hold. *)
Record show_locals := { l_addr : list Z; l_length : list Z; l_info : list Z; l_name : list Z }.

(** The resources of the driver. *)
Record lb_world := { lb_regions : gset (Z * Z); lb_maps : Z }.

(** The kernel's answers: the region is free, what [ioremap] maps, what [kmalloc]
    returns for the chunk at an offset. *)
Record lb_answers := {
  a_region : bool;
  a_ioremap : option (list Z);
  a_kmalloc : Z → option (list Z);
}.

Section Show.
(** The byte order of the processor, and how [%p] prints the mapping and the
    buffer. *)
Context (big_endian : bool) (fmt_p : Z → list Z).

Definition cpu_value (bs : list Z) : Z := be_value (if big_endian then bs else rev bs).
Definition get_u32 (mem : list Z) (off : Z) : run Z := bs ← access (load_bytes mem off 4); mret (cpu_value bs).
Definition get_u64 (mem : list Z) (off : Z) : run Z := bs ← access (load_bytes mem off 8); mret (cpu_value bs).

(** The loop over the chunks. *)
Fixpoint chunks (fuel : nat) (a : lb_answers) (mem buffer_name : list Z) (mem_size end_ offset : Z)
    (m : list Z) : run (list Z) :=
  match fuel with
  | O => Block
  | S fuel =>
      if (offset <? end_) && (u64 (sizeof_logbuff_t + offset) <? mem_size) then
        let size := if end_ <? u64 (offset + LOGBUFF_LEN) then end_ - offset else LOGBUFF_LEN in
        m ← process_logbuffer mem (sizeof_logbuff_t + offset) buffer_name size (a_kmalloc a offset) m;
        chunks fuel a mem buffer_name mem_size end_ (u64 (offset + size)) m
      else mret m
  end.

(** The part between [ioremap] and [finish:]; [p] is the address of the mapping. *)
Definition show_log (a : lb_answers) (mem buffer_name : list Z) (mem_size p : Z) (m : list Z)
    : run (list Z) :=
  tag ← get_u32 mem off_tag;
  let m := m ++ str "Value(" ++ fmt_p p ++ str ")=" ++ fmt_x tag ++ str " magic=" ++
           fmt_x LOGBUFF_MAGIC ++ [10] in
  if negb (tag =? LOGBUFF_MAGIC) then
    mret (m ++ str "Properly setup external logbuffer not found - ignore it!" ++ [10])
  else
    start ← get_u64 mem off_start;
    end_ ← get_u64 mem off_end;
    let m := m ++ str "Logbuffer at 0x" ++ fmt_p (p + sizeof_logbuff_t) ++ str ", start 0x" ++
             fmt_x start ++ str ", end 0x" ++ fmt_x end_ ++ [10] in
    if (end_ <? start) || (mem_size <? u64 (end_ + sizeof_logbuff_t)) then
      mret (m ++ str "logbuffer start/end out of range, or mem_size incorrect - ignore it!" ++ [10])
    else chunks (Z.to_nat (mem_size / LOGBUFF_LEN) + 2) a mem buffer_name mem_size end_ start m.

(** The return value, what was printed, and the resources. *)
Definition logbuffer_show (buffer_info : list Z) (s : show_locals) (p : Z) (a : lb_answers)
    (w : lb_world) : run (Z * list Z * lb_world) :=
  info ← access (strcpy (l_info s) buffer_info);
  '(info, name, cur) ← get_mytoken info 0 (l_name s);
  '(info, length, cur) ← get_mytoken info cur (l_length s);
  '(info, addr, cur) ← get_mytoken info cur (l_addr s);
  let mem_address := u64 (simple_strtol0 (cstr addr)) in
  let mem_size := u64 (simple_strtol0 (cstr length)) in
  if negb (mem_address =? 0) && (sizeof_logbuff_t <? mem_size) then
    let m := str "processing buffer at " ++ fmt_x mem_address ++ str " size " ++ fmt_x mem_size ++ [10] in
    if negb (a_region a) then
      mret (0, m ++ str "logbuffer: request_mem_region on logbuffer failed" ++ [10], w)
    else
      let w := {| lb_regions := {[(mem_address, mem_size)]} ∪ lb_regions w; lb_maps := lb_maps w |} in
      let release w := {| lb_regions := lb_regions w ∖ {[(mem_address, mem_size)]}; lb_maps := lb_maps w |} in
      match a_ioremap a with
      | None => mret (0, m ++ str "logbuffer: failed to map logbuffer" ++ [10], release w)
      | Some mem =>
          let w := {| lb_regions := lb_regions w; lb_maps := lb_maps w + 1 |} in
          m ← show_log a mem name mem_size p m;
          let w := {| lb_regions := lb_regions w; lb_maps := lb_maps w - 1 |} in
          mret (0, m, release w)
      end
  else mret (0, str "Invalid input, expects format=name,length,start" ++ [10], w).
End Show.

(** [logbuffer_open]: [single_open] makes the result of the show function the
    content of the file, to be read from its start; its own result is passed on. *)
Definition logbuffer_open (single_open : Z) : Z := single_open.

(** Module init and exit: is the /proc entry there.  The result of [proc_create] is
    not looked at. *)
Definition logbuffer_init (proc_create : bool) : Z * bool := (0, proc_create).
Definition logbuffer_exit (entry : bool) : bool := false.

(** ** What is shown, as a function of the characters *)

(** The complete lines, [cur] being the start of the first. *)
Fixpoint lines_from (cur l : list Z) : list (list Z) :=
  match l with
  | [] => []
  | c :: l => if c =? 10 then cur :: lines_from [] l else lines_from (cur ++ [c]) l
  end.

(** A line behind the name: at most 2046 characters, up to a NUL. *)
Definition show_line (name line : list Z) : list Z :=
  cstr name ++ [58; 32] ++ cstr (take 2046 line ++ [10]).

Definition render (name l : list Z) : list Z :=
  concat (show_line name <$> lines_from [] (filter (λ c, c ≠ 13) l)).

Section Lines.
Implicit Types (mem name lb m cur l : list Z).

Lemma cstr_nul l r : cstr (l ++ 0 :: r) = cstr l.
Proof. induction l as [|c l IH]; [done|]. simpl. by rewrite IH. Qed.

Lemma land_mask x : 0 <= x < LOGBUFF_LEN → Z.land x LOGBUFF_MASK = x.
Proof.
  unfold LOGBUFF_LEN. intros Hx. change LOGBUFF_MASK with (Z.ones 15). rewrite Z.land_ones by lia.
  apply Z.mod_small. simpl. lia.
Qed.

Lemma take_S_drop {A} n k (l : list A) c : l !! k = Some c → take (S n) (drop k l) = c :: take n (drop (S k) l).
Proof. intros H. by rewrite (drop_S l c k H). Qed.

Lemma get_char_ok mem i : 0 <= i < Z.of_nat (length mem) →
  ∃ c, get_char mem i = Done c ∧ mem !! Z.to_nat i = Some c.
Proof.
  intros Hi. destruct (lookup_lt_is_Some_2 mem (Z.to_nat i)) as [c Hc]; [lia|]. exists c. split; [|done].
  unfold get_char. rewrite load_bytes_in by lia. cbn [access mbind run_bind].
  change (Z.to_nat 1) with 1%nat. by rewrite (take_S_drop 0 _ _ _ Hc).
Qed.

Lemma put_char_ok b i c : 0 <= i < Z.of_nat (length b) →
  put_char b i c = Done (splice b (Z.to_nat i) [c]).
Proof. intros Hi. unfold put_char. by rewrite store_bytes_in by (simpl; lia). Qed.

(** The prefix of the line that the local buffer holds. *)
Definition holds lb cur : Prop :=
  Z.of_nat (length lb) = LOGBUFF_SIZE ∧ take (length cur `min` 2046) lb = take 2046 cur.

(** The end of a line. *)
Lemma close_line lb cur :
  holds lb cur → let i := Z.of_nat (length cur `min` 2046) in
  ∃ lb1 lb2, put_char lb i 10 = Done lb1 ∧ put_char lb1 (i + 1) 0 = Done lb2 ∧ holds lb2 [] ∧
    cstr lb2 = cstr (take 2046 cur ++ [10]).
Proof.
  intros [Hl Ht] i. unfold LOGBUFF_SIZE in Hl.
  pose proof (length_splice lb (Z.to_nat i) [10] ltac:(simpl; lia)) as H1.
  eexists _, _. split; [apply put_char_ok; lia|]. split; [apply put_char_ok; lia|]. split.
  - split; [|done]. unfold LOGBUFF_SIZE. rewrite length_splice; simpl; lia.
  - unfold splice at 1. replace (Z.to_nat (i + 1)) with (Z.to_nat i + length [10%Z])%nat by (simpl; lia).
    rewrite (take_add_splice lb (Z.to_nat i) [10]) by lia. subst i. rewrite Nat2Z.id, Ht. apply cstr_nul.
Qed.

(** One more character. *)
Lemma add_char lb cur c :
  holds lb cur → let i := Z.of_nat (length cur `min` 2046) in
  ∃ lb1, put_char lb i c = Done lb1 ∧ holds lb1 (cur ++ [c]) ∧
    (if LOGBUFF_SIZE - 1 <=? i + 1 then i + 1 - 1 else i + 1) = Z.of_nat (length (cur ++ [c]) `min` 2046).
Proof.
  intros [Hl Ht] i. unfold LOGBUFF_SIZE in *. eexists. split; [apply put_char_ok; lia|].
  rewrite length_app. simpl length. split; [split|].
  - unfold LOGBUFF_SIZE. rewrite length_splice; simpl; lia.
  - rewrite length_app. simpl length. destruct (decide (length cur < 2046)%nat).
    + assert (Z.to_nat i = length cur) as -> by lia.
      replace ((length cur + 1) `min` 2046)%nat with (length cur + length [c])%nat by (simpl; lia).
      rewrite take_add_splice by lia. replace (length cur `min` 2046)%nat with (length cur) in Ht by lia.
      rewrite Ht, !take_ge by (rewrite ?length_app; simpl; lia). done.
    + assert (Z.to_nat i = 2046%nat) as -> by lia.
      replace ((length cur + 1) `min` 2046)%nat with 2046%nat by lia.
      replace (length cur `min` 2046)%nat with 2046%nat in Ht by lia.
      rewrite take_splice by lia. rewrite Ht, take_app_le by lia. done.
  - split_if; lia.
Qed.

Lemma process_loop_lines mem base name n log_idx lb m cur :
  0 <= base → 0 <= log_idx → log_idx + Z.of_nat n <= LOGBUFF_LEN →
  base + log_idx + Z.of_nat n <= Z.of_nat (length mem) → holds lb cur →
  process_loop mem base name n log_idx (Z.of_nat (length cur `min` 2046)) lb m =
    Done (m ++ concat (show_line name <$>
      lines_from cur (filter (λ c, c ≠ 13) (take n (drop (Z.to_nat (base + log_idx)) mem))))).
Proof.
  intros Hb. revert log_idx lb m cur. induction n as [|n IH]; intros log_idx lb m cur H0 Hlen Hmem Hlb.
  { simpl. by rewrite app_nil_r. }
  cbn [process_loop]. rewrite land_mask by lia.
  destruct (get_char_ok mem (base + log_idx)) as (c & -> & Hc); [lia|]. cbn [mbind run_bind].
  rewrite (take_S_drop n _ _ _ Hc). rewrite filter_cons.
  assert (S (Z.to_nat (base + log_idx)) = Z.to_nat (base + (log_idx + 1))) as -> by lia.
  destruct (Z.eqb_spec c 13) as [->|H13]; [rewrite decide_False by lia; by rewrite IH by (done || lia)|].
  rewrite decide_True by done. cbn [lines_from]. destruct (Z.eqb_spec c 10) as [->|H10].
  - destruct (close_line lb cur Hlb) as (lb1 & lb2 & -> & H2 & Hlb2 & Hs). cbn [mbind run_bind].
    rewrite H2. cbn [mbind run_bind mret run_ret]. change (LOGBUFF_SIZE - 1 <=? 0) with false. cbv iota zeta.
    rewrite (IH _ lb2 _ []) by (done || lia). f_equal. rewrite fmap_cons. cbn [concat].
    unfold show_line at 2. rewrite Hs. by rewrite <- !app_assoc.
  - destruct (add_char lb cur c Hlb) as (lb1 & -> & Hlb1 & Hi). cbn [mbind run_bind mret run_ret].
    rewrite Hi. by rewrite IH by (done || lia).
Qed.

(** C16: a chunk of at most 0x8000 characters is shown as the reference does it: the
    carriage returns are dropped, each line that is complete is printed behind the
    name, cut to 2046 characters and at a NUL, and the rest after the last newline
    is not printed.  The 2048 bytes of the local buffer and the chunk are never
    left, whatever the characters and whatever the buffer held before. *)
Theorem logbuffer_lines mem base name size lb m :
  0 <= base → 0 <= size <= LOGBUFF_LEN → base + size <= Z.of_nat (length mem) →
  Z.of_nat (length lb) = LOGBUFF_SIZE →
  process_logbuffer mem base name size (Some lb) m =
    Done (m ++ render name (take (Z.to_nat size) (drop (Z.to_nat base) mem))).
Proof.
  intros Hb Hs Hm Hl. unfold process_logbuffer, render.
  change 0 with (Z.of_nat (length (@nil Z) `min` 2046)) at 2.
  rewrite process_loop_lines by (done || lia). by rewrite Z.add_0_r.
Qed.
End Lines.

(** ** The whole log *)
Section Log.
Implicit Types (mem name m l : list Z) (a : lb_answers).

Definition kmalloc_failed : list Z :=
  str "kmalloc " ++ fmt_d LOGBUFF_SIZE ++ str " bytes failed - ignore it!" ++ [10].

(** The log in pieces of 0x8000 characters, each rendered for itself. *)
Fixpoint show_chunks (n : nat) a name (off : Z) l : list Z :=
  match n with
  | O => []
  | S n =>
      match l with
      | [] => []
      | _ => match a_kmalloc a off with
             | Some _ => render name (take (Z.to_nat LOGBUFF_LEN) l)
             | None => kmalloc_failed
             end ++ show_chunks n a name (off + LOGBUFF_LEN) (drop (Z.to_nat LOGBUFF_LEN) l)
      end
  end.

(** Every allocation gives the 2048 bytes it was asked for. *)
Definition kmalloc_ok a : Prop :=
  ∀ off lb, a_kmalloc a off = Some lb → Z.of_nat (length lb) = LOGBUFF_SIZE.

Lemma show_chunks_nil n a name off : show_chunks n a name off [] = [].
Proof. by destruct n. Qed.

Lemma process_chunk mem base name size a off m :
  kmalloc_ok a → 0 <= base → 0 <= size <= LOGBUFF_LEN → base + size <= Z.of_nat (length mem) →
  process_logbuffer mem base name size (a_kmalloc a off) m =
    Done (m ++ match a_kmalloc a off with
               | Some _ => render name (take (Z.to_nat size) (drop (Z.to_nat base) mem))
               | None => kmalloc_failed end).
Proof.
  intros Hk Hb Hs Hm. unfold process_logbuffer. destruct (a_kmalloc a off) as [lb|] eqn:E; [|done].
  unfold render. change 0 with (Z.of_nat (length (@nil Z) `min` 2046)) at 2.
  rewrite process_loop_lines by (done || lia || (split; [by apply (Hk off)|done])).
  by rewrite Z.add_0_r.
Qed.

Lemma chunks_ok fuel n a mem name end_ offset m :
  kmalloc_ok a → Z.of_nat (length mem) < 2 ^ 63 → 0 <= offset <= end_ →
  end_ + sizeof_logbuff_t <= Z.of_nat (length mem) →
  (end_ - offset + LOGBUFF_LEN - 1) / LOGBUFF_LEN + 1 <= Z.of_nat fuel → end_ - offset <= Z.of_nat n * LOGBUFF_LEN →
  chunks fuel a mem name (Z.of_nat (length mem)) end_ offset m =
    Done (m ++ show_chunks n a name offset
            (take (Z.to_nat (end_ - offset)) (drop (Z.to_nat (sizeof_logbuff_t + offset)) mem))).
Proof.
  unfold sizeof_logbuff_t. intros Hk Hlen. revert n offset m.
  induction fuel as [|fuel IH]; intros n offset m Ho He Hf Hn.
  { pose proof (Z.div_pos (end_ - offset + LOGBUFF_LEN - 1) LOGBUFF_LEN). unfold LOGBUFF_LEN in *. lia. }
  cbn [chunks]. unfold sizeof_logbuff_t. rewrite (u64_id (40 + offset)) by lia.
  destruct (Z.ltb_spec offset end_); [|replace (end_ - offset) with 0 by lia;
    cbn [andb]; change (Z.to_nat 0) with 0%nat; by rewrite take_0, show_chunks_nil, app_nil_r].
  destruct (Z.ltb_spec (40 + offset) (Z.of_nat (length mem))); [|lia]. cbn [andb].
  set (l := take (Z.to_nat (end_ - offset)) _).
  assert (l ≠ []) as Hne.
  { intros Hl%(f_equal length). subst l. rewrite length_take, length_drop in Hl. simpl in Hl. lia. }
  destruct n as [|n]; [lia|]. cbn [show_chunks].
  assert (∀ {T} (x y : T), match l with [] => x | _ => y end = y) as Hmatch by (intros; by destruct l).
  rewrite Hmatch. unfold LOGBUFF_LEN in *.
  rewrite (u64_id (offset + 0x8000)) by lia. destruct (Z.ltb_spec end_ (offset + 0x8000)) as [Hlt|Hge].
  - rewrite process_chunk by (done || unfold LOGBUFF_LEN; lia). cbn [mbind run_bind].
    rewrite u64_id by lia. replace (offset + (end_ - offset)) with end_ by lia.
    rewrite (IH 0%nat); [|lia|lia| |lia].
    2: { rewrite Z.sub_diag. change ((0 + _ - 1) / _) with 0.
         pose proof (Z.div_le_lower_bound (end_ - offset + 0x8000 - 1) 0x8000 1). lia. }
    cbn [show_chunks]. rewrite app_nil_r.
    subst l. rewrite (take_ge (take _ _)) by (rewrite length_take; lia).
    rewrite (drop_ge (take _ _)) by (rewrite length_take; lia). by rewrite show_chunks_nil, app_nil_r.
  - rewrite process_chunk by (done || unfold LOGBUFF_LEN; lia). cbn [mbind run_bind].
    rewrite u64_id by lia. rewrite (IH n); [|lia|lia| |lia].
    2: { replace (end_ - offset + 0x8000 - 1)
           with (end_ - (offset + 0x8000) + 0x8000 - 1 + 1 * 0x8000) in Hf by lia.
         rewrite Z.div_add in Hf by lia. lia. }
    subst l. rewrite <- app_assoc. do 3 f_equal.
    + destruct (a_kmalloc a offset); [|done]. rewrite take_take. do 2 f_equal. lia.
    + rewrite skipn_firstn_comm, drop_drop. f_equal. f_equal; [lia|f_equal; lia].
Qed.

(** A chunk that does not fit into the mapping. *)
Lemma process_loop_oob mem base name n log_idx lb m cur :
  0 <= base → 0 <= log_idx → log_idx + Z.of_nat n <= LOGBUFF_LEN →
  base + log_idx <= Z.of_nat (length mem) < base + log_idx + Z.of_nat n → holds lb cur →
  process_loop mem base name n log_idx (Z.of_nat (length cur `min` 2046)) lb m = Undef.
Proof.
  intros Hb. revert log_idx lb m cur. induction n as [|n IH]; intros log_idx lb m cur H0 Hlen Hmem Hlb; [lia|].
  cbn [process_loop]. rewrite land_mask by lia.
  destruct (decide (base + log_idx = Z.of_nat (length mem))) as [He|Hne].
  { unfold get_char, load_bytes. if_false. done. }
  destruct (get_char_ok mem (base + log_idx)) as (c & -> & Hc); [lia|]. cbn [mbind run_bind].
  destruct (Z.eqb_spec c 13) as [->|H13]; [by apply IH; try lia|].
  destruct (Z.eqb_spec c 10) as [->|H10].
  - destruct (close_line lb cur Hlb) as (lb1 & lb2 & -> & H2 & Hlb2 & Hs). cbn [mbind run_bind].
    rewrite H2. cbn [mbind run_bind mret run_ret]. change (LOGBUFF_SIZE - 1 <=? 0) with false. cbv iota zeta.
    apply (IH _ lb2 _ []); done || lia.
  - destruct (add_char lb cur c Hlb) as (lb1 & -> & Hlb1 & Hi). cbn [mbind run_bind mret run_ret].
    rewrite Hi. apply IH; done || lia.
Qed.

Lemma chunks_wrapped fuel a mem name end_ offset m :
  (∀ off, ∃ lb, a_kmalloc a off = Some lb ∧ Z.of_nat (length lb) = LOGBUFF_SIZE) →
  Z.of_nat (length mem) < 2 ^ 63 → 2 ^ 64 - sizeof_logbuff_t <= end_ < 2 ^ 64 →
  0 <= offset → sizeof_logbuff_t + offset < Z.of_nat (length mem) →
  (Z.of_nat (length mem) - sizeof_logbuff_t - offset) mod LOGBUFF_LEN ≠ 0 →
  (Z.of_nat (length mem) - sizeof_logbuff_t - offset) / LOGBUFF_LEN < Z.of_nat fuel →
  chunks fuel a mem name (Z.of_nat (length mem)) end_ offset m = Undef.
Proof.
  unfold sizeof_logbuff_t. intros Hk Hlen He. revert offset m.
  induction fuel as [|fuel IH]; intros offset m Ho Hlt Hmod Hf.
  { pose proof (Z.div_pos (Z.of_nat (length mem) - 40 - offset) LOGBUFF_LEN). unfold LOGBUFF_LEN in *. lia. }
  cbn [chunks]. unfold sizeof_logbuff_t. rewrite (u64_id (40 + offset)) by lia. if_true.
  unfold LOGBUFF_LEN in *. rewrite (u64_id (offset + 0x8000)) by lia. if_false.
  unfold process_logbuffer. destruct (Hk offset) as (lb & -> & Hlb).
  assert (holds lb []) as Hh by done.
  change 0 with (Z.of_nat (length (@nil Z) `min` 2046)) at 2.
  destruct (decide (40 + offset + 0x8000 <= Z.of_nat (length mem))) as [Hin|Hout].
  - rewrite process_loop_lines by (done || unfold LOGBUFF_LEN; lia). cbn [mbind run_bind].
    rewrite u64_id by lia.
    replace (Z.of_nat (length mem) - 40 - offset)
      with (Z.of_nat (length mem) - 40 - (offset + 0x8000) + 1 * 0x8000) in Hmod, Hf by lia.
    rewrite Z_mod_plus_full in Hmod. rewrite Z.div_add in Hf by lia.
    apply IH; try lia.
    destruct (decide (40 + (offset + 0x8000) = Z.of_nat (length mem))) as [Hx|]; [|lia].
    exfalso. apply Hmod. rewrite <- Hx. replace (_ - _ - _) with 0 by lia. done.
  - rewrite process_loop_oob by (done || unfold LOGBUFF_LEN; lia). done.
Qed.
End Log.

(** ** The parameter *)
Section BufferInfo.
Implicit Types (t pre rest outp : list Z).

(** Characters of a token: no NUL, no comma. *)
Definition token t : Prop := Forall (λ c, c ≠ 0 ∧ c ≠ 44) t.

Lemma token_nul t : token t → Forall (λ c, c ≠ 0) t.
Proof. intros H. eapply Forall_impl; [exact H|]. by intros ? []. Qed.
Lemma token_comma t : token t → Forall (λ c, c ≠ 44) t.
Proof. intros H. eapply Forall_impl; [exact H|]. by intros ? []. Qed.

Lemma strcpy_ok dst s : (length s < length dst)%nat →
  strcpy dst s = Some (s ++ 0 :: drop (S (length s)) dst).
Proof.
  intros Hl. unfold strcpy. rewrite store_bytes_in by (rewrite ?length_app; simpl; lia).
  unfold splice. simpl. rewrite length_app. simpl.
  rewrite <- app_assoc. simpl. replace (length s + 1)%nat with (S (length s)) by lia. done.
Qed.

Lemma strcpy_overflow dst s : (length dst <= length s)%nat → strcpy dst s = None.
Proof.
  intros Hl. unfold strcpy, store_bytes. rewrite length_app. cbn [length]. split_if; [lia|done].
Qed.

(** The array a token was copied to. *)
Definition copied t outp outp' : Prop := length outp' = length outp ∧ cstr outp' = t.

Lemma copied_ok t outp : token t → (length t < length outp)%nat →
  ∃ outp', strcpy outp t = Some outp' ∧ copied t outp outp'.
Proof.
  intros Ht Hl. eexists. split; [by apply strcpy_ok|]. split.
  - rewrite length_app. simpl. rewrite length_drop. lia.
  - apply cstr_app_nul. by apply token_nul.
Qed.

Lemma get_mytoken_comma pre t rest outp r :
  token t → (length t < length outp)%nat → until_nul rest = Some r →
  ∃ outp', get_mytoken (pre ++ t ++ 44 :: rest) (Z.of_nat (length pre)) outp =
    Done (pre ++ t ++ 0 :: rest, outp', Z.of_nat (length (pre ++ t ++ [0]))) ∧ copied t outp outp'.
Proof.
  intros Ht Hl Hr. unfold get_mytoken. rewrite Nat2Z.id, drop_app_length.
  assert (∀ t', Forall (λ c, c ≠ 0) t' → until_nul (t' ++ 44 :: rest) = Some (t' ++ 44 :: r)) as Hun.
  { induction 1 as [|c t' Hc _ IH]; simpl; [by rewrite Hr|]. apply Z.eqb_neq in Hc. by rewrite Hc, IH. }
  rewrite Hun by by apply token_nul. cbn [access mbind run_bind].
  rewrite strchr_app by by apply token_comma. rewrite store_bytes_in by (rewrite ?length_app; simpl; lia).
  cbn [access mbind run_bind].
  assert (splice (pre ++ t ++ 44 :: rest) (Z.to_nat (Z.of_nat (length pre) + Z.of_nat (length t))) [0] =
          pre ++ t ++ 0 :: rest) as ->.
  { unfold splice. rewrite <- Nat2Z.inj_add, Nat2Z.id, <- length_app, (app_assoc pre t).
    rewrite take_app_length. rewrite drop_app_ge by (simpl; lia).
    replace (length (pre ++ t) + length [0%Z] - length (pre ++ t))%nat with 1%nat by (simpl; lia).
    by rewrite <- app_assoc. }
  rewrite drop_app_length, until_nul_app by by apply token_nul. cbn [access mbind run_bind].
  destruct (copied_ok t outp Ht Hl) as (outp' & -> & Hc). exists outp'. split; [|done].
  cbn [access mbind run_bind]. rewrite !length_app. simpl. unfold mret, run_ret. do 2 f_equal. lia.
Qed.

Lemma get_mytoken_last pre t rest outp :
  token t → (length t < length outp)%nat →
  ∃ outp', get_mytoken (pre ++ t ++ 0 :: rest) (Z.of_nat (length pre)) outp =
    Done (pre ++ t ++ 0 :: rest, outp', Z.of_nat (length (pre ++ t))) ∧ copied t outp outp'.
Proof.
  intros Ht Hl. unfold get_mytoken. rewrite Nat2Z.id, drop_app_length, until_nul_app by by apply token_nul.
  cbn [access mbind run_bind]. rewrite strchr_none by by apply token_comma.
  destruct (copied_ok t outp Ht Hl) as (outp' & -> & Hc). exists outp'. split; [|done].
  cbn [access mbind run_bind]. rewrite length_app. unfold mret, run_ret. do 2 f_equal. lia.
Qed.

(** The arrays of [logbuffer_show]. *)
Record locals_ok (s : show_locals) : Prop := {
  lo_addr : length (l_addr s) = 128%nat;
  lo_length : length (l_length s) = 128%nat;
  lo_info : length (l_info s) = 512%nat;
  lo_name : length (l_name s) = 128%nat;
}.

(** A parameter that fits: three tokens of at most 127 characters. *)
Record fits (nm len adr : list Z) : Prop := {
  ft_name : token nm ∧ (length nm < 128)%nat;
  ft_length : token len ∧ (length len < 128)%nat;
  ft_addr : token adr ∧ (length adr < 128)%nat;
}.

Definition param (nm len adr : list Z) : list Z := nm ++ 44 :: len ++ 44 :: adr.

(** What the parameter is read as. *)
Lemma read_param s nm len adr :
  locals_ok s → fits nm len adr →
  ∃ name length_ addr cur i1 i2 i3 i4,
    strcpy (l_info s) (param nm len adr) = Some i1 ∧
    get_mytoken i1 0 (l_name s) = Done (i2, name, Z.of_nat (length (nm ++ [0]))) ∧
    get_mytoken i2 (Z.of_nat (length (nm ++ [0]))) (l_length s) =
      Done (i3, length_, Z.of_nat (length ((nm ++ [0]) ++ len ++ [0]))) ∧
    get_mytoken i3 (Z.of_nat (length ((nm ++ [0]) ++ len ++ [0]))) (l_addr s) = Done (i4, addr, cur) ∧
    cstr name = nm ∧ cstr length_ = len ∧ cstr addr = adr.
Proof.
  intros [H1 H2 H3 H4] [[Tn Ln] [Tl Ll] [Ta La]].
  set (tail := drop (S (length (param nm len adr))) (l_info s)).
  assert (until_nul (adr ++ 0 :: tail) = Some adr) as Ut by (apply until_nul_app; by apply token_nul).
  assert (until_nul (len ++ 44 :: adr ++ 0 :: tail) = Some (len ++ 44 :: adr)) as Ul.
  { rewrite app_comm_cons, app_assoc. apply until_nul_app. apply Forall_app. split; [by apply token_nul|].
    constructor; [done|by apply token_nul]. }
  destruct (get_mytoken_comma [] nm (len ++ 44 :: adr ++ 0 :: tail) (l_name s) (len ++ 44 :: adr) Tn) as (name & G1 & _ & C1);
    [lia|exact Ul|].
  destruct (get_mytoken_comma (nm ++ [0]) len (adr ++ 0 :: tail) (l_length s) adr Tl) as (length_ & G2 & _ & C2);
    [lia|exact Ut|].
  destruct (get_mytoken_last ((nm ++ [0]) ++ len ++ [0]) adr tail (l_addr s) Ta) as (addr & G3 & _ & C3); [lia|].
  exists name, length_, addr. do 5 eexists. split.
  { apply strcpy_ok. unfold param. rewrite !length_app. simpl. rewrite length_app. simpl. lia. }
  fold tail. replace (param nm len adr ++ 0 :: tail) with (nm ++ 44 :: len ++ 44 :: adr ++ 0 :: tail)
    by (unfold param; rewrite <- app_assoc; simpl; by rewrite <- app_assoc).
  split; [exact G1|]. split.
  { cbn [app]. rewrite <- (app_assoc nm [0]) in G2. exact G2. }
  split; [|done]. rewrite <- !app_assoc in *. exact G3.
Qed.
End BufferInfo.

(** ** Theorems on the file *)
Section ShowFacts.
Context (big_endian : bool) (fmt_p : Z → list Z).
Implicit Types (mem m : list Z) (a : lb_answers) (w : lb_world).

(** The header fields. *)
Definition hdr_tag mem : Z := cpu_value big_endian (take 4 mem).
Definition hdr_start mem : Z := cpu_value big_endian (take 8 (drop 8 mem)).
Definition hdr_end mem : Z := cpu_value big_endian (take 8 (drop 24 mem)).

(** What [ioremap] maps: [size] bytes of memory. *)
Definition maps_to mem (size : Z) : Prop :=
  Z.of_nat (length mem) = size ∧ size < 2 ^ 63 ∧ Forall (λ c, 0 <= c < 256) mem.

Lemma be_value_range l : Forall (λ c, 0 <= c < 256) l → 0 <= be_value l < 256 ^ Z.of_nat (length l).
Proof using Type.
  unfold be_value. intros H. assert (∀ acc k, 0 <= acc < 256 ^ Z.of_nat k →
    0 <= foldl (λ x y, x * 256 + y) acc l < 256 ^ Z.of_nat (k + length l)) as Hgen.
  { induction H as [|c l Hc _ IH]; intros acc k Ha; simpl; [by rewrite Nat.add_0_r|].
    rewrite <- Nat.add_succ_comm. apply IH. rewrite Nat2Z.inj_succ, Z.pow_succ_r by lia. nia. }
  apply (Hgen 0 0%nat). simpl. lia.
Qed.

Lemma cpu_value_range l : Forall (λ c, 0 <= c < 256) l →
  0 <= cpu_value big_endian l < 256 ^ Z.of_nat (length l).
Proof using Type.
  intros H. unfold cpu_value. destruct big_endian; [by apply be_value_range|].
  rewrite <- (length_rev l). apply be_value_range. by apply Forall_rev.
Qed.

Lemma hdr_range mem size : maps_to mem size → 40 < size →
  0 <= hdr_start mem < 2 ^ 64 ∧ 0 <= hdr_end mem < 2 ^ 64.
Proof using Type.
  intros (Hl & _ & Hb) Hs.
  assert (∀ k, (k + 8 <= length mem)%nat → 0 <= cpu_value big_endian (take 8 (drop k mem)) < 2 ^ 64) as H.
  { intros k Hk. pose proof (cpu_value_range (take 8 (drop k mem))) as Hr.
    replace (length (take 8 (drop k mem))) with 8%nat in Hr by (rewrite length_take, length_drop; lia).
    change (256 ^ Z.of_nat 8) with (2 ^ 64) in Hr. apply Hr. by apply Forall_take, Forall_drop. }
  split; apply H; lia.
Qed.

Lemma headers mem size : maps_to mem size → 40 < size →
  get_u32 big_endian mem off_tag = Done (hdr_tag mem) ∧
  get_u64 big_endian mem off_start = Done (hdr_start mem) ∧
  get_u64 big_endian mem off_end = Done (hdr_end mem).
Proof using Type.
  intros (Hl & _ & _) Hs. unfold get_u32, get_u64, off_tag, off_start, off_end.
  by rewrite !load_bytes_in by lia.
Qed.

(** The header is accepted. *)
Definition good_header mem (size : Z) : Prop :=
  hdr_tag mem = LOGBUFF_MAGIC ∧ hdr_start mem <= hdr_end mem ∧ hdr_end mem + sizeof_logbuff_t <= size.

Definition log_of mem : list Z :=
  take (Z.to_nat (hdr_end mem - hdr_start mem)) (drop (Z.to_nat (sizeof_logbuff_t + hdr_start mem)) mem).

Definition shown a name mem : list Z :=
  show_chunks (Z.to_nat (hdr_end mem - hdr_start mem)) a name (hdr_start mem) (log_of mem).

Lemma show_log_ok a mem name size p m :
  kmalloc_ok a → maps_to mem size → 40 < size → hdr_end mem + sizeof_logbuff_t < 2 ^ 64 →
  ∃ m', show_log big_endian fmt_p a mem name size p m = Done m' ∧
    (good_header mem size → ∃ pre, m' = pre ++ shown a name mem).
Proof using Type.
  intros Hk Hm Hs Hw. destruct (headers mem size Hm Hs) as (H1 & H2 & H3).
  destruct (hdr_range mem size Hm Hs) as [Hr1 Hr2]. unfold show_log. rewrite H1. cbn [mbind run_bind].
  split_if; [eexists; split; [reflexivity|]; by intros []|]. rewrite H2. cbn [mbind run_bind].
  rewrite H3. cbn [mbind run_bind]. unfold sizeof_logbuff_t in *. rewrite (u64_id (hdr_end mem + 40)) by lia.
  split_if; [eexists; split; [reflexivity|]; intros (_ & ? & ?); unfold sizeof_logbuff_t in *; lia|].
  destruct Hm as (Hl & Hs2 & _). subst size.
  erewrite chunks_ok with (n := Z.to_nat (hdr_end mem - hdr_start mem));
    [|done|lia|lia|unfold sizeof_logbuff_t; lia| |unfold LOGBUFF_LEN; lia].
  - eexists. split; [reflexivity|]. intros _. by eexists.
  - unfold LOGBUFF_LEN.
    pose proof (Z.div_le_mono (hdr_end mem - hdr_start mem + 0x8000 - 1)
      (Z.of_nat (length mem) + 1 * 0x8000) 0x8000).
    rewrite Z.div_add in * by lia. pose proof (Z.div_pos (Z.of_nat (length mem)) 0x8000). lia.
Qed.

Lemma cstr_id l : Forall (λ c, c ≠ 0) l → cstr l = l.
Proof using Type. induction 1 as [|c l Hc _ IH]; [done|]. simpl. apply Z.eqb_neq in Hc. by rewrite Hc, IH. Qed.

Lemma shown_name a n1 n2 mem : cstr n1 = cstr n2 → shown a n1 mem = shown a n2 mem.
Proof using Type.
  intros Hn. unfold shown. assert (∀ l, render n1 l = render n2 l) as Hr.
  { intros l. unfold render. f_equal. apply list_fmap_ext. intros _ x _. unfold show_line. by rewrite Hn. }
  generalize (Z.to_nat (hdr_end mem - hdr_start mem)). generalize (log_of mem) (hdr_start mem).
  intros l off n. revert l off. induction n as [|n IH]; intros l off; [done|]. cbn [show_chunks]. destruct l; [done|]. by rewrite Hr, IH.
Qed.

(** C35: reading /proc/logbuffer, for a parameter of three tokens that fit their
    arrays and a region whose end field is not within 40 of 2^64: the read returns
    for every content of the region and every answer of the kernel, leaves the
    region released and unmapped, and never leaves the mapping.  When the header is
    in order what it prints ends with the log from start to end, rendered in pieces
    of 0x8000 characters. *)
Theorem logbuffer_show_log nm len adr s p a w :
  locals_ok s → fits nm len adr → kmalloc_ok a →
  let mem_address := u64 (simple_strtol0 adr) in let mem_size := u64 (simple_strtol0 len) in
  (mem_address, mem_size) ∉ lb_regions w →
  (∀ mem, a_ioremap a = Some mem → maps_to mem mem_size ∧ hdr_end mem + sizeof_logbuff_t < 2 ^ 64) →
  ∃ m, logbuffer_show big_endian fmt_p (param nm len adr) s p a w = Done (0, m, w) ∧
    ∀ mem, mem_address ≠ 0 → sizeof_logbuff_t < mem_size → a_region a = true → a_ioremap a = Some mem →
      good_header mem mem_size → ∃ pre, m = pre ++ shown a nm mem.
Proof using Type.
  intros Hs Hf Hk addr size Hreg Hmap. pose proof Hf as [[Tn _] _ _].
  destruct (read_param s nm len adr Hs Hf)
    as (name & len' & adr' & cur & i1 & i2 & i3 & i4 & H1 & H2 & H3 & H4 & Cn & Cl & Ca).
  unfold logbuffer_show. rewrite H1. cbn [access mbind run_bind]. rewrite H2. cbn [mbind run_bind].
  rewrite H3. cbn [mbind run_bind]. rewrite H4. cbn [mbind run_bind]. rewrite Cl, Ca.
  fold addr size. cbv zeta. split_if; [|eexists; split; [done|]; naive_solver lia].
  destruct (a_region a) eqn:Har; cbn [negb]; [|by eexists].
  assert ({| lb_regions := ({[(addr, size)]} ∪ lb_regions w) ∖ {[(addr, size)]}; lb_maps := lb_maps w |} = w)
    as Hw by (destruct w; simpl in *; f_equal; clear -Hreg; set_solver).
  destruct (a_ioremap a) as [mem|] eqn:Hio; [|eexists; split; [cbn; by rewrite Hw|done]].
  destruct (Hmap mem eq_refl) as [Hm Hend].
  destruct (show_log_ok a mem name size p (str "processing buffer at " ++ fmt_x addr ++ str " size " ++ fmt_x size ++ [10]) Hk Hm)
    as (m' & Hrun & Hend'); [unfold sizeof_logbuff_t in *; lia|done|].
  exists m'. split.
  - rewrite Hrun. cbn [mbind run_bind lb_regions lb_maps]. rewrite Z.add_simpl_r, Hw. done.
  - intros mem' _ _ _ [= <-] Hg. destruct (Hend' Hg) as [pre ->]. exists pre. f_equal.
    apply shown_name. by rewrite Cn, cstr_id by by apply token_nul.
Qed.

(** The range check of the header is done modulo 2^64: an end field in the last
    40 values below 2^64 passes it, and the loop then reads up to 0x8000 characters
    at a time beyond the mapping, unless the rest of the mapping is a whole number
    of such pieces. *)
Theorem logbuffer_end_wraps nm len adr s p a w mem :
  locals_ok s → fits nm len adr →
  (∀ off, ∃ lb, a_kmalloc a off = Some lb ∧ Z.of_nat (length lb) = LOGBUFF_SIZE) →
  let mem_size := u64 (simple_strtol0 len) in
  u64 (simple_strtol0 adr) ≠ 0 → a_region a = true → a_ioremap a = Some mem → maps_to mem mem_size →
  hdr_tag mem = LOGBUFF_MAGIC → 2 ^ 64 - sizeof_logbuff_t <= hdr_end mem →
  sizeof_logbuff_t + hdr_start mem < mem_size →
  (mem_size - sizeof_logbuff_t - hdr_start mem) mod LOGBUFF_LEN ≠ 0 →
  logbuffer_show big_endian fmt_p (param nm len adr) s p a w = Undef.
Proof using Type.
  intros Hs Hf Hk size Ha Hr Hio Hm Ht He Hst Hmod.
  destruct (read_param s nm len adr Hs Hf)
    as (name & len' & adr' & cur & i1 & i2 & i3 & i4 & H1 & H2 & H3 & H4 & Cn & Cl & Ca).
  unfold logbuffer_show. rewrite H1. cbn [access mbind run_bind]. rewrite H2. cbn [mbind run_bind].
  rewrite H3. cbn [mbind run_bind]. rewrite H4. cbn [mbind run_bind]. rewrite Cl, Ca.
  fold size. cbv zeta. apply Z.eqb_neq in Ha. rewrite Ha. cbn [negb andb].
  unfold sizeof_logbuff_t in *.
  assert (40 < size) as Hsz.
  { destruct (Z_lt_le_dec 40 size); [done|]. destruct Hm as (Hl & _ & Hb).
    assert (0 <= hdr_start mem); [|lia]. unfold hdr_start.
    pose proof (cpu_value_range (take 8 (drop 8 mem))) as Hc. apply Hc. by apply Forall_take, Forall_drop. }
  rewrite (proj2 (Z.ltb_lt 40 size) Hsz). rewrite Hr, Hio. cbn [negb]. unfold show_log.
  destruct (headers mem size Hm Hsz) as (G1 & G2 & G3). destruct (hdr_range mem size Hm Hsz) as [R1 R2].
  rewrite G1. cbn [mbind run_bind]. rewrite Ht, Z.eqb_refl. cbn [negb]. rewrite G2. cbn [mbind run_bind].
  rewrite G3. cbn [mbind run_bind]. unfold sizeof_logbuff_t.
  assert (u64 (hdr_end mem + 40) = hdr_end mem + 40 - 2 ^ 64) as ->.
  { unfold u64, uwrap. rewrite <- (Z_mod_plus_full _ (-1)), Z.mod_small; lia. }
  destruct Hm as (Hl & Hs2 & _). if_false. rewrite <- Hl in *. rewrite chunks_wrapped; [done|done|lia|unfold sizeof_logbuff_t; lia|lia|done|done|].
  - unfold sizeof_logbuff_t. rewrite Nat2Z.inj_add, Z2Nat.id by (apply Z.div_pos; unfold LOGBUFF_LEN; lia).
    pose proof (Z.div_le_mono (Z.of_nat (length mem) - 40 - hdr_start mem) (Z.of_nat (length mem)) LOGBUFF_LEN).
    unfold LOGBUFF_LEN in *. lia.
Qed.

(** A name of 128 characters or more overruns the 128 bytes it is copied to. *)
Theorem logbuffer_long_token_overruns nm (rest : list Z) s p a w :
  locals_ok s → token nm → (128 <= length nm)%nat → Z.of_nat (length (nm ++ 44 :: rest)) < 512 →
  Forall (λ c, c ≠ 0) rest →
  logbuffer_show big_endian fmt_p (nm ++ 44 :: rest) s p a w = Undef.
Proof using Type.
  intros [Ha Hl Hi Hn] Tn Hlen Htot Hr. unfold logbuffer_show.
  rewrite strcpy_ok by lia. cbn [access mbind run_bind]. set (tail := drop _ (l_info s)).
  assert (∀ X, drop (Z.to_nat 0) X = X :> list Z) as D0 by done.
  unfold get_mytoken. rewrite D0.
  rewrite until_nul_app by (apply Forall_app; split; [by apply token_nul|by constructor]).
  cbn [access mbind run_bind]. rewrite strchr_app by by apply token_comma.
  rewrite store_bytes_in by (rewrite ?length_app in *; simpl in *; lia). cbn [access mbind run_bind].
  assert (splice ((nm ++ 44 :: rest) ++ 0 :: tail) (Z.to_nat (0 + Z.of_nat (length nm))) [0] =
          nm ++ 0 :: rest ++ 0 :: tail) as ->.
  { unfold splice. rewrite Z.add_0_l, Nat2Z.id, <- app_assoc, take_app_length.
    rewrite drop_app_ge by (simpl; lia).
    by replace (length nm + length [0%Z] - length nm)%nat with 1%nat by (simpl; lia). }
  rewrite D0, until_nul_app by by apply token_nul. cbn [access mbind run_bind].
  by rewrite strcpy_overflow by lia.
Qed.
End ShowFacts.

(** ** Witnesses *)
Definition demo_locals : show_locals :=
  {| l_addr := zeros 128; l_length := zeros 128; l_info := zeros 512; l_name := zeros 128 |}.
(** A region of 44 bytes, little endian, that holds a 4-character log. *)
Definition demo_region (end_ : list Z) : list Z :=
  [0xed; 0x4c; 0xde; 0xc0; 0; 0; 0; 0] ++ zeros 8 ++ zeros 8 ++ end_ ++ zeros 8 ++ [104; 105; 13; 10].
Definition demo_lb (end_ : list Z) : lb_answers :=
  {| a_region := true; a_ioremap := Some (demo_region end_); a_kmalloc _ := Some (zeros 2048) |}.
Definition demo_lb_world : lb_world := {| lb_regions := ∅; lb_maps := 0 |}.
Definition demo_p (_ : Z) : list Z := [].

Lemma demo_bytes (P : Z → Prop) `{∀ x, Decision (P x)} l : forallb (λ x, bool_decide (P x)) l = true → Forall P l.
Proof. intros Hl. apply Forall_forall. intros x Hx. rewrite forallb_forall in Hl.
  apply (bool_decide_eq_true_1 (P x)), Hl. by apply list_elem_of_In. Qed.

Lemma demo_fits : fits (str "boot") (str "44") (str "0x1000").
Proof. split; (split; [by apply (demo_bytes (λ c, c ≠ 0 ∧ c ≠ 44))|simpl; lia]). Qed.

Lemma logbuffer_lines_witness :
  process_logbuffer (str "abc" ++ [13; 10] ++ str "de" ++ [10; 102]) 0 (str "n") 9 (Some (zeros 2048)) [] =
    Done (str "n: abc" ++ [10] ++ str "n: de" ++ [10]).
Proof. rewrite (logbuffer_lines _ 0 (str "n") 9 (zeros 2048) []); [reflexivity|done|done|done|reflexivity]. Defined.

Lemma logbuffer_show_log_witness :
  ∃ m pre, logbuffer_show false demo_p (param (str "boot") (str "44") (str "0x1000")) demo_locals 0x9000
             (demo_lb [4; 0; 0; 0; 0; 0; 0; 0]) demo_lb_world = Done (0, m, demo_lb_world) ∧
    m = pre ++ str "boot: hi" ++ [10].
Proof.
  destruct (logbuffer_show_log false demo_p (str "boot") (str "44") (str "0x1000") demo_locals 0x9000
             (demo_lb [4; 0; 0; 0; 0; 0; 0; 0]) demo_lb_world) as (m & Hrun & Hlog).
  - done.
  - exact demo_fits.
  - intros off lb [= <-]. reflexivity.
  - apply not_elem_of_empty.
  - intros mem [= <-]. split; [|done]. split; [done|]. split; [done|]. by apply (demo_bytes (λ c, 0 <= c < 256)).
  - destruct (Hlog (demo_region [4; 0; 0; 0; 0; 0; 0; 0])) as [pre Hm]; [done|done|done|done|by repeat split|].
    exists m, pre. split; [exact Hrun|exact Hm].
Defined.

Lemma logbuffer_end_wraps_witness :
  logbuffer_show false demo_p (param (str "boot") (str "44") (str "0x1000")) demo_locals 0x9000
    (demo_lb [255; 255; 255; 255; 255; 255; 255; 255]) demo_lb_world = Undef.
Proof.
  apply (logbuffer_end_wraps false demo_p (str "boot") (str "44") (str "0x1000") demo_locals 0x9000
    (demo_lb [255; 255; 255; 255; 255; 255; 255; 255]) demo_lb_world
    (demo_region [255; 255; 255; 255; 255; 255; 255; 255])); try done.
  - exact demo_fits.
  - intros off. by eexists.
  - split; [done|]. split; [done|]. by apply (demo_bytes (λ c, 0 <= c < 256)).
Defined.

Lemma logbuffer_long_token_overruns_witness :
  logbuffer_show false demo_p (replicate 128 65 ++ 44 :: str "44,0x1000") demo_locals 0x9000
    (demo_lb []) demo_lb_world = Undef.
Proof.
  apply (logbuffer_long_token_overruns false demo_p (replicate 128 65) (str "44,0x1000")).
  - done.
  - apply Forall_replicate. lia.
  - rewrite length_replicate. lia.
  - simpl. lia.
  - repeat constructor; done.
Defined.
