(* ===== verification/Bpf.v ===== *)
(** * Packet filters: the tables of netrelay/dhcp_filter.c and netrelay/eoe_filter.c

    The relay attaches a classic BPF program to its network interface.  The programs
    are tables of the source; they are given the meaning of the BPF machine, as far
    as the tables use it: an accumulator, an index register, loads from the packet
    (a load outside the packet ends the program with 0), a mask, forward jumps and a
    return of the number of bytes to accept. *)

From S2P Require Import Prelude KernelApi.

(** [struct sock_filter] *)
Record sock_filter := { code : Z; jt : nat; jf : nat; k : Z }.

(** ** The machine *)
Inductive bpf_state :=
| Running (pc : nat) (A X : Z)
| Returned (v : Z).

(** [n] bytes at [off], big endian *)
Definition pkt (p : list Z) (off n : Z) : option Z := be_value <$> load_bytes p off n.

Definition load_to (p : list Z) (o : option Z) (pc : nat) (X : Z) : bpf_state :=
  match o with Some v => Running (S pc) v X | None => Returned 0 end.

Definition jump (b : bool) (i : sock_filter) (pc : nat) : nat := S pc + if b then jt i else jf i.

(** [None]: not an instruction of the tables *)
Definition bpf_step (p : list Z) (i : sock_filter) (pc : nat) (A X : Z) : option bpf_state :=
  if code i =? 0x28 then Some (load_to p (pkt p (k i) 2) pc X)                    (* ldh [k] *)
  else if code i =? 0x30 then Some (load_to p (pkt p (k i) 1) pc X)               (* ldb [k] *)
  else if code i =? 0x48 then Some (load_to p (pkt p (u32 (X + k i)) 2) pc X)     (* ldh [x + k] *)
  else if code i =? 0xb1 then                                                     (* ldxb 4*([k]&0xf) *)
    Some (match pkt p (k i) 1 with
          | Some v => Running (S pc) A (4 * Z.land v 0xf) | None => Returned 0 end)
  else if code i =? 0x54 then Some (Running (S pc) (Z.land A (k i)) X)            (* and #k *)
  else if code i =? 0x15 then Some (Running (jump (A =? k i) i pc) A X)           (* jeq #k *)
  else if code i =? 0x45 then                                                     (* jset #k *)
    Some (Running (jump (negb (Z.land A (k i) =? 0)) i pc) A X)
  else if code i =? 0x6 then Some (Returned (k i))                                (* ret #k *)
  else None.

(** [None]: the program left its table, or an instruction was not understood. *)
Fixpoint bpf_exec (fuel : nat) (prog : list sock_filter) (p : list Z) (s : bpf_state) : option Z :=
  match s with
  | Returned v => Some v
  | Running pc A X =>
      match fuel with
      | O => None
      | S fuel =>
          match prog !! pc with
          | Some i => bpf_step p i pc A X ≫= bpf_exec fuel prog p
          | None => None
          end
      end
  end.

(** Jumps go forward: as many steps as instructions are enough. *)
Definition bpf_run (prog : list sock_filter) (p : list Z) : option Z :=
  bpf_exec (length prog) prog p (Running 0 0 0).

Definition ins (c : Z) (t f : nat) (v : Z) : sock_filter := {| code := c; jt := t; jf := f; k := v |}.

(** ** The tables *)
Definition dhcp_packetFilter : list sock_filter :=
  [ins 0x28 0 0 0x0000000c; ins 0x15 0 13 0x00008100; ins 0x28 0 0 0x0000000e; ins 0x54 0 0 0x00000fff;
   ins 0x15 10 0 0x00000ffe; ins 0x28 0 0 0x00000010; ins 0x15 0 8 0x00000800; ins 0x30 0 0 0x0000001b;
   ins 0x15 0 6 0x00000011; ins 0x28 0 0 0x00000018; ins 0x45 4 0 0x00001fff; ins 0xb1 0 0 0x00000012;
   ins 0x48 0 0 0x00000014; ins 0x15 0 1 0x00000044; ins 0x6 0 0 0x00040000; ins 0x6 0 0 0x00000000].

Definition eoe_packetFilter : list sock_filter :=
  [ins 0x30 0 0 0x00000012; ins 0x54 0 0 0x000000f0; ins 0x15 0 3 0x00000010;
   ins 0x28 0 0 0x00000026; ins 0x15 1 0 0x000008ab; ins 0x06 0 0 0x0000ffff; ins 0x06 0 0 0x00000000].

(** ** Well-formed programs *)

(** An instruction at [pc] of a program of [n] is known, its jumps stay in the
    program and the last instruction returns. *)
Definition wf_ins (n pc : nat) (i : sock_filter) : bool :=
  if code i =? 0x6 then true
  else if (code i =? 0x15) || (code i =? 0x45)
  then (S pc + jt i <? n)%nat && (S pc + jf i <? n)%nat
  else existsb (Z.eqb (code i)) [0x28; 0x30; 0x48; 0xb1; 0x54] && (S pc <? n)%nat.
Fixpoint wf_from (n pc : nat) (l : list sock_filter) : bool :=
  match l with [] => true | i :: l => wf_ins n pc i && wf_from n (S pc) l end.
Definition wf_prog (prog : list sock_filter) : bool :=
  negb (length prog =? 0)%nat && wf_from (length prog) 0 prog.

Lemma wf_from_lookup n pc l j i : wf_from n pc l = true → l !! j = Some i → wf_ins n (pc + j) i = true.
Proof.
  revert pc j. induction l as [|x l IH]; intros pc j Hwf Hj; [done|]. simpl in Hwf. bool_to_prop.
  destruct j as [|j]; [injection Hj as ->; by rewrite Nat.add_0_r|]. rewrite <- Nat.add_succ_comm. by apply IH.
Qed.

(** A step of a well-formed program goes forward and stays in the program. *)
Lemma wf_step n p i pc A X : wf_ins n pc i = true →
  ∃ s, bpf_step p i pc A X = Some s ∧
    match s with Running pc' _ _ => (pc < pc' < n)%nat | Returned _ => True end.
Proof.
  unfold wf_ins, bpf_step, load_to, jump.
  destruct (Z.eqb_spec (code i) 0x6) as [E|_]; [rewrite E; simpl; by eexists|].
  destruct (Z.eqb_spec (code i) 0x15) as [E|_].
  { rewrite E. simpl. intros [?%Nat.ltb_lt ?%Nat.ltb_lt]%andb_prop. eexists. split; [done|].
    destruct (A =? k i); lia. }
  destruct (Z.eqb_spec (code i) 0x45) as [E|_].
  { rewrite E. simpl. intros [?%Nat.ltb_lt ?%Nat.ltb_lt]%andb_prop. eexists. split; [done|].
    destruct (negb _); lia. }
  cbn [orb existsb]. intros [Hc Hn%Nat.ltb_lt]%andb_prop. revert Hc.
  destruct (code i =? 0x28), (code i =? 0x30), (code i =? 0x48), (code i =? 0xb1), (code i =? 0x54);
    try done; intros _; eexists; (split; [done|]);
    repeat match goal with |- context [pkt ?p ?o ?m] => destruct (pkt p o m) end; simpl; lia || done.
Qed.

Lemma wf_exec prog p pc A X fuel :
  wf_from (length prog) 0 prog = true → (pc < length prog)%nat → (length prog - pc <= fuel)%nat →
  ∃ v, bpf_exec fuel prog p (Running pc A X) = Some v.
Proof.
  intros Hwf. revert pc A X. induction fuel as [|fuel IH]; intros pc A X Hpc Hf; [lia|]. cbn [bpf_exec].
  destruct (lookup_lt_is_Some_2 prog pc Hpc) as [i Hi]. rewrite Hi.
  destruct (wf_step (length prog) p i pc A X) as (s & -> & Hs).
  { apply (wf_from_lookup _ 0 prog pc i); done. }
  cbn [mbind option_bind]. destruct s as [pc' A' X'|v]; [apply IH; lia|]. exists v. by destruct fuel.
Qed.

(** Both filter tables are well-formed programs: every instruction is known,
    every jump lands inside the table and execution can only end in a return.  So on
    every packet, of any length and content, they run to a verdict within as many
    steps as they have instructions. *)
Theorem filters_total p :
  (wf_prog dhcp_packetFilter = true ∧ ∃ v, bpf_run dhcp_packetFilter p = Some v) ∧
  (wf_prog eoe_packetFilter = true ∧ ∃ v, bpf_run eoe_packetFilter p = Some v).
Proof. split; (split; [reflexivity|apply wf_exec; [reflexivity|simpl; lia|simpl; lia]]). Qed.

(** ** One instruction at a time *)
Section Steps.
Context (prog : list sock_filter) (p : list Z) (f pc : nat) (A X : Z).
#[local] Abbreviation exec := (bpf_exec f prog p).
#[local] Abbreviation at_pc i := (prog !! pc = Some i).
#[local] Abbreviation here := (bpf_exec (S f) prog p (Running pc A X)).

Lemma exec_returned v : exec (Returned v) = Some v.
Proof. by destruct f. Qed.

Lemma exec_ldh t e off : at_pc (ins 0x28 t e off) →
  here = match pkt p off 2 with Some v => exec (Running (S pc) v X) | None => Some 0 end.
Proof. intros Hi. cbn [bpf_exec]. rewrite Hi. cbn. unfold load_to. destruct (pkt p off 2); [done|apply exec_returned]. Qed.
Lemma exec_ldb t e off : at_pc (ins 0x30 t e off) →
  here = match pkt p off 1 with Some v => exec (Running (S pc) v X) | None => Some 0 end.
Proof. intros Hi. cbn [bpf_exec]. rewrite Hi. cbn. unfold load_to. destruct (pkt p off 1); [done|apply exec_returned]. Qed.
Lemma exec_ldhx t e off : at_pc (ins 0x48 t e off) →
  here = match pkt p (u32 (X + off)) 2 with Some v => exec (Running (S pc) v X) | None => Some 0 end.
Proof. intros Hi. cbn [bpf_exec]. rewrite Hi. cbn. unfold load_to. destruct (pkt p _ 2); [done|apply exec_returned]. Qed.
Lemma exec_ldxb t e off : at_pc (ins 0xb1 t e off) →
  here = match pkt p off 1 with Some v => exec (Running (S pc) A (4 * Z.land v 0xf)) | None => Some 0 end.
Proof. intros Hi. cbn [bpf_exec]. rewrite Hi. cbn. destruct (pkt p off 1); [done|apply exec_returned]. Qed.
Lemma exec_and t e v : at_pc (ins 0x54 t e v) → here = exec (Running (S pc) (Z.land A v) X).
Proof. intros Hi. cbn [bpf_exec]. by rewrite Hi. Qed.
Lemma exec_jeq t e v : at_pc (ins 0x15 t e v) →
  here = exec (Running (S pc + if A =? v then t else e) A X).
Proof. intros Hi. cbn [bpf_exec]. by rewrite Hi. Qed.
Lemma exec_jset t e v : at_pc (ins 0x45 t e v) →
  here = exec (Running (S pc + if negb (Z.land A v =? 0) then t else e) A X).
Proof. intros Hi. cbn [bpf_exec]. by rewrite Hi. Qed.
Lemma exec_ret t e v : at_pc (ins 0x6 t e v) → here = Some v.
Proof. intros Hi. cbn [bpf_exec]. rewrite Hi. cbn. apply exec_returned. Qed.
End Steps.

(** Run a concrete table, splitting on the loads and tests that decide. *)
Ltac bpf_once :=
  first
  [ erewrite exec_ldh by reflexivity | erewrite exec_ldb by reflexivity
  | erewrite exec_ldhx by reflexivity | erewrite exec_ldxb by reflexivity
  | erewrite exec_and by reflexivity | erewrite exec_jeq by reflexivity
  | erewrite exec_jset by reflexivity | erewrite exec_ret by reflexivity ].

Ltac bpf_once_in H :=
  first
  [ erewrite exec_ldh in H by reflexivity | erewrite exec_ldb in H by reflexivity
  | erewrite exec_ldhx in H by reflexivity | erewrite exec_ldxb in H by reflexivity
  | erewrite exec_jeq in H by reflexivity | erewrite exec_jset in H by reflexivity
  | erewrite exec_ret in H by reflexivity ].

(** ** What the filters accept *)

(** An IPv4 packet behind a VLAN tag: not on VLAN 4094, UDP, not a later fragment,
    to port 68 (a DHCP server's answer to a client). *)
Definition IP : Z := 18.
Definition dhcp_reply (p : list Z) : Prop :=
  pkt p 12 2 = Some 0x8100 ∧
  (∃ tci, pkt p 14 2 = Some tci ∧ Z.land tci 0xfff ≠ 4094) ∧
  pkt p 16 2 = Some 0x800 ∧
  pkt p (IP + 9) 1 = Some 17 ∧
  (∃ frag, pkt p (IP + 6) 2 = Some frag ∧ Z.land frag 0x1fff = 0) ∧
  ∃ vihl, pkt p IP 1 = Some vihl ∧
    let udp := IP + 4 * Z.land vihl 0xf in pkt p (udp + 2) 2 = Some 68.

(** An EoE packet of protocol code 1 whose inner type is not 0x08ab. *)
Definition eoe_data (p : list Z) : Prop :=
  (∃ b, pkt p 18 1 = Some b ∧ Z.land b 0xf0 = 0x10) ∧ ∃ t, pkt p 38 2 = Some t ∧ t ≠ 0x08ab.

Lemma nibble_offset v c : 0 <= c <= 1000 → u32 (4 * Z.land v 0xf + c) = 4 * Z.land v 0xf + c.
Proof.
  intros Hc. change 0xf with (Z.ones 4). rewrite Z.land_ones by lia.
  pose proof (Z.mod_pos_bound v (2 ^ 4) ltac:(lia)). apply u32_id. change (2 ^ 4) with 16 in *. lia.
Qed.

(** The verdict on every packet. *)
Lemma dhcp_verdict p :
  (dhcp_reply p → bpf_run dhcp_packetFilter p = Some 0x40000) ∧
  (¬ dhcp_reply p → bpf_run dhcp_packetFilter p = Some 0).
Proof.
  unfold bpf_run. change (length dhcp_packetFilter) with 16%nat. unfold dhcp_reply, IP.
  split.
  - intros (H12 & (tci & H14 & Ht) & H16 & Hp & (fr & Hf & Hz) & vi & Hv & Hd).
    apply Z.eqb_neq in Ht. cbn zeta in Hd. change (18 + 9) with 27 in Hp. change (18 + 6) with 24 in Hf.
    replace (18 + 4 * Z.land vi 15 + 2) with (4 * Z.land vi 15 + 20) in Hd by lia.
    repeat (bpf_once; rewrite ?H12, ?H14, ?H16, ?Hp, ?Hf, ?Hv, ?Ht, ?Hz, ?nibble_offset, ?Hd by lia;
            cbn [Z.eqb Pos.eqb negb Nat.add]; try done).
  - intros Hn.
    bpf_once. destruct (pkt p 12 2) as [a|]; [|done]. bpf_once. destruct (Z.eqb_spec a 0x8100) as [->|]; [|by bpf_once].
    bpf_once. destruct (pkt p 14 2) as [tci|]; [|done]. do 2 bpf_once.
    destruct (Z.eqb_spec (Z.land tci 0xfff) 0xffe) as [|Ht]; [by bpf_once|].
    bpf_once. destruct (pkt p 16 2) as [a|]; [|done]. bpf_once. destruct (Z.eqb_spec a 0x800) as [->|]; [|by bpf_once].
    bpf_once. change (18 + 9) with 27 in Hn. destruct (pkt p 27 1) as [a|]; [|done].
    bpf_once. destruct (Z.eqb_spec a 0x11) as [->|]; [|by bpf_once].
    bpf_once. change (18 + 6) with 24 in Hn. destruct (pkt p 24 2) as [fr|]; [|done].
    bpf_once. destruct (Z.eqb_spec (Z.land fr 0x1fff) 0) as [Hz|]; [|by bpf_once].
    bpf_once. destruct (pkt p 18 1) as [vi|]; [|done].
    bpf_once. rewrite nibble_offset by lia. destruct (pkt p (4 * Z.land vi 15 + 20) 2) as [d|] eqn:Hd; [|done].
    bpf_once. destruct (Z.eqb_spec d 0x44) as [->|]; [|by bpf_once]. exfalso. apply Hn.
    split; [done|]. split; [eauto|]. split; [done|]. split; [done|]. split; [eauto|].
    exists vi. split; [done|]. cbn zeta. rewrite <- Hd. f_equal. lia.
Qed.

(** C17: the filter of the DHCP relay accepts exactly the DHCP answers of a tagged
    network: it returns 262144 for a packet iff the packet is a complete VLAN-tagged
    IPv4/UDP header chain, outside VLAN 4094, not a later fragment, with destination
    port 68, and returns 0 for every other packet, truncated ones included. *)
Theorem dhcp_filter_accepts p :
  (dhcp_reply p → bpf_run dhcp_packetFilter p = Some 0x40000) ∧
  (¬ dhcp_reply p → bpf_run dhcp_packetFilter p = Some 0).
Proof. apply dhcp_verdict. Qed.

(** The filter of the EoE relay accepts exactly the packets with protocol code 1
    in byte 18 whose bytes 38 and 39 are present and not 0x08ab. *)
Theorem eoe_filter_accepts p :
  (eoe_data p → bpf_run eoe_packetFilter p = Some 0xffff) ∧
  (¬ eoe_data p → bpf_run eoe_packetFilter p = Some 0).
Proof.
  unfold bpf_run. change (length eoe_packetFilter) with 7%nat. unfold eoe_data. split.
  - intros ((b & Hb & Hc) & t & Ht & Hne). apply Z.eqb_neq in Hne.
    repeat (bpf_once; rewrite ?Hb, ?Ht, ?Hc, ?Hne; cbn [Z.eqb Pos.eqb negb Nat.add]; try done).
  - intros Hn. bpf_once. destruct (pkt p 18 1) as [b|]; [|done]. do 2 bpf_once.
    destruct (Z.eqb_spec (Z.land b 0xf0) 0x10); [|by bpf_once].
    bpf_once. destruct (pkt p 38 2) as [t|]; [|done]. bpf_once. destruct (Z.eqb_spec t 0x8ab); [by bpf_once|].
    exfalso. apply Hn. split; [by exists b|by exists t].
Qed.

(** ** The program the table was made from

    The comment above the table of dhcp_filter.c gives what tcpdump compiles
    [udp dst port 68] to, for untagged packets of IPv6 and IPv4. *)
Definition tcpdump_filter : list sock_filter :=
  [ins 0x28 0 0 0x0000000c; ins 0x15 0 4 0x000086dd; ins 0x30 0 0 0x00000014; ins 0x15 0 11 0x00000011;
   ins 0x28 0 0 0x00000038; ins 0x15 8 9 0x00000044; ins 0x15 0 8 0x00000800; ins 0x30 0 0 0x00000017;
   ins 0x15 0 6 0x00000011; ins 0x28 0 0 0x00000014; ins 0x45 4 0 0x00001fff; ins 0xb1 0 0 0x0000000e;
   ins 0x48 0 0 0x00000010; ins 0x15 0 1 0x00000044; ins 0x6 0 0 0x00040000; ins 0x6 0 0 0x00000000].

(** A packet with a VLAN tag behind its two addresses. *)
Definition tagged (mac tci rest : list Z) : list Z := mac ++ [0x81; 0x00] ++ tci ++ rest.

Section Tagged.
Context (mac tci rest : list Z) (Hmac : length mac = 12%nat) (Htci : length tci = 2%nat).

(** Behind the tag everything is four bytes later. *)
Lemma pkt_tagged off n : 12 <= off → pkt (tagged mac tci rest) (off + 4) n = pkt (mac ++ rest) off n.
Proof using Hmac Htci.
  intros Ho. unfold pkt, load_bytes, tagged. f_equal. rewrite !length_app, Hmac, Htci. cbn [length].
  rewrite !app_assoc, !(drop_app_ge _ rest) by (rewrite ?length_app, ?Hmac, ?Htci; cbn [length]; lia).
  rewrite !length_app, Hmac, Htci. cbn [length].
  replace (Z.to_nat (off + 4) - (12 + 2 + 2))%nat with (Z.to_nat off - 12)%nat by lia.
  replace (off + 4 + n <=? _) with (off + n <=? Z.of_nat (12 + length rest)) by (apply Bool.eq_iff_eq_true; rewrite !Z.leb_le; lia).
  by replace (0 <=? off + 4) with (0 <=? off) by (apply Bool.eq_iff_eq_true; rewrite !Z.leb_le; lia).
Qed.

Lemma pkt_tag : pkt (tagged mac tci rest) 12 2 = Some 0x8100 ∧ pkt (tagged mac tci rest) 14 2 = Some (be_value tci).
Proof using Hmac Htci.
  unfold tagged, pkt. split.
  - change 12 with (Z.of_nat 12). rewrite <- Hmac. by rewrite (load_bytes_middle mac [0x81; 0x00]).
  - pose proof (load_bytes_middle (mac ++ [0x81; 0x00]) tci rest) as H. rewrite length_app, Hmac, Htci, <- app_assoc in H.
    change (Z.of_nat (12 + length [0x81; 0x00])) with 14 in H. change (Z.of_nat 2) with 2 in H. by rewrite H.
Qed.
End Tagged.

(** C19: the table of the DHCP filter is the tcpdump program of its comment moved behind a
    VLAN tag, less its IPv6 part: on a tagged packet it gives the verdict the tcpdump
    program gives on the packet without its tag, except that VLAN 4094 and IPv6 are
    dropped. *)
Theorem dhcp_filter_is_tcpdump mac tci rest :
  length mac = 12%nat → length tci = 2%nat →
  bpf_run dhcp_packetFilter (tagged mac tci rest) =
    if bool_decide (Z.land (be_value tci) 0xfff = 4094) || bool_decide (pkt (mac ++ rest) 12 2 = Some 0x86dd) then Some 0
    else bpf_run tcpdump_filter (mac ++ rest).
Proof.
  intros Hm Ht. destruct (pkt_tag mac tci rest Hm Ht) as [H12 H14].
  pose proof (pkt_tagged mac tci rest Hm Ht) as Hs.
  pose proof (Hs 12 2 ltac:(lia)) as H16. pose proof (Hs 23 1 ltac:(lia)) as H27. pose proof (Hs 20 2 ltac:(lia)) as H24.
  pose proof (Hs 14 1 ltac:(lia)) as H18.
  change (12 + 4) with 16 in H16. change (23 + 4) with 27 in H27. change (20 + 4) with 24 in H24. change (14 + 4) with 18 in H18.
  generalize dependent (tagged mac tci rest). generalize dependent (mac ++ rest). intros q p H12 H14 Hs H16 H27 H24 H18.
  unfold bpf_run. change (length dhcp_packetFilter) with 16%nat. change (length tcpdump_filter) with 16%nat.
  remember (bpf_exec 16 tcpdump_filter q (Running 0 0 0)) as R eqn:HR.
  bpf_once. rewrite H12. do 2 bpf_once. rewrite H14. do 2 bpf_once.
  destruct (Z.eqb_spec (Z.land (be_value tci) 4095) 4094) as [E|E].
  { rewrite bool_decide_true by done. by bpf_once. }
  rewrite (bool_decide_false (_ = 4094)) by done. cbn [orb].
  bpf_once_in HR. bpf_once. rewrite H16. destruct (pkt q 12 2) as [ty|]; [|by subst R].
  bpf_once. bpf_once_in HR. destruct (Z.eqb_spec ty 0x86dd) as [->|H6]; [by bpf_once|].
  rewrite bool_decide_false by congruence. bpf_once_in HR. destruct (Z.eqb_spec ty 0x800) as [->|]; [|bpf_once_in HR; subst R; by bpf_once].
  bpf_once_in HR. bpf_once. rewrite H27. destruct (pkt q 23 1) as [pr|]; [|by subst R].
  bpf_once_in HR. bpf_once. destruct (pr =? 17); [|bpf_once_in HR; subst R; by bpf_once].
  bpf_once_in HR. bpf_once. rewrite H24. destruct (pkt q 20 2) as [fr|]; [|by subst R].
  bpf_once_in HR. bpf_once. destruct (Z.land fr 8191 =? 0); [|bpf_once_in HR; subst R; by bpf_once].
  bpf_once_in HR. bpf_once. rewrite H18. destruct (pkt q 14 1) as [vi|]; [|by subst R].
  bpf_once_in HR. bpf_once. rewrite nibble_offset in HR |- * by lia.
  assert (0 <= Z.land vi 15) by (apply Z.land_nonneg; lia).
  replace (4 * Z.land vi 15 + 20) with (4 * Z.land vi 15 + 16 + 4) by lia. rewrite Hs by lia.
  destruct (pkt q _ 2) as [po|]; [|by subst R].
  bpf_once_in HR. bpf_once. destruct (po =? 68); bpf_once_in HR; subst R; by bpf_once.
Qed.

(** A DHCP answer, from the Ethernet type on, and an IPv6 packet to port 68. *)
Definition demo_reply : list Z :=
  [0x08; 0x00; 0x45] ++ zeros 7 ++ [64; 17] ++ zeros 10 ++ [0; 67; 0; 68; 0; 8; 0; 0].
Definition demo_reply6 : list Z := [0x86; 0xdd; 0x60] ++ zeros 5 ++ [17] ++ zeros 33 ++ [0; 67; 0; 68].

Lemma dhcp_filter_is_tcpdump_witness :
  bpf_run dhcp_packetFilter (tagged (zeros 12) [0; 5] demo_reply) = bpf_run tcpdump_filter (zeros 12 ++ demo_reply) ∧
  bpf_run tcpdump_filter (zeros 12 ++ demo_reply) = Some 0x40000 ∧
  bpf_run tcpdump_filter (zeros 12 ++ demo_reply6) = Some 0x40000 ∧
  bpf_run dhcp_packetFilter (tagged (zeros 12) [0; 5] demo_reply6) = Some 0.
Proof.
  split_and!; [exact (dhcp_filter_is_tcpdump (zeros 12) [0; 5] demo_reply eq_refl eq_refl)|by vm_compute|by vm_compute|].
  exact (dhcp_filter_is_tcpdump (zeros 12) [0; 5] demo_reply6 eq_refl eq_refl).
Defined.
