(* ===== verification/Netrelay.v ===== *)
(** * Network relay: test_suite/netrelay/relay.c, relay.h, dhcp_filter.c, eoe_filter.c

    A program that forwards packets between a network interface and a service
    interface, editing each on the way.  relay.c has the command line, the registry
    of relays, the packet buffer and the forwarding loop; a relay provides the packet
    functions: the DHCP relay moves packets between two VLANs, the EoE relay adds
    and removes an encapsulation header. *)

From S2P Require Import Prelude KernelApi KString Bpf.

Definition IP_MAXPACKET : Z := 65535.
(** [enum service_id], [enum relay_id] *)
Definition SERVICE_TO_NET : Z := 1.
Definition NET_TO_SERVICE : Z := 2.
Definition RELAY_ID_DHCP : Z := 0.
Definition RELAY_ID_EOE : Z := 1.
Definition RELAY_ID_MAX : Z := 2.
Definition MAX_LOG_LEVEL : Z := 2.

(** ** The packet buffer *)

(** [struct buffer_s]: [data] is an offset from [base], [allocated] its length. *)
Record buffer := { base : list Z; data : Z; size : Z }.
Definition allocated (b : buffer) : Z := Z.of_nat (length (base b)).

Definition bufferReset (b : buffer) : buffer := {| base := base b; data := 0; size := 0 |}.
Definition bufferDataToTail (b : buffer) : Z := u64 (allocated b - data b).
Definition bufferSetDataSize (n : Z) (b : buffer) : buffer := {| base := base b; data := data b; size := n |}.

(** The two allocations: the structure, and [size] bytes of whatever content.
    [None]: the function returned -1. *)
Definition bufferInit (alloc_buf : bool) (alloc_base : option (list Z)) : option buffer :=
  if negb alloc_buf then None
  else match alloc_base with
  | None => None
  | Some m => Some (bufferReset {| base := m; data := 0; size := 0 |})
  end.

(** ** Relays *)

(** [struct custom_packet_func]; [pf_size] is the size [bufferInit] asks for.
    [dump] only prints (RelayLog). *)
Record custom_packet_func := {
  pf_size : Z → Z;
  pf_bufferPrepare : buffer → Z → buffer;
  pf_edit : buffer → Z → run buffer;
}.

(** [struct relay_info] *)
Record relay_info := { ri_id : Z; ri_name : list Z; ri_pkg : custom_packet_func; ri_filter : list sock_filter }.

(** [relay_list] *)
Definition relay_list : Type := list (option relay_info).
Definition no_relays : relay_list := [None; None].

Definition relay_find (l : relay_list) (id : Z) : option relay_info :=
  if (id <? 0) || (RELAY_ID_MAX <=? id) then None else default None (l !! Z.to_nat id).

(** [info] may be NULL; a negative [id] indexes before the array. *)
Definition relay_register (info : option relay_info) (l : relay_list) : run (Z * relay_list) :=
  match info with
  | None => mret (-1, l)
  | Some i =>
      if RELAY_ID_MAX <=? ri_id i then mret (-1, l)
      else if ri_id i <? 0 then Undef
      else match l !! Z.to_nat (ri_id i) with
           | Some (Some _) => mret (-1, l)
           | _ => mret (0, <[Z.to_nat (ri_id i) := Some i]> l)
           end
  end.

(** ** The forwarding loop *)

(** [read]: a packet of the interface; EAGAIN or EINTR; another error.
    [write]: so many bytes taken; EAGAIN or EINTR; another error. *)
Inductive read_res := RdPacket (frame : list Z) | RdRetry | RdError.
Inductive write_res := WrOk (n : Z) | WrRetry | WrError.

(** The loop that writes one packet: [true] when it ended, [false] when the program
    exits; what was written, and the answers of [write] that are left.  With no
    answer the thread waits in [write]. *)
Fixpoint write_loop (ws : list write_res) (b : buffer) (nbByteWritten nbByteToWrite : Z) (out : list Z)
    : run (bool * list Z * list write_res) :=
  if nbByteToWrite =? 0 then mret (true, out, ws)
  else match ws with
  | [] => Block
  | w :: ws =>
      bs ← access (load_bytes (base b) (data b + nbByteWritten) nbByteToWrite);
      match w with
      | WrOk ret =>
          if ret =? 0 then mret (true, out, ws)
          else write_loop ws b (nbByteWritten + ret) (u32 (nbByteToWrite - ret)) (out ++ take (Z.to_nat ret) bs)
      | WrRetry => write_loop ws b nbByteWritten nbByteToWrite out
      | WrError => mret (false, out, ws)
      end
  end.

(** One turn of [while (1)].  [read] stores at most [bufferDataToTail] bytes. *)
Definition forward_once (pkg : custom_packet_func) (priv : Z) (rd : read_res) (ws : list write_res)
    (packetBuf : buffer) : run (bool * list Z * list write_res * buffer) :=
  let b := pf_bufferPrepare pkg packetBuf priv in
  match rd with
  | RdRetry => mret (true, [], ws, b)
  | RdError => mret (false, [], ws, b)
  | RdPacket frame =>
      let bs := take (Z.to_nat (bufferDataToTail b)) frame in
      m ← access (store_bytes (base b) (data b) bs);
      let b := bufferSetDataSize (Z.of_nat (length bs)) {| base := m; data := data b; size := size b |} in
      b ← pf_edit pkg b priv;
      '(go, out, ws) ← write_loop ws b 0 (u32 (size b)) [];
      mret (go, out, ws, b)
  end.

(** The loop over the packets of [rds]: what was written for each; it ends early when
    the program exits. *)
Fixpoint forward_packet_from_to (pkg : custom_packet_func) (priv : Z) (rds : list read_res)
    (ws : list write_res) (b : buffer) (sent : list (list Z)) : run (bool * list (list Z)) :=
  match rds with
  | [] => mret (true, sent)
  | rd :: rds =>
      '(go, out, ws, b) ← forward_once pkg priv rd ws b;
      let sent := match rd with RdPacket _ => sent ++ [out] | _ => sent end in
      if go : bool then forward_packet_from_to pkg priv rds ws b sent else mret (false, sent)
  end.

(** ** 16-bit fields in host order *)
Section Host.
Context (big_endian : bool).

Definition host16 (bs : list Z) : Z := be_value (if big_endian then bs else rev bs).
Definition ntohs (v : Z) : Z := if big_endian then v else Z.lor (Z.shiftl (Z.land v 255) 8) (Z.shiftr v 8).
Definition host16_bytes (v : Z) : list Z :=
  if big_endian then [v / 256; v mod 256] else [v mod 256; v / 256].
Definition host32_bytes (v : Z) : list Z :=
  let be := [v / 16777216; (v / 65536) mod 256; (v / 256) mod 256; v mod 256] in
  if big_endian then be else rev be.

(** The [unsigned short] at offset [off] of the packet. *)
Definition get16 (b : buffer) (off : Z) : run Z :=
  bs ← access (load_bytes (base b) (data b + off) 2); mret (host16 bs).
Definition put16 (b : buffer) (off v : Z) : run buffer :=
  m ← access (store_bytes (base b) (data b + off) (host16_bytes v));
  mret {| base := m; data := data b; size := size b |}.

(** ** The DHCP relay *)
Definition dhcp_packetBufferInit (priv : Z) : Z := IP_MAXPACKET.
Definition dhcp_packetBufferPrepare (b : buffer) (priv : Z) : buffer := bufferReset b.

Definition setDhcpVlan (b : buffer) : run buffer :=
  tag ← get16 b 0xc;
  if negb (ntohs tag =? 0x8100) then mret b
  else
    v ← get16 b 0xe;
    let oamVlan := ntohs v in
    let pbit := Z.land oamVlan 0xf000 in
    let oamVlan := Z.land oamVlan 0xfff in
    let dhcpVlan := u16 (oamVlan - 1) in
    let dhcpVlan := if dhcpVlan =? 0 then 4093 else dhcpVlan in
    put16 b 0xe (ntohs (Z.lor pbit dhcpVlan)).

Definition setOamVlan (b : buffer) : run buffer :=
  tag ← get16 b 0xc;
  if negb (ntohs tag =? 0x8100) then mret b
  else
    v ← get16 b 0xe;
    let dhcpVlan := ntohs v in
    let pbit := Z.land dhcpVlan 0xf000 in
    let dhcpVlan := Z.land dhcpVlan 0xfff in
    let oamVlan := u16 (dhcpVlan + 1) in
    let oamVlan := if oamVlan =? 4094 then 1 else oamVlan in
    put16 b 0xe (ntohs (Z.lor pbit oamVlan)).

Definition dhcp_packetEdit (b : buffer) (priv : Z) : run buffer :=
  if priv =? NET_TO_SERVICE then setDhcpVlan b
  else if priv =? SERVICE_TO_NET then setOamVlan b
  else mret b.

Definition dhcp_pkg : custom_packet_func :=
  {| pf_size := dhcp_packetBufferInit; pf_bufferPrepare := dhcp_packetBufferPrepare; pf_edit := dhcp_packetEdit |}.
Definition dhcp_info : relay_info :=
  {| ri_id := RELAY_ID_DHCP; ri_name := str "DHCP"; ri_pkg := dhcp_pkg; ri_filter := dhcp_packetFilter |}.
Definition dhcp_service_init (l : relay_list) : run (Z * relay_list) := relay_register (Some dhcp_info) l.

(** ** The EoE relay *)
Definition EOE_HEADER_SIZE : Z := 22.
Definition EOE_MIN_PAYLOAD_SIZE : Z := 64.
Definition EOE_ADD_HEADER : Z := SERVICE_TO_NET.
Definition EOE_DEL_HEADER : Z := NET_TO_SERVICE.

Definition eoe_packetBufferInit (priv : Z) : Z :=
  if (priv =? EOE_ADD_HEADER) || (priv =? EOE_DEL_HEADER) then IP_MAXPACKET + EOE_HEADER_SIZE else IP_MAXPACKET.
Definition eoe_packetBufferPrepare (b : buffer) (priv : Z) : buffer :=
  let b := bufferReset b in
  if priv =? EOE_ADD_HEADER then {| base := base b; data := data b + EOE_HEADER_SIZE; size := size b |} else b.

Definition extendPacketPayload (b : buffer) : run buffer :=
  if size b <? EOE_MIN_PAYLOAD_SIZE then
    m ← access (store_bytes (base b) (data b + size b) (zeros (Z.to_nat (EOE_MIN_PAYLOAD_SIZE - size b))));
    mret {| base := m; data := data b; size := EOE_MIN_PAYLOAD_SIZE |}
  else mret b.

(** The 22 bytes of the packed structure.  Compilers place a first 4-bit field in
    the high half of its byte on a big-endian machine and in the low half on a
    little-endian one. *)
Definition OP_A2A_Switch : Z := 8.
Definition initEoeHeader (payloadSize : Z) : list Z :=
  [0x06; 0x00; 0x00; 0x00; 0x00; 0xf8] ++ [0x06; 0x00; 0x00; 0x00; 0x00; 0x78] ++
  host32_bytes 0x81000FFE ++ host16_bytes (u16 (payloadSize + (EOE_HEADER_SIZE - 6 - 6 - 4 - 2))) ++
  [if big_endian then OP_A2A_Switch * 16 else OP_A2A_Switch] ++ [0; 0] ++ [0].

Definition addEoeHeader (b : buffer) : run buffer :=
  b ← extendPacketPayload b;
  let header := initEoeHeader (size b) in
  let b := {| base := base b; data := data b - EOE_HEADER_SIZE; size := size b + EOE_HEADER_SIZE |} in
  m ← access (store_bytes (base b) (data b) header);
  mret {| base := m; data := data b; size := size b |}.

Definition delEoeHeader (b : buffer) : buffer :=
  {| base := base b; data := data b + EOE_HEADER_SIZE; size := u64 (size b - EOE_HEADER_SIZE) |}.

Definition eoe_packetEdit (b : buffer) (priv : Z) : run buffer :=
  if priv =? EOE_ADD_HEADER then addEoeHeader b
  else if priv =? EOE_DEL_HEADER then mret (delEoeHeader b)
  else mret b.

Definition eoe_pkg : custom_packet_func :=
  {| pf_size := eoe_packetBufferInit; pf_bufferPrepare := eoe_packetBufferPrepare; pf_edit := eoe_packetEdit |}.
Definition eoe_info : relay_info :=
  {| ri_id := RELAY_ID_EOE; ri_name := str "EOE"; ri_pkg := eoe_pkg; ri_filter := eoe_packetFilter |}.
Definition eoe_service_init (l : relay_list) : run (Z * relay_list) := relay_register (Some eoe_info) l.
End Host.

(** ** Interfaces *)

(** What the system calls answer: names are those of [struct ifreq]. *)
Record net_kernel := {
  nk_socket : Z;                               (* [socket]: a descriptor or -1 *)
  nk_ifindex : list Z → option Z;              (* [SIOCGIFINDEX] *)
  nk_hwaddr : list Z → option (list Z);        (* [SIOCGIFHWADDR] *)
  nk_flags : list Z → option Z;                (* [SIOCGIFFLAGS] *)
  nk_set_flags : list Z → Z → bool;            (* [SIOCSIFFLAGS] *)
  nk_bind : Z → Z → list Z → bool;             (* [bind]: descriptor, index, address *)
  nk_open_tun : Z;                             (* [open("/dev/net/tun")] *)
  nk_tunsetiff : list Z → Z → bool;            (* [TUNSETIFF]: name, flags *)
}.

Definition IFNAMSIZ : nat := 16.
Definition IFF_PROMISC : Z := 0x100.
Definition IFF_NOARP : Z := 0x80.
Definition IFF_TAP : Z := 0x2.
Definition IFF_NO_PI : Z := 0x1000.

(** [snprintf(ifr_name, 16, "%s", itf)] and [strncpy(ifr_name, itf, 16)] into a
    cleared array *)
Definition ifr_name_snprintf (itf : list Z) : list Z :=
  let n := take (IFNAMSIZ - 1) itf in n ++ zeros (IFNAMSIZ - length n).
Definition ifr_name_strncpy (itf : list Z) : list Z :=
  let n := take IFNAMSIZ itf in n ++ zeros (IFNAMSIZ - length n).

Definition getMacAddressOf (kn : net_kernel) (itf : list Z) : option (list Z) :=
  take 6 <$> nk_hwaddr kn (ifr_name_snprintf itf).

(** [sll_ifindex] and [sll_addr]; the other fields are constants *)
Definition getLLsocketOf (kn : net_kernel) (itf : list Z) : option (Z * list Z) :=
  match nk_ifindex kn (ifr_name_snprintf itf) with
  | None => None
  | Some ix => match getMacAddressOf kn itf with None => None | Some mac => Some (ix, mac) end
  end.

Definition setItfToPromiscModeAndDisableArpProtocol (kn : net_kernel) (itf : list Z) : bool :=
  let name := ifr_name_strncpy itf in
  match nk_flags kn name with
  | None => false
  | Some fl => nk_set_flags kn name (Z.lor (Z.lor fl IFF_PROMISC) IFF_NOARP)
  end.

(** The descriptor or -1, and the descriptors that are open afterwards. *)
Definition bind_to (kn : net_kernel) (fd : Z) (itf : list Z) (fds : gset Z) : Z * gset Z :=
  match getLLsocketOf kn itf with
  | None => (-1, fds)
  | Some (ix, mac) => if nk_bind kn fd ix mac then (fd, fds) else (-1, fds)
  end.
Definition dhcp_createRawSocketAndBindToInterface (kn : net_kernel) (itf : list Z) (fds : gset Z)
    : Z * gset Z :=
  let fd := nk_socket kn in
  if fd =? -1 then (-1, fds) else bind_to kn fd itf ({[fd]} ∪ fds).
Definition eoe_createRawSocketAndBindToInterface (kn : net_kernel) (itf : list Z) (fds : gset Z)
    : Z * gset Z :=
  let fd := nk_socket kn in
  if fd =? -1 then (-1, fds)
  else if negb (setItfToPromiscModeAndDisableArpProtocol kn itf) then (-1, {[fd]} ∪ fds)
  else bind_to kn fd itf ({[fd]} ∪ fds).
Definition openTapItf (kn : net_kernel) (itf : list Z) (fds : gset Z) : Z * gset Z :=
  let fd := nk_open_tun kn in
  if fd =? -1 then (fd, fds)
  else if nk_tunsetiff kn (ifr_name_strncpy itf) (Z.lor IFF_TAP IFF_NO_PI) then (fd, {[fd]} ∪ fds)
  else (-1, fds).

(** ** Command line and start *)

(** The program's globals and arguments. *)
Record prog := {
  netItf : option (list Z);
  serviceItf : option (list Z);
  logLevel : Z;
  syslogEnabled : Z;
  serviceEnabled : Z;
  filterEnable : Z;
  relayId : Z;
}.
Definition prog_zero : prog :=
  {| netItf := None; serviceItf := None; logLevel := 0; syslogEnabled := 0; serviceEnabled := 0;
     filterEnable := 0; relayId := 0 |}.

(** What an option [getopt] returned, with its argument, does: [None] is return 0. *)
Definition parse_opt (c : Z) (optarg : list Z) (g : prog) : option prog :=
  if c =? 110 (* n *) then
    Some {| netItf := Some optarg; serviceItf := serviceItf g; logLevel := logLevel g;
            syslogEnabled := syslogEnabled g; serviceEnabled := serviceEnabled g;
            filterEnable := filterEnable g; relayId := relayId g |}
  else if c =? 116 (* t *) then
    Some {| netItf := netItf g; serviceItf := Some optarg; logLevel := logLevel g;
            syslogEnabled := syslogEnabled g; serviceEnabled := serviceEnabled g;
            filterEnable := filterEnable g; relayId := relayId g |}
  else if c =? 115 (* s *) then
    Some {| netItf := netItf g; serviceItf := serviceItf g; logLevel := logLevel g;
            syslogEnabled := 1; serviceEnabled := serviceEnabled g;
            filterEnable := filterEnable g; relayId := relayId g |}
  else if c =? 100 (* d *) then
    Some {| netItf := netItf g; serviceItf := serviceItf g;
            logLevel := if logLevel g <? MAX_LOG_LEVEL then logLevel g + 1 else logLevel g;
            syslogEnabled := syslogEnabled g; serviceEnabled := serviceEnabled g;
            filterEnable := filterEnable g; relayId := relayId g |}
  else if c =? 69 (* E *) then
    Some {| netItf := netItf g; serviceItf := serviceItf g; logLevel := logLevel g;
            syslogEnabled := syslogEnabled g; serviceEnabled := 1;
            filterEnable := filterEnable g; relayId := RELAY_ID_EOE |}
  else if c =? 86 (* V *) then
    Some {| netItf := netItf g; serviceItf := serviceItf g; logLevel := logLevel g;
            syslogEnabled := syslogEnabled g; serviceEnabled := 1;
            filterEnable := filterEnable g; relayId := RELAY_ID_DHCP |}
  else if c =? 70 (* F *) then
    Some {| netItf := netItf g; serviceItf := serviceItf g; logLevel := logLevel g;
            syslogEnabled := syslogEnabled g; serviceEnabled := serviceEnabled g;
            filterEnable := 1; relayId := relayId g |}
  else if c =? 63 (* ? *) then None
  else if c =? 58 (* : *) then Some g
  else None.

Fixpoint parse_opts (opts : list (Z * list Z)) (g : prog) : option prog :=
  match opts with
  | [] => Some g
  | (c, arg) :: opts => match parse_opt c arg g with Some g => parse_opts opts g | None => None end
  end.
Definition parseArgs (opts : list (Z * list Z)) (g : prog) : option prog :=
  match parse_opts opts g with
  | Some g => match netItf g, serviceItf g with Some _, Some _ => Some g | _, _ => None end
  | None => None
  end.

(** [SERVICE_PRIV] *)
Definition SERVICE_PRIV (enabled opCode : Z) : Z := if negb (enabled =? 0) then opCode else 0.

(** How [main] ends: it fails, or runs the two forwarding loops, described by their
    descriptors and [priv]. *)
Record loop_args := { la_from : Z; la_to : Z; la_priv : Z }.
Inductive main_res :=
| ExitFailure
| Forwarding (info : relay_info) (filter : option (list sock_filter)) (serviceToNet netToService : loop_args).

(** The interfaces a relay opens: network and service. *)
Definition creator : Type := net_kernel → list Z → gset Z → Z * gset Z.

(** The first [filter_len] instructions are handed to the socket; [None] is
    [exit(EXIT_FAILURE)], when [setsockopt] refuses them. *)
Definition attachItfFilter (setsockopt : list sock_filter → Z) (filter_data : list sock_filter) (filter_len : Z)
    : option (list sock_filter) :=
  let Filter := take (Z.to_nat filter_len) filter_data in
  if setsockopt Filter <? 0 then None else Some Filter.
Definition packetFilterSize (packetFilter : list sock_filter) : Z := u16 (Z.of_nat (length packetFilter)).
Definition attachItfFilterForService (setsockopt : list sock_filter → Z) (info : relay_info) : option (list sock_filter) :=
  attachItfFilter setsockopt (ri_filter info) (packetFilterSize (ri_filter info)).

(** [if (filterEnable) ops->attach_filter(net_fd)] *)
Definition attach_if (filterEnable : Z) (setsockopt : list sock_filter → Z) (info : relay_info)
    : option (option (list sock_filter)) :=
  if negb (filterEnable =? 0) then Some <$> attachItfFilterForService setsockopt info else Some None.

(** [pthread_create]: its return code *)
Definition createThread (pthread_create : Z) : Z := if negb (pthread_create =? 0) then 0 else 1.

Definition main (opts : list (Z * list Z)) (service_init : relay_list → run (Z * relay_list))
    (create_network create_service : creator) (net srv : net_kernel) (setsockopt : list sock_filter → Z)
    (pthread_create : Z) : run main_res :=
  match parseArgs opts prog_zero with
  | None => mret ExitFailure
  | Some g =>
      '(rc, relays) ← service_init no_relays;
      if negb (rc =? 0) then mret ExitFailure
      else match relay_find relays (relayId g) with
      | None => mret ExitFailure
      | Some info =>
          let '(net_fd, fds) := create_network net (default [] (netItf g)) ∅ in
          if net_fd =? -1 then mret ExitFailure
          else match attach_if (filterEnable g) setsockopt info with
          | None => mret ExitFailure
          | Some filter =>
              let '(service_fd, fds) := create_service srv (default [] (serviceItf g)) fds in
              if service_fd =? -1 then mret ExitFailure
              else if createThread pthread_create =? 0 then mret ExitFailure
              else mret (Forwarding info filter
                {| la_from := service_fd; la_to := net_fd; la_priv := SERVICE_PRIV (serviceEnabled g) SERVICE_TO_NET |}
                {| la_from := net_fd; la_to := service_fd; la_priv := SERVICE_PRIV (serviceEnabled g) NET_TO_SERVICE |})
          end
      end
  end.

(** The two programs, by the relay they are linked with. *)
Definition dhcp_main (big : bool) opts net srv setsockopt pthread_create : run main_res :=
  main opts (dhcp_service_init big) dhcp_createRawSocketAndBindToInterface
    dhcp_createRawSocketAndBindToInterface net srv setsockopt pthread_create.
Definition eoe_main (big : bool) opts net srv setsockopt pthread_create : run main_res :=
  main opts (eoe_service_init big) eoe_createRawSocketAndBindToInterface openTapItf
    net srv setsockopt pthread_create.

(** ** The contract of a relay

    The forwarding loop is a client of the packet functions; this is what it needs of
    them for the packets of [dom], and what it then promises: each packet [f] leaves
    as [spec f]. *)
Record PacketLaw (pkg : custom_packet_func) (priv : Z) (dom : list Z → Prop) (spec : list Z → list Z) : Prop := {
  pl_prepare b : allocated b = pf_size pkg priv →
    base (pf_bufferPrepare pkg b priv) = base b ∧ 0 <= data (pf_bufferPrepare pkg b priv) <= allocated b;
  pl_room b f : allocated b = pf_size pkg priv → dom f →
    data (pf_bufferPrepare pkg b priv) + Z.of_nat (length f) <= allocated b;
  pl_edit b f : allocated b = pf_size pkg priv → dom f →
    data b = data (pf_bufferPrepare pkg b priv) → size b = Z.of_nat (length f) →
    load_bytes (base b) (data b) (size b) = Some f →
    ∃ b', pf_edit pkg b priv = Done b' ∧ allocated b' = allocated b ∧
      size b' = Z.of_nat (length (spec f)) ∧ load_bytes (base b') (data b') (size b') = Some (spec f);
  pl_size f : dom f → Z.of_nat (length (spec f)) < 2 ^ 32;
  pl_fits : 0 <= pf_size pkg priv < 2 ^ 63;
  pl_anywhere b1 b2 : data (pf_bufferPrepare pkg b1 priv) = data (pf_bufferPrepare pkg b2 priv);
}.

(** The answers of [write] that take [n] bytes, and those left after them. *)
Fixpoint takes (n : Z) (ws : list write_res) : option (list write_res) :=
  if n =? 0 then Some ws
  else match ws with
  | WrOk r :: ws => if (0 <? r) && (r <=? n) then takes (n - r) ws else None
  | WrRetry :: ws => takes n ws
  | _ => None
  end.

(** Answers that let every packet through. *)
Fixpoint lets_through (spec : list Z → list Z) (rds : list read_res) (ws : list write_res) : Prop :=
  match rds with
  | [] => True
  | RdPacket f :: rds =>
      ∃ ws', takes (Z.of_nat (length (spec f))) ws = Some ws' ∧ lets_through spec rds ws'
  | RdRetry :: rds => lets_through spec rds ws
  | RdError :: _ => False
  end.

Definition frames (rds : list read_res) : list (list Z) :=
  omap (λ r, match r with RdPacket f => Some f | _ => None end) rds.

Section Forwarding.
Context (pkg : custom_packet_func) (priv : Z) (dom : list Z → Prop) (spec : list Z → list Z).
Hypothesis law : PacketLaw pkg priv dom spec.
Implicit Types (b : buffer) (ws : list write_res).

Lemma load_skip (m bs : list Z) off n r :
  load_bytes m off n = Some bs → 0 <= r <= n →
  load_bytes m (off + r) (n - r) = Some (drop (Z.to_nat r) bs).
Proof using Type.
  intros (?&?&?&->)%load_bytes_Some Hr. apply load_bytes_Some. split_and!; try lia.
  rewrite skipn_firstn_comm, drop_drop. f_equal; [lia|]. f_equal. lia.
Qed.

Lemma write_loop_all ws ws' b written n bs out :
  takes n ws = Some ws' → 0 <= n < 2 ^ 32 → load_bytes (base b) (data b + written) n = Some bs →
  write_loop ws b written n out = Done (true, out ++ bs, ws').
Proof using Type.
  assert (∀ ws n, n = 0 → takes n ws = Some ws) as H0 by (intros [] ? ->; done).
  revert written n bs out. induction ws as [|w ws IH]; intros written n bs out Ht Hn Hl.
  - simpl in *. destruct (Z.eqb_spec n 0) as [->|]; [|done]. injection Ht as <-.
    apply load_bytes_length in Hl. destruct bs; [by rewrite app_nil_r|simpl in Hl; lia].
  - cbn [write_loop takes] in *. destruct (Z.eqb_spec n 0) as [->|Hn0].
    { injection Ht as <-. apply load_bytes_length in Hl. destruct bs; [by rewrite app_nil_r|simpl in Hl; lia]. }
    rewrite Hl. cbn [access mbind run_bind]. destruct w as [r| |]; [|by apply IH|done].
    destruct ((0 <? r) && (r <=? n)) eqn:Hr; [|done]. bool_to_prop.
    rewrite (proj2 (Z.eqb_neq r 0)) by lia. rewrite u32_id by lia.
    rewrite (IH _ _ (drop (Z.to_nat r) bs)); [by rewrite <- app_assoc, take_drop|done|lia|].
    replace (data b + (written + r)) with (data b + written + r) by lia. apply load_skip; [done|lia].
Qed.

Lemma forward_once_packet ws ws' b f :
  allocated b = pf_size pkg priv → dom f → takes (Z.of_nat (length (spec f))) ws = Some ws' →
  ∃ b', forward_once pkg priv (RdPacket f) ws b = Done (true, spec f, ws', b') ∧
    allocated b' = pf_size pkg priv.
Proof using law.
  intros Ha Hf Ht. destruct law as [Lp Lr Le Ls Lf La]. unfold forward_once.
  destruct (Lp b Ha) as [Hb Hd]. pose proof (Lr b f Ha Hf) as Hroom. pose proof (Ls f Hf) as Hsz.
  set (b1 := pf_bufferPrepare pkg b priv) in *.
  assert (allocated b1 = allocated b) as Ha1 by (unfold allocated; by rewrite Hb).
  rewrite take_ge by (unfold bufferDataToTail; rewrite u64_id; lia).
  rewrite store_bytes_in by (unfold allocated in *; rewrite ?Hb; lia). cbn [access mbind run_bind].
  set (m := splice _ _ f). set (b2 := bufferSetDataSize _ _).
  assert (store_bytes (base b1) (data b1) f = Some m) as Hst.
  { apply store_bytes_in; unfold allocated in *; rewrite ?Hb; lia. }
  destruct (Le b2 f) as (b3 & -> & Ha3 & Hs3 & Hl3).
  - unfold allocated in *. simpl. rewrite (store_bytes_length _ _ _ _ Hst). congruence.
  - done.
  - simpl. apply La.
  - done.
  - simpl. by apply load_store_same with (m := base b1).
  - cbn [mbind run_bind]. rewrite Hs3, u32_id by lia.
    rewrite (write_loop_all ws ws' b3 0 _ (spec f)); [|done|lia|by rewrite Z.add_0_r, <- Hs3].
    cbn [mbind run_bind]. eexists. split; [done|]. rewrite Ha3. unfold allocated in *. simpl.
    rewrite (store_bytes_length _ _ _ _ Hst). congruence.
Qed.

Lemma forward_all rds ws b sent :
  allocated b = pf_size pkg priv → Forall dom (frames rds) → lets_through spec rds ws →
  forward_packet_from_to pkg priv rds ws b sent = Done (true, sent ++ (spec <$> frames rds)).
Proof using law.
  revert ws b sent. induction rds as [|rd rds IH]; intros ws b sent Ha Hd Hl; simpl.
  { by rewrite app_nil_r. }
  destruct rd as [f| |]; simpl in *.
  - destruct Hl as (ws' & Ht & Hl). apply Forall_cons in Hd as [Hf Hd].
    destruct (forward_once_packet ws ws' b f Ha Hf Ht) as (b' & Hrun & Ha').
    unfold forward_once in Hrun. rewrite Hrun. cbn [mbind run_bind].
    rewrite IH by done. by rewrite <- app_assoc.
  - rewrite IH; [done| |done|done]. destruct (pl_prepare _ _ _ _ law b Ha) as [Hb _].
    unfold allocated in *. by rewrite Hb.
  - done.
Qed.
End Forwarding.

(** ** Byte order and VLAN tags *)

(** A statement on all [n]-bit extensions of [acc], decided by running through
    them. *)
Fixpoint all_bits (n : nat) (P : Z → bool) (acc : Z) : bool :=
  match n with O => P acc | S n => all_bits n P (2 * acc) && all_bits n P (2 * acc + 1) end.

Lemma all_bits_spec n P acc v :
  all_bits n P acc = true → acc * 2 ^ Z.of_nat n <= v < (acc + 1) * 2 ^ Z.of_nat n → P v = true.
Proof.
  revert acc. induction n as [|n IH]; intros acc H Hv; cbn [all_bits] in H.
  { simpl in Hv. by assert (v = acc) as -> by lia. }
  apply andb_prop in H as [H1 H2]. rewrite Nat2Z.inj_succ, Z.pow_succ_r in Hv by lia.
  destruct (Z_lt_le_dec v ((2 * acc + 1) * 2 ^ Z.of_nat n)); [apply (IH _ H1)|apply (IH _ H2)]; lia.
Qed.

Lemma all16 (P : Z → bool) : all_bits 16 P 0 = true → ∀ v, 0 <= v < 65536 → P v = true.
Proof. intros H v Hv. apply (all_bits_spec 16 P 0 v H). simpl. lia. Qed.

(** The bytes of a 16-bit field on the wire. *)
Definition be16 (v : Z) : list Z := [v / 256; v mod 256].

(** The tag control information the two edits produce from [t]. *)
Definition dhcp_tci (t : Z) : Z :=
  Z.lor (Z.land t 0xf000)
    (let v := u16 (Z.land t 0xfff - 1) in if v =? 0 then 4093 else v).
Definition oam_tci (t : Z) : Z :=
  Z.lor (Z.land t 0xf000)
    (let v := u16 (Z.land t 0xfff + 1) in if v =? 4094 then 1 else v).

Lemma swap16 v : 0 <= v < 65536 → ntohs false v = v mod 256 * 256 + v / 256.
Proof.
  intros Hv. apply Z.eqb_eq.
  apply (all16 (λ v, ntohs false v =? v mod 256 * 256 + v / 256)); [by vm_compute|done].
Qed.

Lemma tci_range v : 0 <= v < 65536 → 0 <= dhcp_tci v < 65536 ∧ 0 <= oam_tci v < 65536.
Proof.
  intros Hv. pose proof (all16 (λ v, (0 <=? dhcp_tci v) && (dhcp_tci v <? 65536) &&
    (0 <=? oam_tci v) && (oam_tci v <? 65536)) ltac:(by vm_compute) v Hv) as H. cbv beta in H. bool_to_prop. lia.
Qed.

Lemma tci_roundtrip v : 0 <= v < 65536 → 1 <= Z.land v 0xfff <= 4093 → oam_tci (dhcp_tci v) = v.
Proof.
  intros Hv Hr. pose proof (all16 (λ v, negb ((1 <=? Z.land v 0xfff) && (Z.land v 0xfff <=? 4093)) ||
    (oam_tci (dhcp_tci v) =? v)) ltac:(by vm_compute) v Hv) as H. cbv beta in H.
  apply orb_true_iff in H as [H|H]; bool_to_prop; lia.
Qed.

Section Order.
Context (big : bool).

Lemma ntohs_host16 x y : 0 <= x < 256 → 0 <= y < 256 → ntohs big (host16 big [x; y]) = x * 256 + y.
Proof using Type.
  intros Hx Hy. destruct big; [done|]. unfold host16, be_value. cbn [rev app foldl].
  rewrite swap16 by lia. rewrite Z.add_0_l, (Z.add_comm (y * 256)), Z_mod_plus_full, Z.div_add by lia.
  rewrite Z.mod_small, Z.div_small by lia. lia.
Qed.

Lemma host16_bytes_ntohs v : 0 <= v < 65536 → host16_bytes big (ntohs big v) = be16 v.
Proof using Type.
  intros Hv. destruct big; [done|]. unfold host16_bytes, be16. rewrite swap16 by done.
  assert (0 <= v / 256 < 256) as Hq by (split; [apply Z.div_pos|apply Z.div_lt_upper_bound]; lia).
  pose proof (Z.mod_pos_bound v 256 ltac:(lia)).
  rewrite <- (Z.mod_unique (v mod 256 * 256 + v / 256) 256 (v mod 256) (v / 256)) by lia.
  by rewrite <- (Z.div_unique (v mod 256 * 256 + v / 256) 256 (v mod 256) (v / 256)) by lia.
Qed.
End Order.

Lemma be16_value v : be_value (be16 v) = v.
Proof. unfold be_value, be16. cbn [foldl]. pose proof (Z.div_mod v 256). lia. Qed.

(** ** The DHCP relay keeps its contract *)

(** The packet with its VLAN tag control information changed by [g], when it is
    tagged. *)
Definition vlan_edit (g : Z → Z) (f : list Z) : list Z :=
  match pkt f 12 2, pkt f 14 2 with
  | Some 0x8100, Some t => splice f 14 (be16 (g t))
  | _, _ => f
  end.

(** Packets of an Ethernet interface: both VLAN fields are there. *)
Definition ethernet (f : list Z) : Prop :=
  16 <= Z.of_nat (length f) <= IP_MAXPACKET ∧ Forall (λ c, 0 <= c < 256) f.

Section DhcpLaw.
Context (big : bool).
Implicit Types (b : buffer) (f : list Z).

Lemma pkt16 f off : 0 <= off → off + 2 <= Z.of_nat (length f) → Forall (λ c, 0 <= c < 256) f →
  ∃ x y, load_bytes f off 2 = Some [x; y] ∧ pkt f off 2 = Some (x * 256 + y) ∧ 0 <= x < 256 ∧ 0 <= y < 256.
Proof using Type.
  intros Ho Hl Hb. unfold pkt. rewrite (load_bytes_in f off 2) by lia.
  assert (Forall (λ c, 0 <= c < 256) (take (Z.to_nat 2) (drop (Z.to_nat off) f))) as Hb2
    by by apply Forall_take, Forall_drop.
  assert (length (take (Z.to_nat 2) (drop (Z.to_nat off) f)) = 2%nat) as Hl2
    by (rewrite length_take, length_drop; lia).
  destruct (take _ _) as [|x [|y []]]; try done.
  apply Forall_cons in Hb2 as [? [? _]%Forall_cons]. exists x, y. by repeat split; try lia.
Qed.

(** The fields of a packet in the buffer, and a change of one. *)
Lemma buffer16 b f off :
  load_bytes (base b) (data b) (size b) = Some f → 0 <= off → off + 2 <= size b → Forall (λ c, 0 <= c < 256) f →
  ∃ v t, get16 big b off = Done v ∧ pkt f off 2 = Some t ∧ ntohs big v = t ∧ 0 <= t < 65536.
Proof using Type.
  intros Hl Ho Hs Hb. pose proof (load_bytes_length _ _ _ _ Hl).
  destruct (pkt16 f off) as (x & y & Hxy & Hp & Hx & Hy); [lia|lia|done|].
  exists (host16 big [x; y]), (x * 256 + y). unfold get16.
  rewrite (load_bytes_sub _ _ _ _ off 2 Hl), Hxy by lia. rewrite ntohs_host16 by done. split_and!; lia || done.
Qed.

Lemma buffer_put16 b f off t :
  load_bytes (base b) (data b) (size b) = Some f → 0 <= off → off + 2 <= size b → 0 <= t < 65536 →
  ∃ b', put16 big b off (ntohs big t) = Done b' ∧ data b' = data b ∧ size b' = size b ∧
    allocated b' = allocated b ∧ load_bytes (base b') (data b') (size b') = Some (splice f (Z.to_nat off) (be16 t)).
Proof using Type.
  intros Hl Ho Hs Ht. unfold put16. rewrite host16_bytes_ntohs by done.
  destruct (store_bytes_sub _ _ _ _ off (be16 t) Hl Ho) as (m & -> & Hm & Hlm); [simpl; lia|].
  eexists. split; [done|]. unfold allocated. simpl. by rewrite Hm.
Qed.

Lemma vlan_edit_other g f t : pkt f 12 2 = Some t → t ≠ 0x8100 → vlan_edit g f = f.
Proof using Type.
  intros H Hne. unfold vlan_edit. rewrite H.
  repeat match goal with |- context [match ?x with _ => _ end] => is_var x; destruct x; try done end.
Qed.

(** Both edits, from the field they compute. *)
Lemma vlan_code b f (g : Z → Z) (edit : run buffer) :
  ethernet f → size b = Z.of_nat (length f) → load_bytes (base b) (data b) (size b) = Some f →
  (∀ t, 0 <= t < 65536 → 0 <= g t < 65536) →
  edit = (tag ← get16 big b 0xc;
          if negb (ntohs big tag =? 0x8100) then mret b
          else v ← get16 big b 0xe; put16 big b 0xe (ntohs big (g (ntohs big v)))) →
  ∃ b', edit = Done b' ∧ allocated b' = allocated b ∧
    size b' = Z.of_nat (length (vlan_edit g f)) ∧ load_bytes (base b') (data b') (size b') = Some (vlan_edit g f) ∧
    data b' = data b.
Proof using Type.
  intros [Hlen Hb] Hs Hl Hg ->.
  destruct (buffer16 b f 0xc Hl) as (v12 & t12 & -> & H12 & Hv12 & _); [lia|lia|done|]. cbn [mbind run_bind].
  rewrite Hv12. destruct (Z.eqb_spec t12 0x8100) as [->|Hne]; cbn [negb].
  - destruct (buffer16 b f 0xe Hl) as (v & t & -> & H14 & <- & Ht); [lia|lia|done|]. cbn [mbind run_bind].
    destruct (buffer_put16 b f 0xe (g (ntohs big v)) Hl) as (b' & -> & Hd & Hsz & Ha & Hl'); [lia|lia|by apply Hg|].
    assert (vlan_edit g f = splice f 14 (be16 (g (ntohs big v)))) as -> by (unfold vlan_edit; by rewrite H12, H14).
    exists b'. rewrite length_splice by (simpl; lia). split_and!; try done. congruence.
  - rewrite (vlan_edit_other g f t12) by done. by exists b.
Qed.

Lemma dhcp_law priv :
  PacketLaw (dhcp_pkg big) priv ethernet
    (if priv =? NET_TO_SERVICE then vlan_edit dhcp_tci
     else if priv =? SERVICE_TO_NET then vlan_edit oam_tci else λ f, f).
Proof using Type.
  assert (∀ g f, ethernet f → length (vlan_edit g f) = length f) as Hlen.
  { intros g f [Hl Hb]. unfold vlan_edit.
    repeat match goal with |- context [match ?x with _ => _ end] => destruct x; try done end.
    apply length_splice. simpl. lia. }
  split.
  - intros b Ha. split; [done|]. simpl. unfold allocated. lia.
  - intros b f Ha [Hf _]. simpl in *. rewrite Ha. unfold dhcp_packetBufferInit. lia.
  - intros b f Ha Hf _ Hs Hl. simpl. unfold dhcp_packetEdit.
    destruct (priv =? NET_TO_SERVICE); [|destruct (priv =? SERVICE_TO_NET)].
    + destruct (vlan_code b f dhcp_tci (setDhcpVlan big b)) as (b' & ? & ? & ? & ? & _); eauto.
      intros t Ht. by apply tci_range.
    + destruct (vlan_code b f oam_tci (setOamVlan big b)) as (b' & ? & ? & ? & ? & _); eauto.
      intros t Ht. by apply tci_range.
    + by exists b.
  - intros f [Hf Hb]. unfold IP_MAXPACKET in Hf.
    destruct (priv =? NET_TO_SERVICE); [|destruct (priv =? SERVICE_TO_NET)]; rewrite ?Hlen by done; lia.
  - simpl. unfold dhcp_packetBufferInit, IP_MAXPACKET. lia.
  - done.
Qed.
End DhcpLaw.

(** ** The EoE relay keeps its contract *)

(** The payload a packet becomes: at least 64 bytes. *)
Definition padded (f : list Z) : list Z := f ++ zeros (64 - length f).
Definition eoe_encap (big : bool) (f : list Z) : list Z :=
  initEoeHeader big (Z.of_nat (length (padded f))) ++ padded f.
Definition eoe_decap (f : list Z) : list Z := drop 22 f.

Definition to_encap (f : list Z) : Prop := Z.of_nat (length f) <= IP_MAXPACKET.
Definition to_decap (f : list Z) : Prop := EOE_HEADER_SIZE <= Z.of_nat (length f) <= IP_MAXPACKET + EOE_HEADER_SIZE.

Section EoeLaw.
Context (big : bool).
Implicit Types (b : buffer) (f : list Z).

Lemma length_initEoeHeader n : length (initEoeHeader big n) = 22%nat.
Proof using Type. unfold initEoeHeader, host32_bytes, host16_bytes. by destruct big. Qed.

Lemma length_padded f : length (padded f) = (length f `max` 64)%nat.
Proof using Type. unfold padded. rewrite length_app, length_zeros. lia. Qed.

(** Padding in the buffer. *)
Lemma extend_ok pre f post d n :
  d = Z.of_nat (length pre) → n = Z.of_nat (length f) → (64 <= length f + length post)%nat →
  ∃ post', extendPacketPayload {| base := pre ++ f ++ post; data := d; size := n |} =
    Done {| base := pre ++ padded f ++ post'; data := d; size := Z.of_nat (length (padded f)) |} ∧
    (length f + length post = length (padded f) + length post')%nat.
Proof using Type.
  intros -> -> Hr. unfold extendPacketPayload, EOE_MIN_PAYLOAD_SIZE. cbn [size base data].
  rewrite length_padded. destruct (Z.ltb_spec (Z.of_nat (length f)) 64).
  - replace (Z.to_nat (64 - Z.of_nat (length f))) with (64 - length f)%nat by lia.
    rewrite store_bytes_in by (rewrite ?length_app, ?length_zeros; lia). cbn [access mbind run_bind].
    exists (drop (64 - length f) post). rewrite length_drop. split; [|lia].
    unfold mret, run_ret. do 2 f_equal; [|lia].
    replace (pre ++ f ++ post) with ((pre ++ f) ++ post ++ []) by (by rewrite app_nil_r, <- app_assoc).
    replace (Z.to_nat (Z.of_nat (length pre) + Z.of_nat (length f))) with (length (pre ++ f) + 0)%nat
      by (rewrite length_app; lia).
    rewrite splice_middle by (rewrite length_zeros; lia). unfold splice, padded. cbn [take app].
    by rewrite app_nil_r, length_zeros, <- !app_assoc.
  - exists post. unfold padded. replace (64 - length f)%nat with 0%nat by lia. cbn [zeros replicate].
    rewrite app_nil_r. split; [|lia]. unfold mret, run_ret. do 2 f_equal. lia.
Qed.

Lemma eoe_add_law : PacketLaw (eoe_pkg big) EOE_ADD_HEADER to_encap (eoe_encap big).
Proof using Type.
  split.
  - intros b Ha. cbn in *. split; [done|]. rewrite Ha. done.
  - intros b f Ha Hf. unfold to_encap in Hf. cbn in *. rewrite Ha. unfold eoe_packetBufferInit. cbn. lia.
  - intros b f Ha Hf Hd Hs Hl. change (pf_size _ _) with 65557 in Ha. cbn in Hd. unfold to_encap, IP_MAXPACKET in *.
    destruct b as [m d n]. cbn [base data size] in *. subst d n.
    apply load_bytes_split in Hl as (pre & post & -> & Hpre & _).
    unfold allocated in Ha. cbn [base] in Ha. rewrite !length_app in Ha.
    change (0 + EOE_HEADER_SIZE) with 22 in *. assert (length pre = 22%nat) as Hp22 by lia.
    destruct (extend_ok pre f post 22 (Z.of_nat (length f))) as (post' & He & Hlen); [lia|done|lia|].
    cbn [pf_edit eoe_pkg]. change (eoe_packetEdit big ?b EOE_ADD_HEADER) with (addEoeHeader big b).
    unfold addEoeHeader. rewrite He. cbn [mbind run_bind base data size].
    change (22 - EOE_HEADER_SIZE) with 0.
    rewrite store_bytes_in by (rewrite ?length_app, ?length_initEoeHeader; lia). cbn [access mbind run_bind].
    assert (splice (pre ++ padded f ++ post') (Z.to_nat 0) (initEoeHeader big (Z.of_nat (length (padded f)))) =
            [] ++ eoe_encap big f ++ post') as ->.
    { unfold splice, eoe_encap. change (Z.to_nat 0) with 0%nat. rewrite take_0, length_initEoeHeader.
      cbn [app Nat.add]. rewrite <- Hp22, drop_app_length. by rewrite <- app_assoc. }
    eexists. split; [done|]. unfold allocated. cbn [base data size app].
    assert (Z.of_nat (length (padded f)) + EOE_HEADER_SIZE = Z.of_nat (length (eoe_encap big f))) as Hsz.
    { unfold eoe_encap, EOE_HEADER_SIZE. rewrite (length_app (initEoeHeader _ _)), length_initEoeHeader. lia. }
    split; [unfold eoe_encap; rewrite !length_app, length_initEoeHeader; lia|]. split; [done|].
    rewrite Hsz. apply (load_bytes_middle []).
  - intros f Hf. unfold eoe_encap, to_encap, IP_MAXPACKET in *.
    rewrite length_app, length_initEoeHeader, length_padded. lia.
  - split; by vm_compute.
  - done.
Qed.

Lemma eoe_del_law : PacketLaw (eoe_pkg big) EOE_DEL_HEADER to_decap eoe_decap.
Proof using Type.
  unfold to_decap, eoe_decap, EOE_HEADER_SIZE, IP_MAXPACKET. split.
  - intros b Ha. cbn in *. split; [done|]. rewrite Ha. done.
  - intros b f Ha Hf. change (pf_size _ _) with 65557 in Ha. cbn. lia.
  - intros b f Ha Hf Hd Hs Hl. cbn [pf_edit eoe_pkg].
    change (eoe_packetEdit big b EOE_DEL_HEADER) with (Done (delEoeHeader b)). eexists. split; [done|].
    split; [done|]. unfold delEoeHeader, EOE_HEADER_SIZE. cbn [base data size]. rewrite u64_id by lia.
    rewrite length_drop. split; [lia|]. apply (load_skip _ _ _ _ 22); [done|lia].
  - intros f Hf. rewrite length_drop. lia.
  - split; by vm_compute.
  - done.
Qed.
End EoeLaw.

(** ** Theorems *)

(** What the DHCP relay does to a packet, by direction. *)
Definition dhcp_spec (priv : Z) : list Z → list Z :=
  if priv =? NET_TO_SERVICE then vlan_edit dhcp_tci
  else if priv =? SERVICE_TO_NET then vlan_edit oam_tci else λ f, f.

(** C13: the forwarding loop sends every packet it reads, edited as its relay promises
    and in order, however the writes are split, interrupted or retried, for packets of a
    length the relay can edit: the DHCP relay, on packets of 16 to 65535 bytes, in each
    direction with the VLAN field changed; the EoE relay towards the network, on packets
    of up to 65535 bytes, as a padded and encapsulated packet; the EoE relay from the
    network, on packets of 22 to 65557 bytes, without their first 22 bytes. *)
Theorem relay_forwards_packets big rds ws b :
  (∀ priv, allocated b = IP_MAXPACKET → Forall ethernet (frames rds) → lets_through (dhcp_spec priv) rds ws →
     forward_packet_from_to (dhcp_pkg big) priv rds ws b [] = Done (true, dhcp_spec priv <$> frames rds)) ∧
  (allocated b = IP_MAXPACKET + EOE_HEADER_SIZE → Forall to_encap (frames rds) →
     lets_through (eoe_encap big) rds ws →
     forward_packet_from_to (eoe_pkg big) EOE_ADD_HEADER rds ws b [] = Done (true, eoe_encap big <$> frames rds)) ∧
  (allocated b = IP_MAXPACKET + EOE_HEADER_SIZE → Forall to_decap (frames rds) →
     lets_through eoe_decap rds ws →
     forward_packet_from_to (eoe_pkg big) EOE_DEL_HEADER rds ws b [] = Done (true, eoe_decap <$> frames rds)).
Proof.
  split_and!.
  - intros priv Ha Hd Hw. by apply (forward_all _ _ _ _ (dhcp_law big priv) rds ws b []).
  - intros Ha Hd Hw. by apply (forward_all _ _ _ _ (eoe_add_law big) rds ws b []).
  - intros Ha Hd Hw. by apply (forward_all _ _ _ _ (eoe_del_law big) rds ws b []).
Qed.

Lemma pkt_splice_low (f bs : list Z) i off n :
  (i + length bs <= length f)%nat → off + n <= Z.of_nat i → pkt (splice f i bs) off n = pkt f off n.
Proof.
  intros Hi Ho. unfold pkt, load_bytes. rewrite length_splice by done. destruct (_ && _) eqn:E; [|done].
  bool_to_prop. f_equal. f_equal. unfold splice. rewrite drop_app_le by (rewrite length_take; lia).
  rewrite take_app_le by (rewrite length_drop, length_take; lia).
  rewrite skipn_firstn_comm, take_take. f_equal. lia.
Qed.

Lemma vlan_edit_compose g1 g2 f t :
  ethernet f → pkt f 12 2 = Some 0x8100 → pkt f 14 2 = Some t → g2 (g1 t) = t → vlan_edit g2 (vlan_edit g1 f) = f.
Proof.
  intros [Hl Hb] H12 H14 Hg. destruct (pkt16 f 14) as (x & y & Hxy & Hp & Hx & Hy); [lia|lia|done|].
  assert (vlan_edit g1 f = splice f 14 (be16 (g1 t))) as -> by (unfold vlan_edit; by rewrite H12, H14).
  assert (load_bytes (splice f 14 (be16 (g1 t))) 14 2 = Some (be16 (g1 t))) as Hld.
  { change 2 with (Z.of_nat (length (be16 (g1 t)))). apply (load_store_same f 14). apply store_bytes_in; simpl; lia. }
  unfold vlan_edit. rewrite pkt_splice_low, H12 by (simpl; lia). unfold pkt at 1. rewrite Hld. cbn [fmap option_fmap option_map].
  rewrite be16_value, Hg.
  assert (t = x * 256 + y) as -> by congruence.
  assert (be16 (x * 256 + y) = [x; y]) as ->.
  { unfold be16. rewrite Z.add_comm, Z_mod_plus_full, Z.div_add, Z.mod_small, Z.div_small by lia. done. }
  apply load_bytes_split in Hxy as (pre & post & Hf & H1 & _).
  assert (length pre = 14%nat) as Hpre by lia. clear H1. subst f.
  assert (∀ bs, length bs = 2%nat → splice (pre ++ [x; y] ++ post) 14 bs = pre ++ bs ++ post) as Hs.
  { intros bs Hbs. rewrite <- Hpre, <- (Nat.add_0_r (length pre)), splice_middle by (rewrite Hbs; simpl; lia).
    unfold splice. simpl. rewrite drop_ge by (simpl; lia). by rewrite app_nil_r. }
  rewrite (Hs (be16 _)) by done. unfold splice.
  rewrite <- Hpre, take_app_length. cbn [length]. by rewrite drop_app_add'.
Qed.

(** C36: the DHCP relay's two directions are inverse: a packet on an OAM VLAN from 1 to
    4093 that went to the service and back is the same packet, priority bits
    included (VLAN 1 travels as 4093). *)
Theorem dhcp_vlan_roundtrip big b f t :
  ethernet f → size b = Z.of_nat (length f) → load_bytes (base b) (data b) (size b) = Some f →
  pkt f 12 2 = Some 0x8100 → pkt f 14 2 = Some t → 1 <= Z.land t 0xfff <= 4093 →
  ∃ b1 b2, setDhcpVlan big b = Done b1 ∧ setOamVlan big b1 = Done b2 ∧
    load_bytes (base b2) (data b2) (size b2) = Some f.
Proof.
  intros He Hs Hl H12 H14 Ht. assert (0 <= t < 65536) as Hr.
  { destruct He as [Hlen Hb]. destruct (pkt16 f 14) as (x & y & _ & Hp & Hx & Hy); [lia|lia|done|].
    assert (t = x * 256 + y) by congruence. lia. }
  destruct (vlan_code big b f dhcp_tci (setDhcpVlan big b)) as (b1 & H1 & Ha1 & Hs1 & Hl1 & _);
    [done|done|done|intros v Hv; by apply tci_range|done|].
  assert (ethernet (vlan_edit dhcp_tci f)) as He1.
  { assert (vlan_edit dhcp_tci f = splice f 14 (be16 (dhcp_tci t))) as Hv by (unfold vlan_edit; by rewrite H12, H14).
    destruct He as [Hlen Hb]. rewrite Hv. split; [rewrite length_splice by (simpl; lia); done|].
    unfold splice. destruct (tci_range t Hr) as [Hd _]. apply Forall_app. split; [by apply Forall_take|].
    apply Forall_app. split; [|by apply Forall_drop].
    pose proof (Z.mod_pos_bound (dhcp_tci t) 256). pose proof (Z.div_pos (dhcp_tci t) 256).
    pose proof (Z.div_lt_upper_bound (dhcp_tci t) 256 256). unfold be16. repeat constructor; lia. }
  destruct (vlan_code big b1 (vlan_edit dhcp_tci f) oam_tci (setOamVlan big b1)) as (b2 & H2 & _ & _ & Hl2 & _);
    [done|done|done|intros v Hv; by apply tci_range|done|].
  exists b1, b2. split; [done|]. split; [done|].
  rewrite Hl2. f_equal. apply (vlan_edit_compose _ _ f t); try done. by apply tci_roundtrip.
Qed.

(** Encapsulation and decapsulation are inverse up to padding: after
    [addEoeHeader] and [delEoeHeader] the buffer holds the payload again, padded
    with zeros to 64 bytes when it was shorter; the length field carries the size of
    the padded payload plus the 4 header bytes that follow it, modulo 2^16. *)
Theorem eoe_header_roundtrip big b f :
  allocated b = IP_MAXPACKET + EOE_HEADER_SIZE → to_encap f → data b = EOE_HEADER_SIZE →
  size b = Z.of_nat (length f) → load_bytes (base b) (data b) (size b) = Some f →
  ∃ b1, addEoeHeader big b = Done b1 ∧
    (let b2 := delEoeHeader b1 in
     size b2 = Z.of_nat (length (padded f)) ∧ load_bytes (base b2) (data b2) (size b2) = Some (padded f)) ∧
    ∃ h, load_bytes (base b1) (data b1) EOE_HEADER_SIZE = Some h ∧
      host16 big (take 2 (drop 16 h)) = u16 (Z.of_nat (length (padded f)) + 4).
Proof.
  intros Ha Hf Hd Hs Hl. destruct (eoe_add_law big) as [_ _ Le Ls _ _].
  destruct (Le b f Ha Hf Hd Hs Hl) as (b1 & Hrun & _ & Hs1 & Hl1). exists b1. split; [exact Hrun|].
  pose proof (Ls f Hf) as Hlt. assert (length (eoe_encap big f) = 22 + length (padded f))%nat as Hle.
  { unfold eoe_encap. by rewrite length_app, length_initEoeHeader. }
  unfold delEoeHeader, EOE_HEADER_SIZE in *. cbn [base data size]. rewrite u64_id by lia. split; [split; [lia|]|].
  - assert (padded f = drop (Z.to_nat 22) (eoe_encap big f)) as Hp.
    { unfold eoe_encap. change (Z.to_nat 22) with 22%nat. by rewrite <- (length_initEoeHeader big (Z.of_nat (length (padded f)))), drop_app_length. }
    rewrite Hp at 1. apply (load_skip _ _ _ _ 22); [done|lia].
  - exists (initEoeHeader big (Z.of_nat (length (padded f)))). split.
    + rewrite <- (Z.add_0_r (data b1)). rewrite (load_bytes_sub _ _ _ _ 0 22 Hl1) by lia.
      apply load_bytes_Some. split_and!; try lia. unfold eoe_encap. change (Z.to_nat 0) with 0%nat. rewrite drop_0.
      change (Z.to_nat 22) with 22%nat.
      by rewrite <- (length_initEoeHeader big (Z.of_nat (length (padded f)))), take_app_length.
    + unfold initEoeHeader, host32_bytes, host16_bytes, host16, EOE_HEADER_SIZE.
      change (22 - 6 - 6 - 4 - 2) with 4. set (v := u16 _).
      destruct big; cbn [take drop app rev]; apply be16_value.
Qed.

(** The tag of the header is stored in the byte order of the host: only on a
    big-endian machine does the encapsulated packet carry the VLAN type 0x8100 where
    an Ethernet receiver looks for it, and the 4-bit operation code in the half of
    byte 18 that the filter of the receiving side tests. *)
Theorem eoe_header_byte_order big n :
  let h := initEoeHeader big n in
  (pkt h 12 2 = Some 0x8100 ↔ big = true) ∧
  (∃ v, pkt h 18 1 = Some v ∧ Z.land v 0xf0 = if big then Z.shiftl OP_A2A_Switch 4 else 0).
Proof.
  cbv zeta. assert (∀ l16, length l16 = 2%nat →
    ∀ x, pkt ([6; 0; 0; 0; 0; 248] ++ [6; 0; 0; 0; 0; 120] ++ host32_bytes big 0x81000FFE ++ l16 ++ x) 12 2 =
      Some (if big then 0x8100 else 0xFE0F)) as H12.
  { intros l16 Hl x. unfold pkt. rewrite load_bytes_in;
      [by destruct big|lia|lia|rewrite !length_app; unfold host32_bytes; destruct big; simpl; lia]. }
  unfold initEoeHeader. set (l16 := host16_bytes _ _).
  assert (length l16 = 2%nat) as Hl by (unfold l16, host16_bytes; by destruct big).
  destruct l16 as [|x [|y []]]; try done. split.
  - rewrite H12 by done. by destruct big.
  - unfold host32_bytes. destruct big; eexists; split; [unfold pkt; rewrite load_bytes_in by (simpl; lia); reflexivity|reflexivity
      |unfold pkt; rewrite load_bytes_in by (simpl; lia); reflexivity|reflexivity].
Qed.

(** A packet shorter than the header underflows the size: the EoE relay then asks
    [write] for almost 2^32 bytes from a buffer of 65557. *)
Theorem eoe_short_packet_overreads big b f w ws :
  allocated b = IP_MAXPACKET + EOE_HEADER_SIZE → Z.of_nat (length f) < EOE_HEADER_SIZE →
  forward_once (eoe_pkg big) EOE_DEL_HEADER (RdPacket f) (w :: ws) b = Undef.
Proof.
  unfold allocated, IP_MAXPACKET, EOE_HEADER_SIZE. intros Ha Hf. unfold forward_once.
  cbn [pf_bufferPrepare eoe_pkg]. change (eoe_packetBufferPrepare b EOE_DEL_HEADER) with (bufferReset b).
  rewrite take_ge by (unfold bufferDataToTail, allocated; simpl; rewrite u64_id; lia).
  cbn [base data bufferReset]. rewrite store_bytes_in by lia. cbn [access mbind run_bind].
  change (pf_edit (eoe_pkg big) ?x EOE_DEL_HEADER) with (Done (delEoeHeader x)). cbn [mbind run_bind].
  unfold delEoeHeader, EOE_HEADER_SIZE, bufferSetDataSize. cbn [base data size].
  assert (u64 (Z.of_nat (length f) - 22) = Z.of_nat (length f) - 22 + 2 ^ 64) as ->.
  { unfold u64, uwrap. rewrite <- (Z_mod_plus_full _ 1), Z.mod_small; lia. }
  assert (u32 (Z.of_nat (length f) - 22 + 2 ^ 64) = Z.of_nat (length f) - 22 + 2 ^ 32) as ->.
  { unfold u32, uwrap. change (2 ^ 64) with (2 ^ 32 * 2 ^ 32).
    replace (Z.of_nat (length f) - 22 + 2 ^ 32 * 2 ^ 32)
      with (Z.of_nat (length f) - 22 + 2 ^ 32 + (2 ^ 32 - 1) * 2 ^ 32) by lia.
    rewrite Z_mod_plus_full, Z.mod_small; lia. }
  cbn [write_loop]. rewrite (proj2 (Z.eqb_neq _ 0)) by lia. cbn [base data].
  unfold load_bytes. rewrite length_splice by (simpl; lia). if_false. done.
Qed.

(** *** Start *)
Lemma parse_opts_relay opts g g' :
  parse_opts opts g = Some g' →
  (relayId g = RELAY_ID_DHCP ∨ relayId g = RELAY_ID_EOE ∧ serviceEnabled g = 1) →
  (relayId g' = RELAY_ID_DHCP ∨ relayId g' = RELAY_ID_EOE ∧ serviceEnabled g' = 1).
Proof.
  revert g. induction opts as [|[c arg] opts IH]; intros g H Hg; cbn [parse_opts] in H; [by injection H as <-|].
  destruct (parse_opt c arg g) as [g1|] eqn:E; [|done]. apply (IH g1 H). clear IH H.
  unfold parse_opt in E. repeat (case_match; simplify_eq/=; try done; try by auto).
Qed.

(** What [-E], [-V] and [-F] leave in the globals. *)
Lemma parse_opt_flags c arg g g1 :
  parse_opt c arg g = Some g1 →
  relayId g1 = (if c =? 69 then RELAY_ID_EOE else if c =? 86 then RELAY_ID_DHCP else relayId g) ∧
  serviceEnabled g1 = (if (c =? 69) || (c =? 86) then 1 else serviceEnabled g) ∧
  filterEnable g1 = (if c =? 70 then 1 else filterEnable g).
Proof.
  unfold parse_opt. intros H.
  repeat match type of H with
  | (if ?c =? ?n then _ else _) = _ => destruct (Z.eqb_spec c n) as [->|?]
  end; simplify_eq/=; split_and!; repeat if_false; try done; by rewrite ?(proj2 (Z.eqb_neq _ _)) by done.
Qed.

Lemma parse_opts_flags opts g g' :
  parse_opts opts g = Some g' →
  filterEnable g' = (if decide (70 ∈ opts.*1) then 1 else filterEnable g) ∧
  (relayId g' = RELAY_ID_DHCP →
     if decide (86 ∈ opts.*1) then serviceEnabled g' = 1
     else relayId g = RELAY_ID_DHCP ∧ serviceEnabled g' = serviceEnabled g) ∧
  (serviceEnabled g = 1 → serviceEnabled g' = 1).
Proof.
  revert g. induction opts as [|[c arg] opts IH]; intros g H; cbn [parse_opts] in H.
  { injection H as <-. by rewrite !decide_False by apply not_elem_of_nil. }
  destruct (parse_opt c arg g) as [g1|] eqn:E; [|done].
  apply parse_opt_flags in E as (Hr & Hs & Hf). destruct (IH g1 H) as (If & Ir & Is). clear IH H.
  cbn [fmap list_fmap fst]. split_and!.
  - rewrite If, Hf. destruct (Z.eqb_spec c 70) as [->|].
    + rewrite (decide_True _ _ (list_elem_of_here _ _)). by destruct (decide _).
    + apply decide_ext. set_solver.
  - intros Hd. specialize (Ir Hd). rewrite Hr, Hs in *. destruct (Z.eqb_spec c 86) as [->|].
    + rewrite decide_True by set_solver. by apply Is.
    + destruct (decide (86 ∈ opts.*1)) as [Hin|Hin]; [by rewrite decide_True by set_solver|].
      rewrite decide_False by set_solver. destruct (c =? 69); [by destruct Ir|exact Ir].
  - intros H1. apply Is. rewrite Hs. by destruct (_ || _).
Qed.

(** The whole filter of the relay is attached, or the program ends. *)
Lemma attach_cases e so info : Z.of_nat (length (ri_filter info)) < 65536 →
  attach_if e so info = None ∨ attach_if e so info = Some (if negb (e =? 0) then Some (ri_filter info) else None).
Proof.
  intros Hl. unfold attach_if, attachItfFilterForService, attachItfFilter, packetFilterSize.
  destruct (negb (e =? 0)); [|by right]. unfold u16, uwrap. rewrite Z.mod_small by lia.
  rewrite Nat2Z.id, firstn_all. destruct (_ <? 0); [by left|by right].
Qed.

(** The program gives up. *)
Ltac fails := exists ExitFailure; split; [done|discriminate].
(** Split on the attachment of the filter. *)
Ltac attached :=
  match goal with |- context [attach_if ?e ?so ?info] =>
    destruct (attach_cases e so info) as [->| ->]; [by vm_compute|repeat (case_match; try fails)|]
  end.

(** How the two programs start.  [main] always comes to an end or to the two
    loops, which use the two descriptors in opposite directions.  The EoE program
    only gets there with [-E] as the last of [-E] and [-V], and then edits both
    ways; the DHCP program edits both ways with [-V] and forwards unchanged without.
    With [-F] the relay's own filter is attached. *)
Theorem relay_start big opts net srv so pc :
  (∃ r, eoe_main big opts net srv so pc = Done r ∧
     ∀ info flt a1 a2, r = Forwarding info flt a1 a2 →
       info = eoe_info big ∧ la_from a1 = la_to a2 ∧ la_to a1 = la_from a2 ∧
       la_priv a1 = EOE_ADD_HEADER ∧ la_priv a2 = EOE_DEL_HEADER ∧
       (flt = None ∨ flt = Some eoe_packetFilter)) ∧
  (∃ r, dhcp_main big opts net srv so pc = Done r ∧
     ∀ info flt a1 a2, r = Forwarding info flt a1 a2 →
       info = dhcp_info big ∧ la_from a1 = la_to a2 ∧ la_to a1 = la_from a2 ∧
       (la_priv a1 = SERVICE_TO_NET ∧ la_priv a2 = NET_TO_SERVICE ∨ la_priv a1 = 0 ∧ la_priv a2 = 0) ∧
       (flt = None ∨ flt = Some dhcp_packetFilter)).
Proof.
  unfold eoe_main, dhcp_main, main.
  destruct (parseArgs opts prog_zero) as [g|] eqn:Hg; [|split; fails].
  assert (relayId g = RELAY_ID_DHCP ∨ relayId g = RELAY_ID_EOE ∧ serviceEnabled g = 1) as Hrel.
  { unfold parseArgs in Hg. destruct (parse_opts opts prog_zero) as [g'|] eqn:Hp; [|done].
    apply parse_opts_relay in Hp; [|by left]. repeat case_match; simplify_eq. done. }
  split.
  - change (eoe_service_init big no_relays) with (Done (0, [None; Some (eoe_info big)])). cbn [mbind run_bind]. change (negb (0 =? 0)) with false. cbv iota beta.
    destruct Hrel as [->|[-> Hs]]; [fails|]. rewrite Hs.
    change (relay_find [None; Some (eoe_info big)] RELAY_ID_EOE) with (Some (eoe_info big)). cbv iota beta.
    attached.
    repeat (case_match; try fails); eexists; (split; [done|]); intros info flt a1 a2 [= <- <- <- <-]; cbn;
      split_and!; auto.
  - change (dhcp_service_init big no_relays) with (Done (0, [Some (dhcp_info big); None])). cbn [mbind run_bind]. change (negb (0 =? 0)) with false. cbv iota beta.
    destruct Hrel as [->|[-> _]]; [|fails].
    change (relay_find [Some (dhcp_info big); None] RELAY_ID_DHCP) with (Some (dhcp_info big)). cbv iota beta. unfold SERVICE_PRIV.
    attached.
    repeat (case_match; try fails); eexists; (split; [done|]); intros info flt a1 a2 [= <- <- <- <-]; cbn;
      split_and!; auto.
Qed.

(** What the options of the DHCP program say of its loops. *)
Lemma dhcp_start_options big opts net srv so pc info flt a1 a2 :
  dhcp_main big opts net srv so pc = Done (Forwarding info flt a1 a2) →
  info = dhcp_info big ∧ flt = (if decide (70 ∈ opts.*1) then Some dhcp_packetFilter else None) ∧
  la_priv a1 = (if decide (86 ∈ opts.*1) then SERVICE_TO_NET else 0) ∧
  la_priv a2 = (if decide (86 ∈ opts.*1) then NET_TO_SERVICE else 0).
Proof.
  unfold dhcp_main, main, parseArgs. destruct (parse_opts opts prog_zero) as [g|] eqn:Hp; [|done].
  pose proof (parse_opts_relay _ _ _ Hp (or_introl eq_refl)) as Hrel.
  apply parse_opts_flags in Hp as (Hf & Hv & _).
  destruct (netItf g), (serviceItf g); try done.
  change (dhcp_service_init big no_relays) with (Done (0, [Some (dhcp_info big); None])). cbn [mbind run_bind].
  change (negb (0 =? 0)) with false. cbv iota beta. destruct Hrel as [Hd|[-> _]]; [|done]. specialize (Hv Hd).
  rewrite Hd. change (relay_find [Some (dhcp_info big); None] RELAY_ID_DHCP) with (Some (dhcp_info big)). cbv iota beta.
  destruct (attach_cases (filterEnable g) so (dhcp_info big)) as [->| ->]; [by vm_compute|by repeat case_match|].
  assert (SERVICE_PRIV (serviceEnabled g) SERVICE_TO_NET = (if decide (86 ∈ opts.*1) then SERVICE_TO_NET else 0) ∧
          SERVICE_PRIV (serviceEnabled g) NET_TO_SERVICE = (if decide (86 ∈ opts.*1) then NET_TO_SERVICE else 0)) as [Hp1 Hp2].
  { unfold SERVICE_PRIV. destruct (decide (86 ∈ opts.*1)); [by rewrite Hv|by destruct Hv as [_ ->]]. }
  assert ((if negb (filterEnable g =? 0) then Some (ri_filter (dhcp_info big)) else None) =
          (if decide (70 ∈ opts.*1) then Some dhcp_packetFilter else None)) as Hflt.
  { rewrite Hf. by destruct (decide (70 ∈ opts.*1)). }
  rewrite Hflt, Hp1, Hp2. clear Hf Hflt Hv Hp1 Hp2. intros H.
  match type of H with context [dhcp_createRawSocketAndBindToInterface net ?x ?y] =>
    destruct (dhcp_createRawSocketAndBindToInterface net x y) as [fd1 s1] end.
  destruct (fd1 =? -1); [done|].
  match type of H with context [dhcp_createRawSocketAndBindToInterface srv ?x ?y] =>
    destruct (dhcp_createRawSocketAndBindToInterface srv x y) as [fd2 s2] end.
  destruct (fd2 =? -1); [done|]. destruct (createThread pc =? 0); [done|].
  injection H as <- <- <- <-. done.
Qed.

(** ** Witnesses *)

(** A 20-byte frame on VLAN 1 with priority bits. *)
Definition demo_frame : list Z := zeros 12 ++ [0x81; 0x00; 0xa0; 0x01] ++ [0x08; 0x00; 0x45; 0x00].
Definition demo_buffer : buffer := {| base := demo_frame ++ [7; 7]; data := 0; size := 20 |}.

Lemma demo_frame_ethernet : ethernet demo_frame.
Proof.
  split; [by vm_compute|]. apply Forall_forall. intros x Hx.
  apply (bool_decide_unpack (0 <= x < 256)).
  revert x Hx. apply Forall_forall. by repeat (constructor; [by vm_compute|]).
Qed.

Lemma dhcp_vlan_roundtrip_witness :
  ∃ b1 b2, setDhcpVlan false demo_buffer = Done b1 ∧ setOamVlan false b1 = Done b2 ∧
    load_bytes (base b2) (data b2) (size b2) = Some demo_frame.
Proof.
  apply (dhcp_vlan_roundtrip false demo_buffer demo_frame 0xa001);
    [exact demo_frame_ethernet|reflexivity|reflexivity|reflexivity|reflexivity|by vm_compute].
Defined.

Lemma relay_forwards_packets_witness :
  forward_packet_from_to (dhcp_pkg false) NET_TO_SERVICE [RdRetry; RdPacket demo_frame]
    [WrRetry; WrOk 5; WrRetry; WrOk 15] {| base := zeros (Z.to_nat IP_MAXPACKET); data := 3; size := 9 |} [] =
  Done (true, [zeros 12 ++ [0x81; 0x00; 0xaf; 0xfd] ++ [0x08; 0x00; 0x45; 0x00]]).
Proof.
  destruct (relay_forwards_packets false [RdRetry; RdPacket demo_frame] [WrRetry; WrOk 5; WrRetry; WrOk 15]
    {| base := zeros (Z.to_nat IP_MAXPACKET); data := 3; size := 9 |}) as [H _].
  rewrite (H NET_TO_SERVICE).
  - reflexivity.
  - unfold allocated. cbn [base]. by rewrite length_zeros.
  - constructor; [exact demo_frame_ethernet|constructor].
  - cbn [lets_through]. exists []. split; [reflexivity|exact I].
Defined.

Definition demo_eoe (f : list Z) : buffer :=
  {| base := zeros 22 ++ f ++ zeros (Z.to_nat (65535 - Z.of_nat (length f))); data := 22; size := Z.of_nat (length f) |}.

Lemma demo_eoe_allocated f : Z.of_nat (length f) <= 65535 → allocated (demo_eoe f) = IP_MAXPACKET + EOE_HEADER_SIZE.
Proof.
  intros Hf. unfold allocated, demo_eoe, IP_MAXPACKET, EOE_HEADER_SIZE. cbn [base].
  rewrite !length_app, !length_zeros. lia.
Qed.

Lemma eoe_header_roundtrip_witness :
  ∃ b1, addEoeHeader true (demo_eoe [1; 2; 3]) = Done b1 ∧ size (delEoeHeader b1) = 64.
Proof.
  destruct (eoe_header_roundtrip true (demo_eoe [1; 2; 3]) [1; 2; 3]) as (b1 & Hrun & [Hs _] & _).
  - apply demo_eoe_allocated. by vm_compute.
  - by vm_compute.
  - reflexivity.
  - reflexivity.
  - apply (load_bytes_middle (zeros 22) [1; 2; 3]).
  - exists b1. split; [exact Hrun|exact Hs].
Defined.

Lemma eoe_short_packet_overreads_witness :
  forward_once (eoe_pkg false) EOE_DEL_HEADER (RdPacket demo_frame) [WrOk 1] (demo_eoe []) = Undef.
Proof.
  apply (eoe_short_packet_overreads false (demo_eoe []) demo_frame (WrOk 1) []); [|by vm_compute].
  apply demo_eoe_allocated. by vm_compute.
Defined.
