(* ===== verification/SmallDrivers.v ===== *)
(** * Small drivers: uio/uio.c, netlink/netlink.c, simple_interrupt/simple_interrup.c

    A UIO driver that hands a register block and its interrupt to user space, a
    netlink socket that answers every message, and a driver that takes one shared
    interrupt. *)

From S2P Require Import Prelude KernelApi KString.

(** ** uio/uio.c *)
Definition UIO_NAME_SIZE : Z := 16.
Definition UIO_IRQ_NONE : Z := 0.
Definition IRQF_SHARED : Z := 0x80.
Definition IRQ_HANDLED : Z := 1.

(** [struct uio_info] with its first memory map *)
Record uio_info := {
  ui_name : list Z;
  ui_irq : Z;
  ui_irq_flags : Z;
  ui_addr : Z;
  ui_size : Z;
  ui_internal_addr : Z;
}.

(** The objects the driver allocates with [devm_kzalloc]. *)
Inductive uio_obj := Platdata | Uioinfo | UioName.
#[global] Instance uio_obj_eq : EqDecision uio_obj.
Proof. solve_decision. Defined.

(** The device: the objects allocated, the driver data (the [uio_info] behind it),
    the mappings, and what is registered with the UIO core. *)
Record uio_world := {
  u_devm : list uio_obj;
  u_drvdata : option uio_info;
  u_maps : gset Z;
  u_registered : option uio_info;
}.

Definition devm_kfree (o : uio_obj) (l : list uio_obj) : list uio_obj := filter (λ x, x ≠ o) l.

(** The kernel's answers: the allocations, the resource of the node or an error, the
    mapping or 0, the interrupt of the node, the result of [uio_register_device]. *)
Record uio_answers := {
  a_platdata : bool; a_uioinfo : bool; a_name : bool;
  a_resource : Z + Z * Z;
  a_uio_iomap : Z;
  a_irq : Z;
  a_uio_register : Z;
}.

Definition ldd_uio_irq_handler (irq : Z) : Z := IRQ_HANDLED.
Definition ldd_uio_irqcontrol (irq_on : Z) : Z := 0.

(** [snprintf(name, 16, "ldd_uio_drv")] *)
Definition uio_name : list Z :=
  let s := str "ldd_uio_drv" in
  take (Z.to_nat UIO_NAME_SIZE - 1) s ++ zeros (Z.to_nat UIO_NAME_SIZE - length (take (Z.to_nat UIO_NAME_SIZE - 1) s)).

(** [err_...:] *)
Definition uio_err (w : uio_world) : Z * uio_world :=
  (- ENODEV,
   {| u_devm := devm_kfree UioName (devm_kfree Uioinfo (devm_kfree Platdata (u_devm w)));
      u_drvdata := u_drvdata w; u_maps := u_maps w; u_registered := u_registered w |}).

Definition ldd_uio_probe (uio_irq : Z) (a : uio_answers) (w : uio_world) : Z * uio_world :=
  let got := (if a_platdata a then [Platdata] else []) ++ (if a_uioinfo a then [Uioinfo] else []) ++
             (if a_name a then [UioName] else []) in
  let w := {| u_devm := got ++ u_devm w; u_drvdata := u_drvdata w; u_maps := u_maps w;
              u_registered := u_registered w |} in
  if negb (a_uioinfo a) || negb (a_platdata a) || negb (a_name a) then uio_err w
  else match a_resource a with
  | inl ret => uio_err w
  | inr (start, end_) =>
      let p := a_uio_iomap a in
      if p =? 0 then uio_err w
      else
        let w := {| u_devm := u_devm w; u_drvdata := u_drvdata w; u_maps := {[p]} ∪ u_maps w;
                    u_registered := u_registered w |} in
        let irq := if 0 <? uio_irq then uio_irq else a_irq a in
        let i := {| ui_name := uio_name; ui_irq := irq; ui_irq_flags := IRQF_SHARED; ui_addr := start;
                    ui_size := u64 (end_ - start + 1); ui_internal_addr := p |} in
        let w := {| u_devm := u_devm w; u_drvdata := Some i; u_maps := u_maps w;
                    u_registered := u_registered w |} in
        if negb (a_uio_register a =? 0) then uio_err w
        else (0, {| u_devm := u_devm w; u_drvdata := u_drvdata w; u_maps := u_maps w; u_registered := Some i |})
  end.

(** Only of a bound device, whose driver data is set. *)
Definition ldd_uio_remove (w : uio_world) : run (Z * uio_world) :=
  i ← access (u_drvdata w);
  _ ← access (u_registered w);
  if decide (ui_internal_addr i ∈ u_maps w) then
    mret (0, {| u_devm := devm_kfree Uioinfo (u_devm w); u_drvdata := u_drvdata w;
                u_maps := u_maps w ∖ {[ui_internal_addr i]}; u_registered := None |})
  else Undef.

Definition ldd_uio_init (registered : Z) : Z := registered.
Definition ldd_uio_exit (bound : bool) (w : uio_world) : run uio_world :=
  if bound then '(_, w) ← ldd_uio_remove w; mret w else mret w.

(** The driver core after a failed probe or a remove: managed memory goes, the driver
    data is cleared. *)
Definition unbind (w : uio_world) : uio_world :=
  {| u_devm := []; u_drvdata := None; u_maps := u_maps w; u_registered := u_registered w |}.

Definition uio_unbound (w : uio_world) : Prop := u_devm w = [] ∧ u_drvdata w = None ∧ u_registered w = None.

(** The UIO driver's bind and unbind.  A probe that succeeds registers the whole
    resource with the node's interrupt, or the one given as a parameter when that is
    positive, and unbinding gives everything back.  A probe that fails returns
    -ENODEV whatever the reason and frees what it allocated, but when it is
    [uio_register_device] that refuses, the register mapping is never undone. *)
Theorem uio_bind_unbind uio_irq a w :
  uio_unbound w → a_uio_iomap a ∉ u_maps w →
  let '(ret, w1) := ldd_uio_probe uio_irq a w in
  (ret = 0 ∧
     (∃ i start end_, u_registered w1 = Some i ∧ a_resource a = inr (start, end_) ∧
        ui_addr i = start ∧ ui_size i = u64 (end_ - start + 1) ∧
        ui_irq i = (if 0 <? uio_irq then uio_irq else a_irq a)) ∧
     ∃ w2, ldd_uio_remove w1 = Done (0, w2) ∧ unbind w2 = w) ∨
  (ret = - ENODEV ∧ u_devm w1 = [] ∧ u_registered w1 = None ∧
     (unbind w1 = w ∨
      a_uio_register a ≠ 0 ∧ u_maps w1 = {[a_uio_iomap a]} ∪ u_maps w)).
Proof.
  intros (Hd & Hv & Hr) Hm. unfold ldd_uio_probe. rewrite Hd, app_nil_r.
  destruct (a_platdata a), (a_uioinfo a), (a_name a); cbn;
    try (right; split; [done|]; split; [done|]; split; [done|]; left; destruct w; simpl in *; by subst).
  destruct (a_resource a) as [|[start end_]]; cbn.
  { right. split; [done|]. split; [done|]. split; [done|]. left. destruct w; simpl in *; by subst. }
  destruct (Z.eqb_spec (a_uio_iomap a) 0); cbn.
  { right. split; [done|]. split; [done|]. split; [done|]. left. destruct w; simpl in *; by subst. }
  destruct (Z.eqb_spec (a_uio_register a) 0); cbn.
  - left. split; [done|]. split; [by do 3 eexists|]. unfold ldd_uio_remove. cbn.
    rewrite decide_True by set_solver. eexists. split; [done|].
    unfold unbind. cbn. destruct w; simpl in *. subst. f_equal. set_solver.
  - right. split; [done|]. split; [done|]. split; [done|]. right. done.
Qed.

(** ** netlink/netlink.c *)
Definition MAX_MSGSIZE : Z := 1024.
(** [sizeof(struct nlmsghdr)], [NLMSG_SPACE(0)]; [nlmsg_pid] is its last field *)
Definition NLMSG_HDRLEN : Z := 16.
Definition k_msg : list Z := str "from kernel messages!".

(** The socket, the references held on the received buffer, and what was sent: the
    port and the payload. *)
Record nl_world := { nl_sk : bool; nl_refs : Z; nl_sent : list (Z * list Z) }.

(** [mem]: the payload area of the buffer [alloc_skb] returned, as it was. *)
Definition send_netlink_data (alloc : option (list Z)) (pid : Z) (message : list Z) (len : Z) (w : nl_world)
    : run nl_world :=
  match alloc with
  | None => mret w
  | Some mem =>
      bs ← access (load_bytes (message ++ [0]) 0 (len + 1));
      payload ← access (store_bytes mem 0 bs);
      if nl_sk w then
        mret {| nl_sk := nl_sk w; nl_refs := nl_refs w; nl_sent := nl_sent w ++ [(pid, payload)] |}
      else Undef
  end.

(** [skb]: the bytes of the received message; the message is printed as a string. *)
Definition recv_netlink_data (big_endian : bool) (skb : list Z) (alloc : option (list Z)) (w : nl_world)
    : run nl_world :=
  let w := {| nl_sk := nl_sk w; nl_refs := nl_refs w + 1; nl_sent := nl_sent w |} in
  let put w := {| nl_sk := nl_sk w; nl_refs := nl_refs w - 1; nl_sent := nl_sent w |} in
  if Z.of_nat (length skb) <? NLMSG_HDRLEN then mret (put w)
  else
    _ ← access (until_nul (drop 16 skb));
    bs ← access (load_bytes skb 12 4);
    w ← send_netlink_data alloc (be_value (if big_endian then bs else rev bs)) k_msg (Z.of_nat (length k_msg)) w;
    mret (put w).

Definition netlink_init (created : bool) : Z * nl_world :=
  (if created then 0 else 1, {| nl_sk := created; nl_refs := 0; nl_sent := [] |}).
Definition netlink_exit (w : nl_world) : nl_world :=
  if nl_sk w then {| nl_sk := false; nl_refs := nl_refs w; nl_sent := nl_sent w |} else w.

(** Every message of at least a header whose text is a string is answered once, to
    its sender, and its buffer released.  The answer is 1024 bytes long, of which the
    driver writes 22: the other 1002 are whatever the kernel memory held. *)
Theorem netlink_answer_leaks_memory big skb mem w txt :
  NLMSG_HDRLEN <= Z.of_nat (length skb) → until_nul (drop 16 skb) = Some txt →
  Z.of_nat (length mem) = MAX_MSGSIZE → nl_sk w = true →
  ∃ w' pid payload, recv_netlink_data big skb (Some mem) w = Done w' ∧
    nl_sent w' = nl_sent w ++ [(pid, payload)] ∧ nl_refs w' = nl_refs w ∧
    Z.of_nat (length payload) = MAX_MSGSIZE ∧ take 22 payload = k_msg ++ [0] ∧ drop 22 payload = drop 22 mem.
Proof.
  unfold NLMSG_HDRLEN, MAX_MSGSIZE. intros Hl Ht Hm Hs. unfold recv_netlink_data, NLMSG_HDRLEN.
  rewrite (proj2 (Z.ltb_ge _ _)) by done. rewrite Ht. cbn [access mbind run_bind].
  rewrite load_bytes_in by lia. cbn [access mbind run_bind]. unfold send_netlink_data.
  change (load_bytes (k_msg ++ [0]) 0 (Z.of_nat (length k_msg) + 1)) with (Some (k_msg ++ [0])).
  cbn [access mbind run_bind]. change (Z.of_nat (length (k_msg ++ [0]))) with 22.
  rewrite store_bytes_in by (change (Z.of_nat (length (k_msg ++ [0]))) with 22; lia).
  cbn [access mbind run_bind nl_sk]. rewrite Hs. cbn [mbind run_bind].
  do 3 eexists. split; [done|]. cbn [nl_sent nl_refs]. split; [done|]. split; [lia|].
  change (Z.to_nat 0) with 0%nat. rewrite length_splice by (change (length (k_msg ++ [0])) with 22%nat; lia).
  split; [done|]. split; [exact (take_add_splice mem 0 (k_msg ++ [0]) ltac:(lia))|done].
Qed.

(** ** simple_interrupt/simple_interrup.c *)

(** The interrupts whose handler is registered with [&the_irq]. *)
Definition irqs : Type := gset Z.

Definition intr_handler (irq : Z) : Z := IRQ_HANDLED.
(** [request_irq] answers [ret]; 0 registers the handler. *)
Definition simple_interrupt_init (the_irq ret : Z) (s : irqs) : Z * irqs :=
  (ret, if ret =? 0 then {[the_irq]} ∪ s else s).
(** [free_irq] of an interrupt that was not taken only warns. *)
Definition simple_interrupt_exit (the_irq : Z) (s : irqs) : irqs := s ∖ {[the_irq]}.

(** Loading takes the interrupt named by the parameter and unloading gives it
    back, as long as the parameter is not written in between: [the_irq] is writable
    in sysfs (0644) and read again at unload, so after a change the handler of the
    unloaded module stays registered. *)
Theorem simple_interrupt_parameter irq irq' s :
  irq ∉ s →
  let '(ret, s1) := simple_interrupt_init irq 0 s in
  ret = 0 ∧ irq ∈ s1 ∧ simple_interrupt_exit irq s1 = s ∧
  (irq' ≠ irq → irq ∈ simple_interrupt_exit irq' s1).
Proof.
  intros Hs. unfold simple_interrupt_init, simple_interrupt_exit. cbn. split; [done|]. split; [set_solver|].
  split; [set_solver|]. intros Hne. set_solver.
Qed.

(** ** Witnesses *)
Definition demo_uio (reg : Z) : uio_answers :=
  {| a_platdata := true; a_uioinfo := true; a_name := true; a_resource := inr (0x7c000000, 0x7c000fff);
     a_uio_iomap := 0x9000; a_irq := 31; a_uio_register := reg |}.
Definition demo_uio_world : uio_world := {| u_devm := []; u_drvdata := None; u_maps := ∅; u_registered := None |}.

Lemma uio_bind_unbind_witness :
  (ldd_uio_probe (-1) (demo_uio (-16)) demo_uio_world).1 = - ENODEV ∧
  0x9000 ∈ u_maps (ldd_uio_probe (-1) (demo_uio (-16)) demo_uio_world).2.
Proof.
  pose proof (uio_bind_unbind (-1) (demo_uio (-16)) demo_uio_world ltac:(done) ltac:(simpl; set_solver)) as H.
  destruct (ldd_uio_probe (-1) (demo_uio (-16)) demo_uio_world) as [ret w1] eqn:E.
  assert (ret = - ENODEV) as -> by (injection E as <- _; reflexivity).
  destruct H as [(H & _)|(_ & _ & _ & H)]; [discriminate H|]. split; [reflexivity|].
  injection E as <-. simpl. set_solver.
Defined.

Lemma netlink_answer_leaks_memory_witness :
  ∃ w' pid payload, recv_netlink_data false (zeros 12 ++ [42; 0; 0; 0] ++ [104; 105; 0]) (Some (replicate 1024 0x5a))
      {| nl_sk := true; nl_refs := 1; nl_sent := [] |} = Done w' ∧
    nl_sent w' = [] ++ [(pid, payload)] ∧ drop 22 payload = replicate 1002 0x5a.
Proof.
  destruct (netlink_answer_leaks_memory false (zeros 12 ++ [42; 0; 0; 0] ++ [104; 105; 0]) (replicate 1024 0x5a)
    {| nl_sk := true; nl_refs := 1; nl_sent := [] |} [104; 105]) as (w' & pid & payload & H1 & H2 & _ & _ & _ & H3);
    [by vm_compute|reflexivity|reflexivity|reflexivity|].
  exists w', pid, payload. split; [exact H1|]. split; [exact H2|]. rewrite H3. reflexivity.
Defined.

Lemma simple_interrupt_parameter_witness :
  31 ∈ simple_interrupt_exit 32 (simple_interrupt_init 31 0 ∅).2.
Proof.
  pose proof (simple_interrupt_parameter 31 32 ∅ ltac:(set_solver)) as H.
  destruct (simple_interrupt_init 31 0 ∅) as [ret s1]. simpl. by apply H.
Defined.
