(* ===== verification/Libc.v ===== *)
(** * The C library as the tools use it

    [strtoull], [strtol], [atol]; the conversions [%0Nx], [%0No], [%lu] of [printf];
    [isprint]; and the loop that repeats a [read] or [write] until everything is
    transferred, which memutil/mem_ops.c and calamares_bin.c both have. *)

From S2P Require Import Prelude KString.

(** ** Characters *)
Definition isspace (c : Z) : bool := (c =? 32) || (9 <=? c) && (c <=? 13).
Definition isprint (c : Z) : bool := (32 <=? c) && (c <=? 126).

(** ** Numbers from strings *)
Definition ULLONG_MAX : Z := 18446744073709551615.
Definition LONG_MAX : Z := 9223372036854775807.
Definition LONG_MIN : Z := - 9223372036854775808.

(** How many characters from the start satisfy [p]. *)
Fixpoint span_len (p : Z → bool) (l : list Z) : nat :=
  match l with c :: l' => if p c then S (span_len p l') else 0%nat | [] => 0%nat end.

(** Sign and its length; base and length of the prefix. *)
Definition sign_of (l : list Z) : bool * nat :=
  match l with
  | c :: _ => if c =? 45 then (true, 1%nat) else if c =? 43 then (false, 1%nat) else (false, 0%nat)
  | [] => (false, 0%nat)
  end.
Definition base_of (base : Z) (l : list Z) : Z * nat :=
  match l with
  | c :: l' =>
      if c =? 48 then
        if ((base =? 0) || (base =? 16)) && match l' with x :: _ => Z.lor x 32 =? 120 | [] => false end
        then (16, 2%nat) else (if base =? 0 then 8 else base, 0%nat)
      else (if base =? 0 then 10 else base, 0%nat)
  | [] => (if base =? 0 then 10 else base, 0%nat)
  end.

(** The number the digits of base [b] at the start make, and how many there are. *)
Fixpoint digits (b acc : Z) (n : nat) (l : list Z) : Z * nat :=
  match l with
  | c :: l' => match digit_value c with
               | Some v => if v <? b then digits b (acc * b + v) (S n) l' else (acc, n)
               | None => (acc, n)
               end
  | [] => (acc, n)
  end.

(** Sign, magnitude and how much of the string was used: 0 when there is no number.
    After a prefix [0x] without a digit the number is the 0 alone. *)
Definition scan_number (base : Z) (s : list Z) : bool * Z * nat :=
  let w := span_len isspace s in
  let s := drop w s in
  let '(neg, k) := sign_of s in
  let s := drop k s in
  let '(b, p) := base_of base s in
  let '(v, n) := digits b 0 0 (drop p s) in
  if (n =? 0)%nat then (false, 0, if (p =? 2)%nat then (w + k + 1)%nat else 0%nat)
  else (neg, v, (w + k + p + n)%nat).

(** The value, the length used ([*endptr - str]) and whether [errno] is ERANGE. *)
Definition strtoull (base : Z) (s : list Z) : Z * nat * bool :=
  let '(neg, v, n) := scan_number base s in
  if ULLONG_MAX <? v then (ULLONG_MAX, n, true) else (if neg then u64 (- v) else v, n, false).

Definition strtol (base : Z) (s : list Z) : Z :=
  let '(neg, v, _) := scan_number base s in
  let x := if neg then - v else v in
  if x <? LONG_MIN then LONG_MIN else if LONG_MAX <? x then LONG_MAX else x.
Definition strtoll : Z → list Z → Z := strtol.
Definition atol (s : list Z) : Z := strtol 10 s.

(** ** Printing *)

(** The flag [0] with a width. *)
Definition zero_pad (w : nat) (l : list Z) : list Z := replicate (w - length l) 48 ++ l.
Definition fmt_0x (w : nat) (n : Z) : list Z := zero_pad w (udigits 64 16 n).
Definition fmt_0o (w : nat) (n : Z) : list Z := zero_pad w (udigits 64 8 n).
Definition fmt_u (n : Z) : list Z := udigits 64 10 n.

(** ** Complete transfers *)

(** What one call of [read] or [write] answers: it moves at most [n] bytes, or it
    was interrupted, or it failed. *)
Inductive io_res := IoOk (n : Z) | IoIntr | IoError.

(** The loop over the answers; [call buf len n s] is the effect of a call that may
    move [n] bytes and gives how many it moved.  The result: whether the last call
    failed, what is left to move, the state and the unused answers.  Without an
    answer the process waits in the call. *)
Fixpoint transfer {S} (call : Z → Z → Z → S → run (Z * S)) (ws : list io_res) (buf len : Z) (s : S)
    : run (bool * Z * S * list io_res) :=
  if len =? 0 then mret (false, len, s, ws)
  else match ws with
  | [] => Block
  | IoIntr :: ws => transfer call ws buf len s
  | IoError :: ws => mret (true, len, s, ws)
  | IoOk n :: ws =>
      '(ret, s) ← call buf len n s;
      if ret =? 0 then mret (false, len, s, ws) else transfer call ws (buf + ret) (len - ret) s
  end.

(** The answers let the whole of [len] bytes through. *)
Fixpoint completes (ws : list io_res) (len : Z) : bool :=
  if len =? 0 then true
  else match ws with
  | [] => false
  | IoIntr :: ws => completes ws len
  | IoError :: _ => false
  | IoOk n :: ws => (0 <? n) && completes ws (len - Z.min n len)
  end.

Definition io_nonneg (r : io_res) : Prop := match r with IoOk n => 0 <= n | _ => True end.

(** [P k s]: [k] bytes were moved.  Each call moves some of the bytes that are left. *)
Section Prefix.
Context {S : Type} (call : Z → Z → Z → S → run (Z * S)) (P : Z → S → Prop) (total buf : Z).
Context (Hcall : ∀ k n s, P k s → 0 <= k < total → 0 <= n →
  ∃ j s', call (buf + k) (total - k) n s = Done (j, s') ∧ P (k + j) s' ∧ 0 <= j <= Z.min n (total - k)).

(** Whatever the answers, a transfer that ends moved a first part. *)
Lemma transfer_prefix ws k s failed len s' ws' :
  P k s → 0 <= k <= total → Forall io_nonneg ws →
  transfer call ws (buf + k) (total - k) s = Done (failed, len, s', ws') →
  P (total - len) s' ∧ 0 <= len <= total - k ∧ (failed = true → len ≠ 0).
Proof.
  revert k s. induction ws as [|w ws IH]; intros k s Hk Hr Hw; cbn [transfer];
    (destruct (Z.eqb_spec (total - k) 0) as [e|e];
      [intros [= <- <- <- <-]; replace (total - (total - k)) with k by lia; split_and!; [done|lia..|done]|]).
  { done. }
  inversion Hw as [|? ? Hn Hws]; subst. destruct w as [n| |]; [|by apply IH|].
  - destruct (Hcall k n s) as (j & s1 & -> & Hs1 & Hj); [done|lia|done|]. simpl.
    destruct (Z.eqb_spec (j) 0).
    + intros [= <- <- <- <-]. replace (total - (total - k)) with (k + j) by lia.
      split_and!; [done|lia..|done].
    + intros H. replace (buf + k + j) with (buf + (k + j)) in H by lia.
      replace (total - k - j) with (total - (k + j)) in H by lia.
      simpl in *. destruct (IH _ _ Hs1 ltac:(lia) ltac:(done) H) as (? & ? & ?). split_and!; [done|lia..|done].
  - intros [= <- <- <- <-]. replace (total - (total - k)) with k by lia. split_and!; [done|lia..].
Qed.

(** A last answer that is an error ends every transfer. *)
Lemma transfer_ends ws k s :
  P k s → 0 <= k <= total → Forall io_nonneg ws →
  ∃ r, transfer call (ws ++ [IoError]) (buf + k) (total - k) s = Done r.
Proof.
  intros Hk Hr Hw. revert k s Hk Hr. induction Hw as [|w ws Hn _ IH]; intros k s Hk Hr; cbn [app transfer];
    (destruct (Z.eqb_spec (total - k) 0); [by eexists|]); [by eexists|].
  destruct w as [n'| |]; [|by apply IH|by eexists].
  destruct (Hcall k n' s) as (j & s1 & -> & Hs1 & Hj); [done|lia|done|]. simpl. destruct (j =? 0); [by eexists|].
  replace (buf + k + j) with (buf + (k + j)) by lia. replace (total - k - j) with (total - (k + j)) by lia. apply IH; [done|lia].
Qed.

End Prefix.

(** Each call moves as many bytes as it may. *)
Section Complete.
Context {S : Type} (call : Z → Z → Z → S → run (Z * S)) (P : Z → S → Prop) (total buf : Z).
Context (Hcall : ∀ k n s, P k s → 0 <= k < total → 0 <= n →
  ∃ s', call (buf + k) (total - k) n s = Done (Z.min n (total - k), s') ∧ P (k + Z.min n (total - k)) s').

(** With answers that let everything through, all of it is moved. *)
Lemma transfer_all ws k s :
  P k s → 0 <= k <= total → Forall io_nonneg ws → completes ws (total - k) = true →
  ∃ s' ws', transfer call ws (buf + k) (total - k) s = Done (false, 0, s', ws') ∧ P total s'.
Proof.
  revert k s. induction ws as [|w ws IH]; intros k s Hk Hr Hw Hc; cbn [transfer completes] in *;
    (destruct (Z.eqb_spec (total - k) 0) as [e|e];
      [rewrite e; eexists s, _; split; [done|]; by replace total with k by lia|]); [done|].
  inversion Hw as [|? ? Hn Hws]; subst. destruct w as [n| |]; [|by apply IH|done].
  bool_to_prop. destruct (Hcall k n s) as (s1 & -> & Hs1); [done|lia..|]. simpl. if_false.
  replace (buf + k + Z.min n (total - k)) with (buf + (k + Z.min n (total - k))) by lia.
  replace (total - k - Z.min n (total - k)) with (total - (k + Z.min n (total - k))) in * by lia.
  apply IH; [done|lia|done..].
Qed.
End Complete.

(** ** Printing and reading back *)
Lemma digits_udigits b f n acc k rest :
  2 <= b <= 16 → 0 <= n < 2 ^ Z.of_nat f →
  let j := length (udigits f b n) in
  digits b acc k (udigits f b n ++ rest) = digits b (acc * b ^ Z.of_nat j + n) (k + j) rest.
Proof.
  intros Hb. revert n acc k rest. induction f as [|f IH]; intros n acc k rest Hn.
  { simpl in Hn. cbn [udigits app length]. rewrite Z.pow_0_r. f_equal; lia. }
  cbn [udigits]. destruct (Z.ltb_spec n b).
  - cbn [app length]. simpl. rewrite digit_value_digit by lia. if_true.
    rewrite Z.pow_1_r. by replace (k + 1)%nat with (S k) by lia.
  - cbv zeta. rewrite <- app_assoc, IH.
    2:{ rewrite Nat2Z.inj_succ, Z.pow_succ_r in Hn by lia.
        split; [apply Z.div_pos; lia|]. apply Z.div_lt_upper_bound; nia. }
    simpl. pose proof (Z.mod_pos_bound n b). rewrite digit_value_digit by lia. if_true.
    rewrite length_app. cbn [length]. rewrite Nat2Z.inj_add. change (Z.of_nat 1) with 1.
    rewrite Z.pow_add_r, Z.pow_1_r by lia. f_equal; [|lia].
    pose proof (Z.div_mod n b ltac:(lia)) as Hd. rewrite Z.mul_add_distr_r. lia.
Qed.

Lemma digits_zeros b k n rest : 2 <= b → digits b 0 n (replicate k 48 ++ rest) = digits b 0 (n + k) rest.
Proof.
  intros Hb. revert n. induction k as [|k IH]; intros n; simpl; [by rewrite Nat.add_0_r|].
  if_true. rewrite IH. f_equal. lia.
Qed.

Lemma length_zero_pad w l : (length l <= w)%nat → length (zero_pad w l) = w.
Proof. intros. unfold zero_pad. rewrite length_app, length_replicate. lia. Qed.

Lemma length_udigits b f n m :
  2 <= b → 0 <= n < b ^ Z.of_nat m → (0 < m)%nat → (length (udigits f b n) <= m)%nat.
Proof.
  intros Hb. revert n m. induction f as [|f IH]; intros n m Hn Hm; simpl; [lia|].
  split_if; [simpl; lia|]. rewrite length_app. simpl. destruct m as [|[|m]]; [lia| |].
  { rewrite Z.pow_1_r in Hn. lia. }
  pose proof (IH (n / b) (S m)) as H. rewrite Nat2Z.inj_succ, Z.pow_succ_r in Hn by lia.
  specialize (H ltac:(split; [apply Z.div_pos; lia|apply Z.div_lt_upper_bound; lia]) ltac:(lia)). lia.
Qed.

(** A padded number is read back by a scan of its digits. *)
Lemma digits_padded b f w n rest :
  2 <= b <= 16 → 0 <= n < 2 ^ Z.of_nat f → no_digit rest →
  let l := zero_pad w (udigits f b n) in digits b 0 0 (l ++ rest) = (n, length l).
Proof.
  intros Hb Hn Hr. cbv zeta. unfold zero_pad. rewrite <- app_assoc, digits_zeros, digits_udigits by (done || lia).
  rewrite length_app, length_replicate.
  destruct rest as [|c rest]; simpl; [f_equal; lia|]. simpl in Hr. rewrite Hr. f_equal; lia.
Qed.

(** A decimal number is read back by [strtoull]. *)
Lemma strtoull_fmt_u v rest :
  0 <= v < 18446744073709551616 → no_digit rest →
  strtoull 10 (fmt_u v ++ rest) = (v, length (fmt_u v), false).
Proof.
  intros Hv Hr. unfold strtoull, scan_number. pose proof (digits_padded 10 64 0 v rest ltac:(lia) Hv Hr) as E.
  change (zero_pad 0 (udigits 64 10 v)) with (fmt_u v) in E. cbv zeta in E.
  destruct (udigits_head 64 10 v ltac:(lia) ltac:(lia) ltac:(lia)) as (d & l & Hl & Hd).
  fold (fmt_u v) in Hl. rewrite Hl in *. cbn [app] in *. set (c := digit d) in *.
  assert (48 <= c <= 57) as Hc by (subst c; unfold digit; split_if; lia).
  assert (isspace c = false) as Hs by (unfold isspace; apply orb_false_iff; split; [apply Z.eqb_neq; lia|apply andb_false_iff; right; apply Z.leb_gt; lia]).
  cbn [span_len]. rewrite Hs. cbn [drop sign_of]. assert ((c =? 45) = false ∧ (c =? 43) = false) as [-> ->] by (split; apply Z.eqb_neq; lia).
  cbn [drop base_of]. change ((10 =? 0) || (10 =? 16)) with false. cbn [andb]. change (10 =? 0) with false. cbv iota.
  assert ((if c =? 48 then (10, 0%nat) else (10, 0%nat)) = (10, 0%nat)) as -> by by destruct (c =? 48).
  cbn [drop]. rewrite E. cbn [Nat.eqb length Nat.add]. unfold ULLONG_MAX. if_false. done.
Qed.
