(* ===== verification/MemUtil.v ===== *)
(** * Memory utility: test_suite/memutil

    A program that saves a region of physical memory to a file or loads it back.
    work_paras.c has the command line, mem_ops.c the mapping of the region, which
    mmap only grants in whole pages, and the transfers.  The model is for an LP64
    system. *)

From S2P Require Import Prelude KernelApi KString Libc.

(** [struct working_params] *)
Record working_params := {
  verbose : Z;
  start_phy_addr : Z;
  wp_length : Z;
  save_to_file : Z;
  load_from_file : Z;
  file_path : option (list Z);
  vaddr_base : Z;
  map_length : Z;
  vaddr : Z;
}.

(** ** The process and the kernel *)

(** A mapping of [mp_len] bytes of physical memory from [mp_phys]. *)
Record mapping := { mp_va : Z; mp_phys : Z; mp_len : Z; mp_write : bool }.

Record mem_world := {
  mw_phys : gmap Z Z;
  mw_files : gmap (list Z) (list Z);
  mw_fds : gset Z;
  mw_maps : list mapping;
}.
Definition set_phys (m : gmap Z Z) (w : mem_world) : mem_world :=
  {| mw_phys := m; mw_files := mw_files w; mw_fds := mw_fds w; mw_maps := mw_maps w |}.
Definition set_files (f : gmap (list Z) (list Z)) (w : mem_world) : mem_world :=
  {| mw_phys := mw_phys w; mw_files := f; mw_fds := mw_fds w; mw_maps := mw_maps w |}.
Definition set_fds (f : gset Z) (w : mem_world) : mem_world :=
  {| mw_phys := mw_phys w; mw_files := mw_files w; mw_fds := f; mw_maps := mw_maps w |}.
Definition set_maps (m : list mapping) (w : mem_world) : mem_world :=
  {| mw_phys := mw_phys w; mw_files := mw_files w; mw_fds := mw_fds w; mw_maps := m |}.

(** What the system calls answer: a descriptor of /dev/mem or of a file (for
    writing or not), the address of a mapping (length, offset, writable), whether
    [munmap] succeeds. *)
Record mem_os := {
  page_size : Z;
  os_open_mem : bool → option Z;
  os_mmap : Z → Z → bool → option Z;
  os_open : list Z → bool → option Z;
  os_munmap : bool;
}.

Definition opened (fd : Z) (w : mem_world) : mem_world := set_fds ({[fd]} ∪ mw_fds w) w.
Definition closed (fd : Z) (w : mem_world) : mem_world := set_fds (mw_fds w ∖ {[fd]}) w.

(** The physical address of [n] mapped bytes at [va]. *)
Fixpoint phys_of (ms : list mapping) (va n : Z) (write : bool) : option Z :=
  match ms with
  | [] => None
  | m :: ms =>
      if (mp_va m <=? va) && (va + n <=? mp_va m + mp_len m) && (negb write || mp_write m)
      then Some (mp_phys m + (va - mp_va m)) else phys_of ms va n write
  end.

(** What is left of a mapping when the addresses from [lo] to [hi] are unmapped. *)
Definition cut (lo hi : Z) (m : mapping) : list mapping :=
  let e := mp_va m + mp_len m in
  (if mp_va m <? lo
   then [{| mp_va := mp_va m; mp_phys := mp_phys m; mp_len := Z.min e lo - mp_va m; mp_write := mp_write m |}]
   else []) ++
  (if hi <? e
   then let va := Z.max hi (mp_va m) in
        [{| mp_va := va; mp_phys := mp_phys m + (va - mp_va m); mp_len := e - va; mp_write := mp_write m |}]
   else []).

(** [munmap(va, len)]: an error for length 0 or an address inside a page, or when
    the system refuses; otherwise the whole pages of the range go. *)
Definition do_munmap (os : mem_os) (va len : Z) (w : mem_world) : mem_world :=
  let page := page_size os in
  if (len =? 0) || negb (va mod page =? 0) || negb (os_munmap os) then w
  else set_maps (mw_maps w ≫= cut va (va + (len + page - 1) / page * page)) w.

(** ** mem_ops.c: mapping *)

(** The result and [*result]. *)
Definition map_memory_fixed (os : mem_os) (phy_addr len : Z) (want_write : bool) (w : mem_world)
    : Z * option Z * mem_world :=
  match os_open_mem os want_write with
  | None => (-1, None, w)
  | Some fd =>
      let w := opened fd w in
      match os_mmap os len phy_addr want_write with
      | None => (-1, None, closed fd w)
      | Some va =>
          let m := {| mp_va := va; mp_phys := phy_addr; mp_len := len; mp_write := want_write |} in
          (0, Some va, closed fd (set_maps (m :: mw_maps w) w))
      end
  end.

Definition phy_addr_for_map (page start : Z) : Z := Z.land start (Z.lnot (page - 1)).
Definition length_for_map (page start len : Z) : Z :=
  let l := u64 (len + u64 (start - phy_addr_for_map page start)) in
  u64 (u64 (l + page - 1) / page * page).

Definition map_memory (os : mem_os) (wp : working_params) (want_write : bool) (w : mem_world)
    : Z * working_params * mem_world :=
  let page := page_size os in
  let pa := phy_addr_for_map page (start_phy_addr wp) in
  let ml := length_for_map page (start_phy_addr wp) (wp_length wp) in
  match map_memory_fixed os pa ml want_write w with
  | (_, Some va, w) =>
      (0, {| verbose := verbose wp; start_phy_addr := start_phy_addr wp; wp_length := wp_length wp;
             save_to_file := save_to_file wp; load_from_file := load_from_file wp; file_path := file_path wp;
             vaddr_base := va; map_length := ml; vaddr := va + s32 (start_phy_addr wp - pa) |}, w)
  | (ret, None, w) => (ret, wp, w)
  end.

(** ** mem_ops.c: files and transfers *)

(** [O_CREAT|O_WRONLY|O_APPEND|O_TRUNC]; a NULL path is an error of [open]. *)
Definition open_new_file_for_write (os : mem_os) (file : option (list Z)) (w : mem_world) : Z * mem_world :=
  match file ≫= λ f, (λ fd, (f, fd)) <$> os_open os f true with
  | None => (-1, w)
  | Some (f, fd) => (fd, opened fd (set_files (<[f := []]> (mw_files w)) w))
  end.
Definition open_file_for_read (os : mem_os) (file : option (list Z)) (w : mem_world) : Z * mem_world :=
  match file ≫= λ f, os_open os f false with
  | None => (-1, w)
  | Some fd => (fd, opened fd w)
  end.

(** One [write] of the mapped bytes at [buf], appended to the file. *)
Definition write_call (file : list Z) (buf len n : Z) (w : mem_world) : run (Z * mem_world) :=
  a ← access (phys_of (mw_maps w) buf (u64 len) false);
  let k := Z.min n len in
  let old := default [] (mw_files w !! file) in
  mret (k, set_files (<[file := old ++ phys_bytes (mw_phys w) a (Z.to_nat k)]> (mw_files w)) w).
(** One [read] of the file from its position, to the mapped bytes at [buf]. *)
Definition read_call (file : list Z) (buf len n : Z) (s : mem_world * Z) : run (Z * (mem_world * Z)) :=
  let '(w, pos) := s in
  a ← access (phys_of (mw_maps w) buf (u64 len) true);
  let rest := drop (Z.to_nat pos) (default [] (mw_files w !! file)) in
  let k := Z.min (Z.min n len) (Z.of_nat (length rest)) in
  mret (k, (set_phys (put_phys a (take (Z.to_nat k) rest) (mw_phys w)) w, pos + k)).

Definition safe_read (file : list Z) (ws : list io_res) (buf count : Z) (w : mem_world)
    : run (Z * mem_world) :=
  '(failed, len, s, _) ← transfer (read_call file) ws buf (s64 count) (w, 0);
  mret (if failed : bool then -1 else s64 (count - len), s.1).
Definition safe_write (file : list Z) (ws : list io_res) (buf count : Z) (w : mem_world)
    : run (Z * mem_world) :=
  '(failed, len, w, _) ← transfer (write_call file) ws buf (s64 count) w;
  mret (if failed : bool then -1 else s64 (count - len), w).

(** The end both functions share: the count checked, the region unmapped, the
    file closed. *)
Definition finish (os : mem_os) (wp : working_params) (fd cnt : Z) (w : mem_world) : Z * mem_world :=
  if cnt <? 0 then (-1, closed fd w)
  else if negb (u64 cnt =? wp_length wp) then (-1, closed fd w)
  else (0, closed fd (do_munmap os (vaddr_base wp) (map_length wp) w)).

Definition save_mem_region_to_file (os : mem_os) (ws : list io_res) (wp : working_params) (w : mem_world)
    : run (Z * mem_world) :=
  let '(ret, wp, w) := map_memory os wp false w in
  if negb (ret =? 0) then mret (-1, w)
  else
    let '(fd, w) := open_new_file_for_write os (file_path wp) w in
    if fd <? 0 then mret (-1, w)
    else
      '(wr_cnt, w) ← safe_write (default [] (file_path wp)) ws (vaddr wp) (wp_length wp) w;
      mret (finish os wp fd wr_cnt w).

Definition load_mem_region_from_file (os : mem_os) (ws : list io_res) (wp : working_params) (w : mem_world)
    : run (Z * mem_world) :=
  let '(ret, wp, w) := map_memory os wp true w in
  if negb (ret =? 0) then mret (-1, w)
  else
    let '(fd, w) := open_file_for_read os (file_path wp) w in
    if fd <? 0 then mret (-1, w)
    else
      '(rd_cnt, w) ← safe_read (default [] (file_path wp)) ws (vaddr wp) (wp_length wp) w;
      mret (finish os wp fd rd_cnt w).

(** ** work_paras.c *)
Definition HELP : Z := 900.
Definition VERBOSE : Z := 1001.
Definition START_PHY_ADDR : Z := 1011.
Definition LENGTH : Z := 1012.
Definition SAVE_TO_FILE : Z := 1013.
Definition LOAD_FROM_FILE : Z := 1014.
Definition FILE_PATH : Z := 1015.

Definition gt_working_params : working_params :=
  {| verbose := 0; start_phy_addr := 0; wp_length := 0; save_to_file := 0; load_from_file := 0;
     file_path := None; vaddr_base := 0; map_length := 0; vaddr := 0 |}.

Definition check_paras (wp : working_params) : Z :=
  if wp_length wp =? 0 then -1
  else if (save_to_file wp =? 0) && (load_from_file wp =? 0) then -1
  else if negb (save_to_file wp =? 0) && negb (load_from_file wp =? 0) then -1
  else match file_path wp with None => -1 | Some _ => 0 end.

Definition has_verbose_opt (argv : list (list Z)) : Z :=
  if existsb (λ a, bool_decide (a = str "--verbose")) (drop 1 argv) then 1 else 0.

Definition set_args (v a n sv ld : Z) (f : option (list Z)) (wp : working_params) : working_params :=
  {| verbose := v; start_phy_addr := a; wp_length := n; save_to_file := sv; load_from_file := ld; file_path := f;
     vaddr_base := vaddr_base wp; map_length := map_length wp; vaddr := vaddr wp |}.

(** One option [getopt_long] returned, with its argument; [None]: the usage is
    printed and the result is -1. *)
Definition do_option (opt : Z) (optarg : list Z) (wp : working_params) : option working_params :=
  let '(v, a, n, sv, ld, f) :=
    (verbose wp, start_phy_addr wp, wp_length wp, save_to_file wp, load_from_file wp, file_path wp) in
  if opt =? VERBOSE then Some (set_args 1 a n sv ld f wp)
  else if opt =? START_PHY_ADDR then Some (set_args v (strtoull 0 optarg).1.1 n sv ld f wp)
  else if opt =? LENGTH then Some (set_args v a (strtoull 0 optarg).1.1 sv ld f wp)
  else if opt =? SAVE_TO_FILE then Some (set_args v a n 1 ld f wp)
  else if opt =? LOAD_FROM_FILE then Some (set_args v a n sv 1 f wp)
  else if opt =? FILE_PATH then Some (set_args v a n sv ld (Some optarg) wp)
  else None.

Fixpoint do_options (opts : list (Z * list Z)) (wp : working_params) : option working_params :=
  match opts with
  | [] => Some wp
  | (opt, optarg) :: opts => do_option opt optarg wp ≫= do_options opts
  end.

(** [opts]: what [getopt_long] returns for [argv]. *)
Definition parse_cmdline_options (argv : list (list Z)) (opts : list (Z * list Z)) (wp : working_params)
    : Z * working_params :=
  let wp := set_args (has_verbose_opt argv) (start_phy_addr wp) (wp_length wp) (save_to_file wp)
              (load_from_file wp) (file_path wp) wp in
  match do_options opts wp with
  | None => (-1, wp)
  | Some wp => (check_paras wp, wp)
  end.

(** mem_util.c *)
Definition mem_util_main (argv : list (list Z)) (opts : list (Z * list Z)) (os : mem_os) (ws : list io_res)
    (w : mem_world) : run (Z * mem_world) :=
  let '(ret, wp) := parse_cmdline_options argv opts gt_working_params in
  if negb (ret =? 0) then mret (-1, w)
  else if negb (save_to_file wp =? 0) then save_mem_region_to_file os ws wp w
  else if negb (load_from_file wp =? 0) then load_mem_region_from_file os ws wp w
  else mret (0, w).

(** ** Lemmas *)
Lemma phy_addr_for_map_mod k a : 0 <= k → phy_addr_for_map (2 ^ k) a = a - a mod 2 ^ k.
Proof.
  intros Hk. unfold phy_addr_for_map. rewrite Z.sub_1_r, <- Z.ones_equiv, <- Z.ldiff_land, Z.ldiff_ones_r by done.
  rewrite Z.shiftl_mul_pow2, Z.shiftr_div_pow2 by done. pose proof (Z.div_mod a (2 ^ k)). lia.
Qed.

(** Rounding up to a multiple. *)
Lemma round_up p n : 0 < p → 0 <= n → n <= (n + p - 1) / p * p < n + p.
Proof.
  intros Hp Hn. pose proof (Z.div_mod (n + p - 1) p ltac:(lia)) as H.
  pose proof (Z.mod_pos_bound (n + p - 1) p Hp). nia.
Qed.

(** The regions the arithmetic of [map_memory] handles without wrapping. *)
Definition region_ok (k a n : Z) : Prop :=
  0 <= k <= 30 ∧ 0 <= a ∧ 0 < n < 9223372036854775808 ∧ a + n + 2 ^ k <= 18446744073709551616.

Section Map.
Context (k a n : Z) (Hok : region_ok k a n).

Lemma page_bound : 0 < 2 ^ k <= 1073741824.
Proof using Hok.
  destruct Hok as (Hk & _). split; [lia|]. change 1073741824 with (2 ^ 30). apply Z.pow_le_mono_r; lia.
Qed.

Lemma offset_bound : 0 <= a - phy_addr_for_map (2 ^ k) a < 2 ^ k.
Proof using Hok.
  destruct Hok as (Hk & _). rewrite phy_addr_for_map_mod by lia.
  pose proof (Z.mod_pos_bound a (2 ^ k)). pose proof page_bound. lia.
Qed.

Lemma length_for_map_spec :
  length_for_map (2 ^ k) a n = (a - phy_addr_for_map (2 ^ k) a + n + 2 ^ k - 1) / 2 ^ k * 2 ^ k.
Proof using Hok.
  pose proof page_bound. pose proof offset_bound. destruct Hok as (? & ? & ? & ?).
  assert (0 <= phy_addr_for_map (2 ^ k) a).
  { rewrite phy_addr_for_map_mod by lia. pose proof (Z.mod_le a (2 ^ k)). lia. }
  unfold length_for_map. set (o := a - _) in *. rewrite (u64_id o) by lia.
  rewrite (u64_id (n + o)) by lia. rewrite (u64_id (n + o + 2 ^ k - 1)) by lia.
  replace (n + o) with (o + n) by lia. pose proof (round_up (2 ^ k) (o + n) ltac:(lia) ltac:(lia)).
  apply u64_id. lia.
Qed.

Lemma length_for_map_bound :
  a - phy_addr_for_map (2 ^ k) a + n <= length_for_map (2 ^ k) a n < a - phy_addr_for_map (2 ^ k) a + n + 2 ^ k.
Proof using Hok.
  rewrite length_for_map_spec. pose proof page_bound. pose proof offset_bound. destruct Hok as (? & ? & ? & ?).
  apply round_up; lia.
Qed.
End Map.

(** The system grants what a call for [wp] asks for: /dev/mem opens and the pages of
    the region are mapped at [va], a page boundary where nothing was mapped; the file
    opens as [fd]. *)
Record granted (os : mem_os) (wp : working_params) (f : list Z) (write_mem : bool) (va fd : Z)
    (w : mem_world) : Prop := {
  gr_page : ∃ k, page_size os = 2 ^ k ∧ region_ok k (start_phy_addr wp) (wp_length wp);
  gr_mem : ∃ mfd, os_open_mem os write_mem = Some mfd ∧ mfd ∉ mw_fds w;
  gr_map : os_mmap os (length_for_map (page_size os) (start_phy_addr wp) (wp_length wp))
             (phy_addr_for_map (page_size os) (start_phy_addr wp)) write_mem = Some va;
  gr_path : file_path wp = Some f;
  gr_file : os_open os f (negb write_mem) = Some fd;
  gr_fd : 0 <= fd ∧ fd ∉ mw_fds w;
  gr_unmap : os_munmap os = true;
  gr_aligned : va mod page_size os = 0;
  gr_free : Forall (λ m, 0 < mp_len m ∧ (mp_va m + mp_len m <= va ∨
    va + length_for_map (page_size os) (start_phy_addr wp) (wp_length wp) <= mp_va m)) (mw_maps w);
}.

(** The parameters after [map_memory], and the mapping it makes. *)
Definition mapped (os : mem_os) (va : Z) (wp : working_params) : working_params :=
  {| verbose := verbose wp; start_phy_addr := start_phy_addr wp; wp_length := wp_length wp;
     save_to_file := save_to_file wp; load_from_file := load_from_file wp; file_path := file_path wp;
     vaddr_base := va; map_length := length_for_map (page_size os) (start_phy_addr wp) (wp_length wp);
     vaddr := va + (start_phy_addr wp - phy_addr_for_map (page_size os) (start_phy_addr wp)) |}.
Definition region_map (os : mem_os) (write_mem : bool) (va : Z) (wp : working_params) : mapping :=
  {| mp_va := va; mp_phys := phy_addr_for_map (page_size os) (start_phy_addr wp);
     mp_len := length_for_map (page_size os) (start_phy_addr wp) (wp_length wp); mp_write := write_mem |}.

Lemma close_fresh fd w : fd ∉ mw_fds w → closed fd (opened fd w) = w.
Proof.
  intros H. destruct w as [p f d m]. unfold closed, opened, set_fds. simpl in *. f_equal.
  apply leibniz_equiv. set_solver.
Qed.

Lemma map_memory_granted os wp f b va fd w :
  granted os wp f b va fd w →
  map_memory os wp b w = (0, mapped os va wp, set_maps (region_map os b va wp :: mw_maps w) w).
Proof.
  intros [(k & Hp & Hr) (mfd & Hm & Hfr) Hmap _ _ _ _ _ _]. unfold map_memory, map_memory_fixed.
  rewrite Hm, Hmap. pose proof (offset_bound _ _ _ Hr). pose proof (page_bound _ _ _ Hr).
  rewrite s32_id by (rewrite Hp; lia). f_equal.
  assert (closed mfd (opened mfd w) = w) as E by by apply close_fresh.
  destruct w as [p fl d m]. unfold closed, opened, set_fds, set_maps in *. simpl in *. injection E as E. by rewrite E.
Qed.

(** The region lies in its mapping, byte for byte. *)
Lemma phys_of_region os wp f b va fd w k n :
  granted os wp f b va fd w → 0 <= k → 0 <= n → k + n <= wp_length wp →
  phys_of (region_map os b va wp :: mw_maps w) (vaddr (mapped os va wp) + k) n b = Some (start_phy_addr wp + k).
Proof.
  intros [(j & Hp & Hr) _ _ _ _ _ _ _ _] Hk Hn Hkn. simpl. pose proof (offset_bound _ _ _ Hr) as Ho.
  pose proof (length_for_map_bound _ _ _ Hr) as Hl. rewrite Hp. 
  assert (negb b || b = true) as -> by by destruct b.
  if_true. f_equal. lia.
Qed.

(** ** Transfers of a region *)
Section Moves.
Context (os : mem_os) (wp : working_params) (f : list Z) (va fd : Z) (w : mem_world).
Let a := start_phy_addr wp.
Let n := wp_length wp.

Lemma length_region b : granted os wp f b va fd w → 0 < n < 9223372036854775808.
Proof using. intros [(k & _ & (_ & _ & Hn & _)) _ _ _ _ _ _ _ _]. exact Hn. Qed.

(** The world while the region is mapped and the file open. *)
Definition busy (b : bool) (fl : gmap (list Z) (list Z)) : mem_world :=
  opened fd (set_files fl (set_maps (region_map os b va wp :: mw_maps w) w)).

Definition saving (k : Z) (w' : mem_world) : Prop :=
  w' = busy false (<[f := phys_bytes (mw_phys w) a (Z.to_nat k)]> (mw_files w)).

Lemma saving_step k j w' :
  granted os wp f false va fd w → saving k w' → 0 <= k < n → 0 <= j →
  ∃ w'', write_call f (vaddr (mapped os va wp) + k) (n - k) j w' = Done (Z.min j (n - k), w'') ∧
    saving (k + Z.min j (n - k)) w''.
Proof using.
  intros G -> Hk Hj. pose proof (length_region _ G). unfold write_call. rewrite u64_id by lia.
  cbn [busy opened set_fds set_files set_maps mw_maps mw_files mw_phys].
  rewrite (phys_of_region _ _ _ _ _ _ _ k (n - k) G) by lia.
  eexists. split; [reflexivity|]. unfold saving, busy, set_files, opened, set_fds, set_maps. simpl.
  rewrite lookup_insert_eq, insert_insert_eq. simpl.
  rewrite Z2Nat.inj_add, phys_bytes_app, Z2Nat.id by lia. done.
Qed.

Definition loading (bs : list Z) (k : Z) (s : mem_world * Z) : Prop :=
  s = (set_phys (put_phys a (take (Z.to_nat k) bs) (mw_phys w)) (busy true (mw_files w)), k) ∧
  k <= Z.of_nat (length bs).

Lemma loading_step bs k j s :
  granted os wp f true va fd w → mw_files w !! f = Some bs → loading bs k s → 0 <= k < n → 0 <= j →
  ∃ i s', read_call f (vaddr (mapped os va wp) + k) (n - k) j s = Done (i, s') ∧
    loading bs (k + i) s' ∧ i = Z.min (Z.min j (n - k)) (Z.of_nat (length bs) - k).
Proof using.
  intros G Hf [-> Hl] Hk Hj. pose proof (length_region _ G). unfold read_call. rewrite u64_id by lia.
  cbn [busy opened set_fds set_files set_maps set_phys mw_maps mw_files mw_phys].
  rewrite (phys_of_region _ _ _ _ _ _ _ k (n - k) G), Hf by lia. simpl.
  rewrite length_drop. eexists _, _. split; [reflexivity|]. split; [|lia].
  split; [|lia]. f_equal. unfold set_phys, busy. simpl. rewrite put_phys_next by lia. done.
Qed.
End Moves.

(** Unmapping the region takes its mapping and no other. *)
Lemma cut_other lo hi m : 0 < mp_len m → lo <= hi → mp_va m + mp_len m <= lo ∨ hi <= mp_va m → cut lo hi m = [m].
Proof.
  intros Hm Hl [H|H]; unfold cut; destruct m as [v ph l wr]; cbn [mp_va mp_phys mp_len mp_write] in *.
  - if_true. if_false. simpl. do 2 f_equal. lia.
  - if_false. if_true. simpl. do 2 f_equal; lia.
Qed.

Lemma cut_all m : 0 <= mp_len m → cut (mp_va m) (mp_va m + mp_len m) m = [].
Proof. intros H. unfold cut. if_false. by if_false. Qed.

Lemma unmap_region os wp f b va fd w w' :
  granted os wp f b va fd w → mw_maps w' = region_map os b va wp :: mw_maps w →
  do_munmap os va (length_for_map (page_size os) (start_phy_addr wp) (wp_length wp)) w' = set_maps (mw_maps w) w'.
Proof.
  intros [(k & Hp & Hr) _ _ _ _ _ Hu Ha Hfree] Hw. unfold do_munmap. unfold region_map in Hw. rewrite Hp in Ha, Hfree, Hw |- *.
  pose proof (length_for_map_spec _ _ _ Hr) as Hs. pose proof (length_for_map_bound _ _ _ Hr) as Hb.
  pose proof (offset_bound _ _ _ Hr) as Ho. pose proof (page_bound _ _ _ Hr) as Hpg. pose proof Hr as (_ & _ & Hn & _).
  set (l := length_for_map _ _ _) in *. rewrite Ha, Hu, Hw.
  rewrite (proj2 (Z.eqb_neq l 0)) by lia. cbn [orb negb Z.eqb].
  assert ((l + 2 ^ k - 1) / 2 ^ k * 2 ^ k = l) as ->.
  { set (q := (start_phy_addr wp - _ + wp_length wp + 2 ^ k - 1) / 2 ^ k) in Hs. rewrite Hs.
    replace (q * 2 ^ k + 2 ^ k - 1) with (2 ^ k - 1 + q * 2 ^ k) by lia.
    rewrite Z.div_add, (Z.div_small (2 ^ k - 1)) by lia. lia. }
  f_equal. cbn [mbind list_bind].
  match goal with |- cut _ _ ?m ++ _ = _ => pose proof (cut_all m ltac:(simpl; lia)) as Hc end.
  cbn [mp_va mp_len] in Hc. rewrite Hc. cbn [app].
  clear -Hfree Hb Hn Ho. induction Hfree as [|m ms [Hm Hd] _ IH]; [done|].
  cbn [mbind list_bind]. rewrite cut_other by lia. cbn [app]. f_equal. exact IH.
Qed.

(** The end gives the mapping and the descriptor back. *)
Lemma finish_granted os wp f b va fd w fl m :
  granted os wp f b va fd w →
  finish os (mapped os va wp) fd (wp_length wp) (set_phys m (busy os wp va fd w b fl)) =
    (0, set_phys m (set_files fl w)).
Proof.
  intros G. pose proof (length_region _ _ _ _ _ _ _ G) as Hn. unfold finish.
  if_false. cbn [mapped wp_length vaddr_base map_length]. rewrite u64_id by lia. rewrite Z.eqb_refl. cbn [negb].
  rewrite (unmap_region os wp f b va fd w) by done. destruct G as [_ _ _ _ _ [Hfd Hfr] _ _ _].
  f_equal. pose proof (close_fresh fd w Hfr) as E.
  destruct w as [p fw d ms]. unfold closed, opened, set_fds, set_maps, set_phys, busy in *. simpl in *.
  injection E as E. by rewrite E.
Qed.

Lemma finish_short os wp f b va fd w fl m cnt :
  granted os wp f b va fd w → cnt < wp_length wp → - 1 <= cnt →
  ∃ w', finish os (mapped os va wp) fd cnt (set_phys m (busy os wp va fd w b fl)) = (-1, w') ∧
    mw_phys w' = m ∧ mw_files w' = fl.
Proof.
  intros G Hc H0. pose proof (length_region _ _ _ _ _ _ _ G) as Hn. unfold finish. cbn [mapped wp_length].
  split_if; [by eexists|]. rewrite u64_id by lia. if_true. by eexists.
Qed.

Section Calls.
Context (os : mem_os) (wp : working_params) (f : list Z) (va fd : Z) (ws : list io_res) (w : mem_world).
Context (Hws : Forall io_nonneg ws).

Lemma save_complete :
  granted os wp f false va fd w → completes ws (wp_length wp) = true →
  save_mem_region_to_file os ws wp w =
    Done (0, set_files (<[f := phys_bytes (mw_phys w) (start_phy_addr wp) (Z.to_nat (wp_length wp))]> (mw_files w)) w).
Proof using Hws.
  intros G Hc. pose proof (length_region _ _ _ _ _ _ _ G) as Hn. unfold save_mem_region_to_file.
  rewrite (map_memory_granted _ _ _ _ _ _ _ G). unfold open_new_file_for_write. destruct (G) as [_ _ _ Hp Hf [Hfd _] _ _ _].
  simpl. rewrite Hp. simpl. simpl in Hf. rewrite Hf. simpl. if_false. unfold safe_write. rewrite s64_id by lia.
  destruct (transfer_all (write_call f) (saving os wp f va fd w) (wp_length wp) (vaddr (mapped os va wp)))
    with (ws := ws) (k := 0) (s := busy os wp va fd w false (<[f := []]> (mw_files w))) as (s' & ws' & E & Hs).
  - intros k n s HP Hk Hj. by apply saving_step.
  - done.
  - lia.
  - done.
  - by rewrite Z.sub_0_r.
  - rewrite Z.sub_0_r, Z.add_0_r in E. cbn [mapped vaddr] in E. unfold busy in E. rewrite E. simpl.
    rewrite Z.sub_0_r, s64_id by lia. rewrite Hs. f_equal.
    exact (finish_granted _ _ _ _ _ _ _ (<[f := _]> (mw_files w)) (mw_phys w) G).
Qed.

(** A load up to the transfer. *)
Lemma load_start rs :
  granted os wp f true va fd w →
  load_mem_region_from_file os rs wp w =
    ('(rd_cnt, w') ← safe_read f rs (vaddr (mapped os va wp)) (wp_length wp) (busy os wp va fd w true (mw_files w));
     mret (finish os (mapped os va wp) fd rd_cnt w')).
Proof using.
  intros G. unfold load_mem_region_from_file. rewrite (map_memory_granted _ _ _ _ _ _ _ G).
  unfold open_file_for_read. destruct (G) as [_ _ _ Hp Hf [Hfd _] _ _ _].
  simpl. rewrite Hp. simpl. simpl in Hf. rewrite Hf. simpl. if_false. done.
Qed.

Lemma loading_start bs : loading os wp va fd w bs 0 (busy os wp va fd w true (mw_files w), 0).
Proof using. by split; [|lia]. Qed.

Lemma load_complete bs :
  granted os wp f true va fd w → mw_files w !! f = Some bs → wp_length wp <= Z.of_nat (length bs) →
  completes ws (wp_length wp) = true →
  load_mem_region_from_file os ws wp w =
    Done (0, set_phys (put_phys (start_phy_addr wp) (take (Z.to_nat (wp_length wp)) bs) (mw_phys w)) w).
Proof using Hws.
  intros G Hf Hlen Hc. pose proof (length_region _ _ _ _ _ _ _ G) as Hn. rewrite load_start by done.
  unfold safe_read. rewrite s64_id by lia.
  destruct (transfer_all (read_call f) (loading os wp va fd w bs) (wp_length wp) (vaddr (mapped os va wp)))
    with (ws := ws) (k := 0) (s := (busy os wp va fd w true (mw_files w), 0)) as (s' & ws' & E & Hs & _).
  - intros k n s HP Hk Hj. destruct (loading_step _ _ _ _ _ _ _ _ _ _ G Hf HP Hk Hj) as (i & s' & E & HP' & Hi).
    assert (i = Z.min n (wp_length wp - k)) as -> by lia. eauto.
  - apply loading_start.
  - lia.
  - done.
  - by rewrite Z.sub_0_r.
  - rewrite Z.sub_0_r, Z.add_0_r in E. rewrite E. simpl. rewrite Z.sub_0_r, s64_id by lia. rewrite Hs. simpl.
    f_equal. by rewrite (finish_granted _ _ _ _ _ _ _ _ _ G).
Qed.

Lemma load_any bs :
  granted os wp f true va fd w → mw_files w !! f = Some bs →
  ∃ ret w' k, load_mem_region_from_file os (ws ++ [IoError]) wp w = Done (ret, w') ∧
    0 <= k <= wp_length wp ∧ k <= Z.of_nat (length bs) ∧
    mw_phys w' = put_phys (start_phy_addr wp) (take (Z.to_nat k) bs) (mw_phys w) ∧ mw_files w' = mw_files w ∧
    ret = (if k =? wp_length wp then 0 else -1).
Proof using Hws.
  intros G Hf. pose proof (length_region _ _ _ _ _ _ _ G) as Hn. rewrite (load_start (ws ++ [IoError])) by done.
  unfold safe_read. rewrite s64_id by lia.
  assert (∀ k n s, loading os wp va fd w bs k s → 0 <= k < wp_length wp → 0 <= n →
    ∃ j s', read_call f (vaddr (mapped os va wp) + k) (wp_length wp - k) n s = Done (j, s') ∧
      loading os wp va fd w bs (k + j) s' ∧ 0 <= j <= Z.min n (wp_length wp - k)) as Hcall.
  { intros k n s1 HP Hk Hj. destruct (loading_step _ _ _ _ _ _ _ _ _ _ G Hf HP Hk Hj) as (i & s' & E1 & HP' & Hi).
    exists i, s'. destruct HP. split_and!; [done..|lia|lia]. }
  destruct (transfer_ends _ _ _ _ Hcall ws 0 _ (loading_start bs) ltac:(lia) Hws) as ([[[failed len] s] ws'] & E).
  assert (Forall io_nonneg (ws ++ [IoError])) as Hws' by (apply Forall_app; split; [done|by repeat constructor]).
  destruct (transfer_prefix _ _ _ _ Hcall _ 0 _ _ _ _ _ (loading_start bs) ltac:(lia) Hws' E) as ([-> Hk] & Hl & Hfail).
  rewrite Z.sub_0_r, Z.add_0_r in E. rewrite E. cbn [mbind run_bind mret run_ret fst].
  destruct (Z.eqb_spec len 0) as [->|Hne].
  - destruct failed; [by destruct (Hfail eq_refl)|]. rewrite Z.sub_0_r, s64_id by lia.
    rewrite (finish_granted _ _ _ _ _ _ _ _ _ G). eexists _, _, (wp_length wp). split; [reflexivity|].
    rewrite Z.eqb_refl. split_and!; try done; lia.
  - destruct (finish_short os wp f true va fd w (mw_files w)
      (put_phys (start_phy_addr wp) (take (Z.to_nat (wp_length wp - len)) bs) (mw_phys w))
      (if failed then -1 else s64 (wp_length wp - len)) G) as (w2 & E2 & H2 & H3).
    + destruct failed; [lia|]. rewrite s64_id; lia.
    + destruct failed; [lia|]. rewrite s64_id; lia.
    + rewrite E2. eexists _, _, (wp_length wp - len). split; [reflexivity|]. if_false. split_and!; try done; lia.
Qed.
End Calls.

(** ** Theorems *)

(** C23: saving a region and loading it back restores it.  When the system grants the
    mappings, the file and the unmapping and lets the transfers through, in however many
    parts and with however many interruptions, the save returns 0 with the file holding
    exactly the bytes of the region; a later load of that file returns 0, puts those bytes
    back and changes nothing else.  Neither call leaves a page mapped or a descriptor
    open: the length given to [munmap] is that of the whole mapping. *)
Theorem memutil_save_load_roundtrip os1 os2 wp f va1 fd1 va2 fd2 ws1 ws2 w1 w2 :
  granted os1 wp f false va1 fd1 w1 → Forall io_nonneg ws1 → completes ws1 (wp_length wp) = true →
  granted os2 wp f true va2 fd2 w2 → Forall io_nonneg ws2 → completes ws2 (wp_length wp) = true →
  let region m := phys_bytes m (start_phy_addr wp) (Z.to_nat (wp_length wp)) in
  ∃ w1', save_mem_region_to_file os1 ws1 wp w1 = Done (0, w1') ∧
    w1' = set_files (<[f := region (mw_phys w1)]> (mw_files w1)) w1 ∧
    (mw_files w2 !! f = mw_files w1' !! f →
     ∃ m, load_mem_region_from_file os2 ws2 wp w2 = Done (0, set_phys m w2) ∧
       region m = region (mw_phys w1) ∧
       ∀ x, ¬ (start_phy_addr wp <= x < start_phy_addr wp + wp_length wp) → m !! x = mw_phys w2 !! x).
Proof.
  intros G1 Hw1 Hc1 G2 Hw2 Hc2 region. pose proof (length_region _ _ _ _ _ _ _ G1) as Hn.
  eexists. split; [by eapply save_complete|]. split; [done|]. simpl. rewrite lookup_insert_eq. intros Hf.
  assert (length (region (mw_phys w1)) = Z.to_nat (wp_length wp)) as Hl by apply length_phys_bytes.
  eexists. split; [eapply load_complete; eauto; fold (region (mw_phys w1)); lia|].
  fold (region (mw_phys w1)). rewrite take_ge by lia. split.
  - unfold region at 1. rewrite <- Hl. apply phys_bytes_put.
  - intros x Hx. rewrite put_phys_lookup, Hl, decide_False by lia. done.
Qed.

(** Whatever the kernel answers during the transfer (interruptions, short reads, a
    file shorter than the region) until an error at the latest, the load returns; it
    stored exactly a first part of the file at the start of the region and touched
    nothing else, and it returns 0 when that part is the whole region and -1 when not. *)
Theorem memutil_load_outcomes os wp f va fd ws w bs :
  granted os wp f true va fd w → Forall io_nonneg ws → mw_files w !! f = Some bs →
  ∃ ret w' k, load_mem_region_from_file os (ws ++ [IoError]) wp w = Done (ret, w') ∧
    0 <= k <= wp_length wp ∧ k <= Z.of_nat (length bs) ∧
    mw_phys w' = put_phys (start_phy_addr wp) (take (Z.to_nat k) bs) (mw_phys w) ∧
    mw_files w' = mw_files w ∧ ret = (if k =? wp_length wp then 0 else -1).
Proof. intros. by eapply load_any. Qed.

(** The mapping [map_memory] asks for is the least range of whole pages around the
    region, and the address it computes is that of the region in it. *)
Theorem memutil_mapping os wp b va fd f w :
  granted os wp f b va fd w →
  let m := region_map os b va wp in let page := page_size os in
  map_memory os wp b w = (0, mapped os va wp, set_maps (m :: mw_maps w) w) ∧
  mp_phys m mod page = 0 ∧ mp_len m mod page = 0 ∧
  0 <= start_phy_addr wp - mp_phys m < page ∧
  0 <= (mp_phys m + mp_len m) - (start_phy_addr wp + wp_length wp) < page ∧
  vaddr (mapped os va wp) - va = start_phy_addr wp - mp_phys m.
Proof.
  intros G m page. split; [by eapply map_memory_granted|]. destruct (G) as [(k & Hp & Hr) _ _ _ _ _ _ _ _].
  pose proof (offset_bound _ _ _ Hr). pose proof (length_for_map_bound _ _ _ Hr). pose proof (page_bound _ _ _ Hr).
  subst m page. simpl. rewrite Hp. split_and!; try lia.
  - rewrite phy_addr_for_map_mod, Zminus_mod_idemp_r, Z.sub_diag by (destruct Hr; lia). apply Z.mod_0_l. lia.
  - rewrite (length_for_map_spec _ _ _ Hr). apply Z_mod_mult.
Qed.

(** The command line is accepted exactly when every option is known and together
    they give a length, a file and one of the two actions; the program then runs that
    action and no other. *)
Theorem memutil_dispatch argv opts os ws w :
  match do_options opts (set_args (has_verbose_opt argv) 0 0 0 0 None gt_working_params) with
  | None => mem_util_main argv opts os ws w = Done (-1, w)
  | Some wp =>
      if negb (wp_length wp =? 0) && negb (bool_decide (file_path wp = None)) &&
         negb (Bool.eqb (negb (save_to_file wp =? 0)) (negb (load_from_file wp =? 0)))
      then mem_util_main argv opts os ws w =
             (if negb (save_to_file wp =? 0) then save_mem_region_to_file os ws wp w
              else load_mem_region_from_file os ws wp w)
      else mem_util_main argv opts os ws w = Done (-1, w)
  end.
Proof.
  unfold mem_util_main, parse_cmdline_options. cbn [gt_working_params start_phy_addr wp_length save_to_file
    load_from_file file_path]. destruct (do_options _ _) as [wp|]; [|done].
  unfold check_paras. destruct (wp_length wp =? 0); [done|].
  destruct (save_to_file wp =? 0), (load_from_file wp =? 0); simpl; destruct (file_path wp); done.
Qed.

(** ** Concrete runs *)
Definition demo_params : working_params :=
  set_args 0 0x1ffe 5 1 0 (Some (str "r.bin")) gt_working_params.
Definition demo_os : mem_os :=
  {| page_size := 4096; os_open_mem := λ _, Some 3; os_mmap := λ _ _ _, Some 0x700000;
     os_open := λ _ _, Some 4; os_munmap := true |}.
Definition demo_mem : mem_world :=
  {| mw_phys := put_phys 0x1ffe [10; 20; 30; 40; 50; 60] ∅; mw_files := ∅; mw_fds := {[0; 1; 2]}; mw_maps := [] |}.
Definition demo_later : mem_world :=
  {| mw_phys := put_phys 0x2000 [7; 7; 7; 7] ∅; mw_files := {[str "r.bin" := [10; 20; 30; 40; 50]]};
     mw_fds := {[0; 1; 2]}; mw_maps := [] |}.
Definition demo_answers : list io_res := [IoIntr; IoOk 2; IoIntr; IoOk 100].

Lemma demo_granted b w : mw_fds w = {[0; 1; 2]} → mw_maps w = [] → granted demo_os demo_params (str "r.bin") b 0x700000 4 w.
Proof.
  intros Hw Hm. split; rewrite ?Hw.
  - exists 12. split; [reflexivity|]. unfold region_ok. simpl. lia.
  - exists 3. split; [reflexivity|]. set_solver by lia.
  - reflexivity.
  - reflexivity.
  - reflexivity.
  - split; [lia|]. set_solver by lia.
  - reflexivity.
  - reflexivity.
  - rewrite Hm. constructor.
Defined.
Lemma demo_answers_ok : Forall io_nonneg demo_answers.
Proof. repeat constructor; simpl; lia. Defined.

Lemma memutil_save_load_roundtrip_witness :
  ∃ w', save_mem_region_to_file demo_os demo_answers demo_params demo_mem = Done (0, w') ∧
    mw_files w' !! str "r.bin" = Some [10; 20; 30; 40; 50] ∧
    ∃ m, load_mem_region_from_file demo_os demo_answers demo_params demo_later = Done (0, set_phys m demo_later) ∧
      phys_bytes m 0x1ffe 5 = [10; 20; 30; 40; 50] ∧ m !! 0x2003 = Some 7.
Proof.
  destruct (memutil_save_load_roundtrip demo_os demo_os demo_params (str "r.bin") 0x700000 4 0x700000 4
    demo_answers demo_answers demo_mem demo_later (demo_granted false demo_mem eq_refl eq_refl) demo_answers_ok eq_refl
    (demo_granted true demo_later eq_refl eq_refl) demo_answers_ok eq_refl) as (w' & Hs & -> & Hl).
  eexists. split; [exact Hs|]. split; [vm_compute; reflexivity|].
  destruct Hl as (m & Hl & Hm & Ho); [vm_compute; reflexivity|]. exists m. split; [exact Hl|].
  split; [etransitivity; [exact Hm|vm_compute; reflexivity]|].
  etransitivity; [apply Ho; cbn; lia|vm_compute; reflexivity].
Defined.

(** A file of three bytes for a region of five. *)
Definition demo_short : mem_world :=
  {| mw_phys := ∅; mw_files := {[str "r.bin" := [1; 2; 3]]}; mw_fds := {[0; 1; 2]}; mw_maps := [] |}.

Lemma memutil_load_outcomes_witness :
  ∃ ret w' k, load_mem_region_from_file demo_os (demo_answers ++ [IoOk 9] ++ [IoError]) demo_params demo_short = Done (ret, w') ∧
    0 <= k <= 5 ∧ k <= 3 ∧ mw_phys w' = put_phys 0x1ffe (take (Z.to_nat k) [1; 2; 3]) ∅ ∧
    mw_files w' = mw_files demo_short ∧ ret = (if k =? 5 then 0 else -1).
Proof.
  apply (memutil_load_outcomes demo_os demo_params (str "r.bin") 0x700000 4 (demo_answers ++ [IoOk 9]) demo_short
    [1; 2; 3] (demo_granted true demo_short eq_refl eq_refl)).
  - repeat constructor; simpl; lia.
  - vm_compute; reflexivity.
Defined.
