(* ===== verification/MemTools.v ===== *)
(** * Memory tools: test_suite/asciidump.c, clearmem.c, dump_memory_to_file.c

    Three programs that map a range of physical memory: the first prints it as rows of
    sixteen bytes in hexadecimal and characters, the second fills it with a pattern,
    the third writes it to a file. *)

From S2P Require Import Prelude KernelApi KString Libc.

(** ** asciidump.c *)
Definition PAGE_MASK : Z := 4095.
Definition spaces (n : nat) : list Z := replicate n 32.

(** The loop that prints the bytes in hexadecimal, from number [i] on. *)
Fixpoint hex_cells (i : nat) (bs : list Z) : list Z :=
  match bs with
  | [] => []
  | b :: bs => fmt_0x 2 b ++ [32] ++ (if (i =? 7)%nat then [32] else []) ++ hex_cells (S i) bs
  end.

(** [m] is the memory [buf] points into; [base] may be NULL. *)
Definition print_hex_ascii_line (base : option Z) (m : list Z) (buf len offset : Z) : run (list Z) :=
  bs ← access (load_bytes m buf (Z.max len 0));
  let head := match base with
    | Some b => let x := u64 (b + offset) in
                str "0x" ++ fmt_x (u32 (Z.shiftr x 32)) ++ str "_" ++ fmt_0x 8 (u32 x) ++ [32]
    | None => []
    end in
  let off := str "0x" ++ fmt_0x 8 (u32 offset) ++ spaces 2 in
  let short := if len <? 8 then [32] else [] in
  let gap := if len <? 16 then spaces (3 * Z.to_nat (16 - len)) else [] in
  let ascii := (λ c, if isprint c then c else 46) <$> bs in
  mret (head ++ off ++ hex_cells 0 bs ++ short ++ gap ++ spaces 3 ++ ascii ++ [10]).

(** The loop of [print_buf]; the fuel is one per line. *)
Fixpoint print_lines (fuel : nat) (base : option Z) (m : list Z) (ch len_rem offset : Z) : run (list Z) :=
  match fuel with
  | O => Block
  | S fuel =>
      let line_width := 16 in
      let line_len := Z.rem line_width len_rem in
      l ← print_hex_ascii_line base m ch line_len offset;
      let len_rem := len_rem - line_len in
      let ch := ch + line_len in
      let offset := offset + line_width in
      if len_rem <=? line_width then
        l' ← print_hex_ascii_line base m ch len_rem offset; mret (l ++ l')
      else
        l' ← print_lines fuel base m ch len_rem offset; mret (l ++ l')
  end.

Definition print_buf (base : option Z) (m : list Z) (buf len : Z) : run (list Z) :=
  if len <=? 0 then mret []
  else if len <=? 16 then print_hex_ascii_line base m buf len 0
  else print_lines (Z.to_nat len) base m buf len 0.

(** [open_ok], [mmap_ok]: what the system answers for /dev/mem and for the mapping
    (length, offset).  [inl]: the program exits with that value. *)
Definition show (open_ok : bool) (mmap_ok : Z → Z → bool) (phys : gmap Z Z) (paddr size : Z) : run (Z + list Z) :=
  let _addr := Z.land paddr (Z.lnot PAGE_MASK) in
  let _offset := Z.land paddr PAGE_MASK in
  if negb open_ok then mret (inl (-1))
  else
    let n := u64 (size + _offset) in
    if negb (mmap_ok n _addr) then mret (inl (-1))
    else
      text ← print_buf (Some paddr) (phys_bytes phys _addr (Z.to_nat n)) _offset (s32 size);
      mret (inr text).

(** The arguments after the program's name. *)
Definition asciidump_main (args : list (list Z)) (open_ok : bool) (mmap_ok : Z → Z → bool) (phys : gmap Z Z)
    : run (Z * list Z) :=
  match args with
  | a :: n :: _ =>
      r ← show open_ok mmap_ok phys (strtoull 16 a).1.1 (strtoull 10 n).1.1;
      mret (match r with inl e => (e, []) | inr text => (0, text) end)
  | _ => mret (-1, [])
  end.

(** ** clearmem.c *)

(** The arguments after the program's name.  [map_ok start size]: the system maps the
    range.  A mapping that failed is not noticed: the fill writes to MAP_FAILED.  The
    result: exit status, whether the program printed "done", the memory. *)
Definition clearmem_main (args : list (list Z)) (open_ok : bool) (map_ok : Z → Z → bool) (phys : gmap Z Z)
    : run (Z * bool * gmap Z Z) :=
  match args with
  | a :: n :: rest =>
      let start := u64 (strtoll 0 a) in
      let size := u64 (strtoll 0 n) in
      let pattern := match rest with [] => 0x0a | p :: _ => u8 (strtol 0 p) end in
      if negb open_ok then mret (1, false, phys)
      else if negb (map_ok start size) then Undef
      else
        let phys := put_phys start (replicate (Z.to_nat size) pattern) phys in
        let done := bool_decide (phys_bytes phys start 8 = replicate 8 pattern) in
        mret (0, done, phys)
  | _ => mret (0, false, phys)
  end.

(** ** dump_memory_to_file.c *)

(** [inl]: the program exits with EXIT_FAILURE.  The second test of the source, an
    [errno] with the value 0, is not true of [strtoull], which sets [errno] only with
    ULLONG_MAX here. *)
Definition readNumFromStr (s : list Z) (base : Z) : unit + Z :=
  let '(v, used, erange) := strtoull base s in
  if erange && (v =? ULLONG_MAX) then inl ()
  else if (used =? 0)%nat then inl () else inr v.

(** What [write] answers: it takes at most so many bytes, EAGAIN, another error. *)
Inductive dump_res := DumpOk (n : Z) | DumpAgain | DumpError.

(** The loop around [write]: the bytes that were written. *)
Fixpoint dump_loop (ws : list dump_res) (bs : list Z) : run (option (list Z)) :=
  match ws with
  | [] => Block
  | DumpAgain :: ws => dump_loop ws bs
  | DumpError :: _ => mret None
  | DumpOk n :: _ => mret (Some (take (Z.to_nat n) bs))
  end.

(** The arguments after the program's name; whether the output file, /dev/mem and the
    mapping are granted.  The result: exit status and the content of the output file,
    when it was created. *)
Definition dump_main (args : list (list Z)) (creat_ok open_ok : bool) (map_ok : Z → Z → bool) (ws : list dump_res)
    (phys : gmap Z Z) : run (Z * option (list Z)) :=
  match args with
  | [a; n; _] =>
      match readNumFromStr a 0 with
      | inl _ => mret (1, None)
      | inr fromPhyMem =>
          match readNumFromStr n 0 with
          | inl _ => mret (1, None)
          | inr size =>
              if s64 size <? 0 then mret (1, None)
              else if negb creat_ok then mret (1, None)
              else if negb open_ok then mret (1, Some [])
              else if negb (map_ok fromPhyMem size) then mret (1, Some [])
              else
                r ← dump_loop ws (phys_bytes phys fromPhyMem (Z.to_nat size));
                mret (match r with None => (1, Some []) | Some out => (0, Some out) end)
          end
      end
  | _ => mret (1, None)
  end.

(** ** Reading a dump back *)

(** The lines of a text. *)
Fixpoint lines_of (cur : list Z) (l : list Z) : list (list Z) :=
  match l with
  | [] => []
  | c :: l => if c =? 10 then cur :: lines_of [] l else lines_of (cur ++ [c]) l
  end.

Definition hex_val (c : Z) : Z := default 0 (digit_value c).

(** The cells of two digits and a space, with a space more after the eighth, up to
    the first blank cell. *)
Fixpoint read_cells (i : nat) (l : list Z) : list Z :=
  match l with
  | a :: b :: _ :: l' =>
      if a =? 32 then []
      else (hex_val a * 16 + hex_val b) ::
           (if (i =? 7)%nat then match l' with _ :: l'' => read_cells (S i) l'' | [] => [] end else read_cells (S i) l')
  | _ => []
  end.

(** Address, offset and bytes of a line. *)
Definition read_line (l : list Z) : Z * Z * list Z :=
  let '(hi, n) := digits 16 0 0 (drop 2 l) in
  let l := drop (2 + n + 1) l in
  let lo := (digits 16 0 0 (take 8 l)).1 in
  let off := (digits 16 0 0 (take 8 (drop 11 l))).1 in
  (hi * 4294967296 + lo, off, read_cells 0 (drop 21 l)).

Definition read_dump (text : list Z) : list (Z * Z * list Z) := read_line <$> lines_of [] text.

(** The rows of sixteen bytes of [bs] from address [base + off] on. *)
Fixpoint rows (fuel : nat) (base off : Z) (bs : list Z) : list (Z * Z * list Z) :=
  match fuel with
  | O => []
  | S fuel => match bs with
              | [] => []
              | _ => (u64 (base + off), off, take 16 bs) :: rows fuel base (off + 16) (drop 16 bs)
              end
  end.

(** ** Lemmas *)
Definition is_byte (b : Z) : Prop := 0 <= b < 256.

Lemma byte_cases (P : Z → Prop) (p : Z → bool) :
  (∀ b, p b = true → P b) → forallb p (seqZ 0 256) = true → ∀ b, is_byte b → P b.
Proof.
  intros Hp H b Hb. apply Hp. rewrite forallb_forall in H. apply H, list_elem_of_In, elem_of_seqZ. unfold is_byte in Hb. lia.
Qed.

(** A cell is two digits that read back as the byte. *)
Lemma hex_cell b : is_byte b →
  ∃ x y, fmt_0x 2 b = [x; y] ∧ x ≠ 32 ∧ x ≠ 10 ∧ y ≠ 10 ∧ hex_val x * 16 + hex_val y = b.
Proof.
  revert b. apply (byte_cases _ (λ b, match fmt_0x 2 b with
    | [x; y] => negb (x =? 32) && negb (x =? 10) && negb (y =? 10) && (hex_val x * 16 + hex_val y =? b)
    | _ => false end)); [|vm_compute; reflexivity].
  intros b. destruct (fmt_0x 2 b) as [|x [|y [|? ?]]]; try done. intros H. bool_to_prop. eauto 10.
Qed.

Lemma read_hex_cells i bs t :
  Forall is_byte bs → read_cells i (hex_cells i bs ++ 32 :: 32 :: 32 :: t) = bs.
Proof.
  intros H. revert i. induction H as [|b bs Hb _ IH]; intros i; [done|]. cbn [hex_cells].
  destruct (hex_cell b Hb) as (x & y & -> & Hx & _ & _ & Hv). cbn [app]. simpl. apply Z.eqb_neq in Hx. rewrite Hx, Hv.
  f_equal. destruct (i =? 7)%nat; simpl; apply IH.
Qed.

Lemma lines_of_line cur body rest :
  Forall (λ c, c ≠ 10) body → lines_of cur (body ++ 10 :: rest) = (cur ++ body) :: lines_of [] rest.
Proof.
  intros H. revert cur. induction H as [|c body Hc _ IH]; intros cur; simpl; [by rewrite app_nil_r|].
  apply Z.eqb_neq in Hc. rewrite Hc, IH. by rewrite <- app_assoc.
Qed.

Lemma udigits_no_newline f b n : 2 <= b <= 16 → 0 <= n → Forall (λ c, c ≠ 10) (udigits f b n).
Proof.
  intros Hb. revert n. induction f as [|f IH]; intros n Hn; simpl; [done|].
  assert (∀ d, 0 <= d → digit d ≠ 10) as Hd by (intros d ?; unfold digit; split_if; lia).
  split_if; [by repeat constructor; apply Hd|]. apply Forall_app. split; [apply IH, Z.div_pos; lia|].
  repeat constructor. apply Hd, Z.mod_pos_bound. lia.
Qed.

Lemma replicate_no_newline k c : c ≠ 10 → Forall (λ c, c ≠ 10) (replicate k c).
Proof. intros. by apply Forall_replicate. Qed.

Lemma hex_cells_no_newline i bs : Forall is_byte bs → Forall (λ c, c ≠ 10) (hex_cells i bs).
Proof.
  intros H. revert i. induction H as [|b bs Hb _ IH]; intros i; simpl; [done|].
  destruct (hex_cell b Hb) as (x & y & -> & _ & Hx & Hy & _). cbn [app].
  repeat constructor; [done..|]. destruct (i =? 7)%nat; simpl; [constructor; [done|]|]; apply IH.
Qed.

Lemma length_fmt_0x8 n : 0 <= n < 4294967296 → length (fmt_0x 8 n) = 8%nat.
Proof. intros. apply length_zero_pad, length_udigits; simpl; lia. Qed.

Lemma read_fmt_0x8 n rest : 0 <= n < 4294967296 → (digits 16 0 0 (take 8 (fmt_0x 8 n ++ rest))).1 = n.
Proof.
  intros Hn. rewrite take_app_length' by by rewrite length_fmt_0x8.
  rewrite <- (app_nil_r (fmt_0x 8 n)). unfold fmt_0x. rewrite digits_padded; simpl; lia || done.
Qed.

(** The line without its newline, for the bytes [bs]. *)
Definition line_body (base : Z) (bs : list Z) (offset : Z) : list Z :=
  str "0x" ++ fmt_x (u32 (Z.shiftr (u64 (base + offset)) 32)) ++ str "_" ++ fmt_0x 8 (u32 (u64 (base + offset))) ++
  [32] ++ str "0x" ++ fmt_0x 8 (u32 offset) ++ spaces 2 ++ hex_cells 0 bs ++
  spaces (if (length bs <? 8)%nat then 1 else 0) ++ spaces (3 * (16 - length bs)) ++ spaces 3 ++
  ((λ c, if isprint c then c else 46) <$> bs).

Lemma print_line_body base m buf bs offset :
  load_bytes m buf (Z.of_nat (length bs)) = Some bs → (length bs <= 16)%nat →
  print_hex_ascii_line (Some base) m buf (Z.of_nat (length bs)) offset = Done (line_body base bs offset ++ [10]).
Proof.
  intros Hl Hn. unfold print_hex_ascii_line. rewrite Z.max_l by lia. rewrite Hl. cbn [access mbind run_bind mret run_ret]. unfold line_body. f_equal.
  rewrite <- !app_assoc. do 8 f_equal.
  assert ((if Z.of_nat (length bs) <? 8 then [32] else []) = spaces (if (length bs <? 8)%nat then 1 else 0)) as ->.
  { destruct (Z.ltb_spec (Z.of_nat (length bs)) 8), (Nat.ltb_spec (length bs) 8); done || lia. }
  do 3 f_equal. destruct (Z.ltb_spec (Z.of_nat (length bs)) 16); [f_equal; lia|].
  by replace (16 - length bs)%nat with 0%nat by lia.
Qed.

Lemma line_body_no_newline base bs offset :
  Forall is_byte bs → Forall (λ c, c ≠ 10) (line_body base bs offset).
Proof.
  intros Hb. unfold line_body. pose proof u32_range as Hu.
  repeat (apply Forall_app; split); try (by apply replicate_no_newline); try (repeat constructor; done).
  1-3: apply udigits_no_newline; [lia|apply Hu].
  - by apply hex_cells_no_newline.
  - apply Forall_fmap. eapply Forall_impl; [done|]. intros c _. unfold isprint. simpl. split_if; [lia|done].
Qed.

Lemma split_u64 x : 0 <= x < 18446744073709551616 → u32 (Z.shiftr x 32) * 4294967296 + u32 x = x.
Proof.
  intros Hx. rewrite Z.shiftr_div_pow2 by lia. change (2 ^ 32) with 4294967296.
  rewrite (u32_id (x / _)) by (split; [apply Z.div_pos; lia|apply Z.div_lt_upper_bound; lia]).
  unfold u32, uwrap. change (2 ^ 32) with 4294967296. pose proof (Z.div_mod x 4294967296). lia.
Qed.

Lemma read_line_body base bs offset :
  Forall is_byte bs → (length bs <= 16)%nat → 0 <= offset < 2147483648 →
  read_line (line_body base bs offset) = (u64 (base + offset), offset, bs).
Proof.
  intros Hb Hn Ho. unfold read_line, line_body. pose proof (u64_range (base + offset)) as Hx.
  set (x := u64 (base + offset)) in *. set (hi := u32 (Z.shiftr x 32)).
  assert (0 <= hi < 4294967296) as Hhi by apply u32_range.
  change (str "0x") with [48; 120]. change (str "_") with [95]. cbn [app drop].
  change (fmt_x hi) with (zero_pad 0 (udigits 64 16 hi)).
  rewrite drop_0, digits_padded; [|lia|change (2 ^ Z.of_nat 64) with 18446744073709551616; lia|done].
  set (h := zero_pad 0 (udigits 64 16 hi)). cbn zeta.
  match goal with |- context [drop _ (48 :: 120 :: h ++ 95 :: ?r)] => set (tl := r) end.
  assert (drop (2 + length h + 1) (48 :: 120 :: h ++ 95 :: tl) = tl) as ->.
  { replace (2 + length h + 1)%nat with (S (S (length h + 1))) by lia. cbn [drop]. by rewrite drop_app_add'. }
  subst tl. rewrite read_fmt_0x8 by apply u32_range. unfold hi; rewrite split_u64 by done.
  set (lo := fmt_0x 8 (u32 x)). assert (length lo = 8%nat) as Hlo by (apply length_fmt_0x8, u32_range).
  rewrite (u32_id offset) by lia.
  set (o8 := fmt_0x 8 offset). assert (length o8 = 8%nat) as Ho8 by (apply length_fmt_0x8; lia).
  assert (∀ t, drop 11 (lo ++ 32 :: 48 :: 120 :: o8 ++ t) = o8 ++ t) as Hd by
    (intros t; rewrite (drop_app_ge lo), Hlo by lia; done).
  rewrite Hd. unfold o8 at 1. rewrite read_fmt_0x8 by lia. f_equal.
  replace 21%nat with (11 + 10)%nat by lia. rewrite <- drop_drop, Hd, drop_app_ge by lia.
  rewrite Ho8. cbn [spaces replicate app drop Nat.sub].
  set (gap := (3 * (16 - length bs))%nat).
  destruct (length bs <? 8)%nat; cbn [spaces replicate app]; [destruct gap as [|[|gap]]; cbn [replicate app]; by apply read_hex_cells|].
  destruct gap as [|[|[|gap]]]; cbn [replicate app]; by apply read_hex_cells.
Qed.

Lemma read_dump_line base bs offset rest :
  Forall is_byte bs → (length bs <= 16)%nat → 0 <= offset < 2147483648 →
  read_dump ((line_body base bs offset ++ [10]) ++ rest) = (u64 (base + offset), offset, bs) :: read_dump rest.
Proof.
  intros Hb Hn Ho. unfold read_dump. rewrite <- app_assoc. cbn [app].
  rewrite lines_of_line by by apply line_body_no_newline. cbn [fmap list_fmap app]. f_equal. by apply read_line_body.
Qed.

Lemma print_last base m ch bs off g :
  load_bytes m ch (Z.of_nat (length bs)) = Some bs → Forall is_byte bs → (0 < length bs <= 16)%nat →
  0 <= off < 2147483648 → (0 < g)%nat →
  ∃ text, print_hex_ascii_line (Some base) m ch (Z.of_nat (length bs)) off = Done text ∧
    read_dump text = rows g base off bs.
Proof.
  intros Hl Hb Hn Ho Hg. rewrite (print_line_body _ _ _ _ _ Hl) by lia. eexists. split; [done|].
  rewrite <- (app_nil_r (_ ++ [10])), read_dump_line by (done || lia). destruct g as [|g]; [lia|].
  destruct bs as [|b bs]; [simpl in Hn; lia|]. cbn [rows]. rewrite take_ge, drop_ge by lia. by destruct g.
Qed.

Lemma print_lines_read fuel g base m ch bs off :
  load_bytes m ch (Z.of_nat (length bs)) = Some bs → Forall is_byte bs → (16 < length bs)%nat →
  0 <= off → off + Z.of_nat (length bs) < 2147483648 → (length bs <= fuel)%nat → (length bs <= g)%nat →
  ∃ text, print_lines fuel (Some base) m ch (Z.of_nat (length bs)) off = Done text ∧ read_dump text = rows g base off bs.
Proof.
  revert g ch bs off. induction fuel as [|fuel IH]; intros g ch bs off Hl Hb Hn Ho Hlt Hf Hg; [lia|].
  cbn [print_lines]. rewrite Z.rem_small by lia.
  pose proof (load_bytes_sub _ _ _ _ 0 16 Hl ltac:(lia) ltac:(lia) ltac:(lia)) as H1.
  pose proof (load_bytes_sub _ _ _ _ 16 (Z.of_nat (length bs) - 16) Hl ltac:(lia) ltac:(lia) ltac:(lia)) as H2.
  rewrite Z.add_0_r, (load_bytes_in bs 0), drop_0 in H1 by lia. rewrite (load_bytes_in bs 16) in H2 by lia.
  set (row := take 16 bs) in *. set (rest := drop 16 bs).
  assert (length row = 16%nat) as Hrow by (subst row; rewrite length_take; lia).
  assert (Z.of_nat (length rest) = Z.of_nat (length bs) - 16) as Hrest by (subst rest; rewrite length_drop; lia).
  change (take (Z.to_nat 16) bs) with row in H1. change (drop (Z.to_nat 16) bs) with rest in H2.
  rewrite take_ge in H2 by lia. rewrite <- Hrest in *. change 16 with (Z.of_nat 16) in H1 at 1. rewrite <- Hrow in H1.
  assert (Forall is_byte row ∧ Forall is_byte rest) as [Hbr Hbt] by (split; [by apply Forall_take|by apply Forall_drop]).
  pose proof (print_line_body base m ch row off H1 ltac:(lia)) as E1. rewrite Hrow in E1. change (Z.of_nat 16) with 16 in E1.
  rewrite E1. cbn [mbind run_bind]. destruct g as [|g]; [lia|]. 
  assert (rows (S g) base off bs = (u64 (base + off), off, row) :: rows g base (off + 16) rest) as Hrows.
  { subst row rest. destruct bs; [simpl in Hn; lia|]. done. }
  rewrite Hrows. destruct (Z.leb_spec (Z.of_nat (length rest)) 16).
  - destruct (print_last base m (ch + 16) rest (off + 16) g) as (text & -> & Hr); [done|done|lia..|].
    eexists. split; [done|]. rewrite read_dump_line by (done || lia). by rewrite Hr.
  - destruct (IH g (ch + 16) rest (off + 16)) as (text & -> & Hr); [done|done|lia..|].
    eexists. split; [done|]. rewrite read_dump_line by (done || lia). by rewrite Hr.
Qed.

Lemma print_buf_read base m buf bs :
  load_bytes m buf (Z.of_nat (length bs)) = Some bs → Forall is_byte bs → Z.of_nat (length bs) < 2147483648 →
  ∃ text, print_buf (Some base) m buf (Z.of_nat (length bs)) = Done text ∧ read_dump text = rows (length bs) base 0 bs.
Proof.
  intros Hl Hb Hn. unfold print_buf. split_if.
  { destruct bs; [|simpl in *; lia]. by eexists. }
  split_if; [apply print_last; done || lia|]. rewrite Nat2Z.id. apply print_lines_read; done || lia.
Qed.

(** ** Theorems *)

(** C25: the dump shows the memory.  For a range of at most 2^31-1 bytes that the system
    lets the program map, the program ends, stays in the mapping it made (whole pages
    from the page of the address on), and its output read back line by line is the
    range in rows of sixteen bytes, each with its address and its offset.  A size from
    2^31 to 2^32-1, which the length of the printing function cannot hold, prints
    nothing; nothing is said of larger sizes. *)
Theorem asciidump_shows_memory mmap_ok phys paddr size :
  0 <= paddr < 18446744073709551616 → 0 <= size < 4294967296 →
  (∀ a, is_byte (default 0 (phys !! a))) → (∀ n a, mmap_ok n a = true) →
  ∃ text, show true mmap_ok phys paddr size = Done (inr text) ∧
    if size <? 2147483648
    then read_dump text = rows (Z.to_nat size) paddr 0 (phys_bytes phys paddr (Z.to_nat size))
    else text = [].
Proof.
  intros Hp Hs Hby Hm. unfold show. rewrite Hm.
  assert (Z.land paddr PAGE_MASK = paddr mod 4096) as Ho by apply (Z.land_ones paddr 12 ltac:(lia)).
  assert (Z.land paddr (Z.lnot PAGE_MASK) = paddr - paddr mod 4096) as Ha.
  { rewrite <- Z.ldiff_land. change PAGE_MASK with (Z.ones 12). rewrite Z.ldiff_ones_r by lia.
    rewrite Z.shiftl_mul_pow2, Z.shiftr_div_pow2 by lia. change (2 ^ 12) with 4096. pose proof (Z.div_mod paddr 4096). lia. }
  pose proof (Z.mod_pos_bound paddr 4096). rewrite Ho, Ha, u64_id by lia. cbn [negb].
  destruct (Z.ltb_spec size 2147483648).
  - rewrite s32_id by lia. set (o := paddr mod 4096) in *. set (bs := phys_bytes phys paddr (Z.to_nat size)).
    assert (Z.of_nat (length bs) = size) as Hlen by (subst bs; rewrite length_phys_bytes; lia).
    destruct (print_buf_read paddr (phys_bytes phys (paddr - o) (Z.to_nat (size + o))) o bs) as (text & E & Hr).
    + apply load_bytes_Some. rewrite Hlen, length_phys_bytes. split_and!; [lia..|].
      rewrite phys_bytes_sub by lia. subst bs. f_equal. lia.
    + apply Forall_fmap, Forall_forall. intros i _. apply Hby.
    + lia.
    + rewrite Hlen in E. rewrite E. exists text. split; [done|]. rewrite Hr. f_equal. lia.
  - unfold print_buf. assert (s32 size <= 0) as Hneg.
    { unfold s32, swrap. rewrite uwrap_id by (simpl; lia). if_false. change (2 ^ 32) with 4294967296. lia. }
    if_true. by exists [].
Qed.

(** The fill: the range holds the pattern and nothing else changed; "done" is printed
    for ranges of at least eight bytes, and for shorter ones only when the bytes behind
    the range happen to hold the pattern too, since the check compares eight. *)
Theorem clearmem_fills a n p map_ok phys :
  let start := u64 (strtoll 0 a) in let size := u64 (strtoll 0 n) in let pat := u8 (strtol 0 p) in
  map_ok start size = true →
  ∃ printed m, clearmem_main [a; n; p] true map_ok phys = Done (0, printed, m) ∧
    phys_bytes m start (Z.to_nat size) = replicate (Z.to_nat size) pat ∧
    (∀ x, ¬ (start <= x < start + size) → m !! x = phys !! x) ∧
    (8 <= size → printed = true) ∧
    (size < 8 → printed = true ↔
       phys_bytes phys (start + size) (Z.to_nat (8 - size)) = replicate (Z.to_nat (8 - size)) pat).
Proof.
  intros start size pat Hm. unfold clearmem_main. fold start size pat. rewrite Hm. cbn [negb].
  assert (0 <= size) as Hs by apply u64_range.
  set (m := put_phys start (replicate (Z.to_nat size) pat) phys). eexists _, m. split; [reflexivity|].
  assert (phys_bytes m start (Z.to_nat size) = replicate (Z.to_nat size) pat) as Hfill.
  { subst m. rewrite <- (length_replicate (Z.to_nat size) pat) at 2. apply phys_bytes_put. }
  assert (∀ x, ¬ (start <= x < start + size) → m !! x = phys !! x) as Hout.
  { intros x Hx. subst m. rewrite put_phys_lookup, length_replicate, decide_False by lia. done. }
  split_and!; [done..| |].
  - intros H8. apply bool_decide_eq_true. replace (Z.to_nat size) with (8 + (Z.to_nat size - 8))%nat in Hfill by lia.
    rewrite phys_bytes_app, replicate_add in Hfill. by apply app_inj_1 in Hfill as [-> _];
      rewrite ?length_phys_bytes, ?length_replicate.
  - intros H8. rewrite bool_decide_eq_true. replace 8%nat with (Z.to_nat size + Z.to_nat (8 - size))%nat by lia.
    rewrite phys_bytes_app, replicate_add, Hfill, Z2Nat.id by lia.
    assert (phys_bytes m (start + size) (Z.to_nat (8 - size)) = phys_bytes phys (start + size) (Z.to_nat (8 - size))) as ->.
    { apply list_fmap_ext. intros i j _. by rewrite Hout by lia. }
    split; [by intros ?%(inj (app _))|by intros ->].
Qed.

(** A dump that succeeds wrote what the first accepted write took: the exit status is 0
    also when that is only a first part of the range. *)
Theorem dump_accepts_short_write a n f fromPhyMem size k pre phys map_ok :
  readNumFromStr a 0 = inr fromPhyMem → readNumFromStr n 0 = inr size → 0 <= size < 9223372036854775808 →
  map_ok fromPhyMem size = true → 0 <= k → Forall (λ r, r = DumpAgain) pre → ∀ ws,
  dump_main [a; n; f] true true map_ok (pre ++ DumpOk k :: ws) phys =
    Done (0, Some (phys_bytes phys fromPhyMem (Z.to_nat (Z.min k size)))).
Proof.
  intros Ha Hn Hs Hm Hk Hp ws. unfold dump_main. rewrite Ha, Hn, s64_id by lia. if_false. rewrite Hm. cbn [negb].
  assert (dump_loop (pre ++ DumpOk k :: ws) (phys_bytes phys fromPhyMem (Z.to_nat size)) =
          Done (Some (phys_bytes phys fromPhyMem (Z.to_nat (Z.min k size))))) as ->; [|done].
  induction Hp as [|r pre -> _ IH]; [|exact IH]. simpl. do 2 f_equal.
  rewrite <- (drop_0 (phys_bytes phys fromPhyMem (Z.to_nat size))).
  destruct (Z.le_gt_cases k size) as [Hle|Hgt].
  - rewrite Z.min_l by done. rewrite phys_bytes_sub by lia. by rewrite Z.add_0_r.
  - rewrite Z.min_r by lia. rewrite drop_0, take_ge by (rewrite length_phys_bytes; lia). done.
Qed.

(** ** Concrete runs *)
Definition demo_memory : gmap Z Z := put_phys 0x1ff8 [72; 101; 108; 108; 111; 33; 10; 0; 255; 1; 2; 3; 4; 5; 6; 7; 8; 9; 65] ∅.

Lemma demo_memory_bytes a : is_byte (default 0 (demo_memory !! a)).
Proof.
  unfold demo_memory, is_byte. rewrite put_phys_lookup. destruct (decide _) as [H|]; [|rewrite lookup_empty; simpl; lia].
  simpl in H. assert (Z.to_nat (a - 8184) < 19)%nat as Hn by lia. revert Hn. generalize (Z.to_nat (a - 8184)). intros k Hk.
  do 19 (destruct k as [|k]; [simpl; lia|]). lia.
Defined.

Lemma asciidump_shows_memory_witness :
  ∃ text, show true (λ _ _, true) demo_memory 0x1ff8 19 = Done (inr text) ∧
    read_dump text = [(0x1ff8, 0, [72; 101; 108; 108; 111; 33; 10; 0; 255; 1; 2; 3; 4; 5; 6; 7]);
                      (0x2008, 16, [8; 9; 65])].
Proof.
  destruct (asciidump_shows_memory (λ _ _, true) demo_memory 0x1ff8 19 ltac:(lia) ltac:(lia) demo_memory_bytes
    (λ _ _, eq_refl)) as (text & H & Hr).
  exists text. split; [exact H|]. etransitivity; [exact Hr|vm_compute; reflexivity].
Defined.
