(* ===== verification/Smemcap.v ===== *)
(** * smemcap: test_suite/smemcap.c

    A program that captures files of /proc as a tar archive on standard output.  A file
    is read into a list of blocks first, since the header needs its size. *)

From S2P Require Import Prelude KString Libc.

(** The fields of [struct stat] the program uses. *)
Record stat := { st_mode : Z; st_uid : Z; st_gid : Z; st_mtime : Z }.

(** Whether plain [char] is signed: it is on x86 and not on ARM. *)
Section Program.
Context (char_signed : bool).
(** What the kernel answers: to the [i]-th write, of 512 bytes; to [open] of a path:
    what [fstat] and the calls of [read] then give ([None] is -1); what the
    uninitialised [struct stat] holds in the call for a path, and in [main] ([[]]). *)
Context (write_answer : nat → io_res).
Context (open_file : list Z → option (stat * list (option (list Z)))).
Context (junk : list Z → stat).

(** Calls of [write] so far, and what was written. *)
Definition output : Type := nat * list Z.
Definition write512 (bs : list Z) (o : output) : Z * output :=
  let '(i, out) := o in
  match write_answer i with
  | IoOk n => (Z.min n 512, (S i, out ++ take (Z.to_nat n) bs))
  | _ => (-1, (S i, out))
  end.

Definition char_value (c : Z) : Z := if char_signed then s8 c else c.
Definition header_sum (h : list Z) : Z := foldr Z.add 0 (char_value <$> h).

(** [sprintf(header + off, ...)]: the text and its NUL. *)
Definition sprintf_at (h : list Z) (off : Z) (text : list Z) : run (list Z) :=
  access (store_bytes h off (text ++ [0])).

Definition make_header (path : list Z) (mode uid gid size mtime type : Z) : run (list Z) :=
  h ← sprintf_at (zeros 512) 0 path;
  h ← sprintf_at h 100 (fmt_0o 7 (Z.land mode 511));
  h ← sprintf_at h 108 (fmt_0o 7 (u32 uid));
  h ← sprintf_at h 116 (fmt_0o 7 (u32 gid));
  h ← sprintf_at h 124 (fmt_0o 11 (u32 size));
  h ← sprintf_at h 136 (fmt_0o 7 (u32 mtime));
  h ← sprintf_at h 148 (replicate 8 32 ++ fmt_d type);
  sprintf_at h 148 (fmt_0o 6 (u32 (header_sum h))).

Definition writeheader (path : list Z) (mode uid gid size mtime type : Z) (o : output) : run (Z * output) :=
  h ← make_header path mode uid gid size mtime type;
  mret (write512 h o).

(** The loop that reads the file: its blocks, zero-filled, and its size.  The loop
    ends at the first read of other than 512 bytes. *)
Fixpoint read_blocks (rs : list (option (list Z))) (size : Z) (blocks : list (list Z))
    : run (list (list Z) * Z) :=
  match rs with
  | [] => Block
  | r :: rs =>
      let data := default [] r in
      b ← access (store_bytes (zeros 512) 0 data);
      let n := match r with Some d => Z.of_nat (length d) | None => -1 end in
      size ← (if 0 <? n then add_int size n else mret size);
      if n =? 512 then read_blocks rs size (blocks ++ [b]) else mret (blocks ++ [b], size)
  end.

(** The loop that writes the blocks; past the last one is a NULL dereference. *)
Fixpoint dump_blocks (blocks : list (list Z)) (size : Z) (o : output) : run output :=
  if size <=? 0 then mret o
  else match blocks with
  | [] => Undef
  | b :: blocks =>
      let '(r, o) := write512 b o in
      if negb (r =? -1) then dump_blocks blocks (size - 512) o else mret o
  end.

(** When [open] fails, [fstat] leaves the structure as it was and [read] gives -1. *)
Definition archivefile (path : list Z) (o : output) : run output :=
  let '(s, reads) := default (junk path, [None]) (open_file path) in
  '(blocks, size) ← read_blocks reads 0 [];
  '(_, o) ← writeheader path (st_mode s) (st_uid s) (st_gid s) size (st_mtime s) 0 o;
  dump_blocks blocks size o.

Definition PATH_MAX : Z := 4096.
Definition archivejoin (sub name : list Z) (o : output) : run output :=
  let path := sub ++ str "/" ++ name in
  if PATH_MAX <=? Z.of_nat (length path) then Undef else archivefile path o.

(** One entry of /proc: a process has a name that starts with a digit. *)
Definition is_process (d_name : list Z) : bool :=
  match d_name with c :: _ => (48 <=? c) && (c <=? 57) | [] => false end.
(** [stat(de->d_name, &s)]: a failed call leaves [s] as the entry before left it. *)
Definition entry_stat (e : list Z * option stat) (s : stat) : stat :=
  if is_process e.1 then default s e.2 else s.
Definition archive_entry (e : list Z * option stat) (s : stat) (o : output) : run output :=
  let d_name := e.1 in
  if is_process d_name then
    let s := entry_stat e s in
    '(_, o) ← writeheader d_name 365 (st_uid s) (st_gid s) 0 (st_mtime s) 5 o;
    o ← archivejoin d_name (str "smaps") o;
    o ← archivejoin d_name (str "cmdline") o;
    archivejoin d_name (str "stat") o
  else mret o.

Fixpoint archive_entries (es : list (list Z * option stat)) (s : stat) (o : output) : run output :=
  match es with
  | [] => mret o
  | e :: es => o ← archive_entry e s o; archive_entries es (entry_stat e s) o
  end.

(** [rv]: the result of [chdir]; [es]: the entries of the directory, each with what [stat]
    answers.  [calloc] and [opendir] are taken to succeed. *)
Definition smemcap_main (rv : Z) (es : list (list Z * option stat)) : run (Z * list Z) :=
  if negb (rv =? 0) then mret (rv, [])
  else
    o ← archivefile (str "meminfo") (0%nat, []);
    o ← archivefile (str "version") o;
    '(_, out) ← archive_entries es (junk []) o;
    mret (rv, out).
End Program.

(** ** The tar format *)

(** A member of an archive. *)
Record member := { tm_path : list Z; tm_mode : Z; tm_uid : Z; tm_gid : Z; tm_mtime : Z; tm_type : Z; tm_data : list Z }.

(** A reader of the format: octal fields, the checksum taken with blanks in its own
    field, contents in blocks of 512.  A bad checksum ends the archive. *)
Definition octal (l : list Z) : Z := (digits 8 0 0 l).1.
Definition field (h : list Z) (off n : nat) : list Z := take n (drop off h).
Definition zsum (l : list Z) : Z := foldr Z.add 0 l.
Definition checksum_ok (h : list Z) : bool :=
  octal (field h 148 8) =? zsum (take 148 h) + 8 * 32 + zsum (drop 156 h).
Definition blocks_of (size : Z) : nat := Z.to_nat ((size + 511) / 512 * 512).

Fixpoint untar (fuel : nat) (bs : list Z) : list member :=
  match fuel with
  | O => []
  | S fuel =>
      let h := take 512 bs in
      let rest := drop 512 bs in
      if (length h =? 512)%nat && checksum_ok h then
        let size := octal (field h 124 12) in
        {| tm_path := cstr (field h 0 100); tm_mode := octal (field h 100 8); tm_uid := octal (field h 108 8);
           tm_gid := octal (field h 116 8); tm_mtime := octal (field h 136 12);
           tm_type := default 0 (h !! 156%nat) - 48; tm_data := take (Z.to_nat size) rest |}
        :: untar fuel (drop (blocks_of size) rest)
      else []
  end.

(** ** Lemmas *)

(** A store behind what was written so far, [g] bytes further on. *)
Lemma sprintf_next pre n g k off text :
  off = Z.of_nat (length pre + g) → n = (g + length text + 1 + k)%nat →
  sprintf_at (pre ++ zeros n) off text = Done ((pre ++ zeros g ++ text ++ [0]) ++ zeros k).
Proof.
  intros -> ->. unfold sprintf_at. rewrite store_bytes_in; rewrite ?length_app, ?length_zeros; simpl; [|lia..].
  f_equal. unfold splice. rewrite Nat2Z.id, take_app_ge, drop_app_ge by (rewrite ?length_app; simpl; lia).
  unfold zeros. rewrite take_replicate, drop_replicate, length_app. simpl.
  rewrite <- !app_assoc. cbn [app]. do 2 f_equal; [f_equal; lia|]. f_equal. f_equal. f_equal. lia.
Qed.

Lemma length_fmt_0o w n : 0 <= n < 8 ^ Z.of_nat w → (0 < w)%nat → length (fmt_0o w n) = w.
Proof. intros. apply length_zero_pad, length_udigits; lia. Qed.

(** The 512 bytes of a header: the fields up to the checksum, the checksum, the rest. *)
Definition head148 (path : list Z) (mode uid gid size mtime : Z) : list Z :=
  (path ++ [0]) ++ zeros (99 - length path) ++ (fmt_0o 7 mode ++ [0]) ++ (fmt_0o 7 uid ++ [0]) ++
  (fmt_0o 7 gid ++ [0]) ++ (fmt_0o 11 size ++ [0]) ++ (fmt_0o 7 mtime ++ [0]) ++ zeros (11 - length (fmt_0o 7 mtime)).
Definition header_form (path : list Z) (mode uid gid size mtime type : Z) (chk : list Z) : list Z :=
  head148 path mode uid gid size mtime ++ chk ++ [48 + type] ++ zeros 355.

(** The values the fields hold. *)
Record fields_ok (path : list Z) (uid gid size mtime type : Z) : Prop := {
  fo_path : Forall (λ c, 0 < c < 128) path;
  fo_len : (length path < 100)%nat;
  fo_uid : 0 <= uid < 8 ^ 7;
  fo_gid : 0 <= gid < 8 ^ 7;
  fo_size : 0 <= size < 2147483648;
  fo_mtime : 0 <= mtime < 2147483648;
  fo_type : 0 <= type < 8;
}.

Section Header.
Context (path : list Z) (mode uid gid size mtime type : Z) (F : fields_ok path uid gid size mtime type).
Context (Hmode : 0 <= mode < 512).

Lemma lengths :
  length (fmt_0o 7 mode) = 7%nat ∧ length (fmt_0o 7 uid) = 7%nat ∧ length (fmt_0o 7 gid) = 7%nat ∧
  length (fmt_0o 11 size) = 11%nat ∧ (7 <= length (fmt_0o 7 mtime) <= 11)%nat.
Proof using F Hmode.
  destruct F as [_ _ Hu Hg Hs Hm _]. split_and!; try (apply length_fmt_0o; simpl; lia).
  - unfold fmt_0o, zero_pad. rewrite length_app, length_replicate. lia.
  - unfold fmt_0o, zero_pad. rewrite length_app, length_replicate.
    pose proof (length_udigits 8 64 mtime 11 ltac:(lia) ltac:(simpl; lia) ltac:(lia)). lia.
Qed.

Lemma length_head148 : length (head148 path mode uid gid size mtime) = 148%nat.
Proof using F Hmode.
  destruct lengths as (? & ? & ? & ? & ?). destruct F as [_ Hl _ _ _ _ _]. unfold head148.
  rewrite !length_app, !length_zeros. simpl. lia.
Qed.

Lemma header_chars :
  Forall (λ c, 0 <= c < 128) (header_form path mode uid gid size mtime type (replicate 8 32)).
Proof using F Hmode.
  destruct F as [Hp _ Hu Hg Hs Hm Ht].
  assert (∀ f n, 0 <= n → Forall (λ c, 0 <= c < 128) (udigits f 8 n)) as Hd.
  { intros f. induction f as [|f IH]; intros n Hn; simpl; [done|].
    assert (∀ d, 0 <= d < 8 → 0 <= digit d < 128) as Hd by (intros d ?; unfold digit; split_if; lia).
    split_if; [by repeat constructor; apply Hd|]. apply Forall_app. split; [apply IH, Z.div_pos; lia|].
    repeat constructor; apply Hd, Z.mod_pos_bound; lia. }
  assert (∀ k c, 0 <= c < 128 → Forall (λ c, 0 <= c < 128) (replicate k c)) as Hr by (intros; by apply Forall_replicate).
  unfold header_form, head148, fmt_0o, zero_pad, zeros.
  rewrite !Forall_app. split_and!; try (apply Hr; lia); try (apply Hd; lia); try (by repeat constructor).
  - eapply Forall_impl; [exact Hp|]. simpl. intros. lia.
  - repeat constructor; lia.
Qed.

Definition header_chk : Z := zsum (header_form path mode uid gid size mtime type (replicate 8 32)).

Lemma header_sum_chk b : header_sum b (header_form path mode uid gid size mtime type (replicate 8 32)) = header_chk.
Proof using F Hmode.
  unfold header_sum, header_chk, zsum. f_equal. rewrite <- (list_fmap_id (header_form _ _ _ _ _ _ _ _)) at 2.
  apply Forall_fmap_ext. eapply Forall_impl; [exact header_chars|]. intros c Hc. simpl in Hc. unfold char_value.
  destruct b; [|done]. apply swrap_id; simpl; lia.
Qed.

Lemma header_chk_bound : 0 <= header_chk < 65536.
Proof using F Hmode.
  pose proof header_chars as H. unfold header_chk.
  assert (length (header_form path mode uid gid size mtime type (replicate 8 32)) = 512%nat) as Hl.
  { unfold header_form. rewrite !length_app, length_head148 by done. done. }
  assert (∀ l, Forall (λ c, 0 <= c < 128) l → 0 <= zsum l <= 127 * Z.of_nat (length l)) as Hz.
  { induction 1; simpl; lia. }
  apply Hz in H. lia.
Qed.

Lemma fmt_d_type : fmt_d type = [48 + type].
Proof using F.
  destruct F as [_ _ _ _ _ _ Ht].
  assert (type = 0 ∨ type = 1 ∨ type = 2 ∨ type = 3 ∨ type = 4 ∨ type = 5 ∨ type = 6 ∨ type = 7) as Hc by lia.
  repeat destruct Hc as [-> | Hc]; [reflexivity..|]. by subst.
Qed.

Lemma store_middle pre old post l off :
  off = Z.of_nat (length pre) → length l = length old → store_bytes (pre ++ old ++ post) off l = Some (pre ++ l ++ post).
Proof using.
  intros -> Hl. rewrite store_bytes_in; rewrite ?length_app; [|lia..]. f_equal.
  unfold splice. rewrite Nat2Z.id, take_app_length, Hl. by rewrite drop_app_add', drop_app_length.
Qed.

Lemma make_header_form b m :
  Z.land m 511 = mode →
  make_header b path m uid gid size mtime type =
    Done (header_form path mode uid gid size mtime type (fmt_0o 6 header_chk ++ [0; 32])).
Proof using F Hmode.
  intros Em. destruct lengths as (L1 & L2 & L3 & L4 & L5). destruct (F) as [_ Hl Hu Hg Hs Hm _].
  assert (8 ^ 7 = 2097152) as E7 by done. unfold make_header. rewrite Em, !u32_id by lia.
  change (zeros 512) with ([] ++ zeros 512).
  rewrite (sprintf_next _ _ (0) (511 - length path)) by (rewrite ?length_app, ?length_zeros, ?length_replicate; cbn [length]; lia). cbn [mbind run_bind].
  rewrite (sprintf_next _ _ (99 - length path) (404)) by (rewrite ?length_app, ?length_zeros, ?length_replicate; cbn [length]; lia). cbn [mbind run_bind].
  rewrite (sprintf_next _ _ (0) (396)) by (rewrite ?length_app, ?length_zeros, ?length_replicate; cbn [length]; lia). cbn [mbind run_bind].
  rewrite (sprintf_next _ _ (0) (388)) by (rewrite ?length_app, ?length_zeros, ?length_replicate; cbn [length]; lia). cbn [mbind run_bind].
  rewrite (sprintf_next _ _ (0) (376)) by (rewrite ?length_app, ?length_zeros, ?length_replicate; cbn [length]; lia). cbn [mbind run_bind].
  rewrite (sprintf_next _ _ (0) (375 - length (fmt_0o 7 mtime))) by (rewrite ?length_app, ?length_zeros, ?length_replicate; cbn [length]; lia). cbn [mbind run_bind].
  rewrite fmt_d_type.
  rewrite (sprintf_next _ _ (11 - length (fmt_0o 7 mtime)) (354)) by (rewrite ?length_app, ?length_zeros, ?length_replicate; cbn [length]; lia). cbn [mbind run_bind].
  match goal with |- (let _ := ?h in _) = _ => idtac | |- sprintf_at ?h _ _ = _ =>
    assert (h = header_form path mode uid gid size mtime type (replicate 8 32)) as -> end.
  { unfold header_form, head148. rewrite <- !app_assoc. change (zeros 0) with (@nil Z).
    change (zeros 355) with ([0] ++ zeros 354). cbn [app].
    done. }
  rewrite header_sum_chk, u32_id by (pose proof header_chk_bound; lia). unfold sprintf_at, header_form.
  change (replicate 8 32) with (replicate 7 32 ++ [32]). rewrite <- (app_assoc _ [32]).
  rewrite store_middle; [by rewrite <- !app_assoc| |].
  - by rewrite length_head148.
  - rewrite length_app, length_fmt_0o; [done|simpl|lia]. pose proof header_chk_bound. simpl. lia.
Qed.
End Header.

(** ** Reading a header back *)
Lemma field_at h pre l post off n :
  h = pre ++ l ++ post → length pre = off → length l = n → field h off n = l.
Proof. intros -> <- <-. unfold field. by rewrite drop_app_length, take_app_length. Qed.

Lemma octal_fmt w n rest : 0 <= n < 18446744073709551616 → octal (fmt_0o w n ++ 0 :: rest) = n.
Proof. intros Hn. unfold octal, fmt_0o. rewrite digits_padded; [done|lia|exact Hn|done]. Qed.

Lemma zsum_app l k : zsum (l ++ k) = zsum l + zsum k.
Proof. unfold zsum. induction l as [|x l IH]; simpl; lia. Qed.

Section Read.
Context (path : list Z) (mode uid gid size mtime type : Z) (F : fields_ok path uid gid size mtime type).
Context (Hmode : 0 <= mode < 512).
Let h := header_form path mode uid gid size mtime type
           (fmt_0o 6 (header_chk path mode uid gid size mtime type) ++ [0; 32]).
Let chk := header_chk path mode uid gid size mtime type.

Lemma length_head : length (head148 path mode uid gid size mtime) = 148%nat.
Proof using F Hmode. exact (length_head148 _ _ _ _ _ _ _ F Hmode). Qed.

Lemma length_chk_field : length (fmt_0o 6 chk ++ [0; 32]) = 8%nat.
Proof using F Hmode.
  pose proof (header_chk_bound _ _ _ _ _ _ _ F Hmode). rewrite length_app, length_fmt_0o; simpl; lia.
Qed.

Lemma length_h : length h = 512%nat.
Proof using F Hmode.
  unfold h, header_form. rewrite length_app, length_head. fold chk. rewrite length_app, length_chk_field. done.
Qed.

Lemma checksum_h : checksum_ok h = true.
Proof using F Hmode.
  pose proof (header_chk_bound _ _ _ _ _ _ _ F Hmode) as Hc. unfold checksum_ok. apply Z.eqb_eq.
  rewrite (field_at h (head148 path mode uid gid size mtime) (fmt_0o 6 chk ++ [0; 32]) ([48 + type] ++ zeros 355));
    [|done|apply length_head|apply length_chk_field].
  rewrite octal_fmt by (unfold chk; lia).
  assert (take 148 h = head148 path mode uid gid size mtime) as ->.
  { unfold h, header_form. by rewrite take_app_length' by by rewrite length_head. }
  assert (drop 156 h = [48 + type] ++ zeros 355) as ->.
  { replace 156%nat with (148 + 8)%nat by done. rewrite <- drop_drop. unfold h, header_form.
    rewrite drop_app_length' by by rewrite length_head. fold chk; by rewrite (drop_app_length' (_ ++ _)) by by rewrite length_chk_field. }
  unfold chk, header_chk, header_form. rewrite !zsum_app. simpl. lia.
Qed.

Lemma fields_h :
  cstr (field h 0 100) = path ∧ octal (field h 100 8) = mode ∧ octal (field h 108 8) = uid ∧
  octal (field h 116 8) = gid ∧ octal (field h 124 12) = size ∧ octal (field h 136 12) = mtime ∧
  default 0 (h !! 156%nat) - 48 = type.
Proof using F Hmode.
  destruct (lengths _ _ _ _ _ _ _ F Hmode) as (L1 & L2 & L3 & L4 & L5).
  destruct (F) as [Hp Hl Hu Hg Hs Hm Ht]. assert (8 ^ 7 = 2097152) as E7 by done.
  set (p100 := path ++ 0 :: zeros (99 - length path)).
  assert (length p100 = 100%nat) as Lp by (subst p100; rewrite length_app; cbn [length]; rewrite length_zeros; lia).
  set (f1 := fmt_0o 7 mode) in *. set (f2 := fmt_0o 7 uid) in *. set (f3 := fmt_0o 7 gid) in *.
  set (f4 := fmt_0o 11 size) in *. set (f5 := fmt_0o 7 mtime) in *. set (z5 := zeros (11 - length f5)).
  set (tl := (fmt_0o 6 chk ++ [0; 32]) ++ [48 + type] ++ zeros 355).
  assert (h = p100 ++ (f1 ++ [0]) ++ (f2 ++ [0]) ++ (f3 ++ [0]) ++ (f4 ++ [0]) ++ (f5 ++ 0 :: z5) ++ tl) as Eh.
  { unfold h, header_form, head148, p100, tl. fold f1 f2 f3 f4 f5 z5 chk. repeat (rewrite <- app_assoc; cbn [app]). done. }
  split_and!.
  - rewrite (field_at h [] p100 _ 0 100 Eh) by done. apply cstr_app_nul. eapply Forall_impl; [exact Hp|]. simpl. lia.
  - rewrite (field_at h p100 (f1 ++ [0]) _ _ _ Eh) by (rewrite ?length_app; cbn [length]; lia). apply octal_fmt. lia.
  - rewrite (field_at h (p100 ++ (f1 ++ [0])) (f2 ++ [0]) ((f3 ++ [0]) ++ (f4 ++ [0]) ++ (f5 ++ 0 :: z5) ++ tl));
      [apply octal_fmt; lia|by rewrite <- !app_assoc in *|rewrite !length_app; cbn [length]; lia..].
  - rewrite (field_at h (p100 ++ (f1 ++ [0]) ++ (f2 ++ [0])) (f3 ++ [0]) ((f4 ++ [0]) ++ (f5 ++ 0 :: z5) ++ tl));
      [apply octal_fmt; lia|by rewrite <- !app_assoc in *|rewrite !length_app; cbn [length]; lia..].
  - rewrite (field_at h (p100 ++ (f1 ++ [0]) ++ (f2 ++ [0]) ++ (f3 ++ [0])) (f4 ++ [0]) ((f5 ++ 0 :: z5) ++ tl));
      [apply octal_fmt; lia|by rewrite <- !app_assoc in *|rewrite !length_app; cbn [length]; lia..].
  - rewrite (field_at h (p100 ++ (f1 ++ [0]) ++ (f2 ++ [0]) ++ (f3 ++ [0]) ++ (f4 ++ [0])) (f5 ++ 0 :: z5) tl);
      [apply octal_fmt; lia|by rewrite <- !app_assoc in *| |]; rewrite !length_app; cbn [length]; unfold z5;
      rewrite ?length_zeros; lia.
  - unfold h, header_form. rewrite lookup_app_r by (rewrite length_head; lia). rewrite length_head.
    fold chk. rewrite lookup_app_r by (rewrite length_chk_field; lia). rewrite length_chk_field. simpl. lia.
Qed.
End Read.

(** ** Contents *)

(** What the calls of [read] give: at most 512 bytes each, or an error, up to the
    first that does not give 512; and the bytes that the program takes for the
    contents, all that was read until then. *)
Fixpoint well_read (rs : list (option (list Z))) : Prop :=
  match rs with
  | [] => False
  | None :: _ => True
  | Some d :: rs => (length d <= 512)%nat ∧ if (length d =? 512)%nat then well_read rs else True
  end.
Fixpoint read_data (rs : list (option (list Z))) : list Z :=
  match rs with
  | Some d :: rs => d ++ if (length d =? 512)%nat then read_data rs else []
  | _ => []
  end.
(** The blocks the program keeps, and the bytes of the archive. *)
Fixpoint file_blocks (fuel : nat) (data : list Z) : list (list Z) :=
  match fuel with
  | O => []
  | S fuel => if (length data <? 512)%nat then [data ++ zeros (512 - length data)]
              else take 512 data :: file_blocks fuel (drop 512 data)
  end.
Definition body (data : list Z) : list Z :=
  data ++ zeros (blocks_of (Z.of_nat (length data)) - length data).

Lemma store_block d : (length d <= 512)%nat → store_bytes (zeros 512) 0 d = Some (d ++ zeros (512 - length d)).
Proof.
  intros Hd. rewrite store_bytes_in by (rewrite ?length_zeros; lia). f_equal. unfold splice.
  change (Z.to_nat 0) with 0%nat. cbn [take app Nat.add]. unfold zeros. by rewrite drop_replicate.
Qed.

Lemma read_script rs fuel size acc :
  well_read rs → (length (read_data rs) < fuel)%nat → 0 <= size →
  size + Z.of_nat (length (read_data rs)) < 2147483648 →
  read_blocks rs size acc =
    Done (acc ++ file_blocks fuel (read_data rs), size + Z.of_nat (length (read_data rs))).
Proof.
  revert fuel size acc. induction rs as [|r rs IH]; intros fuel size acc Hw Hf Hs Hb; [done|].
  destruct fuel as [|fuel]; [lia|]. destruct r as [d|]; cbn [read_blocks read_data well_read] in *.
  2: { change (default [] None) with (@nil Z). rewrite store_block by (simpl; lia). cbn. by rewrite Z.add_0_r. }
  destruct Hw as [Hd Hw]. change (default [] (Some d)) with d. rewrite store_block by lia. cbn [access mbind run_bind].
  assert ((if 0 <? Z.of_nat (length d) then add_int size (Z.of_nat (length d)) else mret size) =
    Done (size + Z.of_nat (length d))) as Hadd.
  { rewrite length_app in Hb. destruct (Z.ltb_spec 0 (Z.of_nat (length d))); [apply add_int_done; lia|].
    replace (Z.of_nat (length d)) with 0 by lia. by rewrite Z.add_0_r. }
  rewrite Hadd. cbn [mbind run_bind]. clear Hadd. cbn [file_blocks].
  destruct (Nat.eqb_spec (length d) 512) as [E|E].
  - rewrite length_app in *. if_true. rewrite (IH fuel) by (done || lia).
    rewrite (proj2 (Nat.ltb_ge _ _)) by lia. rewrite take_app_length', drop_app_length' by done.
    rewrite E, Nat.sub_diag. change (zeros 0) with (@nil Z). rewrite app_nil_r, <- app_assoc. do 2 f_equal. lia.
  - rewrite app_nil_r in *. if_false. by rewrite (proj2 (Nat.ltb_lt _ _)) by lia.
Qed.

Lemma blocks_of_step n : 0 <= n → blocks_of (512 + n) = (512 + blocks_of n)%nat.
Proof.
  intros. unfold blocks_of. replace (512 + n + 511) with (n + 511 + 1 * 512) by lia. rewrite Z.div_add by lia.
  assert (0 <= (n + 511) / 512) by (apply Z.div_pos; lia). lia.
Qed.

Lemma blocks_of_le n : 0 <= n → (Z.to_nat n <= blocks_of n)%nat.
Proof.
  intros. unfold blocks_of. pose proof (Z.div_mod (n + 511) 512). pose proof (Z.mod_pos_bound (n + 511) 512). lia.
Qed.

(** Every write takes its 512 bytes. *)
Section Granted.
Context (ans : nat → io_res) (Hans : ∀ i, ans i = IoOk 512).

(** The part of the program appends [bs] to the output. *)
Definition emits (f : output → run output) (bs : list Z) : Prop := ∀ i out, ∃ j, f (i, out) = Done (j, out ++ bs).

Lemma emits_bind f g b1 b2 : emits f b1 → emits g b2 → emits (λ o, f o ≫= g) (b1 ++ b2).
Proof using.
  intros Hf Hg i out. destruct (Hf i out) as (j & ->). simpl. destruct (Hg j (out ++ b1)) as (k & ->).
  exists k. by rewrite app_assoc.
Qed.

Lemma write512_ok b i out : length b = 512%nat → write512 ans b (i, out) = (512, (S i, out ++ b)).
Proof using Hans. intros Hb. unfold write512. rewrite Hans, take_ge by (change (Z.to_nat 512) with 512%nat; lia). done. Qed.

Lemma dump_file fuel data :
  (length data < fuel)%nat → emits (dump_blocks ans (file_blocks fuel data) (Z.of_nat (length data))) (body data).
Proof using Hans.
  revert data. induction fuel as [|fuel IH]; intros data Hf i out; [lia|]. cbn [file_blocks].
  destruct (Nat.ltb_spec (length data) 512).
  - cbn [dump_blocks]. destruct (Z.leb_spec (Z.of_nat (length data)) 0).
    { destruct data; [|simpl in *; lia]. exists i. by rewrite app_nil_r. }
    rewrite write512_ok by (rewrite length_app, length_zeros; lia). cbn [negb Z.eqb].
    assert (blocks_of (Z.of_nat (length data)) = 512%nat) as Hb.
    { unfold blocks_of. replace ((Z.of_nat (length data) + 511) / 512) with 1; [done|].
      apply (Z.div_unique _ _ _ (Z.of_nat (length data) - 1)); lia. }
    unfold body. rewrite Hb. exists (S i). if_true. done.
  - assert (length (take 512 data) = 512%nat) as Ht by (rewrite length_take; lia).
    assert (length (drop 512 data) = length data - 512)%nat as Hd by apply length_drop.
    cbn [dump_blocks]. if_false. rewrite write512_ok by done. if_true.
    replace (Z.of_nat (length data) - 512) with (Z.of_nat (length (drop 512 data))) by lia.
    destruct (IH (drop 512 data) ltac:(lia) (S i) (out ++ take 512 data)) as (j & ->). exists j. f_equal. f_equal.
    unfold body. rewrite <- app_assoc, (app_assoc (take 512 data)), take_drop. do 3 f_equal.
    replace (Z.of_nat (length data)) with (512 + Z.of_nat (length (drop 512 data))) by lia.
    rewrite blocks_of_step by lia. lia.
Qed.

(** The bytes of one member, and that the reader finds it there. *)
Definition member_ok (m : member) : Prop :=
  fields_ok (tm_path m) (tm_uid m) (tm_gid m) (Z.of_nat (length (tm_data m))) (tm_mtime m) (tm_type m) ∧
  0 <= tm_mode m < 512.
Definition member_bytes (m : member) : list Z :=
  let n := Z.of_nat (length (tm_data m)) in
  header_form (tm_path m) (tm_mode m) (tm_uid m) (tm_gid m) n (tm_mtime m) (tm_type m)
    (fmt_0o 6 (header_chk (tm_path m) (tm_mode m) (tm_uid m) (tm_gid m) n (tm_mtime m) (tm_type m)) ++ [0; 32]) ++
  body (tm_data m).

Lemma untar_member m fuel rest :
  member_ok m → untar (S fuel) (member_bytes m ++ rest) = m :: untar fuel rest.
Proof using.
  intros [F Hm]. destruct m as [path mode uid gid mtime type data]. cbn [tm_path tm_mode tm_uid tm_gid tm_mtime tm_type tm_data] in *.
  unfold member_bytes. cbn [tm_path tm_mode tm_uid tm_gid tm_mtime tm_type tm_data]. 
  set (n := Z.of_nat (length data)) in *.
  pose proof (length_h _ _ _ _ _ _ _ F Hm) as Hl. pose proof (checksum_h _ _ _ _ _ _ _ F Hm) as Hc.
  destruct (fields_h _ _ _ _ _ _ _ F Hm) as (F1 & F2 & F3 & F4 & F5 & F6 & F7).
  set (h := header_form path mode uid gid n mtime type _) in *.
  cbn [untar]. rewrite <- app_assoc. rewrite (take_app_length' h), (drop_app_length' h) by done.
  rewrite Hc, Hl, F1, F2, F3, F4, F5, F6, F7. cbn [Nat.eqb andb]. cbv iota.
  pose proof (blocks_of_le n ltac:(lia)) as Hb. unfold n in Hb at 1. rewrite Nat2Z.id in Hb.
  assert (length (body data) = blocks_of n) as Hbody.
  { unfold body. rewrite length_app, length_zeros. fold n. lia. }
  rewrite drop_app_length' by done. unfold body. rewrite <- app_assoc, take_app_length' by (unfold n; lia). done.
Qed.

Lemma untar_members ms fuel rest :
  Forall member_ok ms → (length ms <= fuel)%nat →
  untar fuel (concat (member_bytes <$> ms) ++ rest) = ms ++ untar (fuel - length ms) rest.
Proof using.
  intros H. revert fuel. induction H as [|m ms Hm _ IH]; intros fuel Hf; simpl in *; [by rewrite Nat.sub_0_r|].
  destruct fuel as [|fuel]; [lia|]. rewrite <- app_assoc, untar_member by done. f_equal. apply IH. lia.
Qed.

(** What /proc answers for a path; a path that does not open leaves the structure as it
    was and is an error of the first read. *)
Context (char_signed : bool) (junk : list Z → stat)
  (open_file : list Z → option (stat * list (option (list Z)))).
Hypothesis Hreads : ∀ path s reads, open_file path = Some (s, reads) → well_read reads.

Definition file_member (path : list Z) : member :=
  let '(s, reads) := default (junk path, [None]) (open_file path) in
  {| tm_path := path; tm_mode := Z.land (st_mode s) 511; tm_uid := st_uid s; tm_gid := st_gid s;
     tm_mtime := st_mtime s; tm_type := 0; tm_data := read_data reads |}.
Definition dir_member (name : list Z) (s : stat) : member :=
  {| tm_path := name; tm_mode := 365; tm_uid := st_uid s; tm_gid := st_gid s; tm_mtime := st_mtime s;
     tm_type := 5; tm_data := [] |}.

(** The members for an entry of /proc: a process gives its directory and three files. *)
Definition entry_members (e : list Z * option stat) (s : stat) : list member :=
  let name := e.1 in
  if is_process name
  then [dir_member name (entry_stat e s); file_member (name ++ str "/" ++ str "smaps");
        file_member (name ++ str "/" ++ str "cmdline"); file_member (name ++ str "/" ++ str "stat")]
  else [].
Fixpoint entries_members (es : list (list Z * option stat)) (s : stat) : list member :=
  match es with [] => [] | e :: es => entry_members e s ++ entries_members es (entry_stat e s) end.
Definition proc_members (es : list (list Z * option stat)) : list member :=
  [file_member (str "meminfo"); file_member (str "version")] ++ entries_members es (junk []).

Lemma writeheader_emits m mode :
  member_ok m → Z.land mode 511 = tm_mode m →
  let n := Z.of_nat (length (tm_data m)) in
  emits (λ o, '(_, o) ← writeheader char_signed ans (tm_path m) mode (tm_uid m) (tm_gid m) n (tm_mtime m) (tm_type m) o; mret o)
    (take 512 (member_bytes m)).
Proof using Hans.
  intros [F Hm] Em n i out. unfold writeheader. fold n in F. rewrite (make_header_form _ _ _ _ _ _ _ F Hm _ _ Em). cbn [mbind run_bind].
  pose proof (length_h _ _ _ _ _ _ _ F Hm) as Hl. unfold member_bytes. fold n. rewrite take_app_length' by done.
  rewrite write512_ok by done. by exists (S i).
Qed.

Lemma archivefile_emits path :
  member_ok (file_member path) → emits (archivefile char_signed ans open_file junk path) (member_bytes (file_member path)).
Proof using Hans Hreads.
  intros M i out. unfold archivefile, file_member in *.
  assert (well_read (default (junk path, [None]) (open_file path)).2) as Hwr.
  { destruct (open_file path) as [[s reads]|] eqn:E; [|done]. by apply Hreads in E. }
  destruct (default (junk path, [None]) (open_file path)) as [s reads]. cbn [snd] in Hwr.
  pose proof (writeheader_emits _ (st_mode s) M) as Hw.
  cbv beta iota. destruct (M) as [F Hm]. cbn [tm_path tm_mode tm_uid tm_gid tm_mtime tm_type tm_data] in F, Hm, Hw.
  rewrite (read_script reads (S (length (read_data reads)))) by (done || destruct F; lia).
  cbn [mbind run_bind app]. rewrite Z.add_0_l.
  destruct (Hw eq_refl i out) as (j & E). apply bind_Done in E as ([r o] & E & Eo). rewrite E. cbn [mbind run_bind].
  injection Eo as ->. match goal with |- context [member_bytes ?m] => set (mem := m) in * end.
  destruct (dump_file (S (length (read_data reads))) (read_data reads) ltac:(lia) j (out ++ take 512 (member_bytes mem)))
    as (k & ->).
  exists k. f_equal. f_equal. rewrite <- app_assoc. f_equal. unfold member_bytes. subst mem.
  cbn [tm_path tm_mode tm_uid tm_gid tm_mtime tm_type tm_data].
  by rewrite take_app_length' by (symmetry; by apply length_h).
Qed.

Lemma archivejoin_emits sub name :
  let path := sub ++ str "/" ++ name in
  member_ok (file_member path) → emits (archivejoin char_signed ans open_file junk sub name) (member_bytes (file_member path)).
Proof using Hans Hreads.
  intros path M i out. unfold archivejoin. fold path.
  assert (Z.of_nat (length path) < 100) as Hl.
  { destruct M as [[_ Hl _ _ _ _ _] _]. unfold file_member in Hl. destruct (default _ _). simpl in Hl. lia. }
  unfold PATH_MAX. if_false. by apply archivefile_emits.
Qed.

Lemma archive_entry_emits e s :
  Forall member_ok (entry_members e s) →
  emits (archive_entry char_signed ans open_file junk e s) (concat (member_bytes <$> entry_members e s)).
Proof using Hans Hreads.
  unfold archive_entry, entry_members. destruct (is_process e.1); [|intros _ i out; exists i; by rewrite app_nil_r].
  set (name := e.1). set (st := entry_stat e s).
  rewrite !Forall_cons. intros (Md & M1 & M2 & M3 & _). cbn [fmap list_fmap concat]. rewrite app_nil_r.
  assert (member_bytes (dir_member name st) = take 512 (member_bytes (dir_member name st))) as ->.
  { symmetry. apply take_ge. unfold member_bytes. destruct Md as [F Hm]. rewrite length_app, length_h by done. simpl. lia. }
  pose proof (emits_bind _ _ _ _ (writeheader_emits _ 365 Md eq_refl) (emits_bind _ _ _ _ (archivejoin_emits _ _ M1)
    (emits_bind _ _ _ _ (archivejoin_emits _ _ M2) (archivejoin_emits _ _ M3)))) as E.
  intros i out. destruct (E i out) as (j & Ej). exists j. rewrite <- Ej.
  change (Z.of_nat (length (tm_data (dir_member name st)))) with 0.
  cbn [dir_member tm_path tm_uid tm_gid tm_mtime tm_type]. by destruct (writeheader _ _ _ _ _ _ _ _ _ _) as [[]| |].
Qed.

Lemma archive_entries_emits es s :
  Forall member_ok (entries_members es s) →
  emits (archive_entries char_signed ans open_file junk es s) (concat (member_bytes <$> entries_members es s)).
Proof using Hans Hreads.
  revert s. induction es as [|e es IH]; intros s; cbn [archive_entries entries_members fmap list_fmap concat];
    [intros _ i out; exists i; by rewrite app_nil_r|].
  rewrite Forall_app, fmap_app, concat_app. intros [H1 H2]. apply emits_bind; [by apply archive_entry_emits|by apply IH].
Qed.
End Granted.

(** ** Theorems *)

(** C24: the capture is a well-formed tar archive of what it read.  When every write
    takes its 512 bytes and every field fits (paths under 100 ASCII characters, user and
    group under 2^21, times and sizes under 2^31), the program returns 0, and a reader of
    the format, which checks each checksum, gets back every member in order: meminfo,
    version, then for each process its directory and its three files, whether [char] is
    signed or not.  A file that opened has the mode, owner and time of its [fstat] and
    the bytes read up to the first read of other than 512 bytes, which is where the
    program takes the file to end; a file that did not open is a member without contents
    whose mode, owner and time are what the uninitialised structure held. *)
Theorem smemcap_archive_roundtrip char_signed ans junk open_file es :
  (∀ path s reads, open_file path = Some (s, reads) → well_read reads) →
  (∀ i, ans i = IoOk 512) → Forall member_ok (proc_members junk open_file es) →
  ∃ out, smemcap_main char_signed ans open_file junk 0 es = Done (0, out) ∧
    ∀ fuel, (length (proc_members junk open_file es) <= fuel)%nat → untar fuel out = proc_members junk open_file es.
Proof.
  intros Hreads Hans M. assert (M' := M). unfold proc_members in M'. cbn [app] in M'. rewrite !Forall_cons in M'.
  destruct M' as (M1 & M2 & M3). unfold smemcap_main. change (negb (0 =? 0)) with false. cbv iota.
  destruct (archivefile_emits ans Hans char_signed junk open_file Hreads _ M1 0%nat []) as (j1 & ->). cbn [mbind run_bind].
  destruct (archivefile_emits ans Hans char_signed junk open_file Hreads _ M2 j1
    ([] ++ member_bytes (file_member junk open_file (str "meminfo")))) as (j2 & ->). cbn [mbind run_bind].
  edestruct (archive_entries_emits ans Hans char_signed junk open_file Hreads es _ M3 j2) as (j3 & ->). cbn [mbind run_bind].
  eexists. split; [reflexivity|]. intros fuel Hf. rewrite app_nil_l.
  pose proof (untar_members (proc_members junk open_file es) fuel [] M Hf) as E. rewrite app_nil_r in E.
  unfold proc_members in E at 1. rewrite fmap_app, concat_app in E. cbn [fmap list_fmap concat] in E.
  rewrite app_nil_r in E. rewrite E. destruct (fuel - _)%nat; [by rewrite app_nil_r|]. simpl. by rewrite app_nil_r.
Qed.

(** ** A concrete run

    A file of more than a block, files that read as their path, and one that is gone. *)
Definition demo_stat : stat := {| st_mode := 33060; st_uid := 1000; st_gid := 100; st_mtime := 1700000000 |}.
Definition demo_proc (path : list Z) : option (stat * list (option (list Z))) :=
  if decide (path = str "1/smaps") then None
  else Some (demo_stat, if decide (path = str "meminfo")
                        then [Some (replicate 512 77); Some (replicate 88 77)] else [Some (take 100 path)]).
Definition demo_entries : list (list Z * option stat) := [(str "1", Some demo_stat); (str "self", Some demo_stat)].

Lemma demo_well_read path s reads : demo_proc path = Some (s, reads) → well_read reads.
Proof.
  unfold demo_proc. destruct (decide (path = str "1/smaps")); [done|]. destruct (decide (path = str "meminfo")); intros [= <- <-].
  - simpl. split; [lia|]. split; [lia|done].
  - cbn [well_read]. pose proof (length_take path 100). split; [lia|]. by rewrite (proj2 (Nat.eqb_neq _ _)) by lia.
Defined.

Ltac member_fits :=
  split; [split; [vm_compute; repeat (constructor; [split; reflexivity|]); constructor|simpl; lia..]
         |vm_compute; split; [discriminate|reflexivity]].
Lemma demo_members_ok : Forall member_ok (proc_members (λ _, demo_stat) demo_proc demo_entries).
Proof. repeat (constructor; [member_fits|]). constructor. Defined.

Lemma smemcap_archive_roundtrip_witness :
  ∃ out, smemcap_main true (λ _, IoOk 512) demo_proc (λ _, demo_stat) 0 demo_entries = Done (0, out) ∧
    untar 10 out = proc_members (λ _, demo_stat) demo_proc demo_entries ∧ length (proc_members (λ _, demo_stat) demo_proc demo_entries) = 6%nat.
Proof.
  destruct (smemcap_archive_roundtrip true (λ _, IoOk 512) (λ _, demo_stat) demo_proc demo_entries demo_well_read
    (λ _, eq_refl) demo_members_ok) as (out & H & Hu).
  exists out. split; [exact H|]. split; [|vm_compute; reflexivity]. apply Hu. vm_compute. lia.
Defined.
