(* ===== verification/Limitfs.v ===== *)
(** * limitfs: test_suite/limitfs.c

    A FUSE file system that passes every operation on to a source directory and keeps
    the sum of the file sizes under a limit.  Two more files of its root,
    /cur_size and /max_size, tell the sum and the limit.  The system calls on the source
    directory are an interface. *)

From S2P Require Import Prelude KString Libc.

Definition MAX_PATH : Z := 1024.
Definition ENOBUFS : Z := 105.
Definition path_max_size : list Z := str "/max_size".
Definition path_cur_size : list Z := str "/cur_size".
Abbreviation path := (list Z) (only parsing).

(** ** The file system underneath *)

(** The system calls that are passed on, and their answers. *)
Inductive syscall :=
| SysLstat (p : path) | SysAccess (p : path) (mask : Z) | SysCreat (p : path) (mode : Z)
| SysMkfifo (p : path) (mode : Z) | SysMknod (p : path) (mode rdev : Z) | SysOpen (p : path) (flags : Z)
| SysClose (fd : Z) | SysPread (fd n off : Z) | SysPwrite (fd : Z) (bs : list Z) (off : Z)
| SysMkdir (p : path) (mode : Z) | SysTruncate (p : path) (n : Z) | SysChmod (p : path) (mode : Z)
| SysLchown (p : path) (uid gid : Z) | SysRmdir (p : path) | SysRename (p q : path) | SysUnlink (p : path).
Inductive reply := ROk (v : Z) | RBytes (bs : list Z) | RErr (errno : Z).

(** [fs_stat]: what [stat] tells: whether it is a directory, and its size.
    [fs_readdir]: the names [readdir] gives for a directory. *)
Class FsApi := {
  fs : Type;
  sys : syscall → fs → reply * fs;
  fs_stat : fs → path → option (bool * Z);
  fs_readdir : fs → path → option (list path);
}.

Section Program.
Context {F : FsApi}.

(** The globals, with the file system. *)
Record lfs := { src : path; max_size : Z; cur_size : Z; under : fs }.
Definition set_cur (n : Z) (s : lfs) : lfs := {| src := src s; max_size := max_size s; cur_size := n; under := under s |}.
Definition set_under (u : fs) (s : lfs) : lfs :=
  {| src := src s; max_size := max_size s; cur_size := cur_size s; under := u |}.

(** [sprintf(path, "%s/%s", dir, name)] into an array of MAX_PATH. *)
Definition join (dir name : path) : run path :=
  let p := dir ++ str "/" ++ name in
  if Z.of_nat (length p) <? MAX_PATH then Done p else Undef.

(** ** Sizes *)
Definition get_file_size (u : fs) (filename : path) : option Z := snd <$> fs_stat u filename.
Definition is_dir (u : fs) (p : path) : option bool := fst <$> fs_stat u p.

Definition is_dots (name : path) : bool := bool_decide (name = str ".") || bool_decide (name = str "..").

(** [rec path size]: the recursive call, which adds to [size].  The loop over the
    directory: [cur_filesize] keeps its value from one entry to the next.  [None] is
    -1, with [*filesize] as it is then. *)
Fixpoint dir_loop (rec : path → Z → run (bool * Z)) (u : fs) (dir_name : path) (names : list path)
    (filesize cur_filesize : Z) : run (bool * Z) :=
  match names with
  | [] => mret (true, filesize)
  | d_name :: names =>
      if is_dots d_name then dir_loop rec u dir_name names filesize cur_filesize
      else
        p ← join dir_name d_name;
        match is_dir u p with
        | None => mret (false, filesize)
        | Some true =>
            '(ok, cur_filesize) ← rec p cur_filesize;
            if negb ok then mret (false, filesize)
            else dir_loop rec u dir_name names (u64 (filesize + cur_filesize)) cur_filesize
        | Some false =>
            match get_file_size u p with
            | None => mret (false, filesize)
            | Some cur_filesize => dir_loop rec u dir_name names (u64 (filesize + cur_filesize)) cur_filesize
            end
        end
  end.

(** The fuel is the depth; a path grows by a character or more at every level. *)
Fixpoint __get_dir_size (fuel : nat) (u : fs) (dir_name : path) (filesize : Z) : run (bool * Z) :=
  match fuel with
  | O => Block
  | S fuel =>
      match fs_readdir u dir_name with
      | None => mret (false, filesize)
      | Some names => dir_loop (__get_dir_size fuel u) u dir_name names filesize 0
      end
  end.
Definition get_dir_size (u : fs) (dir_name : path) : run (bool * Z) :=
  __get_dir_size (Z.to_nat MAX_PATH) u dir_name 0.

(** ** Operations *)
Definition is_control (p : path) : bool := bool_decide (p = path_cur_size) || bool_decide (p = path_max_size).
Definition S_IFMT : Z := 61440.
Definition S_IFREG : Z := 32768.
Definition S_IFIFO : Z := 4096.

(** A call that gives 0 or [-errno]. *)
Definition pass (c : syscall) (s : lfs) : Z * lfs :=
  let '(r, u) := sys c (under s) in
  (match r with RErr e => - e | _ => 0 end, set_under u s).

(** The result, and the mode and size for a control file. *)
Definition limitfs_getattr (p : path) (s : lfs) : run (Z * option (Z * Z) * lfs) :=
  real_path ← join (src s) p;
  if is_control p then mret (0, Some (Z.lor S_IFREG 292, 128), s)
  else let '(r, s) := pass (SysLstat real_path) s in mret (r, None, s).

Definition limitfs_access (p : path) (mask : Z) (s : lfs) : run (Z * lfs) :=
  real_path ← join (src s) p;
  if is_control p then mret (0, s) else mret (pass (SysAccess real_path mask) s).

(** [room]: how many names [filler] takes before it says that the buffer is full; its
    answer is looked at only for the entries of the directory. *)
Definition limitfs_readdir (p : path) (room : nat) (errno : Z) (s : lfs) : run (Z * list path) :=
  real_path ← join (src s) p;
  let special := if bool_decide (p = str "/") then [drop 1 path_cur_size; drop 1 path_max_size] else [] in
  match fs_readdir (under s) real_path with
  | None => mret (- errno, take room special)
  | Some names => mret (0, take room (special ++ names))
  end.

Definition limitfs_mknod (p : path) (mode rdev : Z) (s : lfs) : run (Z * lfs) :=
  real_path ← join (src s) p;
  if max_size s <? cur_size s then mret (- ENOBUFS, s)
  else if is_control p then mret (0, s)
  else if Z.land mode S_IFMT =? S_IFREG then
    match sys (SysCreat real_path mode) (under s) with
    | (RErr e, u) => mret (- e, set_under u s)
    | (ROk fd, u) => mret (pass (SysClose fd) (set_under u s))
    | (RBytes _, u) => mret (0, set_under u s)
    end
  else if Z.land mode S_IFMT =? S_IFIFO then mret (pass (SysMkfifo real_path mode) s)
  else mret (pass (SysMknod real_path mode rdev) s).

(** [fh]: the field [fi->fh], which the library clears before the call. *)
Definition limitfs_open (p : path) (flags fh : Z) (s : lfs) : run (Z * Z * lfs) :=
  real_path ← join (src s) p;
  if is_control p then mret (0, fh, s)
  else match sys (SysOpen real_path flags) (under s) with
  | (RErr e, u) => mret (- e, fh, set_under u s)
  | (ROk fd, u) => mret (0, fd, set_under u s)
  | (RBytes _, u) => mret (0, fh, set_under u s)
  end.

(** The result and the bytes put in [buf], an array of [size]; the text of a control
    file is written with its NUL, whatever [size] and [offset] are. *)
Definition limitfs_read (p : path) (size offset fh : Z) (s : lfs) : run (Z * list Z * lfs) :=
  if is_control p then
    let text := fmt_u (if bool_decide (p = path_cur_size) then cur_size s else max_size s) ++ [10] in
    if Z.of_nat (length text) + 1 <=? size then mret (Z.of_nat (length text), text, s) else Undef
  else match sys (SysPread fh size offset) (under s) with
  | (RErr e, u) => let '(_, s) := pass (SysClose fh) (set_under u s) in mret (- e, [], s)
  | (RBytes bs, u) => mret (Z.of_nat (length bs), bs, set_under u s)
  | (ROk v, u) => mret (v, [], set_under u s)
  end.

Definition limitfs_write (p : path) (buf : list Z) (offset fh : Z) (s : lfs) : run (Z * lfs) :=
  if is_control p then mret (0, s)
  else if max_size s <? cur_size s then let '(_, s) := pass (SysClose fh) s in mret (- ENOBUFS, s)
  else
    real_path ← join (src s) p;
    match get_file_size (under s) real_path with
    | None => mret (-1, s)
    | Some old_size =>
        let '(r, u) := sys (SysPwrite fh buf offset) (under s) in
        let s := set_under u s in
        let '(res, s) := match r with
          | RErr e => let '(_, s) := pass (SysClose fh) s in (- e, s)
          | ROk n => (n, s)
          | RBytes bs => (Z.of_nat (length bs), s)
          end in
        match get_file_size (under s) real_path with
        | None => mret (-1, s)
        | Some new_size =>
            let n := if old_size <=? cur_size s then u64 (cur_size s - old_size + new_size) else new_size in
            mret (res, set_cur n s)
        end
    end.

(** The operations that only pass on. *)
Definition guarded (p : path) (c : path → syscall) (s : lfs) : run (Z * lfs) :=
  if is_control p then mret (-1, s)
  else real_path ← join (src s) p; mret (pass (c real_path) s).
Definition limitfs_mkdir (p : path) (mode : Z) (s : lfs) : run (Z * lfs) := guarded p (λ r, SysMkdir r mode) s.
Definition limitfs_chmod (p : path) (mode : Z) (s : lfs) : run (Z * lfs) := guarded p (λ r, SysChmod r mode) s.
Definition limitfs_chown (p : path) (uid gid : Z) (s : lfs) : run (Z * lfs) := guarded p (λ r, SysLchown r uid gid) s.

(** The operations that measure the directory again; what a failed measurement
    summed up stays.  [errno] is read after it: [e] is what a failed measurement left
    there. *)
Definition recounted (p : path) (c : path → syscall) (e : Z) (s : lfs) : run (Z * lfs) :=
  if is_control p then mret (-1, s)
  else
    real_path ← join (src s) p;
    let '(r, s) := pass (c real_path) s in
    '(ok, n) ← get_dir_size (under s) (src s);
    mret (if negb (r =? 0) && negb ok then - e else r, set_cur n s).
Definition limitfs_truncate (p : path) (size e : Z) (s : lfs) : run (Z * lfs) := recounted p (λ r, SysTruncate r size) e s.
Definition limitfs_rmdir (p : path) (e : Z) (s : lfs) : run (Z * lfs) := recounted p SysRmdir e s.
Definition limitfs_unlink (p : path) (e : Z) (s : lfs) : run (Z * lfs) := recounted p SysUnlink e s.

Definition limitfs_rename (from to : path) (s : lfs) : run (Z * lfs) :=
  if is_control from then mret (-1, s)
  else if is_control to then mret (-1, s)
  else
    real_from_path ← join (src s) from;
    real_to_path ← join (src s) to;
    mret (pass (SysRename real_from_path real_to_path) s).

Definition limitfs_release (p : path) (fh : Z) (s : lfs) : run (Z * lfs) := mret (pass (SysClose fh) s).

(** ** Start *)

(** The options of [main]: the arguments that go to the library.  An option without an
    argument reads the NULL behind the last one. *)
Fixpoint main_args (fuel : nat) (argv : list path) (src : option path) (max_size : Z) (fuse_args : list path)
    : run (option path * Z * list path) :=
  match fuel with
  | O => Block
  | S fuel =>
      match argv with
      | [] => mret (src, max_size, fuse_args)
      | a :: argv =>
          if bool_decide (a = str "--size") then
            match argv with
            | [] => Undef
            | v :: argv => main_args fuel argv src (u64 (atol v)) fuse_args
            end
          else if bool_decide (a = str "--src") then
            match argv with
            | [] => mret (None, max_size, fuse_args)
            | v :: argv => main_args fuel argv (Some v) max_size fuse_args
            end
          else main_args fuel argv src max_size (fuse_args ++ [a])
      end
  end.

(** [inl]: the program returns; [inr]: the library serves the file system. *)
Definition limitfs_main (argv : list path) (u : fs) : run (Z + lfs * list path) :=
  '(src, max_size, fuse_args) ← main_args (S (length argv)) argv None 0 [];
  match src with
  | None => mret (inl 1)
  | Some src =>
      if max_size =? 0 then mret (inl 1)
      else
        '(ok, n) ← get_dir_size u src;
        if negb ok then mret (inl (-1))
        else mret (inr ({| src := src; max_size := max_size; cur_size := n; under := u |}, fuse_args))
  end.
End Program.

(** ** Directory trees *)

(** A file with its size, a directory with its entries in the order [readdir] gives. *)
Inductive node := NFile (size : Z) | NDir (es : list (path * node)).

Lemma node_rect' (P : node → Prop) :
  (∀ n, P (NFile n)) → (∀ es, Forall (λ e, P e.2) es → P (NDir es)) → ∀ n, P n.
Proof.
  intros Hf Hd. fix IH 1. intros [n|es]; [apply Hf|]. apply Hd.
  induction es as [|[nm n] es IHes]; constructor; [apply IH|exact IHes].
Qed.

(** The sum of the sizes of the files. *)
Fixpoint total (n : node) : Z :=
  match n with
  | NFile k => k
  | NDir es => (fix go es := match es with [] => 0 | (_, n) :: es => total n + go es end) es
  end.
(** Every subdirectory is first in its directory or comes after an entry of total 0. *)
Fixpoint tidy (n : node) (prev : Z) : bool :=
  match n with
  | NFile _ => true
  | NDir es => (prev =? 0) &&
      (fix go es p := match es with [] => true | (_, n) :: es => tidy n p && go es (total n) end) es 0
  end.
(** The value of [cur_filesize] after an entry that found [prev] in it. *)
Fixpoint cur_after (n : node) (prev : Z) : Z :=
  match n with
  | NFile k => k
  | NDir es => prev +
      (fix go es p := match es with [] => 0 | (_, n) :: es => cur_after n p + go es (cur_after n p) end) es 0
  end.
(** The same functions on lists of entries. *)
Fixpoint totals (es : list (path * node)) : Z :=
  match es with [] => 0 | (_, n) :: es => total n + totals es end.
Fixpoint measured (es : list (path * node)) (prev : Z) : Z :=
  match es with [] => 0 | (_, n) :: es => cur_after n prev + measured es (cur_after n prev) end.
Fixpoint tidies (es : list (path * node)) (prev : Z) : bool :=
  match es with [] => true | (_, n) :: es => tidy n prev && tidies es (total n) end.

Section Tree.
Context {F : FsApi} (u : fs).

(** The file system shows the tree [n] at path [p]. *)
Fixpoint tree_at (p : path) (n : node) : Prop :=
  match n with
  | NFile k => fs_stat u p = Some (false, k) ∧ 0 <= k
  | NDir es => (∃ k, fs_stat u p = Some (true, k)) ∧
      (∃ names, fs_readdir u p = Some names ∧ filter (λ n, is_dots n = false) names = es.*1) ∧
      (fix go es := match es with
         | [] => True
         | (nm, n) :: es => Z.of_nat (length (p ++ str "/" ++ nm)) < MAX_PATH ∧ tree_at (p ++ str "/" ++ nm) n ∧ go es
         end) es
  end.
Definition entry_at (p : path) (e : path * node) : Prop :=
  Z.of_nat (length (p ++ str "/" ++ e.1)) < MAX_PATH ∧ tree_at (p ++ str "/" ++ e.1) e.2.

Lemma tree_at_dir p es :
  tree_at p (NDir es) ↔ (∃ k, fs_stat u p = Some (true, k)) ∧
    (∃ names, fs_readdir u p = Some names ∧ filter (λ n, is_dots n = false) names = es.*1) ∧ Forall (entry_at p) es.
Proof.
  cbn [tree_at]. do 2 apply and_iff_compat_l. induction es as [|[nm n] es IH]; [by rewrite Forall_nil|].
  rewrite Forall_cons, IH. unfold entry_at. simpl. tauto.
Qed.

Lemma total_dir es : total (NDir es) = totals es.
Proof. reflexivity. Qed.
Lemma cur_after_dir es prev : cur_after (NDir es) prev = prev + measured es 0.
Proof. reflexivity. Qed.
Lemma tidy_dir es prev : tidy (NDir es) prev = (prev =? 0) && tidies es 0.
Proof. reflexivity. Qed.

(** What is measured is the total or more, and the total exactly for tidy trees. *)
Lemma measured_total p n :
  tree_at p n → ∀ prev, 0 <= prev →
    0 <= total n <= cur_after n prev ∧ (cur_after n prev = total n ↔ tidy n prev = true).
Proof.
  revert p. induction n as [k|es IH] using node_rect'; intros p Ht prev Hp.
  { destruct Ht as [_ Hk]. simpl. split; [lia|tauto]. }
  apply tree_at_dir in Ht as (_ & _ & He). rewrite total_dir, cur_after_dir, tidy_dir, andb_true_iff, Z.eqb_eq.
  cut (∀ q, 0 <= q → 0 <= totals es <= measured es q ∧ (measured es q = totals es ↔ tidies es q = true)).
  { intros H. destruct (H 0 ltac:(lia)) as [H1 H2]. split; [lia|]. rewrite <- H2. lia. }
  clear prev Hp. induction es as [|[nm n] es IHes]; intros q Hq; simpl; [split; [lia|tauto]|].
  apply Forall_cons in IH as [IHn IHe]. apply Forall_cons in He as [[_ Hn] He].
  destruct (IHn _ Hn q Hq) as [H1 H2]. cbn [snd] in H1, H2. destruct (IHes IHe He (cur_after n q) ltac:(lia)) as [H3 H4].
  split; [lia|]. rewrite andb_true_iff, <- H2. split.
  - intros E. assert (cur_after n q = total n) as E1 by lia. split; [done|]. rewrite E1 in *. apply H4. lia.
  - intros [E1 E2]. rewrite E1 in *. apply H4 in E2. lia.
Qed.

Lemma cur_after_nonneg p n prev : tree_at p n → 0 <= prev → 0 <= cur_after n prev.
Proof. intros Ht Hp. destruct (measured_total _ _ Ht prev Hp). lia. Qed.

Lemma measured_nonneg p es q : Forall (entry_at p) es → 0 <= q → 0 <= measured es q.
Proof.
  intros He. revert q. induction He as [|[nm n] es [_ Hn] _ IH]; intros q Hq; simpl; [lia|].
  simpl in Hn. pose proof (cur_after_nonneg _ _ _ Hn Hq) as H. specialize (IH _ H). lia.
Qed.

(** The loop over a directory adds what is measured. *)
Lemma dir_loop_measured rec p es names f cur :
  Forall (entry_at p) es → filter (λ n, is_dots n = false) names = es.*1 →
  (∀ nm es' c, (nm, NDir es') ∈ es → 0 <= c → c + measured es' 0 < 18446744073709551616 →
     rec (p ++ str "/" ++ nm) c = Done (true, c + measured es' 0)) →
  0 <= f → 0 <= cur → f + measured es cur < 18446744073709551616 →
  dir_loop rec u p names f cur = Done (true, f + measured es cur).
Proof.
  revert es f cur. induction names as [|nm names IH]; intros es f cur He Hn Hrec Hf Hc Hb.
  { destruct es; [|done]. simpl. by rewrite Z.add_0_r. }
  cbn [dir_loop]. rewrite filter_cons in Hn. destruct (is_dots nm).
  { rewrite decide_False in Hn by done. by apply IH. }
  rewrite decide_True in Hn by done. destruct es as [|[nm' n] es]; [done|]. injection Hn as -> Hn.
  apply Forall_cons in He as [[Hl Ht] He]. cbn [fst snd] in Hl, Ht. unfold join. if_true. cbn [mbind run_bind].
  cbn [measured] in *. pose proof (cur_after_nonneg _ _ _ Ht Hc) as Hca. pose proof (measured_nonneg _ _ _ He Hca).
  assert (∀ f', f' = f + cur_after n cur →
    dir_loop rec u p names (u64 f') (cur_after n cur) = Done (true, f + (cur_after n cur + measured es (cur_after n cur)))) as Hrest.
  { intros f' ->. rewrite u64_id by lia. rewrite IH with (es := es); [by rewrite Z.add_assoc|done|done| |lia..].
    intros nm es' c Hin. apply (Hrec nm). by right. }
  destruct n as [k|es'].
  - destruct Ht as [Hs Hk]. unfold is_dir, get_file_size. rewrite Hs. simpl. by apply Hrest.
  - apply tree_at_dir in Ht as ((k & Hs) & _ & _). unfold is_dir. rewrite Hs. cbn [fmap option_fmap option_map fst].
    rewrite cur_after_dir in *. rewrite (Hrec nm' es' cur) by (by left || lia). cbn [mbind run_bind negb]. by apply Hrest.
Qed.

Lemma get_dir_size_measured n es fuel p f :
  n = NDir es → tree_at p n → Z.of_nat (length p) < MAX_PATH → MAX_PATH - Z.of_nat (length p) <= Z.of_nat fuel →
  0 <= f → f + measured es 0 < 18446744073709551616 →
  __get_dir_size fuel u p f = Done (true, f + measured es 0).
Proof.
  revert es fuel p f. induction n as [k|es0 IH] using node_rect'; intros es fuel p f [= <-] Ht Hl Hf Hz Hb.
  apply tree_at_dir in Ht as (_ & (names & Hr & Hn) & He). destruct fuel as [|fuel]; [lia|].
  cbn [__get_dir_size]. rewrite Hr. apply dir_loop_measured; [done|done| |lia..|done].
  intros nm es' c Hin Hc Hb'. rewrite Forall_forall in IH, He. destruct (He _ Hin) as [Hl' Ht']. cbn [fst snd] in Hl', Ht'.
  apply (IH _ Hin es'); [done..| |lia|done]. rewrite length_app in *. simpl in *. lia.
Qed.
End Tree.

(** ** Laws of the file system underneath

    Paths and descriptors denote files by number; [pwrite] sets the size of its file
    and nothing else; [close] ends a descriptor. *)
Class FsFiles (F : FsApi) := {
  fs_ino : fs → path → option Z;
  fs_fd : fs → Z → option Z;
}.

(** The size of a file after a [pwrite] that answered [r]. *)
Definition size_after (r : reply) (offset old : Z) : Z :=
  match r with ROk n => if 0 <? n then Z.max old (offset + n) else old | _ => old end.

Class FsLaws (F : FsApi) (I : FsFiles F) := {
  ino_stat u p q i : fs_ino u p = Some i → fs_ino u q = Some i → fs_stat u p = fs_stat u q;
  pwrite_reply u fd bs off i : fs_fd u fd = Some i → 0 <= off →
    (∃ e, (sys (SysPwrite fd bs off) u).1 = RErr e) ∨
    ∃ n, (sys (SysPwrite fd bs off) u).1 = ROk n ∧ 0 <= n <= Z.of_nat (length bs);
  pwrite_dirs u fd bs off p : let u' := (sys (SysPwrite fd bs off) u).2 in
    fs_readdir u' p = fs_readdir u p ∧ fs_ino u' p = fs_ino u p;
  pwrite_other u fd bs off p i : fs_fd u fd = Some i → fs_ino u p ≠ Some i →
    fs_stat (sys (SysPwrite fd bs off) u).2 p = fs_stat u p;
  pwrite_size u fd bs off p i k : fs_fd u fd = Some i → fs_ino u p = Some i → fs_stat u p = Some (false, k) →
    fs_stat (sys (SysPwrite fd bs off) u).2 p = Some (false, size_after (sys (SysPwrite fd bs off) u).1 off k);
  close_view u fd p : let u' := (sys (SysClose fd) u).2 in
    fs_readdir u' p = fs_readdir u p ∧ fs_stat u' p = fs_stat u p ∧ fs_ino u' p = fs_ino u p;
  close_fd u fd : fs_fd (sys (SysClose fd) u).2 fd = None;
}.

(** The paths of the files of a tree, and the tree with other sizes. *)
Fixpoint files (p : path) (n : node) : list path :=
  match n with
  | NFile _ => [p]
  | NDir es => (fix go es := match es with [] => [] | (nm, n) :: es => files (p ++ str "/" ++ nm) n ++ go es end) es
  end.
Fixpoint resized (g : path → Z) (p : path) (n : node) : node :=
  match n with
  | NFile _ => NFile (g p)
  | NDir es => NDir ((fix go es := match es with [] => [] | (nm, n) :: es =>
                        (nm, resized g (p ++ str "/" ++ nm) n) :: go es end) es)
  end.
Definition sum_over (g : path → Z) (l : list path) : Z := foldr (λ q acc, g q + acc) 0 l.

Lemma sum_over_app g l k : sum_over g (l ++ k) = sum_over g l + sum_over g k.
Proof. induction l as [|q l IH]; simpl; lia. Qed.

Lemma sum_over_ext g h l : Forall (λ q, g q = h q) l → sum_over g l = sum_over h l.
Proof. induction 1 as [|q l Hq _ IH]; simpl; congruence. Qed.

Lemma sum_over_nonneg g l : Forall (λ q, 0 <= g q) l → 0 <= sum_over g l.
Proof. induction 1; simpl; lia. Qed.

Lemma total_resized g n p : total (resized g p n) = sum_over g (files p n).
Proof.
  revert p. induction n as [k|es IH] using node_rect'; intros p; [simpl; lia|].
  cbn [resized files total]. induction IH as [|[nm n] es Hn _ IHes]; [done|].
  rewrite sum_over_app. cbn [snd] in Hn. by rewrite <- Hn, <- IHes.
Qed.

Section Views.
Context {F : FsApi} (u u' : fs).

(** The size [stat] tells. *)
Definition stat_size (q : path) : Z := match fs_stat u q with Some (_, k) => k | None => 0 end.

Lemma total_stat p n : tree_at u p n → total n = sum_over stat_size (files p n).
Proof.
  revert p. induction n as [k|es IH] using node_rect'; intros p Ht.
  { destruct Ht as [Hs _]. simpl. unfold stat_size. rewrite Hs. lia. }
  apply tree_at_dir in Ht as (_ & _ & He). cbn [files total]. induction He as [|[nm n] es [_ Hn] _ IHes]; [done|].
  apply Forall_cons in IH as [IHn IHe]. rewrite sum_over_app. cbn [fst snd] in *. by rewrite <- (IHn _ Hn), <- IHes.
Qed.

Lemma files_nonneg p n : tree_at u p n → Forall (λ q, 0 <= stat_size q) (files p n).
Proof.
  revert p. induction n as [k|es IH] using node_rect'; intros p Ht.
  { destruct Ht as [Hs Hk]. repeat constructor. unfold stat_size. by rewrite Hs. }
  apply tree_at_dir in Ht as (_ & _ & He). cbn [files]. induction He as [|[nm n] es [_ Hn] _ IHes]; [constructor|].
  apply Forall_cons in IH as [IHn IHe]. apply Forall_app. split; [by apply IHn|by apply IHes].
Qed.

(** A file system with the same directories and other sizes shows the resized tree. *)
Lemma tree_at_resized g p n :
  (∀ q, fs_readdir u' q = fs_readdir u q) →
  (∀ q k, fs_stat u q = Some (true, k) → ∃ k', fs_stat u' q = Some (true, k')) →
  (∀ q k, fs_stat u q = Some (false, k) → 0 <= k → fs_stat u' q = Some (false, g q) ∧ 0 <= g q) →
  tree_at u p n → tree_at u' p (resized g p n).
Proof.
  intros Hr Hd Hf. revert p. induction n as [k|es IH] using node_rect'; intros p Ht.
  { destruct Ht as [Hs Hk]. simpl. eauto. }
  apply tree_at_dir in Ht as ((k & Hk) & (names & Hn & Hs) & He). cbn [resized]. apply tree_at_dir.
  split; [eauto|]. split.
  - exists names. rewrite Hr. split; [done|]. rewrite Hs. clear. induction es as [|[nm n] es IHes]; [done|].
    cbn [fmap list_fmap fst]. by f_equal.
  - clear Hs. induction He as [|[nm n] es [Hl Hn'] _ IHes]; [constructor|]. apply Forall_cons in IH as [IHn IHe].
    constructor; [split; [exact Hl|by apply IHn]|by apply IHes].
Qed.
End Views.

Lemma tree_at_same {F : FsApi} u u' p n :
  (∀ q, fs_readdir u' q = fs_readdir u q) → (∀ q, fs_stat u' q = fs_stat u q) → tree_at u p n → tree_at u' p n.
Proof.
  intros Hr Hs. revert p. induction n as [k|es IH] using node_rect'; intros p; [simpl; by rewrite Hs|].
  rewrite !tree_at_dir, Hr, Hs. intros (Hk & Hn & He). split; [done|]. split; [done|]. clear Hk Hn.
  induction He as [|[nm n] es [Hl Hn'] _ IHes]; [constructor|]. apply Forall_cons in IH as [IHn IHe].
  constructor; [split; [exact Hl|by apply IHn]|by apply IHes].
Qed.

Section Write.
Context {F : FsApi} {I : FsFiles F} {L : FsLaws F I}.
Context (s : lfs) (t : node) (q0 real : path) (buf : list Z) (offset fh i old : Z) (l1 l2 : list path).
Context (Htree : tree_at (under s) (src s) t).
Context (Hreal : fs_ino (under s) real = Some i) (Hold : fs_stat (under s) real = Some (false, old)).
Context (Hfd : fs_fd (under s) fh = Some i).
Context (Hfiles : files (src s) t = l1 ++ q0 :: l2) (Hq0 : fs_ino (under s) q0 = Some i).
Context (Hothers : Forall (λ q, fs_ino (under s) q ≠ Some i) (l1 ++ l2)).
Let r := (sys (SysPwrite fh buf offset) (under s)).1.
Let u' := (sys (SysPwrite fh buf offset) (under s)).2.
Let new := size_after r offset old.
Let g (q : path) : Z := if decide (fs_ino (under s) q = Some i) then new else stat_size (under s) q.

Lemma old_bound : 0 <= old <= total t.
Proof using All.
  pose proof (files_nonneg _ _ _ Htree) as H. rewrite (total_stat _ _ _ Htree), Hfiles, sum_over_app in *.
  rewrite Forall_app, Forall_cons in H. destruct H as (H1 & H2 & H3). cbn [sum_over foldr]. fold (sum_over (stat_size (under s)) l2).
  apply sum_over_nonneg in H1, H3. unfold stat_size in H2 at 1. unfold stat_size at 2.
  rewrite (ino_stat _ _ _ _ Hq0 Hreal), Hold in *. lia.
Qed.

Lemma new_tree : 0 <= offset → tree_at u' (src s) (resized g (src s) t) ∧ total (resized g (src s) t) = total t - old + new.
Proof using All.
  intros Ho. pose proof old_bound as Hn. assert (0 <= new) as Hnew.
  { unfold new, size_after. destruct r; [destruct (0 <? v)|..]; lia. }
  assert (∀ q, fs_readdir u' q = fs_readdir (under s) q) as Hdirs by (intros q; apply (pwrite_dirs (under s) fh buf offset q)).
  assert (∀ q, fs_ino (under s) q = Some i → fs_stat (under s) q = Some (false, old)) as Hsame.
  { intros q Hq. by rewrite (ino_stat _ _ _ _ Hq Hreal). }
  split.
  - apply (tree_at_resized (under s)); [done| | |done].
    + intros q k Hk. exists k. rewrite <- Hk. apply (pwrite_other _ _ _ _ _ i Hfd). intros Hq. by rewrite (Hsame q Hq) in Hk.
    + intros q k Hk Hk0. unfold g. destruct (decide _) as [Hq|Hq].
      * split; [|done]. apply (pwrite_size _ _ _ _ _ i); [done..|]. by apply Hsame.
      * unfold stat_size. rewrite Hk. split; [rewrite <- Hk; by apply (pwrite_other _ _ _ _ _ i)|done].
  - rewrite total_resized, (total_stat _ _ _ Htree), Hfiles, !sum_over_app. cbn [sum_over foldr].
    apply Forall_app in Hothers as [H1 H2].
    assert (∀ l, Forall (λ q, fs_ino (under s) q ≠ Some i) l → sum_over g l = sum_over (stat_size (under s)) l) as Hext.
    { intros l Hl. apply sum_over_ext. eapply Forall_impl; [exact Hl|]. intros q Hq. unfold g. by rewrite decide_False. }
    fold (sum_over g l2). fold (sum_over (stat_size (under s)) l2). rewrite !Hext by done.
    assert (g q0 = new) as -> by (unfold g; by rewrite decide_True).
    assert (stat_size (under s) q0 = old) as -> by (unfold stat_size; by rewrite (Hsame q0 Hq0)). lia.
Qed.
End Write.

(** ** Theorems *)

(** C38: the size of the source directory.  For every tree the file system shows, whose
    paths fit the arrays and whose measured size fits 64 bits, the measurement ends and
    succeeds; it is never less than the sum of the file sizes, and it is that sum
    exactly when every subdirectory is the first entry of its directory or follows one
    of total size 0: otherwise the size of the entry before a subdirectory is counted
    again. *)
Theorem limitfs_dir_size {F : FsApi} u p es :
  tree_at u p (NDir es) → Z.of_nat (length p) < MAX_PATH → measured es 0 < 18446744073709551616 →
  ∃ n, get_dir_size u p = Done (true, n) ∧ totals es <= n ∧ (n = totals es ↔ tidies es 0 = true).
Proof.
  intros Ht Hl Hb. exists (measured es 0). destruct (measured_total u p _ Ht 0 ltac:(lia)) as [H1 H2].
  rewrite total_dir, cur_after_dir, tidy_dir in *. split_and!; [|lia|exact H2].
  unfold get_dir_size. rewrite (get_dir_size_measured u (NDir es) es); [done|done|done|done| |lia|done].
  rewrite Z2Nat.id; unfold MAX_PATH in *; lia.
Qed.

(** The file of a write: [fh] is open on the file at [p], one file of the tree. *)
Record write_target {F : FsApi} {I : FsFiles F} (s : lfs) (t : node) (p : path) (fh i old : Z) : Prop := {
  wt_tree : tree_at (under s) (src s) t;
  wt_user : is_control p = false;
  wt_len : Z.of_nat (length (src s ++ str "/" ++ p)) < MAX_PATH;
  wt_ino : fs_ino (under s) (src s ++ str "/" ++ p) = Some i;
  wt_old : fs_stat (under s) (src s ++ str "/" ++ p) = Some (false, old);
  wt_fd : fs_fd (under s) fh = Some i;
  wt_once : ∃ l1 q l2, files (src s) t = l1 ++ q :: l2 ∧ fs_ino (under s) q = Some i ∧
    Forall (λ q, fs_ino (under s) q ≠ Some i) (l1 ++ l2);
}.


Lemma control_length p : is_control p = true → length p = 9%nat.
Proof. unfold is_control. intros [H|H]%orb_true_iff; apply bool_decide_eq_true in H; by subst. Qed.

Lemma control_join dir p :
  is_control p = true → Z.of_nat (length dir) < 1000 → join dir p = Done (dir ++ str "/" ++ p).
Proof.
  intros Hp%control_length Hd. unfold join, MAX_PATH. rewrite !length_app, Hp. change (length (str "/")) with 1%nat.
  destruct (Z.ltb_spec (Z.of_nat (length dir + (1 + 9))) 1024); [done|lia].
Qed.

(** C39: the two control files are not files of the source directory.  Of the operations
    on them, in either position of a rename, none but a release changes the source
    directory, its descriptors or the books: the ones that would change a file fail (a
    write and a mknod pretend to succeed), a read gives the number, given a buffer that
    holds it, and listing one as a directory fails unless the source directory has a
    directory of that name.  The exception is release, which closes the descriptor in
    [fi->fh], 0 for a control file. *)
Theorem limitfs_control_protected {F : FsApi} p q s mode rdev uid gid n mask flags buf off fh e room size :
  is_control p = true → Z.of_nat (length (src s)) < 1000 →
  let text := fmt_u (if bool_decide (p = path_cur_size) then cur_size s else max_size s) ++ [10] in
  limitfs_getattr p s = Done (0, Some (33060, 128), s) ∧ limitfs_access p mask s = Done (0, s) ∧
  limitfs_mknod p mode rdev s = Done (if max_size s <? cur_size s then - ENOBUFS else 0, s) ∧
  limitfs_open p flags fh s = Done (0, fh, s) ∧
  (Z.of_nat (length text) + 1 <= size → limitfs_read p size off fh s = Done (Z.of_nat (length text), text, s)) ∧
  limitfs_readdir p room e s = Done (match fs_readdir (under s) (src s ++ str "/" ++ p) with
                                     | None => (- e, []) | Some names => (0, take room names) end) ∧
  limitfs_write p buf off fh s = Done (0, s) ∧ limitfs_mkdir p mode s = Done (-1, s) ∧
  limitfs_truncate p n e s = Done (-1, s) ∧ limitfs_chmod p mode s = Done (-1, s) ∧
  limitfs_chown p uid gid s = Done (-1, s) ∧ limitfs_rmdir p e s = Done (-1, s) ∧ limitfs_unlink p e s = Done (-1, s) ∧
  limitfs_rename p q s = Done (-1, s) ∧ limitfs_rename q p s = Done (-1, s) ∧
  limitfs_release p fh s = Done (match (sys (SysClose fh) (under s)).1 with RErr x => - x | _ => 0 end,
                                 set_under (sys (SysClose fh) (under s)).2 s).
Proof.
  intros Hp Hs text.
  assert (join (src s) p = Done (src s ++ str "/" ++ p)) as Hj by (apply control_join; done).
  unfold limitfs_getattr, limitfs_access, limitfs_mknod, limitfs_open, limitfs_read, limitfs_readdir, limitfs_write,
    limitfs_mkdir, limitfs_truncate, limitfs_chmod, limitfs_chown, limitfs_rmdir, limitfs_unlink, limitfs_rename,
    limitfs_release, guarded, recounted.
  rewrite Hj, Hp. cbn [mbind run_bind]. split_and!; try done.
  - by destruct (_ <? _).
  - intros Hsz. fold text. by if_true.
  - rewrite bool_decide_false by (intros ->; by vm_compute in Hp). cbn [app].
    destruct (fs_readdir _ _); [done|]. by destruct room.
  - by destruct (is_control q).
  - unfold pass. by destruct (sys (SysClose fh) (under s)).
Qed.

(** Reading a control file gives the number it stands for in decimal, provided that the
    caller's buffer holds the text and its NUL; with a smaller buffer the text is
    written past its end. *)
Theorem limitfs_read_control {F : FsApi} p size off fh s :
  is_control p = true → 0 <= cur_size s < 18446744073709551616 → 0 <= max_size s < 18446744073709551616 →
  let v := if bool_decide (p = path_cur_size) then cur_size s else max_size s in
  let n := Z.of_nat (length (fmt_u v)) + 1 in
  if n + 1 <=? size
  then ∃ text, limitfs_read p size off fh s = Done (n, text, s) ∧ (strtoull 10 text).1.1 = v
  else limitfs_read p size off fh s = Undef.
Proof.
  intros Hp Hc Hm v n. unfold limitfs_read. rewrite Hp. fold v. rewrite length_app. cbn [length].
  rewrite Nat2Z.inj_add. change (Z.of_nat 1) with 1. fold n. split_if; [|done]. eexists. split; [done|].
  rewrite strtoull_fmt_u; [done| |done]. unfold v. by destruct (bool_decide _).
Qed.

(** Closing a control file closes standard input.  The open leaves the cleared
    [fi->fh], so the release closes descriptor 0; when a file of a user was opened as
    descriptor 0 since, it is closed under him. *)
Theorem limitfs_control_release {F : FsApi} {I : FsFiles F} {L : FsLaws F I} p flags s i :
  is_control p = true → Z.of_nat (length (src s)) < 1000 → fs_fd (under s) 0 = Some i →
  ∃ fh r s', limitfs_open p flags 0 s = Done (0, fh, s) ∧ limitfs_release p fh s = Done (r, s') ∧
    fs_fd (under s') 0 = None.
Proof.
  intros Hp Hs Hi.
  unfold limitfs_open, limitfs_release, pass. rewrite control_join, Hp by done. pose proof (close_fd (under s) 0) as Hc.
  destruct (sys (SysClose 0) (under s)) as [r u] eqn:E. simpl in Hc. exists 0. rewrite E. eauto 10.
Qed.

(** ** A file system in memory *)
Module MiniFs.
Record mini := {
  m_dirs : gmap (list Z) (list (list Z));
  m_ino : gmap (list Z) Z;
  m_node : gmap Z (bool * Z);
  m_fds : gmap Z Z;
}.
Definition mini_sys (c : syscall) (u : mini) : reply * mini :=
  match c with
  | SysPwrite fd bs off =>
      match m_fds u !! fd ≫= λ i, (i,.) <$> m_node u !! i with
      | Some (i, (false, k)) =>
          let r := ROk (Z.of_nat (length bs)) in
          (r, {| m_dirs := m_dirs u; m_ino := m_ino u; m_node := <[i := (false, size_after r off k)]> (m_node u);
                 m_fds := m_fds u |})
      | _ => (RErr 9, u)
      end
  | SysClose fd =>
      (ROk 0, {| m_dirs := m_dirs u; m_ino := m_ino u; m_node := m_node u; m_fds := delete fd (m_fds u) |})
  | _ => (RErr 38, u)
  end.
#[global] Instance api : FsApi :=
  {| fs := mini; sys := mini_sys; fs_stat := λ u p, m_ino u !! p ≫= λ i, m_node u !! i;
     fs_readdir := λ u p, m_dirs u !! p |}.
#[global] Instance names : FsFiles api := {| fs_ino := λ u p, m_ino u !! p; fs_fd := λ u fd, m_fds u !! fd |}.

#[global] Instance laws : FsLaws api names.
Proof.
  split; simpl.
  - intros u p q i -> ->. done.
  - intros u fd bs off i Hi Ho. rewrite Hi. simpl. destruct (m_node u !! i) as [[[] k]|]; simpl; [by eauto| |by eauto].
    right. eexists. split; [done|lia].
  - intros u fd bs off p. destruct (m_fds u !! fd) as [i|]; simpl; [|done]. by destruct (m_node u !! i) as [[[] k]|].
  - intros u fd bs off p i Hi Hp. rewrite Hi. simpl. destruct (m_node u !! i) as [[[] k]|]; simpl; [done| |done].
    destruct (m_ino u !! p) as [j|]; [|done]. simpl. rewrite lookup_insert_ne; congruence.
  - intros u fd bs off p i k Hi Hp. rewrite Hi, Hp. simpl. intros Hk. rewrite Hk. simpl. rewrite Hp. simpl.
    by rewrite lookup_insert_eq.
  - intros u fd p. done.
  - intros u fd. apply lookup_delete_eq.
Qed.
End MiniFs.

(** A directory with a file of ten bytes followed by an empty directory. *)
Definition demo_under : @fs MiniFs.api := {|
  MiniFs.m_dirs := {[str "/d" := [str "."; str ".."; str "a"; str "s"]; str "/d/s" := [str "."; str ".."]]};
  MiniFs.m_ino := {[str "/d" := 1; str "/d/a" := 2; str "/d//a" := 2; str "/d/s" := 3]};
  MiniFs.m_node := {[1 := (true, 4096); 2 := (false, 10); 3 := (true, 4096)]};
  MiniFs.m_fds := {[0 := 2; 7 := 2]};
|}.
Definition demo_tree : list (path * node) := [(str "a", NFile 10); (str "s", NDir [])].
Definition demo_lfs : lfs := {| src := str "/d"; max_size := 100; cur_size := 10; under := demo_under |}.

Lemma demo_tree_at : tree_at demo_under (str "/d") (NDir demo_tree).
Proof.
  apply tree_at_dir. split; [by exists 4096|]. split.
  - eexists. split; [vm_compute; reflexivity|vm_compute; reflexivity].
  - repeat constructor; simpl; unfold MAX_PATH; try (vm_compute; reflexivity); try lia; try done.
    + by exists 4096.
    + eexists. split; [vm_compute; reflexivity|vm_compute; reflexivity].
Defined.

Lemma limitfs_dir_size_witness :
  ∃ n, get_dir_size demo_under (str "/d") = Done (true, n) ∧ 10 <= n ∧ n ≠ 10.
Proof.
  destruct (limitfs_dir_size demo_under (str "/d") demo_tree demo_tree_at) as (n & H & Hle & Hiff).
  - vm_compute. reflexivity.
  - vm_compute. reflexivity.
  - exists n. split; [exact H|]. split; [exact Hle|]. intros E. apply Hiff in E. vm_compute in E. discriminate E.
Defined.

Lemma demo_target : write_target demo_lfs (NDir demo_tree) (str "/a") 7 2 10.
Proof.
  split; [exact demo_tree_at|vm_compute; reflexivity..|].
  exists [], (str "/d/a"), []. split; [vm_compute; reflexivity|]. split; [vm_compute; reflexivity|constructor].
Defined.


Lemma limitfs_control_protected_witness :
  limitfs_unlink (str "/cur_size") 2 demo_lfs = Done (-1, demo_lfs).
Proof.
  apply (limitfs_control_protected (str "/cur_size") (str "/a") demo_lfs 0 0 0 0 0 0 0 [] 0 0 2 0 0); vm_compute; reflexivity.
Defined.

Lemma limitfs_control_release_witness :
  ∃ fh r s', limitfs_open (str "/cur_size") 0 0 demo_lfs = Done (0, fh, demo_lfs) ∧
    limitfs_release (str "/cur_size") fh demo_lfs = Done (r, s') ∧ fs_fd (under s') 0 = None.
Proof. apply (limitfs_control_release (str "/cur_size") 0 demo_lfs 2); vm_compute; reflexivity. Defined.

Lemma limitfs_read_control_witness :
  ∃ text, limitfs_read (str "/cur_size") 128 0 0 demo_lfs = Done (3, text, demo_lfs) ∧ (strtoull 10 text).1.1 = 10.
Proof. apply (limitfs_read_control (str "/cur_size") 128 0 0 demo_lfs); simpl; [vm_compute; reflexivity|lia..]. Defined.
