(* ===== verification/Calamares.v ===== *)
(** * calamares: test_suite/calamares_bin.c

    A program that connects the user's terminal with another tty: it locks the tty with
    a pid file, puts the terminal into raw mode, and copies bytes in both directions
    until an end closes.  Signal handlers give the terminal its settings back whenever
    the program stops or ends. *)

From S2P Require Import Prelude KString Libc.

(** ** Copying *)

(** What [read] answers: some bytes, end of file, EINTR, another error. *)
Inductive rd_res := RdBytes (bs : list Z) | RdEof | RdIntr | RdErr.

(** The value, the bytes in [buf], the answers that are left. *)
Fixpoint safe_read_available (rs : list rd_res) (count : Z) : run (Z * list Z * list rd_res) :=
  match rs with
  | [] => Block
  | RdIntr :: rs => safe_read_available rs count
  | RdErr :: rs => mret (-1, [], rs)
  | RdEof :: rs => mret (0, [], rs)
  | RdBytes bs :: rs =>
      let bs := take (Z.to_nat count) bs in mret (Z.of_nat (length bs), bs, rs)
  end.

(** One [write] from the buffer [m]. *)
Definition put_call (m : list Z) (buf len n : Z) (out : list Z) : run (Z * list Z) :=
  bs ← access (load_bytes m buf len);
  mret (Z.min n len, out ++ take (Z.to_nat n) bs).
Definition safe_write (ws : list io_res) (m : list Z) (count : Z) (out : list Z) : run (Z * list Z * list io_res) :=
  '(failed, len, out, ws) ← transfer (put_call m) ws 0 count out;
  mret (if failed : bool then -1 else count - len, out, ws).

(** One direction: the answers of its reads and writes, and what was written. *)
Record channel := { ch_rs : list rd_res; ch_ws : list io_res; ch_out : list Z }.

(** The debug output is left out. *)
Definition forward_data (c : channel) : run (Z * channel) :=
  '(num_read, buffer, rs) ← safe_read_available (ch_rs c) 64;
  if num_read <=? 0 then mret (-1, {| ch_rs := rs; ch_ws := ch_ws c; ch_out := ch_out c |})
  else
    '(num_write, out, ws) ← safe_write (ch_ws c) buffer num_read (ch_out c);
    mret (if num_write <? 0 then -1 else 0, {| ch_rs := rs; ch_ws := ws; ch_out := out |}).

(** What [select] answers: which descriptors are ready; nothing; an error, which
    leaves both in the set and is not 0 either. *)
Inductive sel_res := SelReady (stdin tty : bool) | SelNone | SelErr.
Definition sel_sets (e : sel_res) : bool * bool :=
  match e with SelReady a b => (a, b) | SelNone => (false, false) | SelErr => (true, true) end.

(** [up]: standard input to the tty; [down]: the tty to standard output. *)
Record session := { up : channel; down : channel }.

(** One turn of the loop: [false] when it ends. *)
Definition turn (e : sel_res) (s : session) : run (bool * session) :=
  let '(r_in, r_tty) := sel_sets e in
  '(ret, u) ← (if r_in : bool then forward_data (up s) else mret (0, up s));
  if negb (ret =? 0) then mret (false, {| up := u; down := down s |})
  else
    '(ret, d) ← (if r_tty : bool then forward_data (down s) else mret (0, down s));
    mret (ret =? 0, {| up := u; down := d |}).

(** The loop over the answers of [select]; [true]: it waits in [select]. *)
Fixpoint main_loop (es : list sel_res) (s : session) : run (bool * session) :=
  match es with
  | [] => mret (true, s)
  | e :: es => '(go, s) ← turn e s; if go : bool then main_loop es s else mret (false, s)
  end.

(** ** Terminal settings *)
Record termios := { c_iflag : Z; c_oflag : Z; c_cflag : Z; c_lflag : Z; c_vmin : Z; c_vtime : Z }.

(** The flags of Linux, those [cfmakeraw] clears together. *)
Definition ISIG : Z := 1.
Definition OPOST : Z := 1.
Definition ONLCR : Z := 4.
Definition RAW_IFLAG : Z := 0x5eb.   (* IGNBRK BRKINT PARMRK ISTRIP INLCR IGNCR ICRNL IXON *)
Definition RAW_LFLAG : Z := 0x804b.  (* ECHO ECHONL ICANON ISIG IEXTEN *)
Definition RAW_CFLAG : Z := 0x130.   (* CSIZE PARENB *)
Definition CS8 : Z := 0x30.

Definition cfmakeraw (t : termios) : termios :=
  {| c_iflag := Z.land (c_iflag t) (Z.lnot RAW_IFLAG); c_oflag := Z.land (c_oflag t) (Z.lnot OPOST);
     c_cflag := Z.lor (Z.land (c_cflag t) (Z.lnot RAW_CFLAG)) CS8;
     c_lflag := Z.land (c_lflag t) (Z.lnot RAW_LFLAG); c_vmin := 1; c_vtime := 0 |}.

(** ** Signals *)
Inductive sig := SIGINT | SIGTERM | SIGQUIT | SIGTSTP | SIGCONT.
#[global] Instance sig_eq_dec : EqDecision sig.
Proof. solve_decision. Defined.

Inductive disposition := Handler | Default | Ignore.
Inductive status := Running | Stopped | Dead.

(** The program, its terminal and its signals.  [orig] is what the signals did when
    the program was started, the [orig_*_action] variables. *)
Record proc := {
  tty : termios;
  orig_termios : termios;
  handlers_installed : bool;
  disp : sig → disposition;
  orig : sig → disposition;
  stat : status;
}.
Definition set_tty (t : termios) (p : proc) : proc :=
  {| tty := t; orig_termios := orig_termios p; handlers_installed := handlers_installed p; disp := disp p;
     orig := orig p; stat := stat p |}.
Definition set_orig (t : termios) (p : proc) : proc :=
  {| tty := tty p; orig_termios := t; handlers_installed := handlers_installed p; disp := disp p;
     orig := orig p; stat := stat p |}.
Definition set_stat (s : status) (p : proc) : proc :=
  {| tty := tty p; orig_termios := orig_termios p; handlers_installed := handlers_installed p; disp := disp p;
     orig := orig p; stat := s |}.
(** [sigaction(s, d, NULL)] *)
Definition sigaction (s : sig) (d : disposition) (p : proc) : proc :=
  {| tty := tty p; orig_termios := orig_termios p; handlers_installed := handlers_installed p;
     disp := λ x, if decide (x = s) then d else disp p x; orig := orig p; stat := stat p |}.

(** The five calls of [sigaction], each saving what was there. *)
Definition install_signal_handler (p : proc) : proc :=
  {| tty := tty p; orig_termios := orig_termios p; handlers_installed := handlers_installed p;
     disp := λ _, Handler; orig := disp p; stat := stat p |}.
Definition set_installed (p : proc) : proc :=
  {| tty := tty p; orig_termios := orig_termios p; handlers_installed := true; disp := disp p; orig := orig p;
     stat := stat p |}.

Section Terminal.
(** The options -c (clears [raw]) and -n (sets [nlcr]). *)
Context (raw nlcr : bool).

Definition new_settings (t : termios) : termios :=
  let t := if raw then cfmakeraw t else t in
  let o := if nlcr then Z.lor (Z.lor (c_oflag t) OPOST) ONLCR else c_oflag t in
  {| c_iflag := c_iflag t; c_oflag := o; c_cflag := c_cflag t; c_lflag := Z.lor (c_lflag t) ISIG;
     c_vmin := c_vmin t; c_vtime := c_vtime t |}.

(** [get_ok], [set_ok]: whether [tcgetattr] and [tcsetattr] succeed. *)
Definition tty_setup (get_ok set_ok : bool) (p : proc) : Z * proc :=
  if negb get_ok then (1, p)
  else
    let p := set_orig (tty p) p in
    let p := if handlers_installed p then p else set_installed (install_signal_handler p) in
    if negb set_ok then (1, p) else (0, set_tty (new_settings (orig_termios p)) p).

Definition tty_restore (set_ok : bool) (p : proc) : Z * proc :=
  if negb set_ok then (1, p) else (0, set_tty (orig_termios p) p).

(** The handler up to [raise]. *)
Definition signal_handler (ok : bool) (s : sig) (p : proc) : proc :=
  match s with
  | SIGTSTP =>
      let p := (tty_restore ok p).2 in
      let p := sigaction SIGCONT Handler p in
      sigaction SIGTSTP (orig p SIGTSTP) p
  | SIGCONT =>
      let p := (tty_setup ok ok p).2 in
      let p := sigaction SIGTSTP Handler p in
      sigaction SIGCONT (orig p SIGCONT) p
  | SIGQUIT | SIGINT | SIGTERM =>
      let p := (tty_restore ok p).2 in
      sigaction s (orig p s) p
  end.

(** The default actions. *)
Definition default_action (s : sig) (p : proc) : proc :=
  match s with
  | SIGTSTP => set_stat Stopped p
  | SIGCONT => p
  | _ => set_stat Dead p
  end.
(** The signal the handler raised is blocked while the handler runs, and delivered
    when it returns, with the disposition it has then.  [None]: that is the handler
    again, which would raise it again. *)
Definition raised (s : sig) (p : proc) : option proc :=
  match disp p s with
  | Default => Some (default_action s p)
  | Ignore => Some p
  | Handler => None
  end.

(** The delivery of a signal to the running program. *)
Definition deliver (ok : bool) (s : sig) (p : proc) : option proc :=
  match disp p s with
  | Default => Some (default_action s p)
  | Ignore => Some p
  | Handler => raised s (signal_handler ok s p)
  end.

(** The end of [main]. *)
Definition leave (ok : bool) (p : proc) : proc := set_stat Dead (tty_restore ok p).2.

(** What happens to the program: a signal while it runs; SIGCONT while it is stopped,
    which lets it run first; another program that sets the terminal while it is
    stopped; the end of its loop. *)
Inductive event := EvSignal (s : sig) | EvOutside (t : termios) | EvLeave.
Definition happen (e : event) (p : proc) : option proc :=
  match e, stat p with
  | EvSignal s, Running => deliver true s p
  | EvSignal SIGCONT, Stopped => deliver true SIGCONT (set_stat Running p)
  | EvOutside t, Stopped => Some (set_tty t p)
  | EvLeave, Running => Some (leave true p)
  | _, _ => None
  end.
End Terminal.

(** The program before [tty_setup], with the terminal at [t]. *)
Definition fresh (t : termios) (d : sig → disposition) (junk : termios) : proc :=
  {| tty := t; orig_termios := junk; handlers_installed := false; disp := d; orig := d; stat := Running |}.

(** ** The pid file *)

(** The answers of [access], one per call: the loop that waits for the tty. *)
Fixpoint wait_loop (acc : list bool) : run (list bool) :=
  match acc with [] => Block | true :: acc => mret acc | false :: acc => wait_loop acc end.
Definition verify_tty_file (wait_tty : bool) (acc : list bool) : run (Z * list bool) :=
  match wait_tty, acc with
  | false, [] => Block
  | false, false :: acc => mret (-1, acc)
  | false, true :: acc => acc ← wait_loop acc; mret (0, acc)
  | true, acc => acc ← wait_loop acc; mret (0, acc)
  end.

(** Record locks by the process that holds them, files, descriptors of this process. *)
Record pid_world := { pw_locks : gmap (list Z) Z; pw_files : gmap (list Z) (list Z); pw_fds : gset Z }.

(** What the calls on the pid file answer: [open]; whether [fcntl] fails for a reason of
    its own; [ftruncate]; how many bytes [write] takes. *)
Record pid_answers := { pa_open : option Z; pa_lock_error : bool; pa_truncate : bool; pa_write : Z }.

(** Closing a descriptor of a file gives up the locks on it. *)
Definition close_pid (fd pid : Z) (f : list Z) (w : pid_world) : pid_world :=
  {| pw_locks := if decide (pw_locks w !! f = Some pid) then delete f (pw_locks w) else pw_locks w;
     pw_files := pw_files w; pw_fds := pw_fds w ∖ {[fd]} |}.

Definition create_pid_file (a : pid_answers) (pid : Z) (f : list Z) (w : pid_world) : Z * pid_world :=
  match pa_open a with
  | None => (-1, w)
  | Some fd =>
      let w := {| pw_locks := pw_locks w; pw_files := <[f := default [] (pw_files w !! f)]> (pw_files w);
                  pw_fds := {[fd]} ∪ pw_fds w |} in
      let free := match pw_locks w !! f with None => true | Some q => q =? pid end in
      if pa_lock_error a || negb free then (-1, close_pid fd pid f w)
      else
        let w := {| pw_locks := <[f := pid]> (pw_locks w); pw_files := pw_files w; pw_fds := pw_fds w |} in
        let pid_str := fmt_d pid in
        if negb (pa_truncate a) then (-1, w)
        else
          let n := Z.min (pa_write a) (Z.of_nat (length pid_str)) in
          let w := {| pw_locks := pw_locks w; pw_files := <[f := take (Z.to_nat n) pid_str]> (pw_files w);
                      pw_fds := pw_fds w |} in
          if negb (n =? Z.of_nat (length pid_str)) then (-1, close_pid fd pid f w) else (0, w)
  end.

(** [snprintf(dst, n, "%s", s)] into a cleared array of [size]. *)
Definition snprintf_s (size n : nat) (s : list Z) : list Z :=
  let t := take (n - 1) s in t ++ zeros (size - length t).

(** The loop that replaces the slashes of the first [len] characters. *)
Fixpoint dash_loop (n i : nat) (m : list Z) : run (list Z) :=
  match n with
  | O => mret m
  | S n =>
      c ← access (m !! i);
      m ← (if c =? 47 then access (store_bytes m (Z.of_nat i) [45]) else mret m);
      dash_loop n (S i) m
  end.

(** The name of the pid file for the path [realpath] gave. *)
Definition pid_name (tmp : list Z) : run (list Z) :=
  location ← dash_loop (length tmp) 0 (snprintf_s 1024 512 tmp);
  mret (cstr (snprintf_s 1024 512 (str "/var/run/calamares" ++ cstr location ++ str ".pid"))).

Definition lock_tty_file (wait_tty : bool) (acc : list bool) (realpath : option (list Z)) (a : pid_answers) (pid : Z)
    (w : pid_world) : run (Z * pid_world) :=
  '(r, _) ← verify_tty_file wait_tty acc;
  if r <? 0 then mret (-1, w)
  else match realpath with
  | None => mret (-1, w)
  | Some tmp => f ← pid_name tmp; mret (create_pid_file a pid f w)
  end.

(** ** main *)
Record options := { o_debug : bool; o_nlcr : bool; o_raw : bool; o_wait : bool; o_tty : list Z }.
Definition default_options : options :=
  {| o_debug := false; o_nlcr := false; o_raw := true; o_wait := false; o_tty := str "./tty1_ext" |}.

(** One option [getopt] returned; [inl]: the program ends with that value ([None] is
    [abort]). *)
Definition do_opt (c : Z) (optarg : list Z) (o : options) : option Z + options :=
  if c =? 119 (* w *) then
    inr {| o_debug := o_debug o; o_nlcr := o_nlcr o; o_raw := o_raw o; o_wait := true; o_tty := o_tty o |}
  else if c =? 116 (* t *) then
    inr {| o_debug := o_debug o; o_nlcr := o_nlcr o; o_raw := o_raw o; o_wait := o_wait o; o_tty := optarg |}
  else if c =? 100 (* d *) then
    inr {| o_debug := true; o_nlcr := o_nlcr o; o_raw := o_raw o; o_wait := o_wait o; o_tty := o_tty o |}
  else if c =? 110 (* n *) then
    inr {| o_debug := o_debug o; o_nlcr := true; o_raw := o_raw o; o_wait := o_wait o; o_tty := o_tty o |}
  else if c =? 99 (* c *) then
    inr {| o_debug := o_debug o; o_nlcr := o_nlcr o; o_raw := false; o_wait := o_wait o; o_tty := o_tty o |}
  else if c =? 104 (* h *) then inl (Some 0)
  else if c =? 63 (* ? *) then inl (Some 1)
  else inl None.
Fixpoint do_opts (l : list (Z * list Z)) (o : options) : option Z + options :=
  match l with
  | [] => inr o
  | (c, a) :: l => match do_opt c a o with inl r => inl r | inr o => do_opts l o end
  end.

(** What the program meets: the answers of [access], [realpath], the pid file, [open] of
    the tty and the terminal calls; the events of its loop. *)
Record surroundings := {
  sr_access : list bool;
  sr_realpath : list Z → option (list Z);
  sr_pid_answers : pid_answers;
  sr_open_tty : bool;
  sr_get_ok : bool;
  sr_set_ok : bool;
  sr_events : list sel_res;
}.

(** The exit status ([None]: it is still in its loop), the terminal, the session. *)
Definition calamares_main (opts : list (Z * list Z)) (e : surroundings) (pid : Z) (w : pid_world) (p : proc) (s : session)
    : run (option Z * proc * session * pid_world) :=
  match do_opts opts default_options with
  | inl r => mret (Some (default 134 r), p, s, w)
  | inr o =>
      '(r, w) ← lock_tty_file (o_wait o) (sr_access e) (sr_realpath e (o_tty o)) (sr_pid_answers e) pid w;
      if r <? 0 then mret (Some 1, p, s, w)
      else if negb (sr_open_tty e) then mret (Some 1, p, s, w)
      else
        let '(r, p) := tty_setup (o_raw o) (o_nlcr o) (sr_get_ok e) (sr_set_ok e) p in
        if negb (r =? 0) then mret (Some 1, p, s, w)
        else
          '(waiting, s) ← main_loop (sr_events e) s;
          if waiting : bool then mret (None, p, s, w) else mret (Some 0, leave (sr_set_ok e) p, s, w)
  end.

(** ** Lemmas on copying *)

(** A write answers with an interruption or takes at least a byte; how many of the
    latter there are. *)
Definition progress (w : io_res) : Prop := w = IoIntr ∨ ∃ n, w = IoOk n ∧ 0 < n.
#[global] Instance io_res_eq_dec : EqDecision io_res.
Proof. solve_decision. Defined.
Definition oks (ws : list io_res) : Z := Z.of_nat (length (filter (λ w, w ≠ IoIntr) ws)).

Lemma put_all ws m k out :
  Forall progress ws → 0 <= k <= Z.of_nat (length m) → Z.of_nat (length m) - k <= oks ws →
  ∃ ws', transfer (put_call m) ws k (Z.of_nat (length m) - k) out = Done (false, 0, out ++ drop (Z.to_nat k) m, ws') ∧
    oks ws - (Z.of_nat (length m) - k) <= oks ws' ∧ Forall progress ws'.
Proof.
  intros Hw. revert k out. set (n := Z.of_nat (length m)).
  induction Hw as [|w ws [->|(j & -> & Hj)] Hws IH]; intros k out Hk Hn; cbn [transfer];
    (destruct (Z.eqb_spec (n - k) 0) as [e|e];
      [rewrite drop_ge, app_nil_r by lia; eexists; split; [rewrite e; done|]; split; [lia|by constructor; unfold progress; eauto]|]).
  - change (oks []) with 0 in Hn. lia.
  - destruct (IH k out Hk Hn) as (ws' & E & H1 & H2). by exists ws'.
  - unfold put_call. rewrite load_bytes_in by lia. cbn [access mbind run_bind mret run_ret].
    rewrite (take_ge (drop _ _)) by (rewrite length_drop; lia). if_false.
    assert (oks (IoOk j :: ws) = oks ws + 1) as Ho by (unfold oks; rewrite filter_cons_True by done; simpl; lia).
    destruct (IH (k + Z.min j (n - k)) (out ++ take (Z.to_nat j) (drop (Z.to_nat k) m))) as (ws' & E & H1 & H2); [lia..|].
    exists ws'. replace (n - k - Z.min j (n - k)) with (n - (k + Z.min j (n - k))) by lia. unfold put_call in E. rewrite E.
    split; [|split; [lia|done]]. do 3 f_equal. rewrite <- app_assoc. f_equal. f_equal.
    rewrite Z2Nat.inj_add, <- drop_drop by lia.
    destruct (Z.le_gt_cases j (n - k)).
    + rewrite Z.min_l by done. apply take_drop.
    + rewrite Z.min_r, (take_ge (drop _ _)), (drop_ge (drop _ _)) by (rewrite ?length_drop; lia). apply app_nil_r.
Qed.

Lemma safe_write_all ws m out :
  Forall progress ws → Z.of_nat (length m) <= oks ws →
  ∃ ws', safe_write ws m (Z.of_nat (length m)) out = Done (Z.of_nat (length m), out ++ m, ws') ∧
    oks ws - Z.of_nat (length m) <= oks ws' ∧ Forall progress ws'.
Proof.
  intros Hw Hn. destruct (put_all ws m 0 out Hw ltac:(lia) ltac:(lia)) as (ws' & E & H1 & H2).
  rewrite Z.sub_0_r in *. exists ws'. unfold safe_write. rewrite E. cbn [mbind run_bind]. by rewrite Z.sub_0_r.
Qed.

(** The reads of a channel: at most 64 bytes each, and how many are not interruptions. *)
Definition rd_ok (r : rd_res) : Prop := match r with RdBytes bs => (0 < length bs <= 64)%nat | _ => True end.
Definition is_intr (r : rd_res) : bool := match r with RdIntr => true | _ => false end.
Definition is_end (r : rd_res) : bool := match r with RdEof | RdErr => true | _ => false end.
Definition rd_data (r : rd_res) : list Z := match r with RdBytes bs => bs | _ => [] end.
Definition finals (rs : list rd_res) : nat := length (filter (λ r, is_intr r = false) rs).

(** The system serves [n] more reads of the channel, and writes that take every byte,
    in parts of any size and with interruptions. *)
Record served (n : nat) (c : channel) : Prop := {
  sv_reads : (n <= finals (ch_rs c))%nat;
  sv_rd_ok : Forall rd_ok (ch_rs c);
  sv_writes : 64 * Z.of_nat n <= oks (ch_ws c);
  sv_progress : Forall progress (ch_ws c);
}.

(** [consumed] was read from [c], and all its bytes were written, in order. *)
Definition copied (c c' : channel) (consumed : list rd_res) : Prop :=
  ch_rs c = consumed ++ ch_rs c' ∧ ch_out c' = ch_out c ++ concat (rd_data <$> consumed).

Lemma copied_refl c : copied c c [].
Proof. split; [done|]. simpl. by rewrite app_nil_r. Qed.
Lemma copied_trans c1 c2 c3 l1 l2 : copied c1 c2 l1 → copied c2 c3 l2 → copied c1 c3 (l1 ++ l2).
Proof.
  intros [H1 H2] [H3 H4]. split; [by rewrite H1, H3, app_assoc|]. by rewrite H4, H2, fmap_app, concat_app, app_assoc.
Qed.

Lemma served_le n m c : (n <= m)%nat → served m c → served n c.
Proof. intros Hn [H1 H2 H3 H4]. split; [lia|done|lia|done]. Qed.

Lemma forward_data_ok n c :
  served (S n) c →
  ∃ r c' l, forward_data c = Done (r, c') ∧ copied c c' l ∧ served n c' ∧ r = (if existsb is_end l then -1 else 0).
Proof.
  destruct c as [rs ws out]. intros [Hr Hok Hw Hp]. simpl in *.
  cut (∃ r bs rs' l x, safe_read_available rs 64 = Done (r, bs, rs') ∧ rs = l ++ x :: rs' ∧ Forall (λ y, y = RdIntr) l ∧
    x ≠ RdIntr ∧ rd_data x = bs ∧ rd_ok x ∧ r = match x with RdBytes bs => Z.of_nat (length bs) | RdEof => 0 | _ => -1 end).
  - intros (r & bs & rs' & l & x & E & -> & Hl & Hx & Hd & Hxo & ->). unfold forward_data. simpl. rewrite E. cbn [mbind run_bind].
    assert (existsb is_end (l ++ [x]) = is_end x ∧ concat (rd_data <$> (l ++ [x])) = bs) as [He Hc].
    { clear -Hl Hd. induction Hl as [|y l -> _ IH]; simpl; [by rewrite orb_false_r, app_nil_r|done]. }
    assert (S n <= 1 + finals rs')%nat as Hf.
    { clear -Hr Hl. induction Hl as [|y l -> _ IH]; simpl in *; [|by apply IH].
      unfold finals in *. rewrite filter_cons in Hr. destruct (decide _); simpl in Hr; lia. }
    apply Forall_app in Hok as [_ Hok]. apply Forall_cons in Hok as [_ Hok].
    assert (∀ y, x = y → is_end y = true → copied {| ch_rs := l ++ x :: rs'; ch_ws := ws; ch_out := out |}
      {| ch_rs := rs'; ch_ws := ws; ch_out := out |} (l ++ [y]) ∧ served n {| ch_rs := rs'; ch_ws := ws; ch_out := out |}) as Hend.
    { intros y <- Hy. split; split; simpl; [by rewrite <- app_assoc| |lia|done|lia|done].
      rewrite Hc, <- Hd. destruct x; try done; by rewrite app_nil_r. }
    destruct x as [b| | |]; [| |done|]; simpl in Hd; subst bs; simpl in Hxo.
    + destruct (Z.leb_spec (Z.of_nat (length b)) 0); [lia|].
      destruct (safe_write_all ws b out Hp ltac:(lia)) as (ws' & -> & H1 & H2). cbn [mbind run_bind].
      if_false. eexists 0, _, (l ++ [RdBytes b]). split; [reflexivity|]. rewrite He. split; [|split; [|done]].
      * split; simpl; [by rewrite <- app_assoc|by rewrite Hc].
      * split; simpl; [lia|done|lia|done].
    + eexists (-1), _, (l ++ [RdEof]). rewrite He. by destruct (Hend _ eq_refl eq_refl).
    + eexists (-1), _, (l ++ [RdErr]). rewrite He. by destruct (Hend _ eq_refl eq_refl).
  - clear Hw Hp. induction Hok as [|x rs Hx Hok IH]; [unfold finals in Hr; simpl in Hr; lia|].
    destruct x as [b| | |]; cbn [safe_read_available].
    + simpl in Hx. rewrite take_ge by (change (Z.to_nat 64) with 64%nat; lia). eexists _, _, _, [], (RdBytes b). by split_and!.
    + eexists _, _, _, [], RdEof. by split_and!.
    + destruct IH as (r & bs & rs' & l & x & E & -> & Hl & H); [done|]. exists r, bs, rs', (RdIntr :: l), x.
      split; [done|]. split; [done|]. split; [by constructor|done].
    + eexists _, _, _, [], RdErr. by split_and!.
Qed.

Lemma turn_ok n e s :
  served (S n) (up s) → served (S n) (down s) →
  ∃ go s' l1 l2, turn e s = Done (go, s') ∧ copied (up s) (up s') l1 ∧ copied (down s) (down s') l2 ∧
    served n (up s') ∧ served n (down s') ∧ go = negb (existsb is_end l1 || existsb is_end l2).
Proof.
  intros Hu Hd. unfold turn. destruct (sel_sets e) as [a b].
  assert (∀ (x : bool) c, served (S n) c → ∃ r c' l, (if x then forward_data c else mret (0, c)) = Done (r, c') ∧
    copied c c' l ∧ served n c' ∧ (r =? 0) = negb (existsb is_end l)) as H.
  { intros [] c Hc; [|exists 0, c, []; split_and!; [done|apply copied_refl|by apply (served_le _ (S n)); [lia|]|done]].
    destruct (forward_data_ok n c Hc) as (r & c' & l & E & H1 & H2 & ->). eexists _, _, _. split; [exact E|].
    split_and!; [done..|]. by destruct (existsb is_end l). }
  destruct (H a _ Hu) as (r1 & u & l1 & -> & H1 & H2 & E1). cbn [mbind run_bind]. rewrite E1. rewrite negb_involutive.
  destruct (existsb is_end l1) eqn:El.
  { eexists _, _, l1, []. split; [reflexivity|]. rewrite El. split_and!; [done|apply copied_refl|done| |done].
    by apply (served_le _ (S n)); [lia|]. }
  destruct (H b _ Hd) as (r2 & d & l2 & -> & H3 & H4 & E2). cbn [mbind run_bind]. rewrite E2.
  eexists _, _, l1, l2. split; [reflexivity|]. by rewrite El.
Qed.

Lemma main_loop_ok es s :
  served (length es) (up s) → served (length es) (down s) →
  ∃ waiting s' l1 l2, main_loop es s = Done (waiting, s') ∧ copied (up s) (up s') l1 ∧ copied (down s) (down s') l2 ∧
    waiting = negb (existsb is_end l1 || existsb is_end l2).
Proof.
  revert s. induction es as [|e es IH]; intros s Hu Hd; cbn [main_loop].
  { eexists _, _, [], []. split; [reflexivity|]. split_and!; [apply copied_refl..|done]. }
  destruct (turn_ok _ e s Hu Hd) as (go & s1 & l1 & l2 & -> & H1 & H2 & H3 & H4 & ->). cbn [mbind run_bind].
  destruct (existsb is_end l1 || existsb is_end l2) eqn:E; cbn [negb].
  { eexists _, _, l1, l2. split; [reflexivity|]. by rewrite E. }
  apply orb_false_iff in E as [E1 E2].
  destruct (IH s1 H3 H4) as (w & s2 & k1 & k2 & -> & H5 & H6 & ->). eexists _, _, (l1 ++ k1), (l2 ++ k2).
  split; [reflexivity|]. rewrite !existsb_app, E1, E2. split_and!; [by eapply copied_trans..|done].
Qed.

(** ** Lemmas on the terminal *)
Section Protocol.
Context (raw nlcr : bool).

(** [g] are the settings the terminal had when the program took it. *)
Definition keeps (p : proc) (g : termios) : Prop :=
  handlers_installed p = true ∧ (∀ s, orig p s ≠ Handler) ∧
  match stat p with
  | Running => orig_termios p = g ∧ (∀ s, s ≠ SIGCONT → disp p s ≠ Default) ∧
      ((∀ s, orig p s = Default) → tty p = new_settings raw nlcr g ∧ ∀ s, s ≠ SIGCONT → disp p s = Handler)
  | Stopped => tty p = g ∧ disp p SIGCONT = Handler ∧ (∀ s, s ≠ SIGCONT → s ≠ SIGTSTP → disp p s ≠ Default) ∧
      ((∀ s, orig p s = Default) → ∀ s, s ≠ SIGCONT → s ≠ SIGTSTP → disp p s = Handler)
  | Dead => tty p = g
  end.

(** What happens, with the settings of the terminal's owner; SIGCONT is only sent to a
    stopped program. *)
Inductive step : proc * termios → proc * termios → Prop :=
| step_event e p g p' :
    happen raw nlcr e p = Some p' → (e = EvSignal SIGCONT → stat p = Stopped) →
    step (p, g) (p', match e with EvOutside t => t | _ => g end).

Lemma keeps_start t d junk p :
  (∀ s, d s ≠ Handler) → tty_setup raw nlcr true true (fresh t d junk) = (0, p) → keeps p t.
Proof using. intros Hd [= <-]. repeat split; simpl; done. Qed.

Lemma keeps_signal s p g p' :
  keeps p g → stat p = Running → s ≠ SIGCONT → deliver raw nlcr true s p = Some p' → keeps p' g.
Proof using.
  intros (Hi & Ho & Hs) Hr Hc. rewrite Hr in Hs. destruct Hs as (Hg & Hd & Hdef). unfold deliver.
  destruct (disp p s) eqn:E; [|by apply Hd in E|]; [|intros [= <-]; unfold keeps; rewrite Hr; done].
  unfold raised.
  assert (disp (signal_handler raw nlcr true s p) s = orig p s) as ->
    by (destruct s; try done; simpl; by rewrite decide_True by done).
  pose proof (Ho s) as Hos. destruct (orig p s) eqn:Eo; [done| |].
  - intros [= <-]. unfold keeps. destruct s; try done; simpl; rewrite Hi; (split; [done|]; split; [done|]); try done.
    split_and!; [done|done| |].
    + intros s H1 H2. rewrite decide_False, decide_False by done. by apply Hd.
    + intros H s H1 H2. rewrite decide_False, decide_False by done. by apply Hdef.
  - intros [= <-]. unfold keeps. destruct s; try done; simpl; rewrite Hi, Hr; (split; [done|]; split; [done|]);
      (split; [done|]; split; [intros s H1; repeat (destruct (decide _); [congruence|]); by apply Hd
                              |intros H; by rewrite H in Eo]).
Qed.

Lemma keeps_cont p g p' :
  keeps p g → stat p = Stopped → deliver raw nlcr true SIGCONT (set_stat Running p) = Some p' → keeps p' g.
Proof using.
  intros (Hi & Ho & Hs) Hr. rewrite Hr in Hs. destruct Hs as (Hg & Hc & Hd & Hdef). unfold deliver. cbn [set_stat disp].
  rewrite Hc. unfold raised.
  assert (disp (signal_handler raw nlcr true SIGCONT (set_stat Running p)) SIGCONT = orig p SIGCONT) as ->
    by (simpl; by rewrite Hi).
  assert (∀ q, q = signal_handler raw nlcr true SIGCONT (set_stat Running p) → keeps q g) as H.
  { intros q ->. unfold keeps. simpl. rewrite Hi. simpl. rewrite Hi. split; [done|]. split; [done|]. split; [done|]. split.
    - intros s H1. rewrite decide_False by done. destruct (decide (s = SIGTSTP)); [done|]. by apply Hd.
    - intros H. split; [by rewrite Hg|]. intros s H1. rewrite decide_False by done. destruct (decide (s = SIGTSTP)); [done|].
      by apply Hdef. }
  pose proof (Ho SIGCONT). destruct (orig p SIGCONT); [done|intros [= <-]; by apply H..].
Qed.

Lemma keeps_step x y : step x y → keeps x.1 x.2 → keeps y.1 y.2.
Proof using.
  intros [e p g p' He Hc] Hk. simpl in *. destruct e as [s|t|]; simpl in He.
  - destruct (stat p) eqn:Hs.
    + assert (s ≠ SIGCONT) as Hne by (intros ->; by specialize (Hc eq_refl)).
      apply (keeps_signal s p); [done..|]. by destruct s.
    + destruct s; try done. by eapply keeps_cont.
    + by destruct s.
  - destruct (stat p) eqn:Hs; [done| |done]. injection He as <-. destruct Hk as (Hi & Ho & Hk). unfold keeps. simpl.
    rewrite Hs in *. naive_solver.
  - destruct (stat p) eqn:Hs; [|done..]. injection He as <-. destruct Hk as (Hi & Ho & Hk). rewrite Hs in Hk.
    destruct Hk as [Hg _]. done.
Qed.

Lemma keeps_rtc x y : rtc step x y → keeps x.1 x.2 → keeps y.1 y.2.
Proof using. induction 1 as [|x y z Hs _ IH]; [done|]. intros Hk. by apply IH, (keeps_step x). Qed.

Lemma keeps_deliver p g s : keeps p g → stat p = Running → ∃ p', deliver raw nlcr true s p = Some p'.
Proof using.
  intros (Hi & Ho & _) _. unfold deliver. destruct (disp p s); [|eauto..]. unfold raised.
  assert (disp (signal_handler raw nlcr true s p) s = orig p s) as ->.
  { destruct s; simpl; rewrite ?Hi; by rewrite ?decide_True by done. }
  pose proof (Ho s). destruct (orig p s); [done|eauto..].
Qed.
End Protocol.

(** ** The pid file *)

(** A slash becomes a dash. *)
Definition dash (c : Z) : Z := if c =? 47 then 45 else c.

Lemma dash_loop_ok n i m :
  (i + n <= length m)%nat →
  dash_loop n i m = Done (take i m ++ (dash <$> take n (drop i m)) ++ drop (i + n) m).
Proof.
  revert i m. induction n as [|n IH]; intros i m Hn; cbn [dash_loop].
  { simpl. by rewrite Nat.add_0_r, take_drop. }
  destruct (m !! i) as [c|] eqn:Hc; [|apply lookup_ge_None in Hc; lia]. cbn [access mbind run_bind].
  assert (m = take i m ++ c :: drop (S i) m) as Hm by by rewrite take_drop_middle.
  assert (length (take i m) = i) as Hti by (rewrite length_take; lia).
  set (m' := take i m ++ dash c :: drop (S i) m).
  assert ((if c =? 47 then access (store_bytes m (Z.of_nat i) [45]) else mret m) = Done m') as ->.
  { subst m'. unfold dash. destruct (Z.eqb_spec c 47); [|by rewrite <- Hm].
    rewrite store_bytes_in by (simpl; lia). unfold splice. rewrite Nat2Z.id. simpl. by rewrite Nat.add_1_r. }
  cbn [mbind run_bind]. assert (length m' = length m) as Hl.
  { subst m'. rewrite length_app, Hti. cbn [length]. rewrite length_drop. lia. }
  rewrite IH by lia. f_equal.
  assert (take (S i) m' = take i m ++ [dash c]) as ->.
  { subst m'. rewrite take_app_ge by lia. rewrite Hti. replace (S i - i)%nat with 1%nat by lia. by destruct (drop (S i) m). }
  assert (∀ k, drop (S i + k) m' = drop (S i + k) m) as Hdr.
  { intros k. subst m'. rewrite drop_app_ge by lia. rewrite Hti. replace (S i + k - i)%nat with (S k) by lia. cbn [drop].
    by rewrite drop_drop. }
  rewrite <- (Nat.add_0_r (S i)) at 1. rewrite !Hdr, Nat.add_0_r. rewrite <- app_assoc. f_equal.
  rewrite <- (take_drop_middle m i c Hc) at 3. rewrite drop_app_ge by lia. rewrite Hti, Nat.sub_diag. cbn [drop take fmap list_fmap app].
  f_equal. by replace (i + S n)%nat with (S i + n)%nat by lia.
Qed.

Lemma dash_loop_out n i m : (length m < i + n)%nat → (i <= length m)%nat → dash_loop n i m = Undef.
Proof.
  revert i m. induction n as [|n IH]; intros i m Hn Hi; [lia|]. cbn [dash_loop].
  destruct (m !! i) as [c|] eqn:Hc; [|done]. cbn [access mbind run_bind]. apply lookup_lt_Some in Hc.
  destruct (c =? 47); cbn [mbind run_bind]; [|apply IH; lia].
  rewrite store_bytes_in by (simpl; lia). cbn [access mbind run_bind].
  apply IH; rewrite length_splice; simpl; lia.
Qed.

Lemma cstr_snprintf n s : Forall (λ c, c ≠ 0) s → (0 < n <= 1024)%nat → cstr (snprintf_s 1024 n s) = take (n - 1) s.
Proof.
  intros Hs Hn. unfold snprintf_s. set (t := take (n - 1) s).
  assert (length t <= n - 1)%nat as Ht by (subst t; rewrite length_take; lia).
  destruct (1024 - length t)%nat as [|k] eqn:E; [lia|]. cbn [zeros replicate]. apply cstr_app_nul. by apply Forall_take.
Qed.

Lemma location_ok tmp :
  Forall (λ c, c ≠ 0) tmp → (length tmp <= 1024)%nat →
  ∃ location, dash_loop (length tmp) 0 (snprintf_s 1024 512 tmp) = Done location ∧ cstr location = dash <$> take 511 tmp.
Proof.
  intros Hn Hl. set (t := take 511 tmp). set (k := (1024 - length t)%nat).
  assert (length t <= 511)%nat as Ht by (subst t; rewrite length_take; lia).
  assert (snprintf_s 1024 512 tmp = t ++ zeros k) as -> by done.
  rewrite dash_loop_ok by (rewrite length_app, length_zeros; lia). eexists. split; [reflexivity|].
  rewrite take_0, drop_0. cbn [app Nat.add].
  assert (∀ j, dash <$> zeros j = zeros j) as Hz by (intros j; unfold zeros; by rewrite fmap_replicate).
  assert (length t = 511 ∨ length t = length tmp)%nat as Hc by (subst t; rewrite length_take; lia).
  assert ((dash <$> take (length tmp) (t ++ zeros k)) ++ drop (length tmp) (t ++ zeros k) = (dash <$> t) ++ zeros k) as ->.
  { assert (length t <= length tmp)%nat by (subst t; rewrite length_take; lia).
    rewrite take_app_ge, drop_app_ge, fmap_app by lia. unfold zeros. rewrite take_replicate, drop_replicate, fmap_replicate.
    change (dash 0) with 0. rewrite <- app_assoc, <- replicate_add. do 2 f_equal. lia. }
  destruct k as [|k'] eqn:Ek; [subst k; lia|]. cbn [zeros replicate]. apply cstr_app_nul, Forall_fmap.
  apply (Forall_impl (λ c, c ≠ 0)); [by apply Forall_take|]. intros c Hc0. simpl. unfold dash. by destruct (c =? 47).
Qed.

(** ** Theorems *)

(** C21: the terminal gets its settings back, provided that SIGCONT is only sent to a
    stopped program and that the system reads and sets the terminal as asked.  From the
    moment [tty_setup] returned and under every sequence of other signals, stops,
    resumptions of the stopped program and changes of the terminal by its owner while the
    program is stopped: whenever the program is stopped or dead the terminal has the
    settings its owner last gave it; while it runs, and no signal was ignored at its
    start, the terminal has the settings of the program and the end of the loop restores
    the owner's; and no delivery of a signal raises it without end.  (A SIGCONT to the
    running program breaks this: [calamares_cont_loses_settings].) *)
Theorem calamares_tty_protocol raw nlcr t d junk p0 p g :
  (∀ s, d s ≠ Handler) → tty_setup raw nlcr true true (fresh t d junk) = (0, p0) →
  rtc (step raw nlcr) (p0, t) (p, g) →
  (stat p ≠ Running → tty p = g) ∧
  (stat p = Running → tty (leave true p) = g ∧ ((∀ s, orig p s = Default) → tty p = new_settings raw nlcr g)) ∧
  (stat p = Running → ∀ s, ∃ p', deliver raw nlcr true s p = Some p').
Proof.
  intros Hd H0 Hr. assert (keeps raw nlcr p g) as Hk.
  { apply (keeps_rtc raw nlcr _ _ Hr). exact (keeps_start raw nlcr _ _ _ _ Hd H0). }
  split_and!.
  - intros Hs. destruct Hk as (_ & _ & Hk). destruct (stat p); [done|by destruct Hk|done].
  - intros Hs. destruct Hk as (_ & _ & Hk). rewrite Hs in Hk. destruct Hk as (Hg & _ & Hdef). split; [done|]. intros H. by apply Hdef.
  - intros Hs s. by eapply keeps_deliver.
Qed.

(** A SIGCONT that reaches the program before its first stop, when the handler is
    installed already, makes it take its own settings for the owner's: after the end of
    the loop the terminal is left in the program's settings. *)
Theorem calamares_cont_loses_settings raw nlcr t d junk p0 :
  (∀ s, d s ≠ Handler) → tty_setup raw nlcr true true (fresh t d junk) = (0, p0) →
  ∃ p1 p2, happen raw nlcr (EvSignal SIGCONT) p0 = Some p1 ∧ happen raw nlcr EvLeave p1 = Some p2 ∧
    stat p2 = Dead ∧ tty p2 = new_settings raw nlcr t.
Proof.
  intros Hd [= <-]. unfold happen, deliver. simpl. unfold raised. simpl. pose proof (Hd SIGCONT). destruct (d SIGCONT) eqn:E; [done|..];
    (eexists _, _; split; [reflexivity|]; split; [reflexivity|]; split; reflexivity).
Qed.

(** C22: a session copies every byte.  When the system serves the reads and writes of
    both directions, with interruptions and partial writes as they come, the loop
    returns after the given answers of [select]; each direction has written exactly the
    bytes it read, in order, and the loop is over just when one of the reads met the
    end of its input or an error.  The program then exits with 0 and the terminal as it
    was; until then the terminal has the program's settings. *)
Theorem calamares_session opts o e pid w s t d junk f w' :
  do_opts opts default_options = inr o → sr_open_tty e = true → sr_get_ok e = true → sr_set_ok e = true →
  lock_tty_file (o_wait o) (sr_access e) (sr_realpath e (o_tty o)) (sr_pid_answers e) pid w = Done (0, w') →
  served (length (sr_events e)) (up s) → served (length (sr_events e)) (down s) → f = fresh t d junk →
  ∃ st p s' l1 l2, calamares_main opts e pid w f s = Done (st, p, s', w') ∧
    copied (up s) (up s') l1 ∧ copied (down s) (down s') l2 ∧
    if existsb is_end l1 || existsb is_end l2 then st = Some 0 ∧ tty p = t
    else st = None ∧ tty p = new_settings (o_raw o) (o_nlcr o) t.
Proof.
  intros Ho Ht Hg Hs Hl Hu Hd ->. unfold calamares_main. rewrite Ho, Hl, Ht, Hg, Hs. cbn [mbind run_bind].
  change (0 <? 0) with false. cbn [negb]. unfold tty_setup. cbn [negb fresh handlers_installed set_orig].
  change (negb (0 =? 0)) with false. cbv iota.
  destruct (main_loop_ok _ s Hu Hd) as (waiting & s' & l1 & l2 & -> & H1 & H2 & ->). cbn [mbind run_bind].
  destruct (existsb is_end l1 || existsb is_end l2) eqn:E; cbn [negb]; eexists _, _, s', l1, l2;
    (split; [reflexivity|]); rewrite E; done.
Qed.

(** The name of the pid file is computed within its arrays for real paths of up to
    1024 characters: the first 511 of them with dashes for slashes, between the prefix
    and the suffix, cut to 511.  A longer real path is read past the array. *)
Theorem calamares_pid_name tmp :
  Forall (λ c, c ≠ 0) tmp →
  if (length tmp <=? 1024)%nat
  then pid_name tmp = Done (take 511 (str "/var/run/calamares" ++ (dash <$> take 511 tmp) ++ str ".pid"))
  else pid_name tmp = Undef.
Proof.
  intros Hn. unfold pid_name. destruct (Nat.leb_spec (length tmp) 1024) as [Hl|Hl].
  - destruct (location_ok tmp Hn Hl) as (loc & -> & Hloc). cbn [mbind run_bind]. rewrite Hloc, cstr_snprintf; [done| |lia].
    rewrite !Forall_app. split_and!; [vm_compute; repeat constructor; discriminate| |vm_compute; repeat constructor; discriminate].
    apply Forall_fmap. apply (Forall_impl (λ c, c ≠ 0)); [by apply Forall_take|]. intros c Hc. simpl. unfold dash.
    by destruct (c =? 47).
  - assert (length (snprintf_s 1024 512 tmp) = 1024%nat) as H.
    { unfold snprintf_s. rewrite length_app, length_zeros, length_take. lia. }
    rewrite dash_loop_out by lia. done.
Qed.

(** The lock keeps a second program out: while the one that got the pid file holds its
    lock, another process fails, and the file keeps the first pid. *)
Theorem calamares_pid_file_excludes a b pid1 pid2 f w w1 :
  pid1 ≠ pid2 → create_pid_file a pid1 f w = (0, w1) →
  pw_files w1 !! f = Some (fmt_d pid1) ∧
  ∃ w2, create_pid_file b pid2 f w1 = (-1, w2) ∧ pw_locks w2 !! f = Some pid1 ∧ pw_files w2 !! f = Some (fmt_d pid1).
Proof.
  intros Hne. unfold create_pid_file. destruct (pa_open a) as [fd|]; [|done].
  destruct (pa_lock_error a || _); [done|]. destruct (pa_truncate a); [|done]. cbn [negb].
  destruct (Z.eqb_spec (Z.min (pa_write a) (Z.of_nat (length (fmt_d pid1)))) (Z.of_nat (length (fmt_d pid1)))) as [E|]; [|done].
  intros [= <-]. rewrite E, Nat2Z.id, take_ge by done. cbn [pw_files pw_locks]. rewrite lookup_insert_eq. split; [done|].
  assert (Some pid1 ≠ Some pid2) as Hs by congruence.
  destruct (pa_open b) as [fd2|]; cbn [pw_files pw_locks];
    [|eexists; split; [done|]; simpl; by rewrite !lookup_insert_eq].
  rewrite lookup_insert_eq. assert ((pid1 =? pid2) = false) as -> by by apply Z.eqb_neq. cbn [negb]. rewrite orb_true_r.
  eexists. split; [reflexivity|]. unfold close_pid. cbn [pw_files pw_locks]. rewrite !lookup_insert_eq, decide_False by done.
  rewrite lookup_insert_eq. done.
Qed.

(** ** Concrete runs *)
Definition demo_tty : termios := {| c_iflag := 0x500; c_oflag := 5; c_cflag := 0xbf; c_lflag := 0x8a3b; c_vmin := 1; c_vtime := 0 |}.
Definition other_tty : termios := {| c_iflag := 0x100; c_oflag := 5; c_cflag := 0xbf; c_lflag := 0xa3b; c_vmin := 1; c_vtime := 0 |}.
Definition demo_start : proc := (tty_setup true false true true (fresh demo_tty (λ _, Default) demo_tty)).2.
Definition demo_events : list event := [EvSignal SIGTSTP; EvOutside other_tty; EvSignal SIGCONT; EvSignal SIGTERM].

(** The program is stopped, its terminal changed, resumed, and then killed. *)
Lemma calamares_tty_protocol_witness :
  ∃ p, rtc (step true false) (demo_start, demo_tty) (p, other_tty) ∧ stat p = Dead ∧ tty p = other_tty.
Proof.
  assert (∃ p, rtc (step true false) (demo_start, demo_tty) (p, other_tty) ∧ stat p = Dead) as (p & Hr & Hs).
  { eexists. split.
    - eapply rtc_l; [apply (step_event true false (EvSignal SIGTSTP)); [reflexivity|discriminate]|].
      eapply rtc_l; [apply (step_event true false (EvOutside other_tty)); [reflexivity|discriminate]|].
      eapply rtc_l; [apply (step_event true false (EvSignal SIGCONT)); reflexivity|].
      eapply rtc_l; [apply (step_event true false (EvSignal SIGTERM)); [reflexivity|discriminate]|]. apply rtc_refl.
    - reflexivity. }
  exists p. split; [exact Hr|]. split; [exact Hs|].
  destruct (calamares_tty_protocol true false demo_tty (λ _, Default) demo_tty demo_start p other_tty) as [H _].
  - discriminate.
  - reflexivity.
  - exact Hr.
  - apply H. rewrite Hs. discriminate.
Defined.

Lemma calamares_cont_loses_settings_witness :
  ∃ p1 p2, happen true false (EvSignal SIGCONT) demo_start = Some p1 ∧ happen true false EvLeave p1 = Some p2 ∧
    tty p2 ≠ demo_tty.
Proof.
  destruct (calamares_cont_loses_settings true false demo_tty (λ _, Default) demo_tty demo_start) as (p1 & p2 & H1 & H2 & _ & Ht).
  - discriminate.
  - reflexivity.
  - exists p1, p2. split; [exact H1|]. split; [exact H2|]. rewrite Ht. vm_compute. discriminate.
Defined.

Definition demo_session : session :=
  {| up := {| ch_rs := [RdIntr; RdBytes [104; 105]; RdBytes [10]; RdEof]; ch_ws := IoIntr :: replicate 256 (IoOk 1); ch_out := [] |};
     down := {| ch_rs := [RdBytes [111; 107]; RdBytes [62]; RdBytes [62]]; ch_ws := replicate 256 (IoOk 64); ch_out := [] |} |}.
Definition demo_surroundings : surroundings :=
  {| sr_access := [true; true]; sr_realpath := λ _, Some (str "/dev/pts/3");
     sr_pid_answers := {| pa_open := Some 3; pa_lock_error := false; pa_truncate := true; pa_write := 4 |};
     sr_open_tty := true; sr_get_ok := true; sr_set_ok := true;
     sr_events := [SelReady true false; SelReady true true; SelReady true false] |}.
Definition demo_pids : pid_world := {| pw_locks := ∅; pw_files := ∅; pw_fds := ∅ |}.

Lemma demo_served : served 3 (up demo_session) ∧ served 3 (down demo_session).
Proof.
  split; split.
  - apply Nat.leb_le. vm_compute. reflexivity.
  - repeat constructor; simpl; lia.
  - apply Z.leb_le. vm_compute. reflexivity.
  - constructor; [by left|]. apply Forall_replicate. right. exists 1. split; [done|lia].
  - apply Nat.leb_le. vm_compute. reflexivity.
  - repeat constructor; simpl; lia.
  - apply Z.leb_le. vm_compute. reflexivity.
  - apply Forall_replicate. right. exists 64. split; [done|lia].
Defined.

Lemma calamares_session_witness :
  ∃ st p s' w' l1 l2, calamares_main [] demo_surroundings 1234 demo_pids (fresh demo_tty (λ _, Default) demo_tty) demo_session =
    Done (st, p, s', w') ∧ copied (up demo_session) (up s') l1 ∧ copied (down demo_session) (down s') l2 ∧
    if existsb is_end l1 || existsb is_end l2 then st = Some 0 ∧ tty p = demo_tty
    else st = None ∧ tty p = new_settings true false demo_tty.
Proof.
  destruct demo_served as [Hu Hd].
  destruct (calamares_session [] default_options demo_surroundings 1234 demo_pids demo_session demo_tty (λ _, Default) demo_tty
    (fresh demo_tty (λ _, Default) demo_tty)
    (create_pid_file (sr_pid_answers demo_surroundings) 1234 (str "/var/run/calamares-dev-pts-3.pid") demo_pids).2)
    as (st & p & s' & l1 & l2 & H); try reflexivity; [exact Hu|exact Hd|].
  eexists st, p, s', _, l1, l2. exact H.
Defined.
(** What it does: "hi" and a newline went up and "ok" came down before the end. *)
Example demo_session_run :
  match calamares_main [] demo_surroundings 1234 demo_pids (fresh demo_tty (λ _, Default) demo_tty) demo_session with
  | Done (st, p, s', _) => st = Some 0 ∧ ch_out (up s') = [104; 105; 10] ∧ ch_out (down s') = [111; 107]
  | _ => False
  end.
Proof. vm_compute. auto. Qed.

Lemma calamares_pid_name_witness :
  pid_name (str "/dev/pts/3") = Done (str "/var/run/calamares-dev-pts-3.pid").
Proof.
  etransitivity; [|vm_compute; reflexivity]. apply (calamares_pid_name (str "/dev/pts/3")).
  vm_compute. repeat constructor; discriminate.
Defined.
