(* ===== verification/TestPrograms.v ===== *)
(** * Test programs of the drivers: gfifo_poll.c, gfifo_poll_n.c, gfifo_signal.c, netlink.c, file_reader.c

    Programs that wait for data of the fifo drivers with select, epoll or SIGIO, one that
    talks to the netlink driver, and one that reads a file.  They are clients of the
    driver model: what [select] and [epoll_wait] find ready is what the driver's poll
    handler reports. *)

From S2P Require Import Prelude KernelApi KString Gfifo SmallDrivers.

Definition FIFO_CLEAR : Z := 1.
Definition FD_ARRAY_SIZE : Z := 20.
Definition EPOLLIN : Z := 1.
Definition EPOLLPRI : Z := 2.
Definition EPOLLERR : Z := 8.
Definition EPOLLHUP : Z := 16.

(** What the programs print: [n] is the number of the device on the command line. *)
Inductive msg :=
| MsgClearFailed (n : nat) | MsgReadable (n : nat) | MsgWritable (n : nat) | MsgNoData | MsgWaitFailed
| MsgNotEmpty (n : nat) | MsgOpenFailed (n : nat) | MsgCtlFailed
| MsgFifoNotEmpty (name : option nat). (* the device whose name the pointer points to; None: NULL *)

(** [struct epoll_event]: the events asked for, and [data.ptr], which the kernel hands back:
    a pointer to the name of a device of the command line, by number, or NULL. *)
Record epoll_event := { ee_events : Z; ee_ptr : option nat }.
Definition ev_zero : epoll_event := {| ee_events := 0; ee_ptr := None |}.

Section Programs.
Context (cfg : gfifo_cfg).

(** The devices behind the descriptors, the open descriptors, the interest list of each
    epoll descriptor with the structure it was added with, and the output. *)
Record tp_world := {
  tw_devs : gmap Z gfifo_dev;
  tw_fds : gset Z;
  tw_interest : gmap Z (gmap Z epoll_event);
  tw_out : list msg;
}.
Definition say (m : list msg) (w : tp_world) : tp_world :=
  {| tw_devs := tw_devs w; tw_fds := tw_fds w; tw_interest := tw_interest w; tw_out := tw_out w ++ m |}.
Definition set_devs (d : gmap Z gfifo_dev) (w : tp_world) : tp_world :=
  {| tw_devs := d; tw_fds := tw_fds w; tw_interest := tw_interest w; tw_out := tw_out w |}.
Definition open_fd (fd : Z) (w : tp_world) : tp_world :=
  {| tw_devs := tw_devs w; tw_fds := {[fd]} ∪ tw_fds w; tw_interest := tw_interest w; tw_out := tw_out w |}.
Definition close_fd (fd : Z) (w : tp_world) : tp_world :=
  {| tw_devs := tw_devs w; tw_fds := tw_fds w ∖ {[fd]}; tw_interest := tw_interest w; tw_out := tw_out w |}.
Definition set_interest (ep : Z) (i : gmap Z epoll_event) (w : tp_world) : tp_world :=
  {| tw_devs := tw_devs w; tw_fds := tw_fds w; tw_interest := <[ep := i]> (tw_interest w); tw_out := tw_out w |}.
Definition interest (ep : Z) (w : tp_world) : gmap Z epoll_event := default ∅ (tw_interest w !! ep).

(** [ioctl(fd, FIFO_CLEAR, ...)] of device [n]. *)
Definition do_clear (n : nat) (fd : Z) (w : tp_world) : tp_world :=
  match tw_devs w !! fd with
  | None => say [MsgClearFailed n] w
  | Some d => let '(d, r) := ioctl cfg d FIFO_CLEAR in
              let w := set_devs (<[fd := d]> (tw_devs w)) w in
              if r =? 0 then w else say [MsgClearFailed n] w
  end.
(** What the poll handler reports. *)
Definition mask_of (devs : gmap Z gfifo_dev) (fd : Z) : Z :=
  match devs !! fd with Some d => poll cfg d | None => 0 end.

(** [select]: whether a watched descriptor is in the set afterwards.  Only those below
    [nfds] are looked at; [beyond] is what becomes of the bits of the others. *)
Definition POLLIN_SET : Z := 0xd9.   (* POLLRDNORM POLLRDBAND POLLIN POLLHUP POLLERR *)
Definition POLLOUT_SET : Z := 0x30c. (* POLLWRBAND POLLWRNORM POLLOUT POLLERR *)
Definition in_set (beyond : bool) (nfds : Z) (bits : Z) (devs : gmap Z gfifo_dev) (fd : Z) : bool :=
  if fd <? nfds then negb (Z.land (mask_of devs fd) bits =? 0) else beyond.
(** [epoll_wait]: errors and hang-ups are reported whether asked for or not. *)
Definition ep_ready (devs : gmap Z gfifo_dev) (fd events : Z) : bool :=
  negb (Z.land (mask_of devs fd) (Z.lor events (Z.lor EPOLLERR EPOLLHUP)) =? 0).
(** The structures [epoll_wait] fills in, at most [maxevents]: the events that were found
    and the pointer the descriptor was added with.  Their order is the kernel's; here it is
    that of the map. *)
Definition epoll_wait (maxevents : nat) (i : gmap Z epoll_event) (devs : gmap Z gfifo_dev) : list epoll_event :=
  take maxevents (omap (λ '(fd, ev),
    if ep_ready devs fd (ee_events ev) then Some {| ee_events := Z.land (mask_of devs fd) (Z.lor (ee_events ev) (Z.lor EPOLLERR EPOLLHUP));
      ee_ptr := ee_ptr ev |} else None) (map_to_list i)).

(** ** gfifo_poll.c *)

(** One turn of the loop, with the devices as they are when [select] returns. *)
Definition poll_turn (beyond : bool) (fd : Z) (now : gmap Z gfifo_dev) : list msg :=
  (if in_set beyond (fd + 1) POLLIN_SET now fd then [MsgReadable 0] else []) ++
  (if in_set beyond (fd + 1) POLLOUT_SET now fd then [MsgWritable 0] else []).
(** The loop over the moments at which [select] returns. *)
Fixpoint poll_loop (beyond : bool) (fd : Z) (nows : list (gmap Z gfifo_dev)) (w : tp_world) : tp_world :=
  match nows with
  | [] => w
  | now :: nows => poll_loop beyond fd nows (set_devs now (say (poll_turn beyond fd now) w))
  end.
Definition poll_body (beyond : bool) (fd : Z) (nows : list (gmap Z gfifo_dev)) (w : tp_world) : tp_world :=
  poll_loop beyond fd nows (do_clear 0 fd w).

(** The answers of the epoll calls: the descriptor of [epoll_create] or a negative
    number, whether [EPOLL_CTL_ADD] and [EPOLL_CTL_DEL] of a descriptor succeed, whether
    the wait fails, and the devices when the wait ends. *)
Record ep_answers := {
  ea_create : Z;
  ea_add : Z → bool;
  ea_del : Z → bool;
  ea_wait_fails : bool;
  ea_now : gmap Z gfifo_dev;
}.

(** The structure passed to [EPOLL_CTL_ADD] is cleared and its events are not set. *)
Definition epoll_body (a : ep_answers) (fd : Z) (w : tp_world) : Z * tp_world :=
  let w := do_clear 0 fd w in
  let ep := ea_create a in
  if ep <? 0 then (match tw_devs w !! fd with Some _ => 0 | None => -1 end, w)
  else
    let w := open_fd ep w in
    if negb (ea_add a fd) then (-1, say [MsgCtlFailed] w)
    else
      let w := set_interest ep (<[fd := ev_zero]> (interest ep w)) w in
      let w := set_devs (ea_now a) w in
      let w := if ea_wait_fails a then say [MsgWaitFailed] w
               else match epoll_wait 1 (interest ep w) (tw_devs w) with
                    | [] => say [MsgNoData] w | _ => say [MsgNotEmpty 0] w end in
      if negb (ea_del a fd) then (-1, say [MsgCtlFailed] w)
      else (0, set_interest ep (delete fd (interest ep w)) w).

(** ** gfifo_poll_n.c *)
Definition poll_turn_n (beyond : bool) (fds : list Z) (now : gmap Z gfifo_dev) : list msg :=
  let nfds := default 0 (last fds) + 1 in
  concat (imap (λ i fd,
    (if in_set beyond nfds POLLIN_SET now fd then [MsgReadable i] else []) ++
    (if in_set beyond nfds POLLOUT_SET now fd then [MsgWritable i] else [])) fds).
Fixpoint poll_loop_n (beyond : bool) (fds : list Z) (nows : list (gmap Z gfifo_dev)) (w : tp_world) : tp_world :=
  match nows with
  | [] => w
  | now :: nows => poll_loop_n beyond fds nows (set_devs now (say (poll_turn_n beyond fds now) w))
  end.
Fixpoint clear_all (i : nat) (fds : list Z) (w : tp_world) : tp_world :=
  match fds with [] => w | fd :: fds => clear_all (S i) fds (do_clear i fd w) end.
Definition poll_body_n (beyond : bool) (fds : list Z) (nows : list (gmap Z gfifo_dev)) (w : tp_world) : tp_world :=
  poll_loop_n beyond fds nows (clear_all 0 fds w).

(** [ev_gfifo] for device [i]. *)
Definition ev_gfifo (i : nat) : epoll_event := {| ee_events := Z.lor EPOLLIN EPOLLPRI; ee_ptr := Some i |}.

(** The loop that clears and adds the devices; [false]: a call failed. *)
Fixpoint add_all (a : ep_answers) (i : nat) (fds : list Z) (w : tp_world) : bool * tp_world :=
  match fds with
  | [] => (true, w)
  | fd :: fds =>
      let w := do_clear i fd w in
      if negb (ea_add a fd) then (false, say [MsgCtlFailed] w)
      else add_all a (S i) fds (set_interest (ea_create a) (<[fd := ev_gfifo i]> (interest (ea_create a) w)) w)
  end.
Fixpoint del_all (a : ep_answers) (fds : list Z) (w : tp_world) : bool * tp_world :=
  match fds with
  | [] => (true, w)
  | fd :: fds =>
      if negb (ea_del a fd) then (false, say [MsgCtlFailed] w)
      else del_all a fds (set_interest (ea_create a) (delete fd (interest (ea_create a) w)) w)
  end.
(** [printf] of the name each filled-in structure points to. *)
Definition ready_msgs (evs : list epoll_event) : list msg := (λ ev, MsgFifoNotEmpty (ee_ptr ev)) <$> evs.

Definition epoll_body_n (a : ep_answers) (fds : list Z) (w : tp_world) : Z * tp_world :=
  let ep := ea_create a in
  if ep <? 0 then (-1, w)
  else
    let w := open_fd ep w in
    let '(ok, w) := add_all a 0 fds w in
    if negb ok then (-1, w)
    else
      let w := set_devs (ea_now a) w in
      let w := if ea_wait_fails a then say [MsgWaitFailed] w
               else match epoll_wait (length fds) (interest ep w) (tw_devs w) with
                    | [] => say [MsgNoData] w | evs => say (ready_msgs evs) w end in
      let '(ok, w) := del_all a fds w in
      (if ok then 0 else -1, w).

Fixpoint close_fds (fds : list Z) (w : tp_world) : tp_world :=
  match fds with [] => w | fd :: fds => close_fds fds (if fd =? -1 then w else close_fd fd w) end.

(** The loop that opens the devices; [opens] are the answers of [open].  [fd_array] has
    FD_ARRAY_SIZE entries. *)
Fixpoint open_all (i : nat) (opens : list Z) (w : tp_world) : run (bool * tp_world) :=
  match opens with
  | [] => mret (true, w)
  | fd :: opens =>
      if FD_ARRAY_SIZE <=? Z.of_nat i then Undef
      else if fd =? -1 then '(_, w) ← open_all (S i) opens (say [MsgOpenFailed i] w); mret (false, w)
      else open_all (S i) opens (open_fd fd w)
  end.

(** [sig_ok]: whether [sigaction] of [signal_init] succeeds; [mode]: the second character
    of the first argument; [opens]: what [open] answers for the devices named after it. *)
Definition main_n (sig_ok beyond : bool) (mode : Z) (opens : list Z) (nows : list (gmap Z gfifo_dev)) (a : ep_answers)
    (w : tp_world) : run (Z * tp_world) :=
  if negb sig_ok then mret (1, w)
  else if (length opens =? 0)%nat then mret (-1, w)
  else
    '(ok, w) ← open_all 0 opens w;
    let w := if negb ok then w
             else if (mode =? 80) || (mode =? 112) then poll_body_n beyond opens nows w
             else if (mode =? 69) || (mode =? 101) then (epoll_body_n a opens w).2
             else w in
    mret (0, close_fds opens w).

(** main of gfifo_poll.c: the first device. *)
Definition main_1 (sig_ok beyond : bool) (mode : Z) (opens : list Z) (nows : list (gmap Z gfifo_dev)) (a : ep_answers)
    (w : tp_world) : Z * tp_world :=
  if negb sig_ok then (1, w)
  else match opens with
  | [] => (-1, w)
  | fd :: _ =>
      if fd =? -1 then (0, say [MsgOpenFailed 0] w)
      else
        let w := open_fd fd w in
        let w := if (mode =? 80) || (mode =? 112) then poll_body beyond fd nows w
                 else if (mode =? 69) || (mode =? 101) then (epoll_body a fd w).2
                 else w in
        (0, close_fd fd w)
  end.
End Programs.

(** ** file_reader.c *)
Definition BUFF_SIZE : Z := 1024.
(** What [read] answers. *)
Inductive fr_res := FrBytes (bs : list Z) | FrEof | FrIntr | FrAgain | FrErr.
(** The lines printed: length and text of a read, the end, an error. *)
Inductive fr_line := FrData (n : Z) (text : list Z) | FrNoData | FrError.

(** The loop: the last value of [ret], and the output.  [buff[ret] = 0] is in the array,
    since at most BUFF_SIZE - 1 bytes are asked for. *)
Fixpoint reader_loop (rs : list fr_res) (out : list fr_line) : run (Z * list fr_line) :=
  match rs with
  | [] => Block
  | FrEof :: _ | FrBytes [] :: _ => mret (0, out ++ [FrNoData])
  | FrBytes bs :: rs =>
      let bs := take (Z.to_nat (BUFF_SIZE - 1)) bs in
      m ← access (store_bytes (zeros (Z.to_nat BUFF_SIZE)) 0 (bs ++ [0]));
      reader_loop rs (out ++ [FrData (Z.of_nat (length bs)) (cstr m)])
  | FrIntr :: rs | FrAgain :: rs => reader_loop rs (out ++ [FrError])
  | FrErr :: _ => mret (-1, out ++ [FrError])
  end.
(** [args]: after the program's name; [opened nonblock]: whether [open] succeeds. *)
Definition file_reader_main (args : list (list Z)) (opened : bool → bool) (rs : list fr_res) : run (Z * list fr_line) :=
  match args with
  | [] => mret (-1, [])
  | _ :: args =>
      let nonblock := match args with
        | mode :: _ => bool_decide (take 8 mode = str "nonblock")
        | [] => false
        end in
      if negb (opened nonblock) then mret (-2, []) else reader_loop rs []
  end.

(** ** gfifo_signal.c *)
Definition MAX_LEN : Z := 100.
(** The handler of SIGIO: [len] bytes were read, or -1; the text printed. *)
Definition input_handler (r : option (list Z)) : run (list Z) :=
  let buf := zeros (Z.to_nat MAX_LEN) in
  let bs := take (Z.to_nat (MAX_LEN - 1)) (default [] r) in
  let len := match r with Some _ => Z.of_nat (length bs) | None => -1 end in
  buf ← access (store_bytes buf 0 bs);
  buf ← access (store_bytes buf len [0]);
  mret (cstr buf).

(** The program as a client of the driver: the device, its open file, the memory of the
    process, whether SIGIO is pending, and the lines its handler printed. *)
Section SignalProgram.
Context {UA : UserAccess} {MC : Memcpy} {FA : FasyncApi} (cfg : gfifo_cfg).

Record sigprog := {
  sp_dev : gfifo_dev;
  sp_file : nat;
  sp_mem : umem;
  sp_pending : bool;
  sp_out : list (list Z);
}.

(** Whether a handler of the driver sent SIGIO to the owner of [f]. *)
Definition signalled (f : nat) (ev : list kevent) : bool :=
  existsb (λ e, match e with Sigio s => (sig_file s =? f)%nat | _ => false end) ev.

(** [main] up to its loop, which only sleeps: setting FASYNC calls the fasync method of the
    driver; what [fcntl] answers is not looked at.  [open]: the file, or a failure. *)
Definition signal_main (args : list (list Z)) (open : option nat) (d : gfifo_dev) (u : umem) : Z + sigprog :=
  match args, open with
  | [], _ => inl (-1)
  | _, None => inl (-2)
  | _, Some f =>
      inr {| sp_dev := if has_fasync cfg then (fasync d f true).1 else d; sp_file := f; sp_mem := u;
             sp_pending := false; sp_out := [] |}
  end.

(** Another process writes [n] bytes at [from] of its memory [v] to the device. *)
Definition other_writes (v : umem) (from n : Z) (s : sigprog) : run sigprog :=
  '(_, d, ev) ← write cfg (sp_dev s) true v from n;
  mret {| sp_dev := d; sp_file := sp_file s; sp_mem := sp_mem s;
          sp_pending := sp_pending s || signalled (sp_file s) ev; sp_out := sp_out s |}.

(** The delivery of SIGIO; the array of the handler is at [buf].  The file is not
    O_NONBLOCK, and SIGIO is blocked while the handler runs. *)
Definition on_sigio (buf : Z) (s : sigprog) : run sigprog :=
  '(n, d, u, ev) ← read cfg (sp_dev s) false (sp_mem s) buf (MAX_LEN - 1);
  text ← input_handler (if n <? 0 then None else ubytes u buf n);
  mret {| sp_dev := d; sp_file := sp_file s; sp_mem := u; sp_pending := signalled (sp_file s) ev;
          sp_out := sp_out s ++ [text] |}.

(** Writes of other processes, each followed by the handler. *)
Fixpoint rounds (buf : Z) (ws : list (umem * Z * Z)) (s : sigprog) : run sigprog :=
  match ws with
  | [] => mret s
  | (v, from, n) :: ws => s ← other_writes v from n s; s ← on_sigio buf s; rounds buf ws s
  end.
End SignalProgram.

(** ** netlink.c *)
Definition MAX_PAYLOAD : Z := 1024.
Definition NLMSG_SPACE (len : Z) : Z := (NLMSG_HDRLEN + len + 3) / 4 * 4.
Definition be32 (v : Z) : list Z := [v / 16777216; v / 65536 mod 256; v / 256 mod 256; v mod 256].
Definition cpu32 (big_endian : bool) (v : Z) : list Z := if big_endian then be32 v else rev (be32 v).
Definition connect_msg : list Z := str "connect to kernel".

(** The message: [heap] is the memory [malloc] gave, as it was.  The fields of the header
    that are set are the length, the port and the flags. *)
Definition client_message (big_endian : bool) (heap : list Z) (pid : Z) : run (list Z) :=
  m ← access (store_bytes heap 0 (cpu32 big_endian (NLMSG_SPACE MAX_PAYLOAD)));
  m ← access (store_bytes m 12 (cpu32 big_endian pid));
  m ← access (store_bytes m 6 [0; 0]);
  access (store_bytes m NLMSG_HDRLEN (connect_msg ++ [0])).

Inductive nl_line := NlSendError | NlRecvError | NlText (t : list Z).

(** The loop over what [recvmsg] answers, a message or an error; the text in [buf] is
    printed after an error as well.  Without an answer the program waits. *)
Fixpoint client_loop (rs : list (option (list Z))) (buf : list Z) (out : list nl_line) : run (list nl_line) :=
  match rs with
  | [] => mret out
  | r :: rs =>
      buf ← match r with
            | Some bs => access (store_bytes buf 0 (take (Z.to_nat (NLMSG_SPACE MAX_PAYLOAD)) bs))
            | None => mret buf
            end;
      let out := match r with Some _ => out | None => out ++ [NlRecvError] end in
      text ← access (until_nul (drop (Z.to_nat NLMSG_HDRLEN) buf));
      client_loop rs buf (out ++ [NlText text])
  end.

(** [sock]: whether the socket was created; [heap]: what [malloc] gives; [send]: whether
    [sendmsg] succeeds.  The result: the value of [main], [None] in the loop; the messages
    sent; the output. *)
Definition client_main (big_endian sock : bool) (heap : option (list Z)) (pid : Z) (send : bool) (rs : list (option (list Z)))
    : run (option Z * list (list Z) * list nl_line) :=
  if negb sock then mret (Some (-1), [], [])
  else
    heap ← access heap;
    m ← client_message big_endian heap pid;
    out ← client_loop rs (zeros (Z.to_nat (NLMSG_SPACE MAX_PAYLOAD))) (if send then [] else [NlSendError]);
    mret (None, if send then [m] else [], out).

(** ** Lemmas *)
Section Ready.
Context (cfg : gfifo_cfg) (devs : gmap Z gfifo_dev).
Context (Hok : ∀ fd d, devs !! fd = Some d → gfifo_ok cfg d).

(** The handler never reports an error or a hang-up. *)
Lemma ep_ready_0 fd : ep_ready cfg devs fd 0 = false.
Proof using.
  unfold ep_ready, mask_of. destruct (devs !! fd) as [d|]; [|done]. unfold poll.
  by destruct (cur_len d =? 0), (cur_len d =? GFIFO_SIZE cfg).
Qed.

Lemma ep_ready_in fd d :
  devs !! fd = Some d → ep_ready cfg devs fd (Z.lor EPOLLIN EPOLLPRI) = true ↔ queue d ≠ [].
Proof using Hok.
  intros Hd. rewrite (queue_nil cfg) by eauto. unfold ep_ready, mask_of. rewrite Hd. unfold poll.
  by destruct (Z.eqb_spec (cur_len d) 0), (cur_len d =? GFIFO_SIZE cfg).
Qed.

Lemma in_set_in beyond nfds fd d :
  devs !! fd = Some d → fd < nfds → in_set cfg beyond nfds POLLIN_SET devs fd = true ↔ queue d ≠ [].
Proof using Hok.
  intros Hd Hn. rewrite (queue_nil cfg) by eauto. unfold in_set, mask_of. if_true. rewrite Hd. unfold poll.
  by destruct (Z.eqb_spec (cur_len d) 0), (cur_len d =? GFIFO_SIZE cfg).
Qed.

Lemma in_set_out beyond nfds fd d :
  devs !! fd = Some d → fd < nfds →
  in_set cfg beyond nfds POLLOUT_SET devs fd = true ↔ Z.of_nat (length (queue d)) < GFIFO_SIZE cfg.
Proof using Hok.
  intros Hd Hn. pose proof (Hok _ _ Hd) as Hdo. rewrite (length_queue cfg) by done. destruct Hdo as [_ Hc].
  unfold in_set, mask_of. if_true. rewrite Hd. unfold poll.
  destruct (Z.eqb_spec (cur_len d) 0), (Z.eqb_spec (cur_len d) (GFIFO_SIZE cfg)); cbn; split; intros; lia || done.
Qed.
End Ready.

Lemma elem_of_concat_imap {A B} (f : nat → A → list B) l x :
  x ∈ concat (imap f l) ↔ ∃ i a, l !! i = Some a ∧ x ∈ f i a.
Proof.
  rewrite list_elem_of_In, in_concat. split.
  - intros (k & Hk & Hx). apply list_elem_of_In, list_elem_of_lookup in Hk as (i & Hi).
    rewrite list_lookup_imap in Hi. destruct (l !! i) as [a|] eqn:Ha; [|done]. injection Hi as <-.
    exists i, a. by rewrite list_elem_of_In.
  - intros (i & a & Ha & Hx). exists (f i a). split; [|by apply list_elem_of_In].
    apply list_elem_of_In, list_elem_of_lookup. exists i. by rewrite list_lookup_imap, Ha.
Qed.

Section Epoll.
Context (cfg : gfifo_cfg).

(** Clearing a device that is there prints nothing. *)
Lemma do_clear_ok n fd w :
  is_Some (tw_devs w !! fd) →
  tw_out (do_clear cfg n fd w) = tw_out w ∧ tw_fds (do_clear cfg n fd w) = tw_fds w ∧
  tw_interest (do_clear cfg n fd w) = tw_interest w ∧
  ∀ x, is_Some (tw_devs w !! x) → is_Some (tw_devs (do_clear cfg n fd w) !! x).
Proof using.
  intros [d Hd]. unfold do_clear. rewrite Hd. simpl. split_and!; [done..|]. intros x Hx.
  destruct (decide (x = fd)) as [->|Hne]; [rewrite lookup_insert_eq; eauto|by rewrite lookup_insert_ne].
Qed.

Lemma interest_set ep i w : interest ep (set_interest ep i w) = i.
Proof using. unfold interest. simpl. by rewrite lookup_insert_eq. Qed.

Context (a : ep_answers).
Let ep := ea_create a.

Lemma add_all_ok i fds w :
  (∀ fd, ea_add a fd = true) → (∀ fd, fd ∈ fds → is_Some (tw_devs w !! fd)) → NoDup fds →
  ∃ w', add_all cfg a i fds w = (true, w') ∧ tw_out w' = tw_out w ∧ tw_fds w' = tw_fds w ∧
    (∀ j fd, fds !! j = Some fd → interest ep w' !! fd = Some (ev_gfifo (i + j))) ∧
    (∀ fd, fd ∉ fds → interest ep w' !! fd = interest ep w !! fd).
Proof using.
  intros Hadd. revert i w. induction fds as [|fd fds IH]; intros i w Hd Hnd; cbn [add_all].
  { exists w. split_and!; [done..|]. done. }
  apply NoDup_cons in Hnd as [Hnin Hnd].
  destruct (do_clear_ok i fd w) as (H1 & H2 & H3 & H4); [apply Hd; set_solver|]. rewrite Hadd. cbn [negb].
  set (w1 := do_clear cfg i fd w) in *.
  destruct (IH (S i) (set_interest ep (<[fd := ev_gfifo i]> (interest ep w1)) w1)) as (w' & E & Ho & Hf & Hi & Hn); [|done|].
  { intros x Hx. simpl. apply H4, Hd. set_solver. }
  exists w'. split; [exact E|]. split; [rewrite Ho; exact H1|]. split; [rewrite Hf; exact H2|].
  assert (interest ep w1 = interest ep w) as Ei by (unfold interest; by rewrite H3). split.
  - intros [|j] x Hx; cbn in Hx; [injection Hx as ->|].
    + rewrite Hn by done. rewrite interest_set, lookup_insert_eq. by rewrite Nat.add_0_r.
    + rewrite (Hi j x Hx). by rewrite Nat.add_succ_r.
  - intros x Hx. rewrite Hn, interest_set, lookup_insert_ne, Ei by set_solver. done.
Qed.

Lemma del_all_ok fds w :
  (∀ fd, ea_del a fd = true) →
  ∃ w', del_all a fds w = (true, w') ∧ tw_out w' = tw_out w ∧ tw_fds w' = tw_fds w ∧
    ∀ fd, interest ep w' !! fd = if decide (fd ∈ fds) then None else interest ep w !! fd.
Proof using.
  intros Hdel. revert w. induction fds as [|fd fds IH]; intros w; cbn [del_all].
  { exists w. split_and!; [done..|]. intros fd. rewrite decide_False; [done|set_solver]. }
  rewrite Hdel. cbn [negb]. destruct (IH (set_interest ep (delete fd (interest ep w)) w)) as (w' & E & Ho & Hf & Hi).
  exists w'. split; [exact E|]. split; [done|]. split; [done|].
  intros x. rewrite Hi, interest_set. destruct (decide (x ∈ fds)) as [Hx|Hx].
  - rewrite decide_True by set_solver. done.
  - destruct (decide (x = fd)) as [->|Hne].
    + rewrite lookup_delete_eq, decide_True by set_solver. done.
    + rewrite lookup_delete_ne, decide_False by set_solver. done.
Qed.
End Epoll.

(** ** Theorems *)

(** The epoll test of gfifo_poll.c cannot see data.  The event structure it passes
    to [EPOLL_CTL_ADD] is cleared, so that only errors and hang-ups are waited for,
    which the drivers never report: whatever is in the queue, the program prints that
    there is no data. *)
Theorem gfifo_poll_epoll_blind cfg a fd w :
  0 <= ea_create a → ea_add a fd = true → ea_del a fd = true → ea_wait_fails a = false → is_Some (tw_devs w !! fd) →
  tw_interest w !! ea_create a = None →
  ∃ w', epoll_body cfg a fd w = (0, w') ∧ tw_out w' = tw_out w ++ [MsgNoData] ∧ tw_devs w' = ea_now a.
Proof.
  intros He Ha Hd Hw Hf Hi. unfold epoll_body. if_false. rewrite Ha, Hd, Hw. cbn [negb].
  destruct (do_clear_ok cfg 0 fd w Hf) as (H1 & _ & H3 & _).
  change (interest (ea_create a) (set_devs (ea_now a) ?w)) with (interest (ea_create a) w). rewrite interest_set.
  assert (interest (ea_create a) (open_fd (ea_create a) (do_clear cfg 0 fd w)) = ∅) as ->
    by (unfold interest; cbn [open_fd tw_interest]; by rewrite H3, Hi).
  unfold epoll_wait. rewrite insert_empty, map_to_list_singleton. cbn [omap list_omap ee_events ev_zero]. rewrite ep_ready_0.
  eexists. split; [reflexivity|]. simpl. by rewrite H1.
Qed.

Lemma length_omap_le {A B} (f : A → option B) (l : list A) : (length (omap f l) <= length l)%nat.
Proof. induction l as [|x l IH]; [done|]. cbn. destruct (f x); cbn; lia. Qed.

(** What the wait fills in, when there is room for all: the pointers of the ready
    descriptors. *)
Lemma epoll_wait_ptrs cfg n i devs p :
  (size i <= n)%nat →
  p ∈ ee_ptr <$> epoll_wait cfg n i devs ↔ ∃ fd ev, i !! fd = Some ev ∧ ee_ptr ev = p ∧ ep_ready cfg devs fd (ee_events ev) = true.
Proof.
  intros Hn. unfold epoll_wait. rewrite take_ge.
  2:{ etransitivity; [apply length_omap_le|]. by rewrite length_map_to_list. }
  rewrite list_elem_of_fmap. setoid_rewrite list_elem_of_omap. split.
  - intros (ev' & -> & [fd ev] & Hin%elem_of_map_to_list & H). exists fd, ev. destruct (ep_ready _ _ _ _); [|done].
    by injection H as <-.
  - intros (fd & ev & Hi & <- & Hr). eexists. split; [|exists (fd, ev); split; [by apply elem_of_map_to_list|by rewrite Hr]]. done.
Qed.

(** C27: the epoll test of gfifo_poll_n.c reports exactly the fifos that hold data.  With
    distinct descriptors of devices that are there and calls that succeed, it returns 0,
    prints the name of exactly those devices whose queue is not empty when the wait ends,
    through the pointer each was added with, says that there is no data when all are
    empty, and has removed every device from the interest list; the epoll descriptor
    itself is left open. *)
Theorem gfifo_poll_n_epoll_reports cfg a fds w :
  0 <= ea_create a → (∀ fd, ea_add a fd = true) → (∀ fd, ea_del a fd = true) → ea_wait_fails a = false →
  tw_interest w !! ea_create a = None → NoDup fds →
  (∀ fd, fd ∈ fds → is_Some (tw_devs w !! fd)) → (∀ fd, fd ∈ fds → is_Some (ea_now a !! fd)) →
  (∀ fd d, ea_now a !! fd = Some d → gfifo_ok cfg d) →
  ∃ w' ms, epoll_body_n cfg a fds w = (0, w') ∧ tw_out w' = tw_out w ++ ms ∧
    (∀ p, MsgFifoNotEmpty p ∈ ms ↔ ∃ i fd d, p = Some i ∧ fds !! i = Some fd ∧ ea_now a !! fd = Some d ∧ queue d ≠ []) ∧
    (MsgNoData ∈ ms ↔ ∀ fd d, fd ∈ fds → ea_now a !! fd = Some d → queue d = []) ∧
    interest (ea_create a) w' = ∅ ∧ ea_create a ∈ tw_fds w'.
Proof.
  intros He Ha Hd Hw Hi Hnd Hds Hnow Hok. unfold epoll_body_n. if_false.
  destruct (add_all_ok cfg a 0 fds (open_fd (ea_create a) w) Ha Hds Hnd) as (w1 & -> & Ho1 & Hf1 & Hi1 & Hn1). cbn [negb].
  rewrite Hw. cbn [tw_devs set_devs]. change (interest (ea_create a) (set_devs (ea_now a) w1)) with (interest (ea_create a) w1).
  set (I := interest (ea_create a) w1) in *.
  assert (∀ fd ev, I !! fd = Some ev ↔ ∃ i, fds !! i = Some fd ∧ ev = ev_gfifo i) as HI.
  { intros fd ev. split.
    - intros E. destruct (decide (fd ∈ fds)) as [Hin|Hin].
      + apply list_elem_of_lookup in Hin as (j & Hj). exists j. split; [done|]. rewrite (Hi1 j fd Hj) in E. by injection E as <-.
      + rewrite Hn1 in E by done. unfold interest in E. simpl in E. by rewrite Hi in E.
    - intros (j & Hj & ->). by rewrite (Hi1 j fd Hj). }
  assert (size I <= length fds)%nat as Hsz.
  { rewrite <- size_dom, <- (size_list_to_set (C := gset Z) fds) by done. apply subseteq_size. intros fd [ev E]%elem_of_dom.
    apply HI in E as (j & Hj & _). apply elem_of_list_to_set. by eapply list_elem_of_lookup_2. }
  set (evs := epoll_wait cfg (length fds) I (ea_now a)).
  assert (∀ p, p ∈ ee_ptr <$> evs ↔ ∃ i fd d, p = Some i ∧ fds !! i = Some fd ∧ ea_now a !! fd = Some d ∧ queue d ≠ []) as Hp.
  { intros p. unfold evs. rewrite epoll_wait_ptrs by done. split.
    - intros (fd & ev & (i & Hj & ->)%HI & <- & Hr). destruct (Hnow fd) as [d Hdv]; [by eapply list_elem_of_lookup_2|].
      exists i, fd, d. split_and!; [done..|]. by apply (ep_ready_in cfg (ea_now a) Hok fd d Hdv).
    - intros (i & fd & d & -> & Hj & Hdv & Hq). exists fd, (ev_gfifo i). split; [apply HI; eauto|]. split; [done|].
      by apply (ep_ready_in cfg (ea_now a) Hok fd d Hdv). }
  set (out := match evs with [] => [MsgNoData] | _ => ready_msgs evs end).
  assert ((match evs with [] => say [MsgNoData] (set_devs (ea_now a) w1) | e :: l => say (ready_msgs (e :: l)) (set_devs (ea_now a) w1) end) =
    say out (set_devs (ea_now a) w1)) as -> by (subst out; by destruct evs).
  destruct (del_all_ok a fds (say out (set_devs (ea_now a) w1)) Hd) as (w2 & -> & Ho2 & Hf2 & Hi2).
  exists w2, out. split; [done|]. split; [rewrite Ho2; simpl; by rewrite Ho1|].
  split; [|split; [|split]].
  - intros p. rewrite <- Hp. subst out. unfold ready_msgs. destruct evs as [|e l]; [set_solver|].
    rewrite !list_elem_of_fmap. split; [intros (y & [= ->] & ?)|intros (y & -> & ?)]; eauto.
  - subst out. destruct evs as [|e l] eqn:El.
    + split; [|set_solver]. intros _ fd d Hin Hdv. destruct (decide (queue d = [])) as [|Hq]; [done|].
      apply list_elem_of_lookup in Hin as (i & Hj). assert (Some i ∈ ee_ptr <$> @nil epoll_event) as Hx; [apply Hp; eauto 9|set_solver].
    + split; [unfold ready_msgs; rewrite list_elem_of_fmap; by intros (? & [=] & _)|]. intros Hall.
      destruct (proj1 (Hp (ee_ptr e))) as (i & fd & d & _ & Hj & Hdv & Hq); [set_solver|].
      destruct Hq. apply (Hall fd); [by eapply list_elem_of_lookup_2|done].
  - apply map_eq. intros fd. rewrite Hi2, lookup_empty. change (interest (ea_create a) (say out (set_devs (ea_now a) w1))) with I.
    destruct (decide (fd ∈ fds)); [done|]. rewrite Hn1 by done. unfold interest. simpl. by rewrite Hi.
  - rewrite Hf2. simpl. rewrite Hf1. simpl. set_solver.
Qed.

(** The select test of gfifo_poll_n.c: when no descriptor is above the last one, every
    turn reports a fifo readable exactly when it holds data and writable exactly when it
    has room; a descriptor above the last is not looked at, and what is printed for it
    does not depend on its fifo. *)
Theorem gfifo_poll_n_select_reports cfg beyond fds now i fd d :
  fds !! i = Some fd → now !! fd = Some d → (∀ fd d, now !! fd = Some d → gfifo_ok cfg d) →
  if fd <=? default 0 (last fds)
  then (MsgReadable i ∈ poll_turn_n cfg beyond fds now ↔ queue d ≠ []) ∧
       (MsgWritable i ∈ poll_turn_n cfg beyond fds now ↔ Z.of_nat (length (queue d)) < GFIFO_SIZE cfg)
  else (MsgReadable i ∈ poll_turn_n cfg beyond fds now ↔ beyond = true) ∧
       (MsgWritable i ∈ poll_turn_n cfg beyond fds now ↔ beyond = true).
Proof.
  intros Hi Hd Hok. set (nfds := default 0 (last fds) + 1).
  assert ((MsgReadable i ∈ poll_turn_n cfg beyond fds now ↔ in_set cfg beyond nfds POLLIN_SET now fd = true) ∧
          (MsgWritable i ∈ poll_turn_n cfg beyond fds now ↔ in_set cfg beyond nfds POLLOUT_SET now fd = true)) as [Hr Hw].
  { unfold poll_turn_n. rewrite !elem_of_concat_imap. fold nfds. split; split.
    - intros (j & x & Hj & Hx). destruct (in_set _ _ _ POLLIN_SET _ x) eqn:E1, (in_set _ _ _ POLLOUT_SET _ x);
        simpl in Hx; set_unfold in Hx; destruct_or? Hx; simplify_eq; done.
    - intros E. exists i, fd. rewrite E. split; [done|]. set_solver.
    - intros (j & x & Hj & Hx). destruct (in_set _ _ _ POLLIN_SET _ x), (in_set _ _ _ POLLOUT_SET _ x) eqn:E1;
        simpl in Hx; set_unfold in Hx; destruct_or? Hx; simplify_eq; done.
    - intros E. exists i, fd. rewrite E. split; [done|]. set_solver. }
  destruct (Z.leb_spec fd (default 0 (last fds))); rewrite Hr, Hw.
  - split; [apply (in_set_in cfg now Hok)|apply (in_set_out cfg now Hok)]; done || (subst nfds; lia).
  - unfold in_set. assert ((fd <? nfds) = false) as -> by (apply Z.ltb_ge; subst nfds; lia). done.
Qed.

Lemma do_clear_fds cfg n fd w : tw_fds (do_clear cfg n fd w) = tw_fds w.
Proof. unfold do_clear. destruct (tw_devs w !! fd); done. Qed.
Lemma clear_all_fds cfg i fds w : tw_fds (clear_all cfg i fds w) = tw_fds w.
Proof. revert i w. induction fds as [|fd fds IH]; intros i w; simpl; [done|]. by rewrite IH, do_clear_fds. Qed.
Lemma poll_loop_n_fds cfg b fds nows w : tw_fds (poll_loop_n cfg b fds nows w) = tw_fds w.
Proof. revert w. induction nows as [|now nows IH]; intros w; simpl; [done|]. by rewrite IH. Qed.
Lemma add_all_fds cfg a i fds w : tw_fds (add_all cfg a i fds w).2 = tw_fds w.
Proof.
  revert i w. induction fds as [|fd fds IH]; intros i w; simpl; [done|]. destruct (ea_add a fd); simpl; [rewrite IH; simpl|];
    apply do_clear_fds.
Qed.
Lemma del_all_fds a fds w : tw_fds (del_all a fds w).2 = tw_fds w.
Proof. revert w. induction fds as [|fd fds IH]; intros w; simpl; [done|]. destruct (ea_del a fd); simpl; [by rewrite IH|done]. Qed.

Lemma epoll_body_n_fds cfg a fds w : tw_fds (epoll_body_n cfg a fds w).2 ⊆ {[ea_create a]} ∪ tw_fds w.
Proof.
  unfold epoll_body_n. destruct (_ <? _); [set_solver|].
  pose proof (add_all_fds cfg a 0 fds (open_fd (ea_create a) w)) as H1.
  destruct (add_all _ _ _ _ _) as [ok w1]. simpl in H1. destruct ok; simpl; [|by rewrite H1].
  match goal with |- context [del_all a fds ?x] => pose proof (del_all_fds a fds x) as H2; destruct (del_all a fds x) as [ok w2] end.
  simpl in *. rewrite H2. destruct (ea_wait_fails a); [simpl; by rewrite H1|]. by destruct (epoll_wait _ _ _ _); simpl; rewrite H1.
Qed.

Lemma close_fds_spec fds w x : x ∈ tw_fds (close_fds fds w) ↔ x ∈ tw_fds w ∧ (x ∉ fds ∨ x = -1).
Proof.
  revert w. induction fds as [|fd fds IH]; intros w; simpl; [set_solver|]. rewrite IH, not_elem_of_cons.
  destruct (Z.eqb_spec fd (-1)) as [->|Hne]; simpl; [destruct (decide (x = -1)); tauto|].
  rewrite elem_of_difference, elem_of_singleton. destruct (decide (x = -1)) as [->|]; [naive_solver congruence|tauto].
Qed.

Lemma open_all_ok i opens w :
  Z.of_nat (i + length opens) <= FD_ARRAY_SIZE →
  ∃ ok w', open_all i opens w = Done (ok, w') ∧ ∀ x, x ∈ tw_fds w' → x ∈ tw_fds w ∨ x ∈ opens ∧ x ≠ -1.
Proof.
  revert i w. induction opens as [|fd opens IH]; intros i w Hl; simpl; [eexists _, _; split; [done|auto]|].
  simpl in Hl. if_false. destruct (Z.eqb_spec fd (-1)) as [->|Hne].
  - destruct (IH (S i) (say [MsgOpenFailed i] w)) as (ok & w' & -> & H); [lia|]. eexists _, _. split; [done|].
    intros x Hx. destruct (H x Hx) as [?|[??]]; [by left|right; set_solver].
  - destruct (IH (S i) (open_fd fd w)) as (ok & w' & -> & H); [lia|]. eexists _, _. split; [done|].
    intros x Hx. destruct (H x Hx) as [Hi|[??]]; [|right; set_solver]. simpl in Hi. set_solver.
Qed.

Lemma open_all_overrun i opens w :
  Z.of_nat i <= FD_ARRAY_SIZE → FD_ARRAY_SIZE < Z.of_nat (i + length opens) → open_all i opens w = Undef.
Proof.
  revert i w. induction opens as [|fd opens IH]; intros i w Hi Hl; simpl in *; [lia|].
  destruct (Z.leb_spec FD_ARRAY_SIZE (Z.of_nat i)); [done|]. destruct (fd =? -1); rewrite IH by lia; done.
Qed.

(** gfifo_poll_n.c closes every device it opened.  For up to twenty devices, in
    every mode and whatever calls fail, the descriptors open at the end were open before
    or are that of epoll, which is never closed; with more than twenty the program
    writes past its array of descriptors. *)
Theorem gfifo_poll_n_closes cfg sig_ok beyond mode opens nows a w :
  -1 ∉ tw_fds w →
  if negb sig_ok || (Z.of_nat (length opens) <=? FD_ARRAY_SIZE)
  then ∃ r w', main_n cfg sig_ok beyond mode opens nows a w = Done (r, w') ∧
         ∀ x, x ∈ tw_fds w' → x ∈ tw_fds w ∨ x = ea_create a
  else main_n cfg sig_ok beyond mode opens nows a w = Undef.
Proof.
  intros Hw. unfold main_n. destruct sig_ok; cbn [negb orb]; [|eexists _, _; split; [done|auto]]. destruct (Z.leb_spec (Z.of_nat (length opens)) FD_ARRAY_SIZE).
  - destruct (Nat.eqb_spec (length opens) 0); [eexists _, _; split; [done|auto]|].
    destruct (open_all_ok 0 opens w) as (ok & w1 & -> & H1); [done|]. cbn [mbind run_bind].
    eexists _, _. split; [reflexivity|]. intros x. rewrite close_fds_spec.
    match goal with |- context [tw_fds ?y] => assert (tw_fds y ⊆ {[ea_create a]} ∪ tw_fds w1) as Hs end.
    { destruct ok; cbn [negb]; [|set_solver]. destruct (_ || _); [|destruct (_ || _); [apply epoll_body_n_fds|set_solver]].
      unfold poll_body_n. rewrite poll_loop_n_fds, clear_all_fds. set_solver. }
    intros [Hx Ho]. apply Hs in Hx. set_unfold in Hx. destruct Hx as [->|Hx]; [by right|].
    destruct (H1 _ Hx) as [?|[Hin Hne]]; [by left|]. by destruct Ho.
  - destruct (Nat.eqb_spec (length opens) 0); [unfold FD_ARRAY_SIZE in *; lia|]. by rewrite open_all_overrun by (unfold FD_ARRAY_SIZE in *; lia).
Qed.

(** The SIGIO handler of gfifo_signal.c prints what it read up to a NUL, and stores
    before its array when the read fails, with EAGAIN after another reader or EINTR. *)
Theorem gfifo_signal_handler_bounds bs :
  input_handler None = Undef ∧
  (Forall (λ c, c ≠ 0) bs → (length bs <= 99)%nat → input_handler (Some bs) = Done bs).
Proof.
  split; [reflexivity|]. intros Hn Hl. unfold input_handler. change (Z.to_nat (MAX_LEN - 1)) with 99%nat.
  change (Z.to_nat MAX_LEN) with 100%nat. change (default [] (Some bs)) with bs. rewrite (take_ge bs) by lia.
  rewrite store_bytes_in by (rewrite ?length_zeros; lia). cbn [access mbind run_bind].
  assert (splice (zeros 100) (Z.to_nat 0) bs = bs ++ zeros (100 - length bs)) as ->.
  { unfold splice. change (Z.to_nat 0) with 0%nat. rewrite take_0. cbn [app Nat.add]. unfold zeros. by rewrite drop_replicate. }
  rewrite store_bytes_in by (rewrite ?length_app, ?length_zeros; simpl; lia). cbn [access mbind run_bind].
  unfold splice. rewrite Nat2Z.id, take_app_length. f_equal. by apply cstr_app_nul.
Qed.

Section Signal.
Context {UA : UserAccess} {UAok : UserAccessOk UA} {MC : Memcpy} {MD : MemcpyDoc MC} {FA : FasyncApi} {FAok : FasyncOk FA}.
Context (cfg : gfifo_cfg) (Hcfg : cfg_ok cfg) (Hasync : has_fasync cfg = true).
(** The array of the handler is memory of the process, and stays so. *)
Context (buf : Z) (ready : umem → Prop).
Context (Hready : ∀ u bs, ready u → (length bs <= 99)%nat → (copy_to_user u buf bs).2 = 0 ∧ ready (copy_to_user u buf bs).1).

Lemma signalled_notify f d b w : (∀ s, w ≠ Sigio s) → signalled f (w :: notify cfg d b) = bool_decide (f ∈ async_queue d).
Proof.
  intros Hw. apply eq_bool_prop_intro. rewrite bool_decide_spec, Is_true_true. unfold signalled. cbn [existsb].
  assert ((match w with Sigio s => (sig_file s =? f)%nat | _ => false end) = false) as ->
    by (destruct w as [| |x]; [done..|by destruct (Hw x)]).
  rewrite orb_false_l, existsb_exists. setoid_rewrite <- list_elem_of_In. split.
  - intros (e & He & Hf). destruct e as [| |[g b']]; try done. apply Nat.eqb_eq in Hf. simpl in Hf. subst.
    by apply (elem_of_notify cfg d b f b' Hasync) in He as [? _].
  - intros H. exists (Sigio {| sig_file := f; sig_band := b |}). split; [|apply Nat.eqb_refl].
    by apply (elem_of_notify cfg d b f b Hasync).
Qed.

(** The program between rounds: the queue is empty and its file is registered. *)
Definition idle (s : sigprog) : Prop :=
  gfifo_ok cfg (sp_dev s) ∧ queue (sp_dev s) = [] ∧ sp_file s ∈ async_queue (sp_dev s) ∧ ready (sp_mem s).

Lemma idle_sleeps s : idle s → on_sigio cfg buf s = Block.
Proof.
  intros (Hd & Hq & _). unfold on_sigio, read. apply (queue_nil cfg) in Hq; [|done]. by rewrite Hq.
Qed.

(** A line a process can send at once. *)
Definition line_ok (w : umem * Z * Z) (bs : list Z) : Prop :=
  ubytes w.1.1 w.1.2 w.2 = Some bs ∧ 0 < w.2 <= 99 ∧ w.2 <= GFIFO_SIZE cfg ∧ Z.of_nat (length bs) = w.2 ∧
  Forall (λ c, c ≠ 0) bs.

(** The write fills the queue with the line and makes SIGIO pending. *)
Lemma write_round s v from n bs :
  idle s → line_ok (v, from, n) bs →
  ∃ d, other_writes cfg v from n s =
      Done {| sp_dev := d; sp_file := sp_file s; sp_mem := sp_mem s; sp_pending := true; sp_out := sp_out s |} ∧
    gfifo_ok cfg d ∧ queue d = bs ∧ sp_file s ∈ async_queue d.
Proof.
  intros (Hd & Hq & Hf & Hm) (Hb & Hn & Hsz & Hl & Hz). cbn [fst snd] in *. pose proof Hcfg as [? ?].
  pose proof (proj1 (queue_nil cfg _ Hd) Hq) as Hc0.
  pose proof (write_copy_spec cfg Hcfg (sp_dev s) v from n Hd ltac:(lia)) as Hw. cbv zeta in Hw.
  rewrite Hc0, Z.sub_0_r, Z.min_l, (cfu_accessible v from n bs) in Hw by (done || lia).
  destruct Hw as (d & Hd1 & Ha1 & Hw). rewrite Z.eqb_refl, Hq in Hw. destruct Hw as (Hw & Hq1 & Hc1).
  unfold other_writes, write. rewrite Hc0, Hw. if_false. cbn [mbind run_bind].
  rewrite signalled_notify, bool_decide_true, orb_true_r by done.
  exists d. split_and!; [done..|by rewrite Ha1].
Qed.

(** The handler prints the queue, and its read sends SIGIO to the program again. *)
Lemma handler_round s bs :
  gfifo_ok cfg (sp_dev s) → queue (sp_dev s) = bs → sp_file s ∈ async_queue (sp_dev s) → ready (sp_mem s) →
  (0 < length bs <= 99)%nat → Forall (λ c, c ≠ 0) bs →
  ∃ s', on_sigio cfg buf s = Done s' ∧ idle s' ∧ sp_pending s' = true ∧ sp_out s' = sp_out s ++ [bs].
Proof.
  intros Hd Hq Hf Hm Hl Hz. pose proof (length_queue cfg _ Hd) as Hc. rewrite Hq in Hc.
  pose proof (read_copy_spec cfg Hcfg (sp_dev s) (sp_mem s) buf 99 Hd ltac:(lia)) as Hr. cbv zeta in Hr.
  rewrite Hq, (take_ge bs) in Hr by lia. destruct (Hready (sp_mem s) bs Hm ltac:(lia)) as [Hr0 Hr1].
  pose proof (ctu_ok (sp_mem s) buf bs Hr0) as Hub. destruct (copy_to_user (sp_mem s) buf bs) as [u' rest].
  simpl in Hr0, Hr1, Hub. subst rest. destruct Hr as (d & Hr & Hd2 & Hq2 & _ & Ha2).
  rewrite Z.min_r, <- Hc in Hr by lia. unfold on_sigio, read. change (MAX_LEN - 1) with 99. if_false. rewrite Hr.
  cbn [mbind run_bind]. if_false. rewrite Hub, (proj2 (gfifo_signal_handler_bounds bs)) by (done || lia).
  cbn [mbind run_bind]. rewrite signalled_notify, bool_decide_true by done.
  eexists. split; [reflexivity|]. split; [|done]. split_and!; cbn [sp_dev sp_file sp_mem]; [done| |by rewrite Ha2|done].
  destruct Hq2 as [Hq2 _]. rewrite drop_ge in Hq2 by lia. by apply nil_length_inv.
Qed.

Lemma rounds_print ws bss s :
  idle s → Forall2 line_ok ws bss →
  ∃ s', rounds cfg buf ws s = Done s' ∧ idle s' ∧ sp_out s' = sp_out s ++ bss ∧
    sp_pending s' = (if decide (ws = []) then sp_pending s else true).
Proof.
  intros Hs H. revert s Hs. induction H as [|[[v from] n] bs ws bss Hl H IH]; intros s Hs.
  { exists s. rewrite app_nil_r. done. }
  destruct (write_round s v from n bs Hs Hl) as (d & E1 & Hd & Hq & Hf). destruct Hl as (_ & Hn & _ & Hl & Hz), Hs as (_ & _ & _ & Hm).
  cbn [fst snd] in *. destruct (handler_round {| sp_dev := d; sp_file := sp_file s; sp_mem := sp_mem s; sp_pending := true; sp_out := sp_out s |} bs)
    as (s2 & E2 & Hi & Hp & Ho); [done|done|done|done|lia|done|].
  destruct (IH s2 Hi) as (s' & E & Hi' & Ho' & Hp'). exists s'. cbn [rounds]. rewrite E1. cbn [mbind run_bind]. rewrite E2. cbn [mbind run_bind].
  split; [exact E|]. split; [done|]. rewrite Ho', Ho, <- app_assoc. split; [done|]. rewrite Hp', Hp. by destruct (decide (ws = [])).
Qed.
End Signal.

(** C26: gfifo_signal.c on a driver with notification prints the lines that are sent one
    at a time.  Started on an empty device, with lines of 1 to 99 bytes that are not NUL
    and fit the device, each written while the device is empty and handled before the
    next write, every write makes SIGIO pending and the handler prints exactly that
    line.  But the handler's own read makes the driver signal the program once more: when
    the handler returns it runs again and sleeps in its read, with SIGIO blocked, until
    the next line. *)
Theorem gfifo_signal_prints_lines {UA : UserAccess} {UAok : UserAccessOk UA} {MC : Memcpy} {MD : MemcpyDoc MC}
    {FA : FasyncApi} {FAok : FasyncOk FA} cfg name f d u buf ready ws bss :
  cfg_ok cfg → has_fasync cfg = true → gfifo_ok cfg d → queue d = [] → 0 <= (fasync d f true).2 → ready u →
  (∀ u bs, ready u → (length bs <= 99)%nat → (copy_to_user u buf bs).2 = 0 ∧ ready (copy_to_user u buf bs).1) →
  Forall2 (line_ok cfg) ws bss → ws ≠ [] →
  ∃ s0 s, signal_main cfg [name] (Some f) d u = inr s0 ∧ rounds cfg buf ws s0 = Done s ∧
    sp_out s = bss ∧ sp_pending s = true ∧ on_sigio cfg buf s = Block.
Proof.
  intros Hc Ha Hd Hq Hon Hu Hr Hws Hne. unfold signal_main. rewrite Ha.
  set (s0 := {| sp_dev := (fasync d f true).1; sp_file := f; sp_mem := u; sp_pending := false; sp_out := [] |}).
  assert (idle cfg ready s0) as Hi.
  { unfold idle, s0, fasync in *. pose proof (fasync_on f (async_queue d)) as Hadd.
    destruct (fasync_helper f true (async_queue d)) as [q r]. cbn [fst snd sp_dev sp_file sp_mem] in *. split; [exact Hd|]. split; [exact Hq|].
    split; [|done]. cbn [async_queue]. rewrite Hadd by done. set_solver. }
  destruct (rounds_print cfg Hc Ha buf ready Hr ws bss s0 Hi Hws) as (s & E & Hi' & Ho & Hp).
  exists s0, s. split; [reflexivity|]. split; [exact E|]. split; [by rewrite Ho|]. split; [|by eapply idle_sleeps].
  rewrite Hp. by destruct (decide (ws = [])).
Qed.

Lemma be_value_be32 v : 0 <= v → be_value (be32 v) = v.
Proof.
  intros Hv. unfold be_value, be32. cbn [foldl].
  assert (v / 65536 = v / 256 / 256) as E1 by (rewrite Z.div_div by lia; done).
  assert (v / 16777216 = v / 65536 / 256) as E2 by (rewrite Z.div_div by lia; done).
  pose proof (Z.div_mod v 256). pose proof (Z.div_mod (v / 256) 256). pose proof (Z.div_mod (v / 65536) 256). lia.
Qed.

(** The message has the port of the process in its header and the text behind it; all
    but 26 of its 1040 bytes are the memory of [malloc]. *)
Lemma client_message_ok big heap pid :
  Z.of_nat (length heap) = 1040 →
  ∃ m, client_message big heap pid = Done m ∧ length m = length heap ∧ take 4 (drop 12 m) = cpu32 big pid ∧
    drop 16 m = connect_msg ++ 0 :: drop 34 heap.
Proof.
  intros Hl. unfold client_message. change (NLMSG_SPACE MAX_PAYLOAD) with 1040. unfold NLMSG_HDRLEN.
  assert (∀ v, length (cpu32 big v) = 4%nat) as Hc by (intros v; by destruct big).
  rewrite store_bytes_in by (rewrite ?Hc; lia). cbn [access mbind run_bind].
  set (m1 := splice heap _ _). assert (length m1 = length heap) as L1 by (apply length_splice; rewrite Hc; lia).
  rewrite store_bytes_in by (rewrite ?L1, ?Hc; lia). cbn [access mbind run_bind].
  set (m2 := splice m1 _ _). assert (length m2 = length m1) as L2 by (apply length_splice; rewrite Hc; lia).
  rewrite store_bytes_in by (rewrite ?L2, ?L1; simpl; lia). cbn [access mbind run_bind].
  set (m3 := splice m2 _ _). assert (length m3 = length m2) as L3 by (apply length_splice; simpl; lia).
  rewrite store_bytes_in by (rewrite ?L3, ?L2, ?L1; simpl; lia). cbn [access].
  eexists. split; [reflexivity|]. split; [rewrite length_splice by (simpl; lia); congruence|].
  unfold m3, m2, m1. clear m3 m2 m1 L1 L2 L3.
  do 16 (destruct heap as [|? heap]; [simpl in Hl; lia|]). destruct big; split; reflexivity.
Qed.

(** The exchange of the netlink test program with the netlink driver.  For every
    content of the memory [malloc] and [alloc_skb] return, the message of the program is
    accepted by the driver, which answers once, to the port of the program, and the
    program prints the text of the driver; 1006 bytes of the program's heap go to the
    kernel with the message and 1002 bytes of kernel memory come back with the answer. *)
Theorem netlink_exchange big heap mem pid hdr w :
  Z.of_nat (length heap) = 1040 → Z.of_nat (length mem) = MAX_MSGSIZE → 0 <= pid → nl_sk w = true → length hdr = 16%nat →
  ∃ m payload w', client_main big true (Some heap) pid true [] = Done (None, [m], []) ∧
    recv_netlink_data big m (Some mem) w = Done w' ∧ nl_sent w' = nl_sent w ++ [(pid, payload)] ∧ nl_refs w' = nl_refs w ∧
    client_main big true (Some heap) pid true [Some (hdr ++ payload)] = Done (None, [m], [NlText k_msg]) ∧
    drop 34 m = drop 34 heap ∧ drop 22 payload = drop 22 mem.
Proof.
  intros Hl Hm Hp Hs Hh. destruct (client_message_ok big heap pid Hl) as (m & Em & Lm & Pm & Tm).
  unfold client_main. cbn [negb access mbind run_bind client_loop]. rewrite Em. cbn [mbind run_bind].
  unfold MAX_MSGSIZE in Hm.
  set (payload := splice mem 0 (k_msg ++ [0])).
  assert (length payload = length mem) as Lp by (apply length_splice; change (length (k_msg ++ [0])) with 22%nat; lia).
  exists m, payload, {| nl_sk := true; nl_refs := nl_refs w + 1 - 1; nl_sent := nl_sent w ++ [(pid, payload)] |}.
  split; [reflexivity|]. split.
  { unfold recv_netlink_data, NLMSG_HDRLEN. rewrite (proj2 (Z.ltb_ge _ _)) by lia. rewrite Tm, until_nul_app by (apply (bool_decide_unpack _); vm_compute; exact I).
    cbn [access mbind run_bind]. rewrite load_bytes_in by lia. change (Z.to_nat 12) with 12%nat. change (Z.to_nat 4) with 4%nat.
    rewrite Pm. cbn [access mbind run_bind].
    assert (be_value (if big then cpu32 big pid else rev (cpu32 big pid)) = pid) as ->
      by (destruct big; unfold cpu32; rewrite ?rev_involutive; by apply be_value_be32).
    unfold send_netlink_data. change (load_bytes (k_msg ++ [0]) 0 (Z.of_nat (length k_msg) + 1)) with (Some (k_msg ++ [0])).
    cbn [access mbind run_bind]. rewrite store_bytes_in by (change (Z.of_nat (length (k_msg ++ [0]))) with 22; lia).
    cbn [access mbind run_bind nl_sk]. rewrite Hs. reflexivity. }
  split; [done|]. split; [cbn [nl_refs]; lia|]. split.
  { change (Z.to_nat (NLMSG_SPACE MAX_PAYLOAD)) with 1040%nat. rewrite take_ge by (rewrite length_app; lia).
    rewrite store_bytes_in by (rewrite ?length_app, ?length_zeros; lia). cbn [access mbind run_bind].
    assert (splice (zeros 1040) (Z.to_nat 0) (hdr ++ payload) = hdr ++ payload) as ->.
    { unfold splice. change (Z.to_nat 0) with 0%nat. rewrite take_0. cbn [app]. rewrite drop_ge; [by rewrite app_nil_r|].
      rewrite length_app, length_zeros. lia. }
    change (Z.to_nat NLMSG_HDRLEN) with 16%nat. rewrite drop_app_length' by done.
    assert (payload = k_msg ++ 0 :: drop 22 mem) as -> by reflexivity.
    rewrite until_nul_app by (apply (bool_decide_unpack _); vm_compute; exact I). reflexivity. }
  split; [|reflexivity]. change 34%nat with (16 + 18)%nat. rewrite <- drop_drop, Tm. reflexivity.
Qed.

(** file_reader.c prints every chunk it reads and stops at the end of the file. *)
Theorem file_reader_prints f chunks rest :
  Forall (λ bs, Forall (λ c, c ≠ 0) bs ∧ (0 < length bs <= 1023)%nat) chunks →
  file_reader_main [f] (λ _, true) ((FrBytes <$> chunks) ++ FrEof :: rest) =
    Done (0, ((λ bs, FrData (Z.of_nat (length bs)) bs) <$> chunks) ++ [FrNoData]).
Proof.
  intros H. unfold file_reader_main. cbn [negb].
  cut (∀ out, reader_loop ((FrBytes <$> chunks) ++ FrEof :: rest) out =
    Done (0, out ++ ((λ bs, FrData (Z.of_nat (length bs)) bs) <$> chunks) ++ [FrNoData])); [by intros ->|].
  induction H as [|bs chunks [Hn Hl] _ IH]; intros out; [done|]. destruct bs as [|c bs]; [simpl in Hl; lia|].
  cbn [fmap list_fmap app reader_loop].
  change (Z.to_nat (BUFF_SIZE - 1)) with 1023%nat. change (Z.to_nat BUFF_SIZE) with 1024%nat. rewrite take_ge by lia.
  generalize dependent (c :: bs). clear c bs. intros l Hn Hl.
  rewrite store_bytes_in; [|lia|rewrite length_app, length_zeros; simpl; lia]. cbn [access mbind run_bind]. rewrite IH, <- app_assoc.
  do 3 f_equal. cbn [app]. f_equal. f_equal. unfold splice. change (Z.to_nat 0) with 0%nat. rewrite take_0. cbn [app].
  rewrite <- app_assoc. by apply cstr_app_nul.
Qed.

(** ** Concrete runs *)
Definition demo_cfg : gfifo_cfg := gfifo_nonblock_config.
Definition demo_empty : gfifo_dev := gfifo_zeroed demo_cfg.
Definition demo_full_dev : gfifo_dev :=
  {| mem := [7; 8] ++ zeros (Z.to_nat (GFIFO_SIZE demo_cfg) - 2); cur_len := 2; async_queue := ∅ |}.
Definition demo_world : tp_world :=
  {| tw_devs := {[5 := demo_empty; 6 := demo_empty]}; tw_fds := {[5; 6]}; tw_interest := ∅; tw_out := [] |}.
Definition demo_ep : ep_answers :=
  {| ea_create := 9; ea_add := λ _, true; ea_del := λ _, true; ea_wait_fails := false;
     ea_now := {[5 := demo_empty; 6 := demo_full_dev]} |}.

Lemma gfifo_poll_epoll_blind_witness :
  ∃ w', epoll_body demo_cfg demo_ep 6 demo_world = (0, w') ∧ tw_out w' = [MsgNoData] ∧
    tw_devs w' !! 6 = Some demo_full_dev.
Proof.
  destruct (gfifo_poll_epoll_blind demo_cfg demo_ep 6 demo_world) as (w' & H1 & H2 & H3); try reflexivity.
  - simpl. lia.
  - exists demo_empty. reflexivity.
  - exists w'. split; [exact H1|]. split; [exact H2|]. rewrite H3. reflexivity.
Defined.

Lemma demo_now_ok fd d : ea_now demo_ep !! fd = Some d → gfifo_ok demo_cfg d.
Proof.
  unfold demo_ep. cbn [ea_now]. rewrite lookup_insert_Some, lookup_singleton_Some.
  intros [[_ <-]|[_ [_ <-]]]; split; vm_compute; (reflexivity || (split; discriminate)).
Defined.

Lemma gfifo_poll_n_epoll_reports_witness :
  ∃ w' ms, epoll_body_n demo_cfg demo_ep [5; 6] demo_world = (0, w') ∧ tw_out w' = ms ∧ MsgFifoNotEmpty (Some 1%nat) ∈ ms ∧ MsgNoData ∉ ms.
Proof.
  destruct (gfifo_poll_n_epoll_reports demo_cfg demo_ep [5; 6] demo_world) as (w' & ms & H1 & H2 & H3 & H4 & _);
    try reflexivity; [simpl; lia|by apply (bool_decide_unpack _)| | |exact demo_now_ok|].
  - intros fd Hin. repeat (apply elem_of_cons in Hin as [->|Hin]; [eexists; reflexivity|]). by apply not_elem_of_nil in Hin.
  - intros fd Hin. repeat (apply elem_of_cons in Hin as [->|Hin]; [eexists; reflexivity|]). by apply not_elem_of_nil in Hin.
  - exists w', ms. split; [exact H1|]. split; [exact H2|]. split.
    + apply H3. exists 1%nat, 6, demo_full_dev. split; [reflexivity|]. split; [reflexivity|]. split; [reflexivity|]. discriminate.
    + rewrite H4. intros H. specialize (H 6 demo_full_dev). discriminate H; [set_solver|reflexivity].
Defined.

Lemma gfifo_poll_n_closes_witness :
  ∃ r w', main_n demo_cfg true true 101 [5; 6] [] demo_ep {| tw_devs := tw_devs demo_world; tw_fds := {[0; 1; 2]};
      tw_interest := ∅; tw_out := [] |} = Done (r, w') ∧
    ∀ x, x ∈ tw_fds w' → x ∈ ({[0; 1; 2]} : gset Z) ∨ x = 9.
Proof.
  assert (H := gfifo_poll_n_closes demo_cfg true true 101 [5; 6] [] demo_ep {| tw_devs := tw_devs demo_world;
      tw_fds := {[0; 1; 2]}; tw_interest := ∅; tw_out := [] |}).
  change (negb true || (Z.of_nat (length [5; 6]) <=? FD_ARRAY_SIZE)) with true in H. cbv iota in H.
  apply H. cbn [tw_fds]. set_solver by lia.
Defined.

(** The program on the 256-byte driver, with its handler's array at address 500. *)
Definition demo_stack : gmap Z Z := list_to_map ((λ k, (500 + Z.of_nat k, 0)) <$> seq 0 99).
Definition demo_lines : list (gmap Z Z * Z * Z) := [({[10 := 72; 11 := 105]}, 10, 2); ({[10 := 33]}, 10, 1)].
Definition demo_stack_ok (u : gmap Z Z) : Prop := ∀ k, 500 <= k < 599 → is_Some (u !! k).

Lemma put_stack u a bs :
  demo_stack_ok u → 500 <= a → a + Z.of_nat (length bs) <= 599 →
  (FlatUser.put u a bs).2 = 0 ∧ demo_stack_ok (FlatUser.put u a bs).1.
Proof.
  revert u a. induction bs as [|b bs IH]; intros u a Hu Ha Hl; [done|]. simpl in *.
  destruct (Hu a) as [x Hx]; [lia|]. rewrite Hx. apply IH; [|lia..].
  intros k Hk. destruct (decide (k = a)) as [->|]; [rewrite lookup_insert_eq|rewrite lookup_insert_ne by done]; eauto.
Qed.

Lemma gfifo_signal_prints_lines_witness :
  ∃ s0 s, signal_main (UA := FlatUser.flat_user) (FA := FasyncImpl.set_fasync) gfifo_async_config [str "/dev/gfifo"] (Some 3%nat)
      (gfifo_zeroed gfifo_async_config) demo_stack = inr s0 ∧
    rounds (UA := FlatUser.flat_user) (MC := MemcpyImpl.up) gfifo_async_config 500 demo_lines s0 = Done s ∧ sp_out s = [[72; 105]; [33]] ∧
    on_sigio (UA := FlatUser.flat_user) (MC := MemcpyImpl.up) gfifo_async_config 500 s = Block.
Proof.
  destruct (gfifo_signal_prints_lines (UAok := FlatUser.flat_user_ok) (MD := MemcpyImpl.up_doc) (FAok := FasyncImpl.set_fasync_ok)
    gfifo_async_config (str "/dev/gfifo") 3 (gfifo_zeroed gfifo_async_config) demo_stack 500 demo_stack_ok demo_lines [[72; 105]; [33]])
    as (s0 & s & H1 & H2 & H3 & _ & H4).
  - split; simpl; lia.
  - reflexivity.
  - split; simpl; lia.
  - reflexivity.
  - vm_compute. discriminate.
  - intros k Hk. unfold demo_stack. exists 0. apply elem_of_list_to_map.
    + vm_compute. apply (bool_decide_unpack _). vm_compute. exact I.
    + apply list_elem_of_fmap. exists (Z.to_nat (k - 500)). split; [f_equal; lia|]. apply elem_of_seq. lia.
  - intros u bs Hu Hl. apply put_stack; [done|lia|lia].
  - repeat constructor; simpl; lia.
  - discriminate.
  - exists s0, s. auto.
Defined.

Lemma netlink_exchange_witness :
  ∃ m payload w', client_main false true (Some (replicate 1040 7)) 4242 true [] = Done (None, [m], []) ∧
    recv_netlink_data false m (Some (replicate 1024 0x5a)) {| nl_sk := true; nl_refs := 1; nl_sent := [] |} = Done w' ∧
    nl_sent w' = [(4242, payload)] ∧
    client_main false true (Some (replicate 1040 7)) 4242 true [Some (zeros 16 ++ payload)] = Done (None, [m], [NlText k_msg]).
Proof.
  destruct (netlink_exchange false (replicate 1040 7) (replicate 1024 0x5a) 4242 (zeros 16)
    {| nl_sk := true; nl_refs := 1; nl_sent := [] |}) as (m & payload & w' & H1 & H2 & H3 & _ & H4 & _);
    [reflexivity|reflexivity|lia|reflexivity|reflexivity|].
  exists m, payload, w'. auto.
Defined.
