(* ===== verification/RelayLog.v ===== *)
(** * Log of the network relay: test_suite/netrelay/relay.c, dhcp_filter.c, eoe_filter.c

    The log function of relay.c and the packet dumps of the two relays, which print a
    packet in rows of sixteen bytes when the debug level is at least two. *)

From S2P Require Import Prelude KernelApi KString Libc MemTools Netrelay.

Definition LOG_ERR : Z := 3.
Definition LOG_DEBUG : Z := 7.
Definition MAX_LOG_BUF_SIZE : Z := 255.

(** Where a message goes. *)
Inductive sink := Syslog (priority : Z) | Stderr | Stdout.

(** [text]: the format with its arguments; [loc]: the source location as it is put before
    a message for syslog. *)
Definition myLogFun (g : prog) (loc : list Z) (priority : Z) (format text : list Z) : list (sink * list Z) :=
  if (priority =? LOG_DEBUG) && (logLevel g =? 0) then []
  else
    let sizeOfLogBuf := Z.of_nat (length format) + MAX_LOG_BUF_SIZE in
    let logBuf := take (Z.to_nat (sizeOfLogBuf - 1)) text in
    if negb (syslogEnabled g =? 0) then [(Syslog priority, loc ++ logBuf)]
    else if priority =? LOG_ERR then [(Stderr, logBuf)] else [(Stdout, logBuf)].

(** [%02X] *)
Definition upper (c : Z) : Z := if (97 <=? c) && (c <=? 122) then c - 32 else c.
Definition fmt_02X (b : Z) : list Z := upper <$> fmt_0x 2 b.
Definition cell (b : Z) : list Z := fmt_02X b ++ [32].
Definition total_text (n : Z) : list Z := [10] ++ str "Total size: " ++ fmt_d (s32 n) ++ [10].

Section Dump.
(** The globals, and the location of a line of the file. *)
Context (g : prog) (loc : Z → list Z).
Definition debug (n : Z) (format text : list Z) : list (sink * list Z) := myLogFun g (loc n) LOG_DEBUG format text.

(** dhcp_filter.c: the bytes from number [i] on; [line] is the array of 64. *)
Fixpoint dhcp_dump_loop (i : nat) (bs : list Z) (line : list Z) : run (list (sink * list Z) * list Z) :=
  match bs with
  | [] => mret ([], line)
  | b :: bs =>
      let head := if (i mod 16 =? 0)%nat then debug 131 [10] [10] ++ debug 132 (str "%s") (cstr line) else [] in
      line ← access (store_bytes line (Z.of_nat (i mod 16) * 3) (take 3 (cell b) ++ [0]));
      '(out, line) ← dhcp_dump_loop (S i) bs line;
      mret (head ++ out, line)
  end.
Definition dhcp_packetDump (b : buffer) (desc : list Z) : run (list (sink * list Z)) :=
  if logLevel g <=? 1 then mret []
  else
    bs ← access (load_bytes (base b) (data b) (size b));
    '(out, line) ← dhcp_dump_loop 0 bs (zeros 64);
    let rest := if size b mod 16 =? 0 then [] else debug 137 ([10] ++ str "%s" ++ [10]) ([10] ++ cstr line ++ [10]) in
    mret (debug 128 (str "%s") desc ++ out ++ rest ++ debug 139 ([10] ++ str "Total size: %d" ++ [10]) (total_text (size b))).

(** eoe_filter.c *)
Fixpoint eoe_dump_loop (i : nat) (bs : list Z) : list (sink * list Z) :=
  match bs with
  | [] => []
  | b :: bs =>
      (if (i mod 16 =? 0)%nat then debug 176 [10] [10] else []) ++ debug 177 (str "%02X ") (cell b) ++ eoe_dump_loop (S i) bs
  end.
Definition eoe_packetDump (b : buffer) (desc : list Z) : run (list (sink * list Z)) :=
  if logLevel g <=? 1 then mret []
  else
    bs ← access (load_bytes (base b) (data b) (size b));
    mret (debug 173 (str "%s") desc ++ eoe_dump_loop 0 bs ++ debug 179 ([10] ++ str "Total size: %d" ++ [10]) (total_text (size b))).
End Dump.

(** ** What a dump shows *)

(** The output as one text, and the text of a row. *)
Definition text_of (out : list (sink * list Z)) : list Z := concat (snd <$> out).
Definition cells (bs : list Z) : list Z := concat (cell <$> bs).
Definition row_text (bs : list Z) : list Z := [10] ++ cells bs.

Lemma cell_byte b : is_byte b → length (cell b) = 3%nat ∧ Forall (λ c, c ≠ 0) (cell b).
Proof.
  revert b. apply (byte_cases (λ b, length (cell b) = 3%nat ∧ Forall (λ c, c ≠ 0) (cell b))
    (λ b, bool_decide (length (cell b) = 3%nat ∧ Forall (λ c, c ≠ 0) (cell b)))).
  - intros b H. by apply bool_decide_eq_true in H.
  - vm_compute. reflexivity.
Qed.

Lemma cells_app l k : cells (l ++ k) = cells l ++ cells k.
Proof. unfold cells. by rewrite fmap_app, concat_app. Qed.

Lemma cells_bytes bs : Forall is_byte bs → length (cells bs) = (3 * length bs)%nat ∧ Forall (λ c, c ≠ 0) (cells bs).
Proof.
  induction 1 as [|b bs Hb _ [IH1 IH2]]; [done|]. destruct (cell_byte b Hb) as [H1 H2].
  change (cells (b :: bs)) with (cell b ++ cells bs). rewrite length_app, H1, IH1. split; [simpl; lia|by apply Forall_app].
Qed.

Lemma mod16 k j : (j < 16)%nat → ((16 * k + j) mod 16 = j)%nat.
Proof. intros. rewrite Nat.add_comm, Nat.mul_comm, Nat.Div0.mod_add. by apply Nat.mod_small. Qed.

Lemma text_of_app l k : text_of (l ++ k) = text_of l ++ text_of k.
Proof. unfold text_of. by rewrite fmap_app, concat_app. Qed.

Section Shown.
Context (g : prog) (loc : Z → list Z) (Hlevel : 2 <= logLevel g) (Hout : syslogEnabled g = 0).

Lemma text_of_debug n format text : (length text <= length format + 254)%nat → text_of (debug g loc n format text) = text.
Proof.
  intros Hl. unfold debug, myLogFun. rewrite Hout. assert (logLevel g =? 0 = false) as -> by lia.
  rewrite andb_false_r. cbn [negb Z.eqb]. change (LOG_DEBUG =? LOG_ERR) with false. cbv iota.
  unfold text_of. cbn [fmap list_fmap snd concat]. rewrite app_nil_r. apply take_ge. unfold MAX_LOG_BUF_SIZE. lia.
Qed.

(** *** The dump of the EoE relay *)
Lemma eoe_row k j r rest :
  (j + length r <= 16)%nat → (0 < j)%nat → Forall is_byte r →
  text_of (eoe_dump_loop g loc (16 * k + j) (r ++ rest)) = cells r ++ text_of (eoe_dump_loop g loc (16 * k + (j + length r)) rest).
Proof.
  intros Hj H0 Hr. revert j Hj H0. induction Hr as [|b r Hb _ IH]; intros j Hj H0; [by rewrite Nat.add_0_r|].
  cbn [app eoe_dump_loop length] in *. rewrite mod16 by lia. destruct (Nat.eqb_spec j 0); [lia|]. cbn [app].
  rewrite text_of_app, text_of_debug by (rewrite (proj1 (cell_byte b Hb)); simpl; lia).
  replace (S (16 * k + j)) with (16 * k + S j)%nat by lia. rewrite IH by lia. rewrite app_assoc.
  by replace (S j + length r)%nat with (j + S (length r))%nat by lia.
Qed.

Lemma eoe_rows k init last :
  Forall (λ r, length r = 16%nat) init → (0 < length last <= 16)%nat → Forall is_byte (concat init ++ last) →
  text_of (eoe_dump_loop g loc (16 * k) (concat init ++ last)) = concat (row_text <$> (init ++ [last])).
Proof.
  intros Hi Hl Hb. revert k. induction Hi as [|r init Hr Hi IH]; intros k.
  - cbn [concat app fmap list_fmap] in *. rewrite <- (app_nil_r last) at 1. destruct last as [|b last]; [simpl in Hl; lia|].
    apply Forall_cons in Hb as [Hb Hbs]. cbn [app eoe_dump_loop length] in *.
    replace (16 * k)%nat with (16 * k + 0)%nat at 1 by lia. rewrite mod16 by lia. cbn [Nat.eqb].
    rewrite !text_of_app, !text_of_debug by (rewrite ?(proj1 (cell_byte b Hb)); simpl; lia).
    replace (S (16 * k)) with (16 * k + 1)%nat by lia. rewrite eoe_row by (done || lia). rewrite !app_nil_r. done.
  - destruct r as [|b r]; [done|]. cbn [concat app fmap list_fmap] in *. rewrite <- app_assoc in *.
    apply Forall_cons in Hb as [Hb [Hbs Hrest]%Forall_app]. cbn [eoe_dump_loop length] in *. injection Hr as Hr.
    replace (16 * k)%nat with (16 * k + 0)%nat at 1 by lia. rewrite mod16 by lia. cbn [Nat.eqb].
    rewrite !text_of_app, !text_of_debug by (rewrite ?(proj1 (cell_byte b Hb)); simpl; lia).
    replace (S (16 * k)) with (16 * k + 1)%nat by lia. rewrite eoe_row by (done || lia).
    replace (16 * k + (1 + length r))%nat with (16 * S k)%nat by lia. rewrite IH by done.
    unfold row_text at 2. change (cells (b :: r)) with (cell b ++ cells r). by rewrite <- !app_assoc.
Qed.

(** *** The dump of the DHCP relay *)

(** The line holds the cells of the bytes so far. *)
Definition holds (line done : list Z) : Prop := length line = 64%nat ∧ ∃ tail, line = cells done ++ 0 :: tail.

Lemma holds_cstr line done : Forall is_byte done → holds line done → cstr line = cells done.
Proof. intros Hd (_ & tail & ->). by apply cstr_app_nul, cells_bytes. Qed.

(** Storing the cell of the next byte, at the start of the line or behind the others. *)
Lemma store_cell line done b :
  Forall is_byte done → is_byte b → (length done < 16)%nat → length line = 64%nat → take (3 * length done) line = cells done →
  ∃ line', store_bytes line (Z.of_nat (length done) * 3) (take 3 (cell b) ++ [0]) = Some line' ∧ holds line' (done ++ [b]).
Proof.
  intros Hd Hb Hl Hn Ht. destruct (cell_byte b Hb) as [Hc _]. rewrite (take_ge (cell b)) by lia.
  assert (length (cell b ++ [0]) = 4%nat) as Hc4 by (rewrite length_app, Hc; done).
  rewrite store_bytes_in by (rewrite ?Hc4; lia). eexists. split; [reflexivity|].
  split; [rewrite length_splice; rewrite ?Hc4; lia|].
  exists (drop (3 * length done + 4) line). unfold splice. rewrite Hc4.
  replace (Z.to_nat (Z.of_nat (length done) * 3)) with (3 * length done)%nat by lia. rewrite Ht, cells_app.
  unfold cells at 3. cbn [fmap list_fmap concat]. rewrite app_nil_r, <- !app_assoc. done.
Qed.

Lemma holds_take line done : Forall is_byte done → holds line done → take (3 * length done) line = cells done.
Proof. intros Hd (_ & tail & ->). apply take_app_length'. by destruct (cells_bytes done Hd) as [-> _]. Qed.

Lemma dhcp_row k done r rest line :
  Forall is_byte done → Forall is_byte r → (0 < length done)%nat → (length done + length r <= 16)%nat → holds line done →
  ∃ line', dhcp_dump_loop g loc (16 * k + length done) (r ++ rest) line =
      dhcp_dump_loop g loc (16 * k + length (done ++ r)) rest line' ∧ holds line' (done ++ r).
Proof.
  intros Hd Hr. revert done line Hd. induction Hr as [|b r Hb _ IH]; intros done line Hd H0 Hl Hh.
  { exists line. by rewrite app_nil_r. }
  cbn [length] in Hl. destruct (store_cell line done b) as (line1 & E & H1); [done..|lia|apply Hh|by apply holds_take|].
  destruct (IH (done ++ [b]) line1) as (line' & E' & H'); [by apply Forall_app; auto|rewrite length_app; simpl; lia..|done|].
  rewrite <- app_assoc in E', H'. exists line'. split; [|done]. etransitivity; [|exact E']. cbn [app dhcp_dump_loop].
  rewrite mod16 by lia. destruct (Nat.eqb_spec (length done) 0); [lia|]. rewrite E. cbn [access mbind run_bind].
  replace (16 * k + length (done ++ [b]))%nat with (S (16 * k + length done)) by (rewrite length_app; simpl; lia).
  destruct (dhcp_dump_loop g loc (S (16 * k + length done)) (r ++ rest) line1) as [[]| |]; reflexivity.
Qed.

Lemma dhcp_first k b r rest line :
  Forall is_byte (b :: r) → (length r < 16)%nat → length line = 64%nat → (length (cstr line) <= 256)%nat →
  ∃ line', holds line' (b :: r) ∧ ∀ out last, dhcp_dump_loop g loc (16 * k + S (length r)) rest line' = Done (out, last) →
    ∃ out', dhcp_dump_loop g loc (16 * k) ((b :: r) ++ rest) line = Done (out', last) ∧
      text_of out' = [10] ++ cstr line ++ text_of out.
Proof.
  intros [Hb Hr]%Forall_cons Hl Hn Hc.
  destruct (store_cell line [] b) as (line1 & E & H1); [done|done|simpl; lia|done|done|].
  destruct (dhcp_row k [b] r rest line1) as (line' & E' & H'); [by constructor|done|simpl; lia|simpl; lia|done|].
  exists line'. split; [done|]. intros out last Ho. cbn [app dhcp_dump_loop].
  replace ((16 * k) mod 16)%nat with 0%nat by (rewrite <- (mod16 k 0) at 1; [f_equal; lia|lia]).
  cbn [Nat.eqb length] in *. change (Z.of_nat 0 * 3) with 0 in *. rewrite E. cbn [access mbind run_bind].
  replace (S (16 * k)) with (16 * k + 1)%nat by lia. rewrite E'. cbn [app length]. rewrite Ho. cbn [mbind run_bind].
  eexists. split; [reflexivity|]. rewrite !text_of_app, !text_of_debug by (simpl; lia). by rewrite <- !app_assoc.
Qed.

Lemma dhcp_rows k init last line :
  Forall (λ r, length r = 16%nat) init → (0 < length last <= 16)%nat → Forall is_byte (concat init ++ last) →
  length line = 64%nat → (length (cstr line) <= 256)%nat →
  ∃ out line', dhcp_dump_loop g loc (16 * k) (concat init ++ last) line = Done (out, line') ∧
    text_of out = [10] ++ cstr line ++ concat (row_text <$> init) ∧ cstr line' = cells last.
Proof.
  intros Hi Hl Hb. revert k line. induction Hi as [|r init Hr Hi IH]; intros k line Hn Hc.
  - cbn [concat app fmap list_fmap] in *. destruct last as [|b last]; [simpl in Hl; lia|].
    destruct (dhcp_first k b last [] line) as (line' & Hh & Ho); [done|simpl in Hl; lia|done|done|].
    destruct (Ho [] line') as (out' & E & Ht); [done|]. rewrite app_nil_r in E. exists out', line'.
    split; [done|]. split; [by rewrite Ht|by apply holds_cstr].
  - destruct r as [|b r]; [done|]. cbn [concat fmap list_fmap] in *. rewrite <- app_assoc in *. apply Forall_app in Hb as [Hb Hrest].
    injection Hr as Hr. destruct (dhcp_first k b r (concat init ++ last) line) as (line1 & Hh & Ho); [done|lia|done|done|].
    pose proof (holds_cstr _ _ Hb Hh) as Hc1. destruct (cells_bytes _ Hb) as [Hlen _].
    destruct (IH Hrest (S k) line1) as (out & line' & E & Ht & He); [apply Hh|rewrite Hc1, Hlen; simpl; lia|].
    destruct (Ho out line') as (out' & E' & Ht'); [replace (16 * k + S (length r))%nat with (16 * S k)%nat by lia; exact E|].
    exists out', line'. split; [exact E'|]. split; [|done]. rewrite Ht', Ht, Hc1. unfold row_text. cbn [app]. by rewrite ?app_assoc.
Qed.
End Shown.

Lemma length_total_text n : (length (total_text n) <= 25)%nat.
Proof.
  unfold total_text. rewrite !length_app. change (length (str "Total size: ")) with 12%nat.
  assert (-2147483648 <= s32 n < 2147483648) as Hr.
  { unfold s32, swrap. pose proof (uwrap_range 32 n ltac:(lia)). change (2 ^ (32 - 1)) with 2147483648. change (2 ^ 32) with 4294967296 in *. split_if; lia. }
  assert (length (fmt_d (s32 n)) <= 11)%nat; [|simpl; lia].
  assert (∀ k, 0 <= k <= 2147483648 → (length (udigits 64 10 k) <= 10)%nat) as H10
    by (intros k Hk; apply length_udigits; [lia|simpl; lia|lia]).
  unfold fmt_d. split_if; [|pose proof (H10 (s32 n) ltac:(lia)); lia].
  pose proof (H10 (- s32 n) ltac:(lia)). cbn [length]. lia.
Qed.

Lemma text_of_total g loc n x :
  2 <= logLevel g → syslogEnabled g = 0 →
  text_of (debug g loc n ([10] ++ str "Total size: %d" ++ [10]) (total_text x)) = total_text x.
Proof. intros Hl Hs. apply text_of_debug; [done..|]. pose proof (length_total_text x). lia. Qed.

Lemma length_rows (init : list (list Z)) :
  Forall (λ r, length r = 16%nat) init → length (concat init) = (16 * length init)%nat.
Proof. induction 1 as [|r init Hr _ IH]; [done|]. cbn [concat length]. rewrite length_app, Hr, IH. lia. Qed.

(** The packet dumps.  At debug level two, a packet is printed on standard output in
    rows of sixteen bytes.  The EoE relay prints every row.  The DHCP relay prints a row
    when the next one starts, and the rest at the end only when it is not a full row: of
    a packet whose size is a multiple of sixteen the last sixteen bytes are missing. *)
Theorem relay_dump_rows g loc b desc init last :
  2 <= logLevel g → syslogEnabled g = 0 → (length desc <= 256)%nat →
  Forall (λ r, length r = 16%nat) init → (0 < length last <= 16)%nat → Forall is_byte (concat init ++ last) →
  load_bytes (base b) (data b) (size b) = Some (concat init ++ last) →
  (∃ out, eoe_packetDump g loc b desc = Done out ∧
     text_of out = desc ++ concat (row_text <$> (init ++ [last])) ++ total_text (size b)) ∧
  (∃ out, dhcp_packetDump g loc b desc = Done out ∧
     text_of out = desc ++ [10] ++ concat (row_text <$> init) ++
       (if (length last =? 16)%nat then [] else row_text last ++ [10]) ++ total_text (size b)).
Proof.
  intros Hlv Hs Hd Hi Hl Hb Hload. pose proof (length_total_text (size b)) as Htot.
  assert (size b mod 16 = Z.of_nat (length last) mod 16) as Hmod.
  { apply load_bytes_Some in Hload as (H0 & H1 & H2 & Hbs). apply (f_equal length) in Hbs.
    rewrite length_app, length_rows, length_take, length_drop in Hbs by done.
    replace (size b) with (Z.of_nat (length last) + Z.of_nat (length init) * 16) by lia. apply Z_mod_plus_full. }
  unfold eoe_packetDump, dhcp_packetDump. assert (logLevel g <=? 1 = false) as -> by lia. rewrite Hload. cbn [access mbind run_bind]. split.
  - eexists. split; [reflexivity|]. rewrite !text_of_app, text_of_total, text_of_debug by (done || (simpl; lia)).
    pose proof (eoe_rows g loc Hlv Hs 0 init last Hi Hl Hb) as E. change (16 * 0)%nat with 0%nat in E. by rewrite E.
  - destruct (dhcp_rows g loc Hlv Hs 0 init last (zeros 64)) as (out & line & E & Ht & Hc); [done..|simpl; lia|].
    change (16 * 0)%nat with 0%nat in E. rewrite E. cbn [mbind run_bind]. eexists. split; [reflexivity|].
    rewrite !text_of_app, Ht, Hc, Hmod. apply Forall_app in Hb as [_ Hb]. destruct (cells_bytes last Hb) as [Hlen _].
    rewrite text_of_total, text_of_debug by (done || (simpl; lia)). f_equal. change (cstr (zeros 64)) with (@nil Z). rewrite <- !app_assoc.
    cbn [app]. f_equal. f_equal. destruct (Nat.eqb_spec (length last) 16) as [->|Hne]; [done|].
    rewrite Z.mod_small by lia. if_false. rewrite text_of_debug by (done || (cbn [length]; rewrite !length_app, Hlen; simpl; lia)).
    unfold row_text. cbn [app]. by rewrite <- ?app_assoc.
Qed.

(** ** A packet of 32 bytes *)
Definition demo_prog : prog :=
  {| netItf := None; serviceItf := None; logLevel := 2; syslogEnabled := 0; serviceEnabled := 0; filterEnable := 0; relayId := 0 |}.
Definition demo_packet : buffer := {| base := replicate 16 1 ++ replicate 16 255 ++ zeros 4; data := 0; size := 32 |}.

Lemma relay_dump_rows_witness :
  ∃ out, dhcp_packetDump demo_prog (λ _, []) demo_packet (str "packet") = Done out ∧
    text_of out = str "packet" ++ [10] ++ row_text (replicate 16 1) ++ [] ++ total_text 32.
Proof.
  destruct (relay_dump_rows demo_prog (λ _, []) demo_packet (str "packet") [replicate 16 1] (replicate 16 255)) as [_ (out & H1 & H2)].
  - simpl. lia.
  - reflexivity.
  - simpl. lia.
  - repeat constructor.
  - simpl. lia.
  - simpl. repeat (constructor; [unfold is_byte; lia|]). constructor.
  - reflexivity.
  - exists out. split; [exact H1|]. rewrite H2. cbn [fmap list_fmap concat]. by rewrite app_nil_r.
Defined.
