(* ===== verification/GmemFiles.v ===== *)
(** * The global-memory drivers behind the system calls

    Programs use the drivers through open files: the position of a file lives in the
    kernel's [struct file], several files may be open on one device and the minor number
    says on which.  This file puts the method tables of gmem, gmem_n and gmem_mutex behind
    the system calls and shows that any program sees files on an array of devices, in exact
    arithmetic but for the low 32 bits that an absolute seek takes. *)

From S2P Require Import Prelude KernelApi CharDev Gmem.

Definition ENXIO : Z := 6.
Definition EBADF : Z := 9.
Definition MAX_RW_COUNT : Z := 0x7ffff000.

(** ** Method tables *)

(** [struct file_operations], over the devices of a driver. *)
Record file_operations `{UserAccess} (D : Type) := {
  fo_count : nat;                 (* minor numbers with a cdev *)
  fo_open : nat → file → file * Z;
  fo_release : file → Z;
  fo_llseek : file → Z → Z → file * Z;
  fo_read : D → file → umem → Z → Z → Z → run (Z * D * umem * Z);
  fo_write : D → file → umem → Z → Z → Z → run (Z * D * Z);
  fo_ioctl : D → file → Z → run (Z * D);
}.
Arguments fo_count {_ _} _. Arguments fo_open {_ _} _. Arguments fo_release {_ _} _. Arguments fo_llseek {_ _} _.
Arguments fo_read {_ _} _. Arguments fo_write {_ _} _. Arguments fo_ioctl {_ _} _.

Section Tables.
Context {UA : UserAccess}.

Definition gmem_fops : file_operations gmem_dev := {|
  fo_count := 1;
  fo_open _ f := gmem_open f;
  fo_release := gmem_release;
  fo_llseek := gmem_llseek;
  fo_read d _ u buf size ppos := '(ret, u, pos) ← gmem_read d u buf size ppos; mret (ret, d, u, pos);
  fo_write d _ u buf size ppos := gmem_write d u buf size ppos;
  fo_ioctl d _ cmd := let '(d, ret) := gmem_ioctl d cmd in mret (ret, d);
|}.

Definition gmem_n_fops : file_operations (list gmem_dev) := {|
  fo_count := DEVICE_NUM;
  fo_open := gmem_n_open;
  fo_release := gmem_n_release;
  fo_llseek := gmem_n_llseek;
  fo_read devs f u buf size ppos := '(ret, u, pos) ← gmem_n_read devs f u buf size ppos; mret (ret, devs, u, pos);
  fo_write := gmem_n_write;
  fo_ioctl := gmem_n_ioctl;
|}.

Definition gmem_mutex_fops : file_operations gmem_mutex_dev := {|
  fo_count := 1;
  fo_open _ f := gmem_mutex_open f;
  fo_release := gmem_mutex_release;
  fo_llseek := gmem_mutex_llseek;
  fo_read d _ u buf size ppos := gmem_mutex_read d u buf size ppos;
  fo_write d _ u buf size ppos := gmem_mutex_write d u buf size ppos;
  fo_ioctl d _ cmd := gmem_mutex_ioctl d cmd;
|}.

(** The specification: [n] arrays, the operations of Gmem and CharDev in unbounded
    integers; an absolute seek looks at the low 32 bits of its offset, as the drivers'
    does. *)
Definition array_fops (n : nat) : file_operations (list gmem_dev) := {|
  fo_count := n;
  fo_open i f := ({| f_pos := f_pos f; f_flags := f_flags f; private_data := i |}, 0);
  fo_release _ := 0;
  fo_llseek f offset orig := spec_llseek GMEM_SIZE f (seek_offset offset orig) orig;
  fo_read devs f u buf size ppos :=
    d ← access (devs !! private_data f);
    let '(ret, u, pos) := spec_read d u buf size ppos in mret (ret, devs, u, pos);
  fo_write devs f u buf size ppos :=
    d ← access (devs !! private_data f);
    let '(ret, d, pos) := spec_write d u buf size ppos in mret (ret, <[private_data f := d]> devs, pos);
  fo_ioctl devs f cmd :=
    if cmd =? MEM_CLEAR then mret (0, <[private_data f := gmem_zeroed]> devs) else mret (- EINVAL, devs);
|}.
End Tables.

(** ** System calls *)
Inductive syscall :=
| Open (fd : Z) (minor : nat) (flags : Z)
| Close (fd : Z)
| Lseek (fd offset whence : Z)
| Read (fd buf size : Z)
| Write (fd buf size : Z)
| Ioctl (fd cmd : Z).

Section Calls.
Context {UA : UserAccess} {D : Type} (ops : file_operations D).

(** The devices, the open files and the memory of the program. *)
Record sys := { s_dev : D; s_files : gmap Z file; s_user : umem }.

(** What a system call does with a file before it reaches the driver: the count of a
    transfer is checked and cut, the position is kept in the file and only moves when the
    transfer did not fail.  An offset is a 64-bit signed number. *)
Definition with_file (s : sys) (fd : Z) (k : file → run (Z * sys)) : run (Z * sys) :=
  match s_files s !! fd with Some f => k f | None => mret (- EBADF, s) end.
Definition moved (ret pos : Z) (f : file) : file := if ret <? 0 then f else set_pos pos f.
Definition set_file (fd : Z) (f : file) (s : sys) : gmap Z file := <[fd := f]> (s_files s).

(** [fd] of [Open] is the descriptor the kernel picks; one in use is not picked. *)
Definition do_call (c : syscall) (s : sys) : run (Z * sys) :=
  match c with
  | Open fd minor flags =>
      match s_files s !! fd with
      | Some _ => mret (- EBADF, s)
      | None =>
          if (minor <? fo_count ops)%nat then
            let '(f, ret) := fo_open ops minor {| f_pos := 0; f_flags := flags; private_data := 0 |} in
            mret (ret, {| s_dev := s_dev s; s_files := if ret =? 0 then set_file fd f s else s_files s; s_user := s_user s |})
          else mret (- ENXIO, s)
      end
  | Close fd => with_file s fd (λ f,
      mret (fo_release ops f, {| s_dev := s_dev s; s_files := delete fd (s_files s); s_user := s_user s |}))
  | Lseek fd offset whence => with_file s fd (λ f,
      let '(f, ret) := fo_llseek ops f (s64 offset) whence in
      mret (ret, {| s_dev := s_dev s; s_files := set_file fd f s; s_user := s_user s |}))
  | Read fd buf size => with_file s fd (λ f,
      if size <? 0 then mret (- EINVAL, s)
      else
        '(ret, d, u, pos) ← fo_read ops (s_dev s) f (s_user s) buf (Z.min size MAX_RW_COUNT) (f_pos f);
        mret (ret, {| s_dev := d; s_files := set_file fd (moved ret pos f) s; s_user := u |}))
  | Write fd buf size => with_file s fd (λ f,
      if size <? 0 then mret (- EINVAL, s)
      else
        '(ret, d, pos) ← fo_write ops (s_dev s) f (s_user s) buf (Z.min size MAX_RW_COUNT) (f_pos f);
        mret (ret, {| s_dev := d; s_files := set_file fd (moved ret pos f) s; s_user := s_user s |}))
  | Ioctl fd cmd => with_file s fd (λ f,
      '(ret, d) ← fo_ioctl ops (s_dev s) f cmd;
      mret (ret, {| s_dev := d; s_files := s_files s; s_user := s_user s |}))
  end.

(** A program's calls and their results. *)
Fixpoint do_calls (cs : list syscall) (s : sys) : run (list Z * sys) :=
  match cs with
  | [] => mret ([], s)
  | c :: cs => '(r, s) ← do_call c s; '(rs, s) ← do_calls cs s; mret (r :: rs, s)
  end.
End Calls.
Arguments sys {_} _. Arguments Build_sys {_ _} _ _ _. Arguments s_dev {_ _} _. Arguments s_files {_ _} _. Arguments s_user {_ _} _.

(** ** What a driver promises *)

(** Devices of the right size, positions inside the device, files on existing devices. *)
Record files_ok `{UserAccess} (n : nat) (s : sys (list gmem_dev)) : Prop := {
  fk_count : length (s_dev s) = n;
  fk_devs : Forall gmem_ok (s_dev s);
  fk_files fd f : s_files s !! fd = Some f → pos_ok GMEM_SIZE f ∧ (private_data f < n)%nat;
}.

(** A write that does not fault. *)
Definition no_write_fault (c : syscall) (r : Z) : Prop :=
  match c with Write _ _ _ => r ≠ - EFAULT | _ => True end.

Section Interface.
Context {UA : UserAccess} {D : Type} (ops : file_operations D).

(** The methods of a driver implement [n] arrays, seen through [abs], in the states [ok];
    with [strict] only while writes do not fault. *)
Record Implements (n : nat) (abs : D → list gmem_dev) (ok : D → Prop) (strict : Prop) : Prop := {
  im_count : fo_count ops = n;
  im_open i f : (i < n)%nat → fo_open ops i f = fo_open (array_fops n) i f;
  im_release f : fo_release ops f = 0;
  im_llseek f offset orig : fo_llseek ops f offset orig = llseek GMEM_SIZE f offset orig;
  im_read d f u buf size ppos r a u' pos : ok d → Forall gmem_ok (abs d) → 0 <= size < 4294967296 → 0 <= ppos <= GMEM_SIZE →
    fo_read (array_fops n) (abs d) f u buf size ppos = Done (r, a, u', pos) → a = abs d ∧ fo_read ops d f u buf size ppos = Done (r, d, u', pos);
  im_write d f u buf size ppos r a pos : ok d → Forall gmem_ok (abs d) → 0 <= size < 4294967296 → 0 <= ppos <= GMEM_SIZE →
    fo_write (array_fops n) (abs d) f u buf size ppos = Done (r, a, pos) → (strict → r ≠ - EFAULT) →
    ∃ d', a = abs d' ∧ ok d' ∧ fo_write ops d f u buf size ppos = Done (r, d', pos);
  im_ioctl d f cmd r a : ok d → is_Some (abs d !! private_data f) → fo_ioctl (array_fops n) (abs d) f cmd = Done (r, a) →
    ∃ d', a = abs d' ∧ ok d' ∧ fo_ioctl ops d f cmd = Done (r, d');
}.
End Interface.

(** ** The specification is total *)
Section Arrays.
Context {UA : UserAccess} {UAok : UserAccessOk UA} (n : nat).

Lemma spec_read_pos d u buf size p : 0 <= size → 0 <= p <= GMEM_SIZE → 0 <= (spec_read d u buf size p).2 <= GMEM_SIZE.
Proof.
  intros Hs Hp. unfold spec_read, span. split_if; [done|]. destruct (copy_to_user _ _ _). split_if; cbn [snd]; lia.
Qed.

Lemma spec_write_pos d u buf size p : gmem_ok d → 0 <= size → 0 <= p <= GMEM_SIZE →
  gmem_ok (spec_write d u buf size p).1.2 ∧ 0 <= (spec_write d u buf size p).2 <= GMEM_SIZE.
Proof.
  intros Hd Hs Hp. unfold spec_write. split_if; [done|]. pose proof (cfu_length u buf (span p size)) as Hl.
  destruct (copy_from_user _ _ _) as [bs rest]. cbn [fst] in Hl. unfold span in *. unfold gmem_ok in *.
  assert (Z.of_nat (length (spec_pwrite (mem d) p bs)) = GMEM_SIZE).
  { unfold spec_pwrite. rewrite length_splice; [done|]. rewrite length_take. lia. }
  split_if; cbn; (split; [done|lia]).
Qed.

Lemma set_file_ok (s : sys (list gmem_dev)) fd f fd' f' :
  files_ok n s → pos_ok GMEM_SIZE f → (private_data f < n)%nat →
  set_file fd f s !! fd' = Some f' → pos_ok GMEM_SIZE f' ∧ (private_data f' < n)%nat.
Proof.
  intros [_ _ Hf] Hp Hd. unfold set_file. destruct (decide (fd = fd')) as [->|].
  - rewrite lookup_insert_eq. by intros [= <-].
  - rewrite lookup_insert_ne by done. apply Hf.
Qed.

Lemma moved_ok r pos f : pos_ok GMEM_SIZE f → 0 <= pos <= GMEM_SIZE → pos_ok GMEM_SIZE (moved r pos f) ∧ private_data (moved r pos f) = private_data f.
Proof. unfold moved. by split_if. Qed.

Lemma spec_llseek_ok f offset orig : pos_ok GMEM_SIZE f →
  pos_ok GMEM_SIZE (spec_llseek GMEM_SIZE f offset orig).1 ∧ private_data (spec_llseek GMEM_SIZE f offset orig).1 = private_data f.
Proof.
  intros Hf. unfold spec_llseek. destruct (seek_target _ _ _) as [t|]; [|done]. destruct (_ && _) eqn:E; [|done].
  bool_to_prop. done.
Qed.

Lemma array_call_total c s : files_ok n s → ∃ r s', do_call (array_fops n) c s = Done (r, s') ∧ files_ok n s'.
Proof using UAok.
  intros Hs. pose proof Hs as [Hn Hd Hf].
  assert (∀ fd k, (∀ f, s_files s !! fd = Some f → pos_ok GMEM_SIZE f → (private_data f < n)%nat →
    ∃ r s', k f = Done (r, s') ∧ files_ok n s') → ∃ r s', with_file s fd k = Done (r, s') ∧ files_ok n s') as Hwith.
  { intros fd k Hk. unfold with_file. destruct (s_files s !! fd) as [f|] eqn:E; [|by eexists _, s].
    destruct (Hf fd f E). by apply Hk. }
  destruct c as [fd minor flags|fd|fd offset whence|fd buf size|fd buf size|fd cmd]; cbn [do_call]; try (apply Hwith; intros f Hfd Hp Hi).
  - destruct (s_files s !! fd); [by eexists _, s|]. change (fo_count (array_fops n)) with n.
    destruct (Nat.ltb_spec minor n); [|by eexists _, s]. cbn. eexists _, _. split; [done|]. split; [done|done|]. intros fd' f'.
    apply set_file_ok; [done| |done]. unfold pos_ok, GMEM_SIZE. cbn. lia.
  - eexists _, _. split; [done|]. split; [done|done|]. cbn [s_files]. intros fd' f' [_ H]%lookup_delete_Some. by apply (Hf fd').
  - cbn. destruct (spec_llseek_ok f (seek_offset (s64 offset) whence) whence Hp) as [H1 H2]. destruct (spec_llseek _ _ _ _) as [f' r]. cbn [fst] in *.
    eexists _, _. split; [done|]. split; [done|done|]. intros ? ?. apply set_file_ok; [done|done|lia].
  - split_if; [by eexists _, s|]. cbn. destruct (lookup_lt_is_Some_2 (s_dev s) (private_data f)) as [d ->]; [lia|]. cbn.
    pose proof (spec_read_pos d (s_user s) buf (Z.min size MAX_RW_COUNT) (f_pos f)) as H.
    destruct (spec_read _ _ _ _ _) as [[r u] pos]. cbn. eexists _, _. split; [done|]. split; [done|done|]. intros ? ?.
    destruct (moved_ok r pos f Hp) as [H1 H2]; [apply H; [unfold MAX_RW_COUNT; lia|exact Hp]|]. apply set_file_ok; [done|done|lia].
  - split_if; [by eexists _, s|]. cbn. destruct (lookup_lt_is_Some_2 (s_dev s) (private_data f)) as [d Ed]; [lia|]. rewrite Ed. cbn.
    pose proof (spec_write_pos d (s_user s) buf (Z.min size MAX_RW_COUNT) (f_pos f)) as H.
    rewrite Forall_lookup in Hd. destruct H as [Hd' Hpos]; [by apply (Hd _ d Ed)|unfold MAX_RW_COUNT; lia|exact Hp|].
    destruct (spec_write _ _ _ _ _) as [[r d'] pos]. cbn in *. eexists _, _. split; [done|].
    split; cbn [s_dev s_files]; [by rewrite length_insert|apply Forall_insert; [by apply Forall_lookup|done]|]. intros ? ?.
    destruct (moved_ok r pos f Hp Hpos) as [H1 H2]. apply set_file_ok; [done|done|lia].
  - cbn. split_if; [|by eexists _, _]. eexists _, _. split; [done|]. split; cbn [s_dev s_files]; [by rewrite length_insert| |done].
    apply Forall_insert; [done|]. unfold gmem_ok, gmem_zeroed. cbn [mem]. by rewrite length_zeros.
Qed.

Lemma array_calls_total cs s : files_ok n s → ∃ rs s', do_calls (array_fops n) cs s = Done (rs, s') ∧ files_ok n s'.
Proof using UAok.
  revert s. induction cs as [|c cs IH]; intros s Hs; [by eexists _, s|].
  destruct (array_call_total c s Hs) as (r & s1 & E & Hs1). destruct (IH s1 Hs1) as (rs & s2 & E2 & Hs2).
  eexists _, s2. cbn [do_calls]. rewrite E. cbn [mbind run_bind]. by rewrite E2.
Qed.
End Arrays.

(** ** A driver that keeps its promise gives files on arrays *)
Section Simulation.
Context {UA : UserAccess} {UAok : UserAccessOk UA} {D : Type} (ops : file_operations D).
Context (n : nat) (abs : D → list gmem_dev) (ok : D → Prop) (strict : Prop).
Hypothesis law : Implements ops n abs ok strict.

Definition seen (s : sys D) : sys (list gmem_dev) := {| s_dev := abs (s_dev s); s_files := s_files s; s_user := s_user s |}.

Lemma call_simulates c s r a :
  files_ok n (seen s) → ok (s_dev s) → do_call (array_fops n) c (seen s) = Done (r, a) →
  (strict → no_write_fault c r) → ∃ s', a = seen s' ∧ ok (s_dev s') ∧ do_call ops c s = Done (r, s').
Proof using law.
  intros [Hn Hd Hf] Hok Hrun Hw. cbn [seen s_dev s_files] in *.
  assert (∀ fd k1 k2, with_file (seen s) fd k1 = Done (r, a) →
    (∀ f, s_files s !! fd = Some f → pos_ok GMEM_SIZE f → (private_data f < n)%nat → k1 f = Done (r, a) →
       ∃ s', a = seen s' ∧ ok (s_dev s') ∧ k2 f = Done (r, s')) →
    ∃ s', a = seen s' ∧ ok (s_dev s') ∧ with_file s fd k2 = Done (r, s')) as Hwith.
  { intros fd k1 k2. unfold with_file. cbn [seen s_files]. destruct (s_files s !! fd) as [f|] eqn:E.
    - intros Hk H. destruct (Hf fd f E). by apply H.
    - intros [= <- <-] _. by exists s. }
  destruct c as [fd minor flags|fd|fd offset whence|fd buf size|fd buf size|fd cmd]; cbn [do_call] in *;
    try (eapply Hwith; [exact Hrun|]; clear Hrun; intros f Hfd Hp Hi Hrun).
  - rewrite (im_count _ _ _ _ _ law). cbn [seen s_files] in Hrun. destruct (s_files s !! fd); [injection Hrun as <- <-; by exists s|].
    change (fo_count (array_fops n)) with n in Hrun. destruct (Nat.ltb_spec minor n); [|injection Hrun as <- <-; by exists s].
    rewrite (im_open _ _ _ _ _ law) by done. cbn in *. injection Hrun as <- <-. by eexists (Build_sys (s_dev s) _ _).
  - rewrite (im_release _ _ _ _ _ law). injection Hrun as <- <-. by eexists (Build_sys (s_dev s) _ _).
  - rewrite (im_llseek _ _ _ _ _ law), llseek_exact
      by first [exact Hp|apply s64_range|unfold GMEM_SIZE; lia]. cbn in Hrun.
    destruct (spec_llseek _ _ _ _) as [f' r']. injection Hrun as <- <-. by eexists (Build_sys (s_dev s) _ _).
  - split_if; [injection Hrun as <- <-; by exists s|]. assert (0 <= Z.min size MAX_RW_COUNT < 4294967296) as Hsz by (unfold MAX_RW_COUNT; lia).
    cbn [seen s_dev s_user] in Hrun. destruct (fo_read (array_fops n) _ _ _ _ _ _) as [[[[r' d'] u'] pos]| |] eqn:Er in Hrun; [|done..]. injection Hrun as <- <-.
    destruct (im_read _ _ _ _ _ law _ _ _ _ _ _ _ _ _ _ Hok Hd Hsz Hp Er) as [-> ->]. by eexists (Build_sys (s_dev s) _ _).
  - split_if; [injection Hrun as <- <-; by exists s|]. assert (0 <= Z.min size MAX_RW_COUNT < 4294967296) as Hsz by (unfold MAX_RW_COUNT; lia).
    cbn [seen s_dev s_user] in Hrun. destruct (fo_write (array_fops n) _ _ _ _ _ _) as [[[r' d'] pos]| |] eqn:Er in Hrun; [|done..]. injection Hrun as <- <-.
    destruct (im_write _ _ _ _ _ law _ _ _ _ _ _ _ _ _ Hok Hd Hsz Hp Er Hw) as (d1 & -> & Hok' & ->).
    by eexists (Build_sys d1 _ _).
  - cbn [seen s_dev s_user] in Hrun. destruct (fo_ioctl (array_fops n) _ _ _) as [[r' d']| |] eqn:Er in Hrun; [|done..]. injection Hrun as <- <-.
    destruct (im_ioctl _ _ _ _ _ law _ f cmd r' d' Hok) as (d1 & -> & Hok' & ->); [|done|by eexists (Build_sys d1 _ _)].
    apply lookup_lt_is_Some_2. lia.
Qed.

Lemma calls_simulate cs s :
  files_ok n (seen s) → ok (s_dev s) →
  ∃ rs a, do_calls (array_fops n) cs (seen s) = Done (rs, a) ∧ files_ok n a ∧
    ((strict → Forall2 no_write_fault cs rs) → ∃ s', a = seen s' ∧ ok (s_dev s') ∧ do_calls ops cs s = Done (rs, s')).
Proof using law UAok.
  intros Hs Hok. destruct (array_calls_total n cs _ Hs) as (rs & a & E & Ha). exists rs, a. split_and!; [done..|].
  revert s rs E Hs Hok. induction cs as [|c cs IH]; intros s rs E Hs Hok Hw; cbn [do_calls] in *.
  { injection E as <- <-. by exists s. }
  destruct (array_call_total n c _ Hs) as (r & a1 & E1 & Ha1). rewrite E1 in E. cbn [mbind run_bind] in E.
  destruct (do_calls (array_fops n) cs a1) as [[rs2 a2]| |] eqn:E2; [|done..]. injection E as <- <-.
  destruct (call_simulates c s r a1 Hs Hok E1) as (s1 & -> & Hok1 & ->); [intros Hst; by apply Forall2_cons in Hw as [? ?]|].
  destruct (IH s1 rs2 E2 Ha1 Hok1) as (s2 & -> & Hok2 & H2); [intros Hst; by apply Forall2_cons in Hw as [? ?]|].
  cbn [mbind run_bind]. rewrite H2. by eexists.
Qed.
End Simulation.

(** ** The three drivers keep the promise *)
Section Drivers.
Context {UA : UserAccess} {UAok : UserAccessOk UA}.

Lemma zeroed_ok : gmem_ok gmem_zeroed.
Proof. unfold gmem_ok, gmem_zeroed. cbn [mem]. by rewrite length_zeros. Qed.

Lemma gmem_implements : Implements gmem_fops 1 (λ d, [d]) gmem_ok False.
Proof using UAok.
  split; try done.
  - intros [|i] f Hi; [done|lia].
  - intros d f u buf size ppos r a u' pos Hd _ Hs Hp H.
    destruct (gmem_array d u buf size ppos) as [Hr _]; [done|done|unfold GMEM_SIZE in *; lia|]. cbn in *. rewrite Hr.
    destruct (private_data f) as [|i]; [|discriminate H]. cbn in *. destruct (spec_read _ _ _ _ _) as [[? ?] ?]. by injection H as <- <- <- <-.
  - intros d f u buf size ppos r a pos Hd _ Hs Hp H _.
    destruct (gmem_array d u buf size ppos) as [_ Hw]; [done|done|unfold GMEM_SIZE in *; lia|]. cbn in *. rewrite Hw.
    destruct (private_data f) as [|i]; [|discriminate H]. cbn in *.
    pose proof (spec_write_pos d u buf size ppos Hd) as [Hok _]; [lia|done|].
    destruct (spec_write _ _ _ _ _) as [[? d'] ?]. injection H as <- <- <-. by exists d'.
  - intros d f cmd r a Hd Hf H. cbn in *. unfold gmem_ioctl. destruct (cmd =? MEM_CLEAR); injection H as <- <-; [|by exists d].
    exists gmem_zeroed. split_and!; [|exact zeroed_ok|done]. destruct Hf as [x Hf]. by destruct (private_data f).
Qed.

Lemma gmem_n_implements : Implements gmem_n_fops DEVICE_NUM (λ devs, devs) (λ _, True) False.
Proof using UAok.
  split; try done.
  - intros devs f u buf size ppos r a u' pos _ Hd Hs Hp H. cbn in *. unfold gmem_n_read.
    destruct (devs !! private_data f) as [d|] eqn:E; [|done]. cbn in *. rewrite Forall_lookup in Hd.
    destruct (gmem_array d u buf size ppos) as [-> _]; [by apply (Hd _ d E)|done|unfold GMEM_SIZE in *; lia|].
    cbn. destruct (spec_read _ _ _ _ _) as [[? ?] ?]. by injection H as <- <- <- <-.
  - intros devs f u buf size ppos r a pos _ Hd Hs Hp H _. cbn in *. unfold gmem_n_write.
    destruct (devs !! private_data f) as [d|] eqn:E; [|done]. cbn in *. rewrite Forall_lookup in Hd.
    destruct (gmem_array d u buf size ppos) as [_ ->]; [by apply (Hd _ d E)|done|unfold GMEM_SIZE in *; lia|].
    cbn. destruct (spec_write _ _ _ _ _) as [[? ?] ?]. injection H as <- <- <-. by eexists.
  - intros devs f cmd r a _ [d Hf] H. cbn in *. unfold gmem_n_ioctl, gmem_ioctl. rewrite Hf. cbn.
    destruct (cmd =? MEM_CLEAR); injection H as <- <-; [by eexists|]. rewrite list_insert_id by done. by exists devs.
Qed.

(** With the mutex free, the methods of gmem_mutex are those of gmem; a write gives it back
    unless it faults. *)
Definition unlocked (d : gmem_dev) : gmem_mutex_dev := {| gm_dev := d; gm_locked := false |}.

Lemma gmem_mutex_read_free d u buf size ppos :
  gmem_mutex_read (unlocked d) u buf size ppos = '(r, u, pos) ← gmem_read d u buf size ppos; mret (r, unlocked d, u, pos).
Proof.
  unfold gmem_mutex_read, gmem_read. cbn [mutex_lock unlocked gm_locked]. split_if; [done|]. cbn [mbind run_bind gm_dev].
  destruct (access _) as [bs| |]; [|done..]. cbn [mbind run_bind]. destruct (copy_to_user _ _ _) as [u' rest].
  by destruct (rest =? 0).
Qed.

Lemma gmem_mutex_write_free d u buf size ppos r d' pos :
  gmem_write d u buf size ppos = Done (r, d', pos) → r ≠ - EFAULT →
  gmem_mutex_write (unlocked d) u buf size ppos = Done (r, unlocked d', pos).
Proof.
  unfold gmem_mutex_write, gmem_write. cbn [mutex_lock unlocked gm_locked]. split_if; [by intros [= <- <- <-]|]. cbn [mbind run_bind gm_dev].
  destruct (copy_from_user _ _ _) as [bs rest]. destruct (access _) as [m| |]; [|done..]. cbn [mbind run_bind].
  destruct (rest =? 0); cbn [negb]; intros [= <- <- <-] Hr; done.
Qed.

Lemma gmem_mutex_implements :
  Implements gmem_mutex_fops 1 (λ d, [gm_dev d]) (λ d, gm_locked d = false ∧ gmem_ok (gm_dev d)) True.
Proof using UAok.
  destruct gmem_implements as [_ _ _ _ Hread Hwrite Hioctl]. split; try done.
  - intros [|i] f Hi; [done|lia].
  - intros [d l] f u buf size ppos r a u' pos [Hl Hok] Hd Hs Hp H. cbn in Hl. subst l.
    destruct (Hread d f u buf size ppos r a u' pos Hok Hd Hs Hp H) as [-> E]. split; [done|]. cbn in *.
    change {| gm_dev := d; gm_locked := false |} with (unlocked d). rewrite gmem_mutex_read_free.
    destruct (gmem_read _ _ _ _ _) as [[[? ?] ?]| |]; [|done..]. cbn in *. by injection E as -> -> ->.
  - intros [d l] f u buf size ppos r a pos [Hl Hok] Hd Hs Hp H Hr. cbn in Hl. subst l.
    destruct (Hwrite d f u buf size ppos r a pos Hok Hd Hs Hp H) as (d' & -> & Hok' & E); [done|]. cbn in E.
    exists (unlocked d'). split_and!; [done..|]. apply gmem_mutex_write_free; [exact E|by apply Hr].
  - intros [d l] f cmd r a [Hl Hok] Hf H. cbn in Hl. subst l. destruct (Hioctl d f cmd r a Hok Hf H) as (d' & -> & Hok' & E).
    exists (unlocked d'). split_and!; [done..|]. cbn in *. unfold gmem_ioctl, gmem_mutex_ioctl in *.
    destruct (cmd =? MEM_CLEAR); injection E as <- <-; done.
Qed.
End Drivers.

(** ** Theorem *)

(** C11: what programs see of the global-memory drivers.  Any sequence of open, close, seek,
    read, write and ioctl calls, on any files, with any offsets, sizes and buffers, faulting
    ones included, gets from gmem and gmem_n the results of the same calls on one and sixteen
    separate arrays with a position per open file, leaves the same contents, and never
    accesses memory outside a device; positions stay inside the devices.  The seek of the
    arrays is exact but for an absolute one, which goes to the low 32 bits of its offset, as
    in the code.  gmem_mutex gives the same, and has its mutex free after every call, as long
    as no write faults. *)
Theorem gmem_files_refine_arrays `{UserAccess} `{!UserAccessOk _} cs files u :
  (∀ devs, files_ok DEVICE_NUM {| s_dev := devs; s_files := files; s_user := u |} →
     ∃ rs s', do_calls (array_fops DEVICE_NUM) cs {| s_dev := devs; s_files := files; s_user := u |} = Done (rs, s') ∧
       do_calls gmem_n_fops cs {| s_dev := devs; s_files := files; s_user := u |} = Done (rs, s') ∧ files_ok DEVICE_NUM s') ∧
  (∀ d, files_ok 1 {| s_dev := [d]; s_files := files; s_user := u |} →
     ∃ rs d' files' u', do_calls (array_fops 1) cs {| s_dev := [d]; s_files := files; s_user := u |} =
         Done (rs, {| s_dev := [d']; s_files := files'; s_user := u' |}) ∧
       files_ok 1 {| s_dev := [d']; s_files := files'; s_user := u' |} ∧
       do_calls gmem_fops cs {| s_dev := d; s_files := files; s_user := u |} =
         Done (rs, {| s_dev := d'; s_files := files'; s_user := u' |}) ∧
       (Forall2 no_write_fault cs rs →
        do_calls gmem_mutex_fops cs {| s_dev := unlocked d; s_files := files; s_user := u |} =
         Done (rs, {| s_dev := unlocked d'; s_files := files'; s_user := u' |}))).
Proof.
  split.
  - intros devs Hs. destruct (calls_simulate gmem_n_fops _ _ _ _ gmem_n_implements cs
      {| s_dev := devs; s_files := files; s_user := u |}) as (rs & a & E & Ha & H1); [done|done|].
    destruct H1 as (s' & -> & _ & E'); [done|]. destruct s'. by eexists _, _.
  - intros d Hs. assert (gmem_ok d) as Hd by (destruct Hs as [_ Hd _]; cbn [s_dev] in Hd; by rewrite Forall_singleton in Hd).
    destruct (calls_simulate gmem_fops _ _ _ _ gmem_implements cs
      {| s_dev := d; s_files := files; s_user := u |}) as (rs & a & E & Ha & H1); [done|done|].
    destruct H1 as ([d' files' u'] & -> & Hd' & E'); [done|]. exists rs, d', files', u'. split_and!; [done..|]. intros Hw.
    destruct (calls_simulate gmem_mutex_fops _ _ _ _ gmem_mutex_implements cs
      {| s_dev := unlocked d; s_files := files; s_user := u |}) as (rs2 & a2 & E2 & Ha2 & H2); [done|done|].
    change (do_calls (array_fops 1) cs (Build_sys [d] files u) = Done (rs2, a2)) in E2.
    change (do_calls (array_fops 1) cs (Build_sys [d] files u) = Done (rs, Build_sys [d'] files' u')) in E. rewrite E in E2. injection E2 as <- <-.
    destruct H2 as ([[d2 l] files2 u2] & Eq & [Hl _] & E3); [done|]. cbn in Eq, Hl. injection Eq as <- <- <-. subst l. exact E3.
Qed.

(** ** A run *)
Import FlatUser.

(** Store four bytes, seek back, read them elsewhere; a file that is not open; a device
    that does not exist. *)
Definition demo_calls : list syscall :=
  [Open 3 0 0; Write 3 100 4; Lseek 3 0 0; Read 3 200 4; Read 9 200 4; Open 4 1 0; Ioctl 3 MEM_CLEAR; Close 3].

Lemma gmem_files_refine_arrays_witness :
  ∃ s', do_calls (UA := flat_user) gmem_mutex_fops demo_calls
      {| s_dev := unlocked gmem_zeroed; s_files := ∅; s_user := demo_user |} =
    Done ([0; 4; 0; 4; - EBADF; - ENXIO; 0; 0], s') ∧ gm_locked (s_dev s') = false.
Proof.
  destruct (gmem_files_refine_arrays (H := flat_user) demo_calls ∅ demo_user) as [_ H].
  destruct (H gmem_zeroed) as (rs & d' & files' & u' & E & _ & _ & Hm).
  { split; cbn; [done|constructor; [exact zeroed_ok|constructor]|]. by intros fd f Hf%lookup_empty_Some. }
  assert (rs = [0; 4; 0; 4; - EBADF; - ENXIO; 0; 0]) as ->.
  { apply (f_equal (λ r, match r with Done (rs, _) => rs | _ => [] end)) in E. rewrite <- E. by vm_compute. }
  eexists. split; [apply Hm|reflexivity]. repeat (constructor; [done|]). constructor.
Defined.
