(* ===== verification/Platform.v ===== *)
(** * Platform drivers on the bus: gfifo_platform, gfifo_misc, gfifo_misc_n

    The three fifo drivers that are platform drivers do not decide when they are probed:
    the platform bus calls their probe for a registered device of the driver's name, and
    their remove when the driver or the device goes.  The bus is a step relation over
    the devices and the resources of the kernel: it says what the kernel may do, in any
    order, and the theorems hold on every run. *)

From S2P Require Import Prelude KString Lifecycle.

(** ** The drivers *)

(** [struct platform_driver]: the name, and the two methods on a platform device, the
    globals of the module and the kernel. *)
Record platform_driver := {
  drv_name : list Z;
  drv_probe : answers → pdevice → globals → kstate → Z * pdevice * globals * kstate;
  drv_remove : pdevice → globals → kstate → option kstate;
}.

(** gfifo_platform keeps its device in a global of the module. *)
Definition gfifo_platform_driver : platform_driver := {|
  drv_name := str "gfifo";
  drv_probe a pd g k := let '(ret, g, k) := gfifo_platform_probe a g k in (ret, pd, g, k);
  drv_remove pd g k := gfifo_platform_remove g k;
|}.
(** The misc drivers keep theirs in the driver data of the platform device. *)
Definition gfifo_misc_driver : platform_driver := {|
  drv_name := str "gfifo";
  drv_probe a pd g k := let '(ret, pd, k, _) := gfifo_misc_probe a pd k in (ret, pd, g, k);
  drv_remove pd g k := gfifo_misc_remove pd k;
|}.
Definition gfifo_misc_n_driver : platform_driver := {|
  drv_name := str "gfifo";
  drv_probe a pd g k := let '(ret, pd, k, _) := gfifo_misc_n_probe a pd k in (ret, pd, g, k);
  drv_remove pd g k := gfifo_misc_n_remove pd k;
|}.

(** ** The bus *)

(** A device is known by its name and number. *)
Definition key : Type := list Z * Z.

Record bus := {
  bus_driver : bool;             (* the driver is registered *)
  bus_devs : gmap key pdevice;   (* registered devices *)
  bus_bound : gset key;          (* those bound to the driver *)
  bus_g : globals;
  bus_k : kstate;
}.
Definition bus_start (g : globals) (k : kstate) : bus :=
  {| bus_driver := false; bus_devs := ∅; bus_bound := ∅; bus_g := g; bus_k := k |}.

(** What the kernel hands out is free, and an allocated major number is not 0. *)
Record handed (a : answers) (g : globals) (k : kstate) : Prop := {
  ha_fresh : fresh 1 a g k;
  ha_misc : ∀ p, a_kzalloc a = Some p → p ∉ k_misc k;
  ha_major : 0 <= a_region a → a_major a ≠ 0;
}.

Definition nodata (i : key) : pdevice := {| pd_id := i.2; pd_drvdata := None |}.

Section Bus.
(** [ok]: the answers that occur. *)
Context (d : platform_driver) (ok : answers → Prop).

(** Registering and unregistering the driver and devices; a probe of a matching unbound
    device, which binds it when it answers 0; a remove.  The driver core clears the driver
    data of a device that is not bound. *)
Inductive bus_step : bus → bus → Prop :=
| platform_driver_register devs g k :
    bus_step {| bus_driver := false; bus_devs := devs; bus_bound := ∅; bus_g := g; bus_k := k |}
             {| bus_driver := true; bus_devs := devs; bus_bound := ∅; bus_g := g; bus_k := k |}
| platform_driver_unregister devs g k :
    bus_step {| bus_driver := true; bus_devs := devs; bus_bound := ∅; bus_g := g; bus_k := k |}
             {| bus_driver := false; bus_devs := devs; bus_bound := ∅; bus_g := g; bus_k := k |}
| platform_device_add r devs bound g k i :
    devs !! i = None →
    bus_step {| bus_driver := r; bus_devs := devs; bus_bound := bound; bus_g := g; bus_k := k |}
             {| bus_driver := r; bus_devs := <[i := nodata i]> devs; bus_bound := bound; bus_g := g; bus_k := k |}
| platform_device_del r devs bound g k i :
    i ∉ bound →
    bus_step {| bus_driver := r; bus_devs := devs; bus_bound := bound; bus_g := g; bus_k := k |}
             {| bus_driver := r; bus_devs := delete i devs; bus_bound := bound; bus_g := g; bus_k := k |}
| bus_probe devs bound g k i pd a ret pd' g' k' :
    devs !! i = Some pd → i.1 = drv_name d → i ∉ bound → ok a → handed a g k →
    drv_probe d a pd g k = (ret, pd', g', k') →
    bus_step {| bus_driver := true; bus_devs := devs; bus_bound := bound; bus_g := g; bus_k := k |}
             {| bus_driver := true; bus_devs := <[i := if ret =? 0 then pd' else nodata i]> devs;
                bus_bound := if ret =? 0 then {[i]} ∪ bound else bound; bus_g := g'; bus_k := k' |}
| bus_remove devs bound g k i pd k' :
    devs !! i = Some pd → i ∈ bound → drv_remove d pd g k = Some k' →
    bus_step {| bus_driver := true; bus_devs := devs; bus_bound := bound; bus_g := g; bus_k := k |}
             {| bus_driver := true; bus_devs := <[i := nodata i]> devs; bus_bound := bound ∖ {[i]}; bus_g := g; bus_k := k' |}.

(** No remove of a bound device crashes. *)
Definition removable (b : bus) : Prop :=
  ∀ i, i ∈ bus_bound b → ∃ pd k', bus_devs b !! i = Some pd ∧ drv_remove d pd (bus_g b) (bus_k b) = Some k'.
End Bus.

(** ** gfifo_platform *)

(** A granted init holds the region of the major number it leaves in the globals. *)
Lemma char_init_region a g k g' k' :
  handed a g k → char_init 1 a g k = (0, g', k') → g_major g' ≠ 0 ∧ (g_major g', 0, 1) ∈ k_regions k'.
Proof.
  intros [_ _ Hm] H. unfold char_init in H. generalize dependent (seqZ 0 1). intros l H.
  destruct (Z.ltb_spec (a_region a) 0) as [Hr|Hr].
  { destruct (negb _); rewrite (proj2 (Z.ltb_lt _ _) Hr) in H; injection H; intros; lia. }
  destruct (Z.eqb_spec (g_major g) 0) as [E|E]; cbn [negb] in H; rewrite (proj2 (Z.ltb_ge _ _) Hr) in H;
    (destruct (a_kzalloc a) as [p|]; [|unfold ENOMEM in H; injection H; lia]); injection H as <- <-;
    rewrite (proj1 (setup_cdevs_frame _ _ _ _)); cbn [g_major k_regions with_heap with_regions]; (split; [auto|set_solver]).
Qed.

(** A second probe meets the region the first one holds. *)
Lemma char_init_taken a g k :
  handed a g k → g_major g ≠ 0 → (g_major g, 0, 1) ∈ k_regions k →
  ∃ ret, char_init 1 a g k = (ret, g, k) ∧ ret < 0.
Proof.
  intros [[_ Hf] _ _] Hm Hin. unfold char_init. apply Z.eqb_neq in Hm. rewrite Hm in *. cbn [negb].
  destruct (Z.ltb_spec (a_region a) 0) as [Hr|Hr]; [|by destruct (Hf Hr)].
  by exists (a_region a).
Qed.

(** Nothing is bound and the kernel as it was, or one device is and remove gives that
    kernel back. *)
Definition platform_inv (k0 : kstate) (b : bus) : Prop :=
  (bus_bound b = ∅ ∧ bus_k b = k0) ∨
  ∃ i, bus_bound b = {[i]} ∧ bus_driver b = true ∧ is_Some (bus_devs b !! i) ∧
    char_exit 1 (bus_g b) (bus_k b) = Some k0 ∧ g_major (bus_g b) ≠ 0 ∧ (g_major (bus_g b), 0, 1) ∈ k_regions (bus_k b).

Lemma platform_inv_step ok k0 b b' :
  bus_step gfifo_platform_driver ok b b' → platform_inv k0 b → platform_inv k0 b'.
Proof.
  intros Hs Hi. destruct Hs as [devs g k|devs g k|r devs bound g k i Hn|r devs bound g k i Hb
    |devs bound g k i pd a ret pd' g' k' Hd Hname Hb Hok Hh Hp|devs bound g k i pd k' Hd Hb Hr];
    unfold platform_inv in *; cbn [bus_driver bus_devs bus_bound bus_g bus_k] in *.
  - destruct Hi as [?|(i & Hs & _)]; [by left|set_solver].
  - destruct Hi as [?|(i & Hs & _)]; [by left|set_solver].
  - destruct Hi as [?|(j & ? & ? & Hj & ?)]; [by left|]. right. exists j. split_and!; try naive_solver.
    destruct (decide (i = j)) as [->|]; [by rewrite lookup_insert_eq|by rewrite lookup_insert_ne].
  - destruct Hi as [?|(j & -> & ? & Hj & ?)]; [by left|]. right. exists j. split_and!; try naive_solver.
    rewrite lookup_delete_ne; [done|set_solver].
  - cbn [drv_probe gfifo_platform_driver] in Hp. unfold gfifo_platform_probe in Hp.
    destruct Hi as [[-> ->]|(j & -> & _ & Hj & He & Hm & Hr)].
    + destruct (char_init 1 a g k0) as [[ret0 g0] k1] eqn:E. injection Hp as -> <- -> ->.
      destruct (char_balanced 1 a g k0 ret g' k' (ha_fresh _ _ _ Hh) E) as [H1 H2].
      destruct (Z.eqb_spec ret 0) as [->|Hne].
      * right. exists i. destruct (char_init_region a g k0 g' k' Hh E). rewrite lookup_insert_eq.
        split_and!; [set_solver|done|done|by apply H2|done|done].
      * left. split; [done|]. apply H1. destruct (Z.le_gt_cases 0 ret); [by destruct (H2 ltac:(lia))|lia].
    + destruct (char_init_taken a g k Hh Hm Hr) as (ret0 & E & Hneg). rewrite E in Hp. injection Hp as -> <- <- <-.
      destruct (Z.eqb_spec ret 0); [lia|]. right. exists j. split_and!; try done.
      destruct (decide (i = j)) as [->|]; [by rewrite lookup_insert_eq|by rewrite lookup_insert_ne].
  - cbn [drv_remove gfifo_platform_driver] in Hr. unfold gfifo_platform_remove in Hr.
    destruct Hi as [[-> _]|(j & -> & _ & _ & He & _)]; [set_solver|]. left. split; [set_solver|congruence].
Qed.

(** ** The misc drivers *)

(** The object of a device. *)
Definition object (b : bus) (i : key) : option Z := bus_devs b !! i ≫= pd_drvdata.
Definition bound_object (b : bus) (p : Z) : Prop := ∃ i, i ∈ bus_bound b ∧ object b i = Some p.

(** Every bound device has an object of its own; the misc devices and the allocations are
    those of before and the objects, with what refused registrations left allocated. *)
Record misc_inv (leaks : Prop) (k0 : kstate) (b : bus) : Prop := {
  mi_driver : bus_driver b = false → bus_bound b = ∅;
  mi_object i : i ∈ bus_bound b → ∃ p, object b i = Some p ∧ p ∉ k_misc k0 ∧ p ∉ k_heap k0;
  mi_own i j p : i ∈ bus_bound b → j ∈ bus_bound b → object b i = Some p → object b j = Some p → i = j;
  mi_misc p : p ∈ k_misc (bus_k b) ↔ p ∈ k_misc k0 ∨ bound_object b p;
  mi_heap p : p ∈ k_heap k0 ∨ bound_object b p → p ∈ k_heap (bus_k b);
  mi_leak p : ¬ leaks → p ∈ k_heap (bus_k b) → p ∈ k_heap k0 ∨ bound_object b p;
  mi_rest : k_regions (bus_k b) = k_regions k0 ∧ k_cdevs (bus_k b) = k_cdevs k0;
}.

(** A step that changes neither the bound devices and their objects nor the kernel. *)
Lemma misc_inv_same leaks k0 b b' :
  misc_inv leaks k0 b → bus_bound b' = bus_bound b → bus_k b' = bus_k b →
  (∀ i, i ∈ bus_bound b → object b' i = object b i) → (bus_driver b' = false → bus_bound b = ∅) → misc_inv leaks k0 b'.
Proof.
  intros [Hd Ho Hw Hm Hh Hl Hr] Eb Ek Eo Hd'. assert (∀ p, bound_object b' p ↔ bound_object b p) as Hbo.
  { intros p. unfold bound_object. rewrite Eb. split; intros (i & Hi & E); exists i; (split; [done|]); by rewrite Eo in *. }
  split; rewrite ?Eb, ?Ek; [done|..].
  - intros i Hi. rewrite Eo by done. by apply Ho.
  - intros i j p Hi Hj. rewrite !Eo by done. by apply Hw.
  - intros p. by rewrite Hbo.
  - intros p. rewrite Hbo. apply Hh.
  - intros p. rewrite Hbo. apply Hl.
  - done.
Qed.

Section Misc.
Context (ok : answers → Prop) (k0 : kstate).
Definition refuses : Prop := ∃ a p, ok a ∧ a_kzalloc a = Some p ∧ a_misc a ≠ 0.

(** A probe that binds: the new object belongs to the device. *)
Lemma misc_inv_bind b i p a n :
  misc_inv refuses k0 b → i ∉ bus_bound b → handed a (bus_g b) (bus_k b) → a_kzalloc a = Some p →
  misc_inv refuses k0 {| bus_driver := true;
    bus_devs := <[i := {| pd_id := n; pd_drvdata := Some p |}]> (bus_devs b);
    bus_bound := {[i]} ∪ bus_bound b; bus_g := bus_g b;
    bus_k := with_misc ({[p]} ∪ k_misc (bus_k b)) (with_heap ({[p]} ∪ k_heap (bus_k b)) (bus_k b)) |}.
Proof.
  intros [Hd Ho Hw Hm Hh Hl Hr] Hi [[Hf _] Hfm _] Ha. destruct (Hf p Ha) as [Hp _]. specialize (Hfm p Ha).
  set (b' := {| bus_driver := _ |}).
  assert (object b' i = Some p) as Oi by (unfold object; cbn [b' bus_devs]; by rewrite lookup_insert_eq).
  assert (∀ j, j ∈ bus_bound b → object b' j = object b j) as Oj.
  { intros j Hj. unfold object. cbn [b' bus_devs]. rewrite lookup_insert_ne; [done|]. intros ->. done. }
  assert (∀ q, bound_object b' q ↔ q = p ∨ bound_object b q) as Hbo.
  { intros q. unfold bound_object. cbn [b' bus_bound]. split.
    - intros (j & [->%elem_of_singleton|Hj]%elem_of_union & E); [left; congruence|]. right. exists j. by rewrite Oj in E.
    - intros [->|(j & Hj & E)]; [exists i; set_solver|]. exists j. rewrite Oj by done. set_solver. }
  assert (∀ j, j ∈ bus_bound b → object b j ≠ Some p) as Hnew.
  { intros j Hj E. apply Hp, Hh. right. by exists j. }
  split; cbn [b' bus_driver bus_bound bus_k k_misc k_heap k_regions k_cdevs with_misc with_heap]; fold b'; [done|..].
  - intros j [->%elem_of_singleton|Hj]%elem_of_union; [|rewrite Oj by done; by apply Ho].
    exists p. split; [done|]. split; intros ?; [apply Hfm, Hm; by left|apply Hp, Hh; by left].
  - intros x y q [->%elem_of_singleton|Hx]%elem_of_union [->%elem_of_singleton|Hy]%elem_of_union; [done|..];
      rewrite ?Oi, ?Oj by done; [intros [= <-] E; by destruct (Hnew y)|intros E [= <-]; by destruct (Hnew x)|by apply Hw].
  - intros q. rewrite Hbo, elem_of_union, elem_of_singleton, Hm. tauto.
  - intros q. rewrite Hbo, elem_of_union, elem_of_singleton. specialize (Hh q). tauto.
  - intros q Hn. rewrite Hbo, elem_of_union, elem_of_singleton. specialize (Hl q Hn). tauto.
  - done.
Qed.

(** A remove gives the object of the device back. *)
Lemma misc_inv_unbind b i p :
  misc_inv refuses k0 b → bus_driver b = true → i ∈ bus_bound b → object b i = Some p →
  misc_inv refuses k0 {| bus_driver := true; bus_devs := <[i := nodata i]> (bus_devs b);
    bus_bound := bus_bound b ∖ {[i]}; bus_g := bus_g b;
    bus_k := with_heap (k_heap (bus_k b) ∖ {[p]}) (with_misc (k_misc (bus_k b) ∖ {[p]}) (bus_k b)) |}.
Proof.
  intros [Hd Ho Hw Hm Hh Hl Hr] Hdr Hi Hp. destruct (Ho i Hi) as (p' & E & Hp1 & Hp2). assert (p' = p) as -> by congruence.
  set (b' := {| bus_driver := _ |}).
  assert (∀ j, j ≠ i → object b' j = object b j) as Oj by (intros j Hj; unfold object; cbn [b' bus_devs]; by rewrite lookup_insert_ne).
  assert (∀ q, bound_object b' q ↔ bound_object b q ∧ q ≠ p) as Hbo.
  { intros q. unfold bound_object. cbn [b' bus_bound]. split.
    - intros (j & [Hj Hne]%elem_of_difference & Eq). rewrite Oj in Eq by set_solver. split; [by exists j|]. intros ->.
      apply Hne. apply elem_of_singleton. by apply (Hw j i p).
    - intros [(j & Hj & Eq) Hq]. exists j. assert (j ≠ i) by congruence. rewrite Oj by done. set_solver. }
  split; cbn [b' bus_driver bus_bound bus_k k_misc k_heap k_regions k_cdevs with_misc with_heap]; fold b'; [done|..].
  - intros j Hj. rewrite Oj by set_solver. apply Ho. set_solver.
  - intros x y q Hx Hy. rewrite !Oj by set_solver. apply Hw; set_solver.
  - intros q. rewrite Hbo, elem_of_difference, elem_of_singleton, Hm. split; [tauto|]. intros [H|H]; [|tauto]. split; [tauto|]. by intros ->.
  - intros q. rewrite Hbo, elem_of_difference, elem_of_singleton. specialize (Hh q). intros [H|H]; [|tauto]. split; [tauto|]. by intros ->.
  - intros q Hn. rewrite Hbo, elem_of_difference, elem_of_singleton. specialize (Hl q Hn). tauto.
  - done.
Qed.

(** A probe whose registration is refused leaves its object allocated. *)
Lemma misc_inv_leak b i p :
  misc_inv refuses k0 b → refuses → bus_driver b = true → i ∉ bus_bound b →
  misc_inv refuses k0 {| bus_driver := true; bus_devs := <[i := nodata i]> (bus_devs b); bus_bound := bus_bound b;
    bus_g := bus_g b; bus_k := with_heap ({[p]} ∪ k_heap (bus_k b)) (bus_k b) |}.
Proof.
  intros H Hre Hdr Hi.
  assert (misc_inv refuses k0 {| bus_driver := true; bus_devs := <[i := nodata i]> (bus_devs b); bus_bound := bus_bound b;
    bus_g := bus_g b; bus_k := bus_k b |}) as [H1 H2 H3 H4 H5 H6 H7].
  { apply (misc_inv_same _ _ b); try done. intros j Hj. unfold object. cbn [bus_devs]. rewrite lookup_insert_ne; [done|congruence]. }
  split; try done. intros q Hq. apply elem_of_union_r. by apply H5.
Qed.

Lemma misc_inv_step b b' :
  bus_step gfifo_misc_driver ok b b' → misc_inv refuses k0 b → misc_inv refuses k0 b'.
Proof.
  intros Hs Hi. destruct Hs as [devs g k|devs g k|r devs bound g k i Hn|r devs bound g k i Hb
    |devs bound g k i pd a ret pd' g' k' Hd Hname Hb Hok Hh Hp|devs bound g k i pd k' Hd Hb Hr].
  - by apply (misc_inv_same _ _ _ _ Hi).
  - by apply (misc_inv_same _ _ _ _ Hi).
  - apply (misc_inv_same _ _ _ _ Hi); try done; [|apply Hi]. intros j Hj.
    destruct (mi_object _ _ _ Hi j Hj) as (p & E & _). unfold object in *. cbn [bus_devs] in *.
    rewrite lookup_insert_ne; [done|]. intros ->. by rewrite Hn in E.
  - apply (misc_inv_same _ _ _ _ Hi); try done; [|apply Hi]. intros j Hj. unfold object. cbn [bus_devs bus_bound] in *.
    rewrite lookup_delete_ne; [done|]. by intros ->.
  - cbn [drv_probe gfifo_misc_driver] in Hp. unfold gfifo_misc_probe, misc_probe in Hp.
    destruct (a_kzalloc a) as [p|] eqn:Ea; [destruct (Z.eqb_spec (a_misc a) 0) as [E|E]|]; cbn [negb] in Hp; injection Hp as <- <- <- <-.
    + exact (misc_inv_bind _ i p a (pd_id pd) Hi Hb Hh Ea).
    + destruct (Z.eqb_spec (a_misc a) 0); [done|]. apply (misc_inv_leak _ i p Hi); [by exists a, p|done|done].
    + change (- ENOMEM =? 0) with false. cbv iota. apply (misc_inv_same _ _ _ _ Hi); try done. intros j Hj.
      unfold object. cbn [bus_devs bus_bound] in *. rewrite lookup_insert_ne; [done|]. by intros ->.
  - destruct (mi_object _ _ _ Hi i Hb) as (p & E & _). cbn [drv_remove gfifo_misc_driver] in Hr.
    assert (pd_drvdata pd = Some p) as Ed by (unfold object in E; cbn [bus_devs] in E; by rewrite Hd in E).
    unfold gfifo_misc_remove, misc_remove in Hr. rewrite Ed in Hr. injection Hr as <-.
    exact (misc_inv_unbind _ i p Hi eq_refl Hb E).
Qed.

Lemma misc_inv_start g : misc_inv refuses k0 (bus_start g k0).
Proof. split; try done; unfold bound_object; cbn [bus_start bus_bound bus_k]; set_solver. Qed.
End Misc.

Lemma steps_inv {A} (R : A → A → Prop) (P : A → Prop) x y :
  (∀ x y, R x y → P x → P y) → P x → rtc R x y → P y.
Proof. intros Hs Hx. induction 1; eauto. Qed.

(** ** Theorems *)

(** C29: the misc fifo drivers on the bus.  Whatever devices come and go and however the
    probes are answered, in every order of loads and unloads: each bound device has an
    allocated object of its own and can be removed; the registered misc devices are those
    of before and the objects of the bound devices.  Once the driver is unloaded no misc
    device of it is left, and when no [misc_register] was refused the kernel is as before
    the load; a refusal is the only leak. *)
Theorem misc_drivers_lifecycle d ok g0 k0 b :
  d ∈ [gfifo_misc_driver; gfifo_misc_n_driver] → rtc (bus_step d ok) (bus_start g0 k0) b →
  removable d b ∧
  (∀ i j p, i ∈ bus_bound b → j ∈ bus_bound b → object b i = Some p → object b j = Some p → i = j) ∧
  (∀ p, p ∈ k_misc (bus_k b) ↔ p ∈ k_misc k0 ∨ bound_object b p) ∧
  (bus_driver b = false → k_misc (bus_k b) = k_misc k0 ∧ k_heap k0 ⊆ k_heap (bus_k b) ∧
     ((∀ a p, ok a → a_kzalloc a = Some p → a_misc a = 0) → bus_k b = k0)).
Proof.
  intros Hd Hr. assert (d = gfifo_misc_driver) as ->.
  { rewrite !elem_of_cons in Hd. destruct Hd as [->|[->|?%elem_of_nil]]; done. }
  pose proof (steps_inv _ (misc_inv (refuses ok) k0) _ _ (misc_inv_step ok k0) (misc_inv_start ok k0 g0) Hr) as [Hf Ho Hw Hm Hh Hl [R1 R2]].
  split_and!; [|done..|].
  - intros i Hi. destruct (Ho i Hi) as (p & E & _). unfold object in E. destruct (bus_devs b !! i) as [pd|]; [|done].
    cbn [mbind option_bind] in E. eexists pd, _. split; [done|]. cbn [drv_remove gfifo_misc_driver].
    unfold gfifo_misc_remove, misc_remove. by rewrite E.
  - intros Hu. specialize (Hf Hu). assert (∀ p, ¬ bound_object b p) as Hn by (intros p (i & Hi & _); rewrite Hf in Hi; set_solver).
    assert (k_misc (bus_k b) = k_misc k0) as Em by (apply set_eq; intros p; rewrite Hm; specialize (Hn p); tauto).
    split_and!; [done| |]. { intros p Hp. apply Hh. by left. }
    intros Hok. apply kstate_eq; [done| |done|done]. apply set_eq. intros p. split; [|intros; apply Hh; by left].
    intros Hp. destruct (Hl p) as [?|?]; [|done|done|by destruct (Hn p)]. intros (a & q & Ha & Eq & Hne). by apply Hne, (Hok a q).
Qed.

(** C30: gfifo_platform on the bus.  The driver keeps one global device; whatever devices of
    its name exist, also those of the other fifo modules, which have the same name, at most
    one is bound at any time, since a second probe meets the device numbers of the first;
    it can be removed, and whenever none is bound, in particular after the unload, the
    kernel is as before the load. *)
Theorem platform_driver_single ok g0 k0 b :
  rtc (bus_step gfifo_platform_driver ok) (bus_start g0 k0) b →
  (∀ i j, i ∈ bus_bound b → j ∈ bus_bound b → i = j) ∧ removable gfifo_platform_driver b ∧
  (bus_bound b = ∅ → bus_k b = k0) ∧ (bus_driver b = false → bus_k b = k0).
Proof.
  intros Hr. assert (platform_inv k0 (bus_start g0 k0)) as H0 by by left.
  pose proof (steps_inv _ (platform_inv k0) _ _ (platform_inv_step ok k0) H0 Hr) as [[Hb Hk]|(i & Hb & Hd & [pd Hi] & He & _)].
  - unfold removable. rewrite Hb, Hk. set_solver.
  - unfold removable. rewrite Hb, Hd. split_and!; [set_solver| |set_solver|done].
    intros j ->%elem_of_singleton. exists pd, k0. done.
Qed.

(** ** Runs *)

Definition no_globals : globals := {| g_major := 231; g_devp := None |}.
Definition fifo_dev : key := (str "gfifo", -1).


Section Run.
Context (d : platform_driver) (g g' : globals) (k k' k'' : kstate) (a : answers) (pd : pdevice).
Hypotheses (Hname : drv_name d = str "gfifo") (Ha : handed a g k)
  (Hp : drv_probe d a (nodata fifo_dev) g k = (0, pd, g', k')) (Hr : drv_remove d pd g' k' = Some k'').

(** After the load and a probe that binds; after a remove and the unload. *)
Definition run_bound : bus :=
  {| bus_driver := true; bus_devs := <[fifo_dev := pd]> (<[fifo_dev := nodata fifo_dev]> ∅);
     bus_bound := {[fifo_dev]} ∪ ∅; bus_g := g'; bus_k := k' |}.
Definition run_unloaded : bus :=
  {| bus_driver := false; bus_devs := <[fifo_dev := nodata fifo_dev]> (<[fifo_dev := pd]> (<[fifo_dev := nodata fifo_dev]> ∅));
     bus_bound := ∅; bus_g := g'; bus_k := k'' |}.

Lemma run_to_bound : rtc (bus_step d (a =.)) (bus_start g k) run_bound.
Proof.
  eapply rtc_l; [apply platform_driver_register|]. eapply rtc_l; [apply (platform_device_add _ _ _ _ _ _ _ fifo_dev); done|].
  apply rtc_once. apply (bus_probe d (a =.) _ ∅ g k fifo_dev (nodata fifo_dev) a 0); done.
Qed.

Lemma run_to_unloaded : rtc (bus_step d (a =.)) (bus_start g k) run_unloaded.
Proof.
  eapply rtc_r; [|apply platform_driver_unregister]. eapply rtc_r; [exact run_to_bound|].
  replace (∅ : gset key) with (({[fifo_dev]} ∪ ∅) ∖ {[fifo_dev]} : gset key) by set_solver.
  apply (bus_remove d (a =.) _ _ g' k' fifo_dev pd k''); [by rewrite lookup_insert_eq|set_solver|done].
Qed.
End Run.

Lemma demo_handed : handed (demo_answers 0 0) no_globals demo_kernel.
Proof.
  split; [split|..]; cbn.
  - intros p [= <-]. split; [by apply (bool_decide_unpack _)|]. intros i. rewrite elem_of_singleton. congruence.
  - intros _. by apply (bool_decide_unpack _).
  - intros p _. set_solver.
  - lia.
Qed.

(** A device bound to gfifo_misc_n. *)
Lemma misc_drivers_lifecycle_witness :
  let a := demo_answers 0 0 in
  let r := gfifo_misc_n_probe a (nodata fifo_dev) demo_kernel in
  let b := run_bound no_globals r.1.2 r.1.1.2 in
  r.1.1.1 = 0 ∧ object b fifo_dev = Some 500 ∧ 500 ∈ k_misc (bus_k b) ∧ removable gfifo_misc_n_driver b.
Proof.
  intros a r b. split_and!; [reflexivity|reflexivity|by apply (bool_decide_unpack _)|].
  apply (misc_drivers_lifecycle gfifo_misc_n_driver (a =.) no_globals demo_kernel b); [set_solver|].
  by apply run_to_bound; [|exact demo_handed|].
Defined.

(** gfifo_platform, loaded, bound, removed and unloaded. *)
Lemma platform_driver_single_witness :
  let a := demo_answers 0 0 in
  let r := gfifo_platform_probe a no_globals demo_kernel in
  ∃ k'', gfifo_platform_remove r.1.2 r.2 = Some k'' ∧ r.2 ≠ demo_kernel ∧
    bus_k (run_unloaded r.1.2 k'' (nodata fifo_dev)) = demo_kernel.
Proof.
  intros a r. eexists. split; [reflexivity|]. split; [intros E%(f_equal (λ k, bool_decide (500 ∈ k_heap k))); vm_compute in E; discriminate|].
  eapply (platform_driver_single (a =.) no_globals demo_kernel); [|reflexivity].
  apply (run_to_unloaded gfifo_platform_driver no_globals r.1.2 demo_kernel r.2); [done|exact demo_handed|reflexivity|reflexivity].
Defined.
