(* ===== verification/RelaySystem.v ===== *)
(** * The network relay as a whole

    The program of netrelay put together: [main] attaches the filter of the relay to the
    network socket, the kernel runs it on every packet of the wire, and the thread from the
    network to the service forwards what is left.  The theorems say which packets of the
    wire come out at the service, and how. *)

From S2P Require Import Prelude KernelApi Bpf Netrelay.

(** ** The network socket *)

(** A packet socket with a filter: the verdict 0 drops a packet, another is the number of
    bytes of it that are kept.  The kernel refuses to attach a program without a verdict. *)
Definition socket_filter (flt : option (list sock_filter)) (f : list Z) : option (list Z) :=
  match flt with
  | None => Some f
  | Some prog => v ← bpf_run prog f; if v =? 0 then None else Some (take (Z.to_nat v) f)
  end.

(** What the reads of the thread answer when [rds] comes from the wire. *)
Definition socket_reads (flt : option (list sock_filter)) (rds : list read_res) : list read_res :=
  omap (λ r, match r with RdPacket f => RdPacket <$> socket_filter flt f | _ => Some r end) rds.

(** ** A thread *)

(** [forward_packet_from_to] from its start: the buffer, without which the program exits,
    then the loop. *)
Definition relay_thread (pkg : custom_packet_func) (priv : Z) (alloc_buf : bool) (alloc_base : option (list Z))
    (rds : list read_res) (ws : list write_res) : run (bool * list (list Z)) :=
  match bufferInit alloc_buf alloc_base with
  | None => mret (false, [])
  | Some b => forward_packet_from_to pkg priv rds ws b []
  end.

(** ** What gets through *)

#[export] Instance option_exists_dec {A} (o : option A) (P : A → Prop) `{∀ x, Decision (P x)} :
  Decision (∃ x, o = Some x ∧ P x).
Proof.
  refine (match o with Some x => if decide (P x) then left _ else right _ | None => right _ end);
    [by exists x|by intros (y & [= <-] & ?)|by intros (y & ? & _)].
Defined.
#[export] Instance dhcp_reply_dec f : Decision (dhcp_reply f).
Proof. unfold dhcp_reply. cbn zeta. apply _. Defined.
#[export] Instance eoe_data_dec f : Decision (eoe_data f).
Proof. unfold eoe_data. apply _. Defined.

(** A filter that lets exactly the packets of [P] through, cut to [n] bytes. *)
Section Filtered.
Context (prog : list sock_filter) (P : list Z → Prop) `{∀ f, Decision (P f)} (n : Z) (Hn : n ≠ 0).
Hypothesis Hv : ∀ f, (P f → bpf_run prog f = Some n) ∧ (¬ P f → bpf_run prog f = Some 0).

Lemma socket_filter_spec f : socket_filter (Some prog) f = if decide (P f) then Some (take (Z.to_nat n) f) else None.
Proof using Hn Hv.
  unfold socket_filter. destruct (Hv f) as [H1 H2]. destruct (decide (P f)) as [Hp|Hp].
  - rewrite (H1 Hp). cbn [mbind option_bind]. by apply Z.eqb_neq in Hn as ->.
  - by rewrite (H2 Hp).
Qed.

Lemma frames_filtered rds :
  frames (socket_reads (Some prog) rds) = take (Z.to_nat n) <$> filter P (frames rds).
Proof using Hn Hv.
  unfold frames, socket_reads. induction rds as [|r rds IH]; [done|]. destruct r as [f| |]; [|exact IH..].
  cbn [omap list_omap]. rewrite socket_filter_spec, filter_cons. destruct (decide (P f)); cbn; by rewrite <- IH.
Qed.
End Filtered.

(** A frame of a wire: bytes, no more than a frame has. *)
Definition on_wire (f : list Z) : Prop := Z.of_nat (length f) <= IP_MAXPACKET ∧ Forall (λ c, 0 <= c < 256) f.

Lemma pkt_inside f off n v : pkt f off n = Some v → off + n <= Z.of_nat (length f).
Proof. unfold pkt, load_bytes. intros H. destruct (_ && _) eqn:E; [|done]. bool_to_prop. lia. Qed.

Lemma dhcp_frames flt rds :
  flt = dhcp_packetFilter → Forall on_wire (frames rds) →
  frames (socket_reads (Some flt) rds) = filter dhcp_reply (frames rds) ∧ Forall ethernet (filter dhcp_reply (frames rds)).
Proof.
  intros -> Hw. rewrite (frames_filtered dhcp_packetFilter dhcp_reply 0x40000) by (done || apply dhcp_verdict).
  assert (Forall ethernet (filter dhcp_reply (frames rds))) as He.
  { apply Forall_forall. intros f [Hr Hf]%list_elem_of_filter. rewrite Forall_forall in Hw. destruct (Hw f Hf) as [Hl Hb].
    destruct Hr as (_ & _ & H16%pkt_inside & _). split; [lia|done]. }
  split; [|done]. rewrite <- (list_fmap_id (filter _ _)) at 2. apply list_fmap_ext. intros i f Hf%list_elem_of_lookup_2.
  rewrite Forall_forall in He. destruct (He f Hf) as [[_ Hl] _]. unfold IP_MAXPACKET in Hl. rewrite take_ge; [done|lia].
Qed.

Lemma eoe_frames flt rds :
  flt = eoe_packetFilter →
  frames (socket_reads (Some flt) rds) = take (Z.to_nat IP_MAXPACKET) <$> filter eoe_data (frames rds) ∧
  Forall to_decap (take (Z.to_nat IP_MAXPACKET) <$> filter eoe_data (frames rds)).
Proof.
  intros ->. rewrite (frames_filtered eoe_packetFilter eoe_data 0xffff) by (done || apply eoe_filter_accepts).
  split; [done|]. apply Forall_fmap, Forall_forall. intros f [(_ & t & H38%pkt_inside & _) _]%list_elem_of_filter.
  unfold compose, to_decap, EOE_HEADER_SIZE, IP_MAXPACKET. rewrite length_take. lia.
Qed.

(** ** Theorems *)

(** C12: the DHCP relay started with [-F], from the wire to the service.  Of all frames that
    arrive at the network interface, runts and fragments included, the thread sends on
    exactly the DHCP answers, in order; when [-V] was among the options each goes with its
    VLAN changed from the OAM to the DHCP VLAN, and otherwise unchanged, however the reads
    and writes are interrupted and the writes split. *)
Theorem dhcp_relay_end_to_end big opts net srv so pc info flt a1 a2 m rds ws :
  let edit := dhcp_spec (if decide (86 ∈ opts.*1) then NET_TO_SERVICE else 0) in
  dhcp_main big opts net srv so pc = Done (Forwarding info flt a1 a2) → 70 ∈ opts.*1 →
  Z.of_nat (length m) = pf_size (ri_pkg info) (la_priv a2) →
  Forall on_wire (frames rds) → lets_through edit (socket_reads flt rds) ws →
  relay_thread (ri_pkg info) (la_priv a2) true (Some m) (socket_reads flt rds) ws =
    Done (true, edit <$> filter dhcp_reply (frames rds)).
Proof.
  intros edit Hs HF Hm Hw Hl. destruct (dhcp_start_options _ _ _ _ _ _ _ _ _ _ Hs) as (-> & Hflt & _ & Hp).
  rewrite decide_True in Hflt by done. rewrite Hflt in *.
  destruct (dhcp_frames _ rds eq_refl Hw) as [Hf He]. cbn [ri_pkg dhcp_info] in *.
  unfold edit in *. rewrite <- Hp in *. rewrite <- Hf in He |- *. unfold relay_thread. cbn [bufferInit negb].
  by apply (forward_all _ _ _ _ (dhcp_law big (la_priv a2)) _ ws _ []).
Qed.

(** C18: the EoE relay started with [-F], from the wire to the service.  Whatever arrives at
    the network interface, the thread sends on the inner frames of exactly the EoE data
    packets, in order, and never leaves its buffer: the filter only passes packets long
    enough to hold the EoE header, on which the unfiltered relay fails. *)
Theorem eoe_relay_end_to_end big opts net srv so pc info flt a1 a2 m rds ws :
  eoe_main big opts net srv so pc = Done (Forwarding info (Some flt) a1 a2) →
  Z.of_nat (length m) = pf_size (ri_pkg info) (la_priv a2) →
  lets_through eoe_decap (socket_reads (Some flt) rds) ws →
  relay_thread (ri_pkg info) (la_priv a2) true (Some m) (socket_reads (Some flt) rds) ws =
    Done (true, (λ f, eoe_decap (take (Z.to_nat IP_MAXPACKET) f)) <$> filter eoe_data (frames rds)).
Proof.
  intros Hs Hm Hl. destruct (relay_start big opts net srv so pc) as [(r & Er & H) _]. rewrite Hs in Er. injection Er as <-.
  destruct (H _ _ _ _ eq_refl) as (-> & _ & _ & _ & Hp & [[=]|[= Hflt]]). destruct (eoe_frames flt rds Hflt) as [Hf He].
  rewrite Hp in *. cbn [ri_pkg eoe_info] in *. rewrite (list_fmap_compose (take (Z.to_nat IP_MAXPACKET)) eoe_decap). rewrite <- Hf in He |- *.
  unfold relay_thread. cbn [bufferInit negb].
  by apply (forward_all _ _ _ _ (eoe_del_law big) _ ws _ []).
Qed.

(** ** Runs *)

(** A kernel that grants everything, and the two command lines. *)
Definition demo_net (fd : Z) : net_kernel :=
  {| nk_socket := fd; nk_ifindex := λ _, Some 2; nk_hwaddr := λ _, Some [2; 0; 0; 0; 0; fd]; nk_flags := λ _, Some 0x1043;
     nk_set_flags := λ _ _, true; nk_bind := λ _ _ _, true; nk_open_tun := fd; nk_tunsetiff := λ _ _, true |}.
Definition demo_options (relay : Z) : list (Z * list Z) :=
  [(110, [101; 48]); (116, [116; 48]); (relay, []); (70, [])]. (* -n e0 -t t0 -V -F, or -E *)
Definition demo_loops : loop_args * loop_args :=
  ({| la_from := 4; la_to := 3; la_priv := SERVICE_TO_NET |}, {| la_from := 3; la_to := 4; la_priv := NET_TO_SERVICE |}).

(** A runt, a DHCP answer on VLAN 5 and one on VLAN 4094 arrive; the first write is cut
    short and the second interrupted. *)
Definition demo_wire : list read_res :=
  [RdPacket [1; 2; 3]; RdRetry; RdPacket (tagged (zeros 12) [0; 5] demo_reply);
   RdPacket (tagged (zeros 12) [15; 254] demo_reply)].

Lemma demo_on_wire : Forall on_wire (frames demo_wire).
Proof. repeat (constructor; [split; [by vm_compute|by repeat (constructor; [by vm_compute|])]|]). constructor. Qed.

Lemma demo_reads :
  socket_reads (Some dhcp_packetFilter) demo_wire = [RdRetry; RdPacket (tagged (zeros 12) [0; 5] demo_reply)].
Proof. by vm_compute. Qed.

Lemma dhcp_relay_end_to_end_witness :
  dhcp_main false (demo_options 86) (demo_net 3) (demo_net 4) (λ _, 0) 0 =
    Done (Forwarding (dhcp_info false) (Some dhcp_packetFilter) demo_loops.1 demo_loops.2) ∧
  relay_thread (ri_pkg (dhcp_info false)) (la_priv demo_loops.2) true (Some (zeros (Z.to_nat IP_MAXPACKET)))
    (socket_reads (Some dhcp_packetFilter) demo_wire) [WrOk 40; WrRetry; WrOk 6] =
    Done (true, [tagged (zeros 12) [0; 4] demo_reply]).
Proof.
  split; [reflexivity|].
  pose proof (dhcp_relay_end_to_end false (demo_options 86) (demo_net 3) (demo_net 4) (λ _, 0) 0 (dhcp_info false)
    (Some dhcp_packetFilter) demo_loops.1 demo_loops.2 (zeros (Z.to_nat IP_MAXPACKET)) demo_wire [WrOk 40; WrRetry; WrOk 6]) as H.
  rewrite H; [by vm_compute|reflexivity|by apply (bool_decide_unpack _); vm_compute
    |by rewrite length_zeros, Z2Nat.id|exact demo_on_wire|].
  rewrite demo_reads. exists []. split; [by vm_compute|exact I].
Defined.

(** A runt that would make the unfiltered relay fail, and an EoE data packet. *)
Definition demo_eoe_data : list Z := zeros 18 ++ [0x10] ++ zeros 19 ++ [0x08; 0x00; 7].

Lemma demo_eoe_reads :
  socket_reads (Some eoe_packetFilter) [RdPacket [1; 2; 3]; RdPacket demo_eoe_data] = [RdPacket demo_eoe_data].
Proof. by vm_compute. Qed.

Lemma eoe_relay_end_to_end_witness :
  eoe_main true (demo_options 69) (demo_net 3) (demo_net 4) (λ _, 0) 0 =
    Done (Forwarding (eoe_info true) (Some eoe_packetFilter) demo_loops.1 demo_loops.2) ∧
  relay_thread (ri_pkg (eoe_info true)) (la_priv demo_loops.2) true (Some (zeros (Z.to_nat (IP_MAXPACKET + EOE_HEADER_SIZE))))
    (socket_reads (Some eoe_packetFilter) [RdPacket [1; 2; 3]; RdPacket demo_eoe_data]) [WrOk 19] =
    Done (true, [drop 22 demo_eoe_data]).
Proof.
  split; [reflexivity|].
  pose proof (eoe_relay_end_to_end true (demo_options 69) (demo_net 3) (demo_net 4) (λ _, 0) 0 (eoe_info true)
    eoe_packetFilter demo_loops.1 demo_loops.2 (zeros (Z.to_nat (IP_MAXPACKET + EOE_HEADER_SIZE)))
    [RdPacket [1; 2; 3]; RdPacket demo_eoe_data] [WrOk 19]) as H.
  rewrite H; [by vm_compute|reflexivity|by rewrite length_zeros, Z2Nat.id|].
  rewrite demo_eoe_reads. exists []. split; [by vm_compute|exact I].
Defined.
